(** * Cognitive training mini-games: scoring, persistence and session machines

    A shallow embedding of the TypeScript sources (React components and the
    storage / scoring helpers) together with the properties stated for them.

    Conventions of the embedding.
    - JavaScript numbers that only ever hold integers (scores, counters,
      indices, rounded reaction times) are [Z].  Numbers that can be
      fractional (quotients before [Math.round], the grid timer that counts
      tenths of a second, [performance.now()] time stamps) are rationals [Q].
      Where the rounding of a double decides the outcome (the percentage of
      [normalizeScore], the spoke of the radar chart) the operation is
      rounded with [double]; elsewhere a quotient is exact.
    - A React component is a record of its [useState] cells and [useRef]
      cells; an event handler is a function from the record to the record.
      A [setTimeout] is recorded in the state as a pending callback, and the
      firing of the timer is an event of its own.
    - [onComplete] is a log: every invocation appends the score it passes. *)

From Stdlib Require Import ZArith QArith Qround Qpower Lia Lqa.
From Stdlib Require Floats.SpecFloat.
From stdpp Require Import base list gmap.

Open Scope Z_scope.

(** ** types.ts *)

Inductive GameId :=
| memory | schulte | stroop | wordSort | pathMemory
| reaction | digitSpan | arithmetic | patternReason.

Inductive Difficulty := easy | normal | hard.

#[global] Instance GameId_eq_dec : EqDecision GameId.
Proof. solve_decision. Defined.

#[global] Instance Difficulty_eq_dec : EqDecision Difficulty.
Proof. solve_decision. Defined.

Definition GameId_index (g : GameId) : nat :=
  match g with
  | memory => 0 | schulte => 1 | stroop => 2 | wordSort => 3
  | pathMemory => 4 | reaction => 5 | digitSpan => 6 | arithmetic => 7
  | patternReason => 8
  end%nat.

(** The [id] fields of the [GAMES] table, in the order of the table. *)
Definition GAMES : list GameId :=
  [memory; schulte; stroop; wordSort; pathMemory;
   reaction; digitSpan; arithmetic; patternReason].

#[global] Program Instance GameId_countable : Countable GameId :=
  inj_countable' GameId_index (fun n => nth n GAMES memory) _.
Next Obligation. by intros []. Qed.

Definition MAX_SCORES (g : GameId) (d : Difficulty) : Z :=
  match g, d with
  | memory, easy => 300 | memory, normal => 600 | memory, hard => 920
  | schulte, _ => 800
  | stroop, easy => 600 | stroop, _ => 800
  | wordSort, easy => 400 | wordSort, normal => 600 | wordSort, hard => 800
  | pathMemory, easy => 1050 | pathMemory, normal => 2250
  | pathMemory, hard => 2450
  | reaction, _ => 800
  | digitSpan, easy => 600 | digitSpan, normal => 1200
  | digitSpan, hard => 2000
  | arithmetic, easy => 500 | arithmetic, normal => 800
  | arithmetic, hard => 1000
  | patternReason, easy => 500 | patternReason, normal => 800
  | patternReason, hard => 1000
  end.

(** ** JavaScript arithmetic *)

(** [Math.round]: the nearest integer, ties towards plus infinity. *)
Definition Math_round (x : Q) : Z := Qfloor (x + (1 # 2)).

(** [n / d] rounded to the nearest integer (ties up), on integers only. *)
Definition round_half_up (n d : Z) : Z := (2 * n + d) / (2 * d).

(** *** Doubles

    A JavaScript number is an IEEE 754 binary64 value: a significand of 53
    bits times a power of two.  An arithmetic operation returns the double
    nearest to the exact result, the one with the even significand when two
    are equally near.  [double x] is that double for the real number [x],
    so that [a / b] of the language is [double (a / b)] and [a * b] is
    [double (a * b)].  Zero has no sign here, and the exponent is not
    bounded: a result below 2^-1022 or from 2^1024 on in absolute value,
    which the integers of this program never give, is outside the model. *)

(** The integer nearest to [x], ties to the even one. *)
Definition roundNE (x : Q) : Z :=
  let q := Qfloor x in
  match (x - inject_Z q ?= 1 # 2)%Q with
  | Lt => q
  | Gt => q + 1
  | Eq => if Z.even q then q else q + 1
  end.

(** The exponent [e] with [2 ^ e <= x < 2 ^ (e + 1)], for a positive [x]. *)
Definition binade (x : Q) : Z :=
  let c := Z.log2 (Qnum x) - Z.log2 (Z.pos (Qden x)) in
  if Qle_bool (2 ^ c) x then c else c - 1.

(** A positive [x] rounded to 53 significant bits. *)
Definition doublePos (x : Q) : Q :=
  let ulp := (2 ^ (binade x - 52))%Q in
  (inject_Z (roundNE (x / ulp)) * ulp)%Q.

Definition double (x : Q) : Q :=
  match (x ?= 0)%Q with
  | Eq => 0%Q
  | Gt => doublePos x
  | Lt => (- doublePos (- x))%Q
  end.

(** The same operations on the binary64 format as the Standard Library
    specifies it bit by bit ([SpecFloat], taken from Flocq): the reference
    that [double] is checked against. *)
Module Binary64.

Definition ofZ (z : Z) : SpecFloat.spec_float :=
  SpecFloat.binary_normalize 53 1024 z 0 false.

Definition div (x y : SpecFloat.spec_float) : SpecFloat.spec_float :=
  SpecFloat.SFdiv 53 1024 x y.

Definition mul (x y : SpecFloat.spec_float) : SpecFloat.spec_float :=
  SpecFloat.SFmul 53 1024 x y.

(** The number that a finite value stands for; [None] for an infinity or a
    NaN. *)
Definition toQ (f : SpecFloat.spec_float) : option Q :=
  match f with
  | SpecFloat.S754_zero _ => Some 0%Q
  | SpecFloat.S754_finite s m e =>
      Some ((if s then - inject_Z (Z.pos m) else inject_Z (Z.pos m))
            * 2 ^ e)%Q
  | _ => None
  end.

End Binary64.

Definition Qltb (x y : Q) : bool := negb (Qle_bool y x).

Definition sumZ (l : list Z) : Z := foldr Z.add 0 l.

(** ** [Math.random]

    The draws of a run form a stream: [rand k] is what call number [k]
    returns.  A function that draws is given the number of its first
    draw. *)

(** What the language promises of the draws: each lies in [0, 1). *)
Definition validDraws (rand : nat -> Q) : Prop :=
  forall k : nat, (0 <= rand k)%Q /\ (rand k < 1)%Q.

(** [Math.floor(Math.random() * n)] for the draw [u]. *)
Definition randomBelow (u : Q) (n : Z) : Z := Qfloor (u * inject_Z n).

(** A stream that starts with the draws [l]; 0 ever after. *)
Definition draws (l : list Q) : nat -> Q := fun k => nth k l 0%Q.

(** [[arr[i], arr[j]] = [arr[j], arr[i]]].  Both indices are within the
    array whenever the draw that gave [j] is below 1; an index outside it
    (no such draw exists) leaves the array as it is here. *)
Definition swap {A} (i j : nat) (arr : list A) : list A :=
  match arr !! i, arr !! j with
  | Some x, Some y => <[j := x]> (<[i := y]> arr)
  | _, _ => arr
  end.

(** The loop [for (let i = arr.length - 1; i > 0; i--)] of the shuffles,
    entered at [i]. *)
Fixpoint shuffleLoop {A} (rand : nat -> Q) (k : nat) (i : nat)
  (arr : list A) : list A :=
  match i with
  | O => arr
  | S i' =>
      let j := Z.to_nat (randomBelow (rand k) (Z.of_nat i + 1)) in
      shuffleLoop rand (S k) i' (swap i j arr)
  end.

(** [shuffle] of MemoryMatch, StroopTest, WordSort and PatternReason,
    [shuffleArray] of SchulteGrid and ArithmeticChallenge: the same body.
    It makes [array.length - 1] draws. *)
Definition shuffle {A} (rand : nat -> Q) (k : nat) (array : list A)
  : list A :=
  shuffleLoop rand k (length array - 1) array.

(** ** utils/storage.ts *)

Module Storage.

Record TrainingRecord := {
  gameId : GameId;
  difficulty : Difficulty;
  score : Z;
  timestamp : Z
}.

(** The two keys of [localStorage] that the program uses.  [None] is a key
    that is absent (or holds text [JSON.parse] rejects); a best-score object
    is a finite map in which an absent id stands for [null]. *)
Record LocalStorage := {
  cogpark_best_scores : option (gmap GameId Z);
  cogpark_records : option (list TrainingRecord)
}.

Definition loadBestScores (st : LocalStorage) : gmap GameId Z :=
  match cogpark_best_scores st with
  | Some data => data
  | None => ∅
  end.

Definition saveBestScore (g : GameId) (sc : Z) (st : LocalStorage)
  : LocalStorage :=
  let best := loadBestScores st in
  let write :=
    {| cogpark_best_scores := Some (<[g := sc]> best);
       cogpark_records := cogpark_records st |} in
  match best !! g with
  | None => write
  | Some old => if old <? sc then write else st
  end.

Definition loadRecords (st : LocalStorage) : list TrainingRecord :=
  match cogpark_records st with
  | Some data => data
  | None => []
  end.

(** [now] is the value of [Date.now()] at the call. *)
Definition saveRecord (g : GameId) (d : Difficulty) (sc now : Z)
  (st : LocalStorage) : LocalStorage :=
  let records :=
    loadRecords st ++
    [{| gameId := g; difficulty := d; score := sc; timestamp := now |}] in
  let records :=
    if (200 <? length records)%nat
    then drop (length records - 200) records
    else records in
  {| cogpark_best_scores := cogpark_best_scores st;
     cogpark_records := Some records |}.

Definition clearRecords (st : LocalStorage) : LocalStorage :=
  {| cogpark_best_scores := None; cogpark_records := None |}.

(** A sequence of [saveRecord] calls, oldest first. *)
Definition saveRecords (rs : list TrainingRecord) (st : LocalStorage)
  : LocalStorage :=
  foldl (fun acc r =>
           saveRecord (gameId r) (difficulty r) (score r) (timestamp r) acc)
        st rs.

Definition getGameRecords (g : GameId) (st : LocalStorage)
  : list TrainingRecord :=
  filter (fun r => gameId r = g) (loadRecords st).

(** [startOfDay] is the local midnight that [setHours(0, 0, 0, 0)] yields
    at the call, in milliseconds. *)
Definition getTodayCount (startOfDay : Z) (st : LocalStorage) : nat :=
  length (filter (fun r => startOfDay <= timestamp r) (loadRecords st)).

(** A sequence of [saveBestScore] calls for one game, oldest first. *)
Definition saveBestScores (g : GameId) (scs : list Z) (st : LocalStorage)
  : LocalStorage :=
  foldl (fun acc sc => saveBestScore g sc acc) st scs.

End Storage.

(** ** utils/scoring.ts *)

Module Scoring.

(** [(rawScore / max) * 100]: a division and a multiplication of doubles,
    each rounded. *)
Definition percent (max rawScore : Z) : Q :=
  double (double (inject_Z rawScore / inject_Z max) * 100).

(** The body of [normalizeScore] once [max] has been read from the table. *)
Definition normalizeWith (max rawScore : Z) : Z :=
  Z.min 100 (Math_round (percent max rawScore)).

(** [percent] on the binary64 specification of the Standard Library. *)
Definition percentBinary64 (max rawScore : Z) : SpecFloat.spec_float :=
  Binary64.mul (Binary64.div (Binary64.ofZ rawScore) (Binary64.ofZ max))
    (Binary64.ofZ 100).

(** The maxima that occur in [MAX_SCORES]. *)
Definition tableMaxima : list Z :=
  [300; 400; 500; 600; 800; 920; 1000; 1050; 1200; 2000; 2250; 2450].

Definition normalizeScore (g : GameId) (d : Difficulty) (rawScore : Z) : Z :=
  normalizeWith (MAX_SCORES g d) rawScore.

Inductive Rating := TopTier | SecondTier | ThirdTier | BaselineTier.

Definition getRating (avg : Z) : Rating :=
  if 90 <=? avg then TopTier
  else if 70 <=? avg then SecondTier
  else if 50 <=? avg then ThirdTier
  else BaselineTier.

(** The tiers from the lowest to the highest. *)
Definition rank (r : Rating) : Z :=
  match r with
  | BaselineTier => 0
  | ThirdTier => 1
  | SecondTier => 2
  | TopTier => 3
  end.

(** The normalisation as the specification words it:
    [min(100, round(raw / max * 100))]. *)
Definition normalize (raw max : Z) : Z :=
  Z.min 100 (round_half_up (100 * raw) max).

End Scoring.

(** ** components/ResultPage.tsx and the score table of App.tsx *)

Module ResultPage.
Import Scoring.

Definition playedGames (scores : gmap GameId Z) : list GameId :=
  filter (fun g => is_Some (scores !! g)) GAMES.

Definition average (scores : gmap GameId Z) : Z :=
  let played := playedGames scores in
  if (0 <? length played)%nat
  then Math_round
         (inject_Z
            (foldl (fun sum g =>
                      sum + normalizeScore g normal (scores !!! g))
                   0 played)
          / inject_Z (Z.of_nat (length played)))
  else 0.

(** The normalised scores of the games that have a score, read off the
    score object itself rather than off the [GAMES] table. *)
Definition normalizedPlayed (scores : gmap GameId Z) : list Z :=
  (fun kv => normalizeScore (fst kv) normal (snd kv)) <$>
  map_to_list scores.

(** The object handed to the radar chart: a game without a score counts
    as 0. *)
Definition normalizedScores (scores : gmap GameId Z) (g : GameId) : Z :=
  match scores !! g with
  | Some v => normalizeScore g normal v
  | None => 0
  end.

Definition rating (scores : gmap GameId Z) : Rating :=
  getRating (average scores).

End ResultPage.

Module App.

Record State := {
  difficulty : Difficulty;
  scores : gmap GameId Z;
  storage : Storage.LocalStorage
}.

Definition startGame (diff : Difficulty) (s : State) : State :=
  {| difficulty := diff; scores := scores s; storage := storage s |}.

Definition finishGame (g : GameId) (sc now : Z) (s : State) : State :=
  {| difficulty := difficulty s;
     scores := <[g := sc]> (scores s);
     storage :=
       Storage.saveRecord g (difficulty s) sc now
         (Storage.saveBestScore g sc (storage s)) |}.

End App.

(** ** games/SchulteGrid.tsx *)

Module SchulteGrid.

Record Settings := { size : Z; targetTime : Z }.

Definition SETTINGS (d : Difficulty) : Settings :=
  match d with
  | easy => {| size := 3; targetTime := 20 |}
  | normal => {| size := 4; targetTime := 30 |}
  | hard => {| size := 5; targetTime := 50 |}
  end.

(** [elapsed] is in seconds and can be fractional. *)
Definition calculateScore (elapsed : Q) (errors targetTime : Z) : Z :=
  let base := 500 in
  let timeBonus :=
    if Qle_bool elapsed (inject_Z targetTime) then 300
    else if Qle_bool elapsed (inject_Z targetTime * (3 # 2)) then 200
    else if Qle_bool elapsed (inject_Z targetTime * 2) then 100
    else 0 in
  let errorPenalty := errors * 20 in
  Z.max 0 (base + timeBonus - errorPenalty).

(** One tick of the 100 ms interval: [Math.round((prev + 0.1) * 10) / 10]. *)
Definition nextTick (prev : Q) : Q :=
  inject_Z (Math_round ((prev + (1 # 10)) * 10)) / 10.

Record State := {
  numbers : list Z;
  nextNumber : Z;
  completed : gset Z;
  errors : Z;
  elapsed : Q;
  started : bool;
  errorCell : option nat;
  errorTimerRef : bool;      (* an error-flash timeout is pending *)
  finishedRef : bool;
  deferred : list Z;         (* pending [setTimeout(() => onComplete(score), 0)] *)
  onComplete : list Z
}.

(** The component right after mounting; [nums] is [generateNumbers(size)]. *)
Definition init (nums : list Z) : State :=
  {| numbers := nums; nextNumber := 1; completed := ∅; errors := 0;
     elapsed := 0; started := false; errorCell := None;
     errorTimerRef := false; finishedRef := false; deferred := [];
     onComplete := [] |}.

Definition handleCellClick (d : Difficulty) (index : nat) (s : State)
  : State :=
  let total := size (SETTINGS d) * size (SETTINGS d) in
  if finishedRef s then s
  else
    match numbers s !! index with
    | Some clickedNumber =>
        if decide (clickedNumber ∈ completed s) then s
        else if clickedNumber =? nextNumber s then
          let newNext := nextNumber s + 1 in
          if total <? newNext then
            let finalElapsed := nextTick (elapsed s) in
            let score :=
              calculateScore finalElapsed (errors s)
                (targetTime (SETTINGS d)) in
            {| numbers := numbers s; nextNumber := newNext;
               completed := {[clickedNumber]} ∪ completed s;
               errors := errors s; elapsed := finalElapsed;
               started := true; errorCell := errorCell s;
               errorTimerRef := errorTimerRef s; finishedRef := true;
               deferred := deferred s ++ [score];
               onComplete := onComplete s |}
          else
            {| numbers := numbers s; nextNumber := newNext;
               completed := {[clickedNumber]} ∪ completed s;
               errors := errors s; elapsed := elapsed s;
               started := true; errorCell := errorCell s;
               errorTimerRef := errorTimerRef s;
               finishedRef := finishedRef s;
               deferred := deferred s; onComplete := onComplete s |}
        else
          {| numbers := numbers s; nextNumber := nextNumber s;
             completed := completed s;
             errors := errors s + 1; elapsed := elapsed s;
             started := true; errorCell := Some index;
             errorTimerRef := true; finishedRef := finishedRef s;
             deferred := deferred s; onComplete := onComplete s |}
    | None =>
        (* [numbers[index]] is [undefined]: not completed, not the next *)
        {| numbers := numbers s; nextNumber := nextNumber s;
           completed := completed s;
           errors := errors s + 1; elapsed := elapsed s;
           started := true; errorCell := Some index;
           errorTimerRef := true; finishedRef := finishedRef s;
           deferred := deferred s; onComplete := onComplete s |}
    end.

Inductive Event :=
| CellClick (index : nat)
| Tick                 (* the 100 ms interval, running once [started] *)
| ErrorFlashEnd        (* the 300 ms error-flash timeout *)
| Deferred.            (* the 0 ms timeout that calls [onComplete] *)

Definition step (d : Difficulty) (e : Event) (s : State) : State :=
  match e with
  | CellClick index => handleCellClick d index s
  | Tick =>
      if started s then
        {| numbers := numbers s; nextNumber := nextNumber s;
           completed := completed s; errors := errors s;
           elapsed := nextTick (elapsed s); started := started s;
           errorCell := errorCell s; errorTimerRef := errorTimerRef s;
           finishedRef := finishedRef s; deferred := deferred s;
           onComplete := onComplete s |}
      else s
  | ErrorFlashEnd =>
      if errorTimerRef s then
        {| numbers := numbers s; nextNumber := nextNumber s;
           completed := completed s; errors := errors s;
           elapsed := elapsed s; started := started s;
           errorCell := None; errorTimerRef := false;
           finishedRef := finishedRef s; deferred := deferred s;
           onComplete := onComplete s |}
      else s
  | Deferred =>
      match deferred s with
      | score :: rest =>
          {| numbers := numbers s; nextNumber := nextNumber s;
             completed := completed s; errors := errors s;
             elapsed := elapsed s; started := started s;
             errorCell := errorCell s; errorTimerRef := errorTimerRef s;
             finishedRef := finishedRef s; deferred := rest;
             onComplete := onComplete s ++ [score] |}
      | [] => s
      end
  end.

Definition run (d : Difficulty) (es : list Event) (s : State) : State :=
  foldl (fun acc e => step d e acc) s es.

(** [generateNumbers(size)], drawing from draw [0] on. *)
Definition generateNumbers (rand : nat -> Q) (size : Z) : list Z :=
  let total := size * size in
  let ordered := (fun i => Z.of_nat i + 1) <$> seq 0 (Z.to_nat total) in
  shuffle rand 0 ordered.

(** The cell that shows [n]: the first one, if any. *)
Definition cellOf (n : Z) (nums : list Z) : nat :=
  match list_find (fun m => m = n) nums with
  | Some (i, _) => i
  | None => length nums
  end.

(** The clicks of a player who makes no mistake: the cell of 1, the cell of
    2, and so on up to [total]. *)
Definition clicksInOrder (nums : list Z) (total : nat) : list Event :=
  (fun i => CellClick (cellOf (Z.of_nat i + 1) nums)) <$> seq 0 total.

End SchulteGrid.

(** ** games/PathMemory.tsx *)

Module PathMemory.

Record Settings := {
  gridSize : Z;
  startLength : Z;
  showSpeed : Z;
  maxLength : Z
}.

Definition SETTINGS (d : Difficulty) : Settings :=
  match d with
  | easy =>
      {| gridSize := 3; startLength := 2; showSpeed := 1000; maxLength := 6 |}
  | normal =>
      {| gridSize := 4; startLength := 3; showSpeed := 600; maxLength := 8 |}
  | hard =>
      {| gridSize := 5; startLength := 4; showSpeed := 400; maxLength := 10 |}
  end.

Inductive Phase := ready | showing | input | success | error | gameover.

#[global] Instance Phase_eq_dec : EqDecision Phase.
Proof. solve_decision. Defined.

(** The callbacks handed to [addTimeout]. *)
Inductive Callback :=
| HighlightOn (i : Z)              (* [setHighlightIndex(i)] *)
| HighlightOff                     (* [setHighlightIndex(-1)] *)
| ToInput                          (* end of the display: phase [input] *)
| ShowSequence (seq : list Z)      (* [startRound]: show after 1000 ms *)
| RetryShow (seq : list Z)         (* first failure: show again *)
| NextRound (length : Z)           (* success: [startRound(nextLength)] *)
| CompleteMax (newScore : Z)       (* success at the maximal length *)
| CompleteFail (score : Z).        (* second failure *)

(** [phase] stands for both the state cell and [phaseRef], which an effect
    copies from it after every render.  [timeouts] is [timeoutsRef]
    restricted to the timers that have not fired, in firing order: the
    delays of one batch increase strictly and a new batch is only scheduled
    when no timer is pending or after [clearAllTimeouts].  The status text
    is display only and left out. *)
Record State := {
  phase : Phase;
  sequence : list Z;
  playerInput : list Z;
  currentLength : Z;
  highlightIndex : Z;
  score : Z;
  retryUsed : bool;
  timeouts : list Callback;
  onComplete : list Z
}.

Definition setPhase (p : Phase) (s : State) : State :=
  {| phase := p; sequence := sequence s; playerInput := playerInput s;
     currentLength := currentLength s; highlightIndex := highlightIndex s;
     score := score s; retryUsed := retryUsed s; timeouts := timeouts s;
     onComplete := onComplete s |}.

Definition setPlayerInput (i : list Z) (s : State) : State :=
  {| phase := phase s; sequence := sequence s; playerInput := i;
     currentLength := currentLength s; highlightIndex := highlightIndex s;
     score := score s; retryUsed := retryUsed s; timeouts := timeouts s;
     onComplete := onComplete s |}.

Definition setHighlightIndex (i : Z) (s : State) : State :=
  {| phase := phase s; sequence := sequence s; playerInput := playerInput s;
     currentLength := currentLength s; highlightIndex := i;
     score := score s; retryUsed := retryUsed s; timeouts := timeouts s;
     onComplete := onComplete s |}.

Definition setScore (n : Z) (s : State) : State :=
  {| phase := phase s; sequence := sequence s; playerInput := playerInput s;
     currentLength := currentLength s; highlightIndex := highlightIndex s;
     score := n; retryUsed := retryUsed s; timeouts := timeouts s;
     onComplete := onComplete s |}.

Definition setCurrentLength (n : Z) (s : State) : State :=
  {| phase := phase s; sequence := sequence s; playerInput := playerInput s;
     currentLength := n; highlightIndex := highlightIndex s;
     score := score s; retryUsed := retryUsed s; timeouts := timeouts s;
     onComplete := onComplete s |}.

Definition setRetryUsed (b : bool) (s : State) : State :=
  {| phase := phase s; sequence := sequence s; playerInput := playerInput s;
     currentLength := currentLength s; highlightIndex := highlightIndex s;
     score := score s; retryUsed := b; timeouts := timeouts s;
     onComplete := onComplete s |}.

Definition setSequence (seq : list Z) (s : State) : State :=
  {| phase := phase s; sequence := seq; playerInput := playerInput s;
     currentLength := currentLength s; highlightIndex := highlightIndex s;
     score := score s; retryUsed := retryUsed s; timeouts := timeouts s;
     onComplete := onComplete s |}.

Definition setTimeouts (ts : list Callback) (s : State) : State :=
  {| phase := phase s; sequence := sequence s; playerInput := playerInput s;
     currentLength := currentLength s; highlightIndex := highlightIndex s;
     score := score s; retryUsed := retryUsed s; timeouts := ts;
     onComplete := onComplete s |}.

Definition callOnComplete (n : Z) (s : State) : State :=
  {| phase := phase s; sequence := sequence s; playerInput := playerInput s;
     currentLength := currentLength s; highlightIndex := highlightIndex s;
     score := score s; retryUsed := retryUsed s; timeouts := timeouts s;
     onComplete := onComplete s ++ [n] |}.

Definition addTimeout (c : Callback) (s : State) : State :=
  setTimeouts (timeouts s ++ [c]) s.

Definition clearAllTimeouts (s : State) : State := setTimeouts [] s.

(** The timers of [seq.forEach]: one on / off pair per element. *)
Definition showTimers (seq : list Z) : list Callback :=
  flat_map (fun i => [HighlightOn (Z.of_nat i); HighlightOff])
           (List.seq 0%nat (length seq)) ++ [ToInput].

Definition startShowingSequence (seq : list Z) (s : State) : State :=
  let s := setPhase showing s in
  let s := setHighlightIndex (-1) s in
  let s := setPlayerInput [] s in
  setTimeouts (timeouts s ++ showTimers seq) s.

(** [seq] is the value of [generateSequence(length, totalCells)]. *)
Definition startRound (seq : list Z) (s : State) : State :=
  let s := clearAllTimeouts s in
  let s := setSequence seq s in
  let s := setPlayerInput [] s in
  let s := setRetryUsed false s in
  let s := setPhase ready s in
  let s := setHighlightIndex (-1) s in
  addTimeout (ShowSequence seq) s.

(** The component after the mount effect [startRound(startLength)]. *)
Definition init (d : Difficulty) (seq : list Z) : State :=
  startRound seq
    {| phase := ready; sequence := []; playerInput := [];
       currentLength := startLength (SETTINGS d); highlightIndex := -1;
       score := 0; retryUsed := false; timeouts := []; onComplete := [] |}.

(** The two wrong-answer branches of [handleCellClick] have the same body. *)
Definition wrongAnswer (s : State) : State :=
  if negb (retryUsed s) then
    let s' := setRetryUsed true s in
    let s' := setPhase error s' in
    addTimeout (RetryShow (sequence s)) s'
  else
    let s' := setPhase gameover s in
    addTimeout (CompleteFail (score s)) s'.

Definition handleCellClick (d : Difficulty) (cellIndex : Z) (s : State)
  : State :=
  if negb (bool_decide (phase s = input)) then s
  else
    let newInput := playerInput s ++ [cellIndex] in
    let s1 := setPlayerInput newInput s in
    let stepIndex := (length newInput - 1)%nat in
    let isCorrectSoFar :=
      bool_decide (newInput !! stepIndex = sequence s !! stepIndex) in
    if (length newInput =? length (sequence s))%nat then
      let allCorrect := bool_decide (newInput = sequence s) in
      if allCorrect then
        let earned := Z.of_nat (length (sequence s)) * 50 in
        let newScore := score s + earned in
        let s2 := setScore newScore s1 in
        let s2 := setPhase success s2 in
        let nextLength := currentLength s + 1 in
        if maxLength (SETTINGS d) <? nextLength then
          addTimeout (CompleteMax newScore) s2
        else
          addTimeout (NextRound nextLength) (setCurrentLength nextLength s2)
      else wrongAnswer s1
    else if negb isCorrectSoFar then wrongAnswer s1
    else s1.

(** The earliest pending timer fires.  [rnd] is what [generateSequence]
    returns should the callback start a round. *)
Definition fire (rnd : list Z) (s : State) : State :=
  match timeouts s with
  | [] => s
  | c :: rest =>
      let s := setTimeouts rest s in
      match c with
      | HighlightOn i => setHighlightIndex i s
      | HighlightOff => setHighlightIndex (-1) s
      | ToInput => setPhase input (setHighlightIndex (-1) s)
      | ShowSequence seq => startShowingSequence seq s
      | RetryShow seq => startShowingSequence seq (clearAllTimeouts s)
      | NextRound _ => startRound rnd s
      | CompleteMax newScore => callOnComplete newScore (setPhase gameover s)
      | CompleteFail sc => callOnComplete sc s
      end
  end.

Inductive Event :=
| CellClick (cellIndex : Z)
| TimerFire (rnd : list Z).

Definition step (d : Difficulty) (e : Event) (s : State) : State :=
  match e with
  | CellClick c => handleCellClick d c s
  | TimerFire rnd => fire rnd s
  end.

Definition run (d : Difficulty) (es : list Event) (s : State) : State :=
  foldl (fun acc e => step d e acc) s es.

(** A click that the handler answers with the wrong-answer branch. *)
Definition isWrongAttempt (cellIndex : Z) (s : State) : bool :=
  let newInput := playerInput s ++ [cellIndex] in
  let stepIndex := (length newInput - 1)%nat in
  bool_decide (phase s = input) &&
  (if (length newInput =? length (sequence s))%nat
   then negb (bool_decide (newInput = sequence s))
   else negb (bool_decide
                (newInput !! stepIndex = sequence s !! stepIndex))).

(** Does [e] grant a retry in [s] (a wrong attempt answered by phase
    [error]), and does it start a new round? *)
Definition grantsRetry (d : Difficulty) (e : Event) (s : State) : bool :=
  match e with
  | CellClick c =>
      isWrongAttempt c s && bool_decide (phase (step d e s) = error)
  | TimerFire _ => false
  end.

Definition startsRound (e : Event) (s : State) : bool :=
  match e, timeouts s with
  | TimerFire _, NextRound _ :: _ => true
  | _, _ => false
  end.

(** Retries granted along a run: in the whole session, and since the last
    start of a round. *)
Fixpoint retriesGranted (d : Difficulty) (es : list Event) (s : State)
  : nat :=
  match es with
  | [] => 0
  | e :: es' =>
      ((if grantsRetry d e s then 1 else 0) +
       retriesGranted d es' (step d e s))%nat
  end.

Fixpoint retriesInRound (d : Difficulty) (es : list Event) (s : State)
  (acc : nat) : nat :=
  match es with
  | [] => acc
  | e :: es' =>
      let acc' :=
        if startsRound e s then 0%nat
        else if grantsRetry d e s then S acc else acc in
      retriesInRound d es' (step d e s) acc'
  end.

(** [generateSequence(length, totalCells)]: cells are drawn until [length]
    different ones have come up.  The loop has no bound of its own; [fuel]
    bounds the number of draws, and [None] means that they did not
    suffice. *)
Fixpoint generateSequenceLoop (fuel : nat) (rand : nat -> Q) (k : nat)
  (length totalCells : Z) (indices : list Z) : option (list Z) :=
  if Z.of_nat (List.length indices) <? length then
    match fuel with
    | O => None
    | S fuel' =>
        let r := randomBelow (rand k) totalCells in
        generateSequenceLoop fuel' rand (S k) length totalCells
          (if bool_decide (r ∈ indices) then indices else indices ++ [r])
    end
  else Some indices.

Definition generateSequence (fuel : nat) (rand : nat -> Q) (k : nat)
  (length totalCells : Z) : option (list Z) :=
  generateSequenceLoop fuel rand k length totalCells [].

(** The cells that the draws [k], ..., [k + n - 1] name. *)
Definition drawnCells (rand : nat -> Q) (k n : nat) (totalCells : Z)
  : list Z :=
  (fun i => randomBelow (rand (k + i)%nat) totalCells) <$> seq 0 n.

End PathMemory.

(** ** games/ReactionTest.tsx *)

Module ReactionTest.

Record Settings := {
  trials : Z;
  minDelay : Z;
  maxDelay : Z;
  trickTrials : bool
}.

Definition DIFFICULTY_SETTINGS (d : Difficulty) : Settings :=
  match d with
  | easy =>
      {| trials := 8; minDelay := 1500; maxDelay := 3000;
         trickTrials := false |}
  | normal =>
      {| trials := 12; minDelay := 1000; maxDelay := 4000;
         trickTrials := false |}
  | hard =>
      {| trials := 15; minDelay := 500; maxDelay := 5000;
         trickTrials := true |}
  end.

Inductive Phase := waiting | ready | signal | result | tooEarly | done.

#[global] Instance Phase_eq_dec : EqDecision Phase.
Proof. solve_decision. Defined.

Definition calculateTrialScore (reactionTime : Z) : Z :=
  if reactionTime <? 150 then 0 else Z.max 0 (800 - reactionTime).

(** The score computed by the timeout of the last trial, which closes over
    [newReactionTimes]. *)
Definition finalScore (newReactionTimes : list Z) : Z :=
  let totalScore :=
    Math_round
      (inject_Z
         (foldl (fun sum rt => sum + calculateTrialScore rt)
                0 newReactionTimes)
       / inject_Z (Z.of_nat (length newReactionTimes))) in
  let normalizedScore := Z.min 800 (Math_round (inject_Z totalScore)) in
  normalizedScore.

(** The callbacks handed to [setTimeout]. *)
Inductive Callback :=
| FirstTrial                    (* mount effect: [startTrial] after 1000 ms *)
| Delay (isTrick : bool)        (* the random delay of [startTrial] *)
| TrickHide                     (* 150 ms after a trick signal *)
| SecondSignal                  (* the real signal of a trick trial *)
| AdvanceStart                  (* [startTrial] after 1500 ms *)
| AdvanceComplete (newReactionTimes : list Z).   (* after the last trial *)

(** Times are milliseconds of [performance.now()]. *)
Record Timer := { id : nat; due : Q; callback : Callback }.

(** The random draws an event may consume: [getRandomDelay(minDelay,
    maxDelay)], [Math.random() < 0.3] and [getRandomDelay(800, 2000)]. *)
Record Random := { delay : Z; trick : bool; secondDelay : Z }.

Definition validRandom (d : Difficulty) (r : Random) : bool :=
  (minDelay (DIFFICULTY_SETTINGS d) <=? delay r) &&
  (delay r <=? maxDelay (DIFFICULTY_SETTINGS d)) &&
  (800 <=? secondDelay r) && (secondDelay r <=? 2000).

(** The state cells, the refs, and the environment of the component: the
    clock, the pending timers of the page in creation order, whether the
    component is still mounted, and the log of [onComplete]. *)
Record State := {
  phase : Phase;
  currentTrial : Z;
  reactionTimes : list Z;
  lastReactionTime : option Z;
  signalTimeRef : Q;
  delayTimeoutRef : option nat;
  trickTimeoutRef : option nat;
  advanceTimeoutRef : option nat;
  isTrickTrialRef : bool;
  now : Q;
  timers : list Timer;
  nextId : nat;
  mounted : bool;
  onComplete : list Z
}.

Definition setPhase (p : Phase) (s : State) : State :=
  {| phase := p; currentTrial := currentTrial s;
     reactionTimes := reactionTimes s;
     lastReactionTime := lastReactionTime s;
     signalTimeRef := signalTimeRef s;
     delayTimeoutRef := delayTimeoutRef s;
     trickTimeoutRef := trickTimeoutRef s;
     advanceTimeoutRef := advanceTimeoutRef s;
     isTrickTrialRef := isTrickTrialRef s; now := now s;
     timers := timers s; nextId := nextId s; mounted := mounted s;
     onComplete := onComplete s |}.

Definition setLastReactionTime (v : option Z) (s : State) : State :=
  {| phase := phase s; currentTrial := currentTrial s;
     reactionTimes := reactionTimes s;
     lastReactionTime := v;
     signalTimeRef := signalTimeRef s;
     delayTimeoutRef := delayTimeoutRef s;
     trickTimeoutRef := trickTimeoutRef s;
     advanceTimeoutRef := advanceTimeoutRef s;
     isTrickTrialRef := isTrickTrialRef s; now := now s;
     timers := timers s; nextId := nextId s; mounted := mounted s;
     onComplete := onComplete s |}.

(** [setReactionTimes(newReactionTimes)] and [setCurrentTrial(nextTrial)]. *)
Definition recordTrial (rts : list Z) (trial : Z) (s : State) : State :=
  {| phase := phase s; currentTrial := trial;
     reactionTimes := rts;
     lastReactionTime := lastReactionTime s;
     signalTimeRef := signalTimeRef s;
     delayTimeoutRef := delayTimeoutRef s;
     trickTimeoutRef := trickTimeoutRef s;
     advanceTimeoutRef := advanceTimeoutRef s;
     isTrickTrialRef := isTrickTrialRef s; now := now s;
     timers := timers s; nextId := nextId s; mounted := mounted s;
     onComplete := onComplete s |}.

Definition setSignalTime (s : State) : State :=
  {| phase := phase s; currentTrial := currentTrial s;
     reactionTimes := reactionTimes s;
     lastReactionTime := lastReactionTime s;
     signalTimeRef := now s;
     delayTimeoutRef := delayTimeoutRef s;
     trickTimeoutRef := trickTimeoutRef s;
     advanceTimeoutRef := advanceTimeoutRef s;
     isTrickTrialRef := isTrickTrialRef s; now := now s;
     timers := timers s; nextId := nextId s; mounted := mounted s;
     onComplete := onComplete s |}.

Definition setIsTrickTrial (b : bool) (s : State) : State :=
  {| phase := phase s; currentTrial := currentTrial s;
     reactionTimes := reactionTimes s;
     lastReactionTime := lastReactionTime s;
     signalTimeRef := signalTimeRef s;
     delayTimeoutRef := delayTimeoutRef s;
     trickTimeoutRef := trickTimeoutRef s;
     advanceTimeoutRef := advanceTimeoutRef s;
     isTrickTrialRef := b; now := now s;
     timers := timers s; nextId := nextId s; mounted := mounted s;
     onComplete := onComplete s |}.

Definition setRefs (dl tr adv : option nat) (s : State) : State :=
  {| phase := phase s; currentTrial := currentTrial s;
     reactionTimes := reactionTimes s;
     lastReactionTime := lastReactionTime s;
     signalTimeRef := signalTimeRef s;
     delayTimeoutRef := dl;
     trickTimeoutRef := tr;
     advanceTimeoutRef := adv;
     isTrickTrialRef := isTrickTrialRef s; now := now s;
     timers := timers s; nextId := nextId s; mounted := mounted s;
     onComplete := onComplete s |}.

Definition setEnv (t : Q) (ts : list Timer) (n : nat) (m : bool)
  (log : list Z) (s : State) : State :=
  {| phase := phase s; currentTrial := currentTrial s;
     reactionTimes := reactionTimes s;
     lastReactionTime := lastReactionTime s;
     signalTimeRef := signalTimeRef s;
     delayTimeoutRef := delayTimeoutRef s;
     trickTimeoutRef := trickTimeoutRef s;
     advanceTimeoutRef := advanceTimeoutRef s;
     isTrickTrialRef := isTrickTrialRef s; now := t;
     timers := ts; nextId := n; mounted := m;
     onComplete := log |}.

(** [setTimeout(c, ms)]: the new timer and its handle. *)
Definition setTimeout (c : Callback) (ms : Z) (s : State) : State * nat :=
  (setEnv (now s)
     (timers s ++
      [{| id := nextId s; due := now s + inject_Z ms; callback := c |}])
     (S (nextId s)) (mounted s) (onComplete s) s,
   nextId s).

(** [if (ref.current) clearTimeout(ref.current)]. *)
Definition clearTimeout (ref : option nat) (s : State) : State :=
  match ref with
  | Some i =>
      setEnv (now s) (filter (fun t => id t <> i) (timers s))
        (nextId s) (mounted s) (onComplete s) s
  | None => s
  end.

Definition startTrial (d : Difficulty) (r : Random) (s : State) : State :=
  let s := clearTimeout (delayTimeoutRef s) s in
  let s := clearTimeout (trickTimeoutRef s) s in
  let s := setPhase ready s in
  let s := setLastReactionTime None s in
  let s := setIsTrickTrial false s in
  let isTrick := trickTrials (DIFFICULTY_SETTINGS d) && trick r in
  let '(s, h) := setTimeout (Delay isTrick) (delay r) s in
  setRefs (Some h) (trickTimeoutRef s) (advanceTimeoutRef s) s.

Definition handleCircleClick (d : Difficulty) (s : State) : State :=
  match phase s with
  | waiting | done | result | tooEarly => s
  | ready =>
      let s := clearTimeout (delayTimeoutRef s) s in
      let s := clearTimeout (trickTimeoutRef s) s in
      let s := setPhase tooEarly s in
      let '(s, h) := setTimeout AdvanceStart 1500 s in
      setRefs (delayTimeoutRef s) (trickTimeoutRef s) (Some h) s
  | signal =>
      let reactionTime := Math_round (now s - signalTimeRef s) in
      let newReactionTimes := reactionTimes s ++ [reactionTime] in
      let nextTrial := currentTrial s + 1 in
      let s1 := setLastReactionTime (Some reactionTime) s in
      let s1 := setPhase result s1 in
      let s1 := recordTrial newReactionTimes nextTrial s1 in
      let '(s1, h) :=
        if trials (DIFFICULTY_SETTINGS d) <=? nextTrial
        then setTimeout (AdvanceComplete newReactionTimes) 1500 s1
        else setTimeout AdvanceStart 1500 s1 in
      setRefs (delayTimeoutRef s1) (trickTimeoutRef s1) (Some h) s1
  end.

(** [GameWrapper.handleComplete] switches the wrapper to its finished
    screen, which unmounts the game: the cleanup of the mount effect clears
    the timers that the three refs hold at that moment. *)
Definition unmount (s : State) : State :=
  let s := clearTimeout (delayTimeoutRef s) s in
  let s := clearTimeout (trickTimeoutRef s) s in
  let s := clearTimeout (advanceTimeoutRef s) s in
  setEnv (now s) (timers s) (nextId s) false (onComplete s) s.

Definition callOnComplete (score : Z) (s : State) : State :=
  let s :=
    setEnv (now s) (timers s) (nextId s) (mounted s)
      (onComplete s ++ [score]) s in
  if mounted s then unmount s else s.

Definition runCallback (d : Difficulty) (r : Random) (c : Callback)
  (s : State) : State :=
  match c with
  | FirstTrial | AdvanceStart => startTrial d r s
  | Delay true =>
      let s := setIsTrickTrial true s in
      let s := setPhase signal s in
      let s := setSignalTime s in
      let '(s, h) := setTimeout TrickHide 150 s in
      setRefs (delayTimeoutRef s) (Some h) (advanceTimeoutRef s) s
  | Delay false => setSignalTime (setPhase signal s)
  | TrickHide =>
      let s := setIsTrickTrial false s in
      let s := setPhase ready s in
      let '(s, h) := setTimeout SecondSignal (secondDelay r) s in
      setRefs (Some h) (trickTimeoutRef s) (advanceTimeoutRef s) s
  | SecondSignal => setSignalTime (setPhase signal s)
  | AdvanceComplete newReactionTimes =>
      callOnComplete (finalScore newReactionTimes) s
  end.

(** React drops the state updates of a component that is unmounted. *)
Definition dropStateUpdates (old new : State) : State :=
  if mounted old then new
  else
    recordTrial (reactionTimes old) (currentTrial old)
      (setLastReactionTime (lastReactionTime old)
         (setPhase (phase old) new)).

(** The pending timer that is due first; among equals the oldest. *)
Fixpoint earliest (ts : list Timer) : option Timer :=
  match ts with
  | [] => None
  | t :: rest =>
      match earliest rest with
      | Some t' => if Qle_bool (due t) (due t') then Some t else Some t'
      | None => Some t
      end
  end.

Inductive Event :=
| Click (after : Q)     (* a click, [after] ms after the previous event *)
| Fire (r : Random).    (* the timer that is due first fires, on time *)

(** An event is refused ([None]) when it does not fit the clock: a click
    after the component is gone or not strictly before every pending
    timer, a timer firing when none is pending, random draws out of
    range. *)
Definition step (d : Difficulty) (e : Event) (s : State) : option State :=
  match e with
  | Click after =>
      let t := (now s + after)%Q in
      if mounted s && Qle_bool 0 after &&
         forallb (fun tm => Qltb t (due tm)) (timers s)
      then
        Some (handleCircleClick d
                (setEnv (Qred t) (timers s) (nextId s) (mounted s)
                   (onComplete s) s))
      else None
  | Fire r =>
      if validRandom d r then
        match earliest (timers s) with
        | Some tm =>
            let s1 :=
              setEnv (Qred (due tm))
                (filter (fun t => id t <> id tm) (timers s))
                (nextId s) (mounted s) (onComplete s) s in
            Some (dropStateUpdates s (runCallback d r (callback tm) s1))
        | None => None
        end
      else None
  end.

Fixpoint run (d : Difficulty) (es : list Event) (s : State)
  : option State :=
  match es with
  | [] => Some s
  | e :: es' =>
      match step d e s with
      | Some s' => run d es' s'
      | None => None
      end
  end.

(** The component at time 0, the mount effect having armed its timer. *)
Definition init : State :=
  {| phase := waiting; currentTrial := 0; reactionTimes := [];
     lastReactionTime := None; signalTimeRef := 0;
     delayTimeoutRef := None; trickTimeoutRef := None;
     advanceTimeoutRef := None; isTrickTrialRef := false; now := 0;
     timers := [{| id := 1; due := 1000; callback := FirstTrial |}];
     nextId := 2; mounted := true; onComplete := [] |}.

(** [getRandomDelay(min, max)] for the draw [u]. *)
Definition getRandomDelay (u : Q) (min max : Z) : Z :=
  randomBelow u (max - min + 1) + min.

(** What a trial draws: [u1] for its delay, [u2] to decide on a trick
    signal, [u3] for the delay of the real signal after a trick. *)
Definition drawRandom (d : Difficulty) (u1 u2 u3 : Q) : Random :=
  {| delay :=
       getRandomDelay u1 (minDelay (DIFFICULTY_SETTINGS d))
         (maxDelay (DIFFICULTY_SETTINGS d));
     trick := Qltb u2 (3 # 10);
     secondDelay := getRandomDelay u3 800 2000 |}.

End ReactionTest.

(** ** Pending timeouts

    The games below schedule their transitions with [setTimeout].  A queue
    holds the callbacks that have not run yet under the handles
    [setTimeout] returned; which of them fires next is left to the event
    that names the handle. *)

Module Timeouts.

Section Queue.
Context {C : Type}.

Record Queue := { pending : list (nat * C); nextHandle : nat }.

Definition empty : Queue := {| pending := []; nextHandle := 1 |}.

Definition setTimeout (c : C) (q : Queue) : Queue * nat :=
  ({| pending := pending q ++ [(nextHandle q, c)];
      nextHandle := S (nextHandle q) |},
   nextHandle q).

(** [if (ref.current) clearTimeout(ref.current)] *)
Definition clearTimeout (ref : option nat) (q : Queue) : Queue :=
  match ref with
  | Some h =>
      {| pending := filter (fun p => fst p <> h) (pending q);
         nextHandle := nextHandle q |}
  | None => q
  end.

(** The callback scheduled under [h], if it is still pending. *)
Definition lookup (h : nat) (q : Queue) : option C :=
  match list_find (fun p => fst p = h) (pending q) with
  | Some (_, (_, c)) => Some c
  | None => None
  end.

Definition remove (h : nat) (q : Queue) : Queue :=
  {| pending := filter (fun p => fst p <> h) (pending q);
     nextHandle := nextHandle q |}.

End Queue.

Arguments Queue : clear implicits.

End Timeouts.

(** ** games/ArithmeticChallenge.tsx *)

Module ArithmeticChallenge.

Record Settings := {
  timeLimit : Z;
  pointsPerCorrect : Z;
  comboBonus : Z;
  maxComboExtra : Z
}.

Definition DIFFICULTY_SETTINGS (d : Difficulty) : Settings :=
  match d with
  | easy =>
      {| timeLimit := 60; pointsPerCorrect := 10; comboBonus := 2;
         maxComboExtra := 10 |}
  | normal =>
      {| timeLimit := 60; pointsPerCorrect := 15; comboBonus := 3;
         maxComboExtra := 15 |}
  | hard =>
      {| timeLimit := 90; pointsPerCorrect := 20; comboBonus := 5;
         maxComboExtra := 25 |}
  end.

(** The text of a problem is display only. *)
Record Problem := { answer : Z; options : list Z }.

Inductive Feedback := correct | wrong.

(** The only callback: the end of the feedback pause. *)
Inductive Callback := FeedbackEnd.

Record State := {
  timeLeft : Z;
  currentProblem : Problem;
  score : Z;
  streak : Z;
  totalCorrect : Z;
  totalAttempted : Z;
  feedback : option Feedback;
  selectedOption : option Z;
  timerRef : bool;                    (* the 1 s interval is running *)
  feedbackTimerRef : option nat;
  gameActiveRef : bool;
  scoreRef : Z;
  problemIndexRef : Z;
  isProcessingRef : bool;
  timeouts : Timeouts.Queue Callback;
  onComplete : list Z
}.

(** The component after mounting; [p] is [generateProblem(difficulty, 0)]. *)
Definition init (d : Difficulty) (p : Problem) : State :=
  {| timeLeft := timeLimit (DIFFICULTY_SETTINGS d); currentProblem := p;
     score := 0; streak := 0; totalCorrect := 0; totalAttempted := 0;
     feedback := None; selectedOption := None; timerRef := true;
     feedbackTimerRef := None; gameActiveRef := true; scoreRef := 0;
     problemIndexRef := 0; isProcessingRef := false;
     timeouts := Timeouts.empty; onComplete := [] |}.

(** [p] is [generateProblem(difficulty, problemIndexRef.current)]. *)
Definition nextProblem (p : Problem) (s : State) : State :=
  {| timeLeft := timeLeft s; currentProblem := p; score := score s;
     streak := streak s; totalCorrect := totalCorrect s;
     totalAttempted := totalAttempted s; feedback := None;
     selectedOption := None; timerRef := timerRef s;
     feedbackTimerRef := feedbackTimerRef s;
     gameActiveRef := gameActiveRef s; scoreRef := scoreRef s;
     problemIndexRef := problemIndexRef s + 1; isProcessingRef := false;
     timeouts := timeouts s; onComplete := onComplete s |}.

Definition handleOptionClick (d : Difficulty) (value : Z) (s : State)
  : State :=
  let settings := DIFFICULTY_SETTINGS d in
  if isProcessingRef s then s
  else if negb (gameActiveRef s) then s
  else
    let isCorrect := value =? answer (currentProblem s) in
    let '(q, h) := Timeouts.setTimeout FeedbackEnd (timeouts s) in
    if isCorrect then
      let newStreak := streak s + 1 in
      let comboExtra :=
        Z.min ((newStreak - 1) * comboBonus settings)
              (maxComboExtra settings) in
      let points := pointsPerCorrect settings + comboExtra in
      let newScore := score s + points in
      {| timeLeft := timeLeft s; currentProblem := currentProblem s;
         score := newScore; streak := newStreak;
         totalCorrect := totalCorrect s + 1;
         totalAttempted := totalAttempted s + 1;
         feedback := Some correct; selectedOption := Some value;
         timerRef := timerRef s; feedbackTimerRef := Some h;
         gameActiveRef := gameActiveRef s; scoreRef := newScore;
         problemIndexRef := problemIndexRef s; isProcessingRef := true;
         timeouts := q; onComplete := onComplete s |}
    else
      {| timeLeft := timeLeft s; currentProblem := currentProblem s;
         score := score s; streak := 0;
         totalCorrect := totalCorrect s;
         totalAttempted := totalAttempted s + 1;
         feedback := Some wrong; selectedOption := Some value;
         timerRef := timerRef s; feedbackTimerRef := Some h;
         gameActiveRef := gameActiveRef s; scoreRef := scoreRef s;
         problemIndexRef := problemIndexRef s; isProcessingRef := true;
         timeouts := q; onComplete := onComplete s |}.

Definition setTimeouts (q : Timeouts.Queue Callback) (s : State) : State :=
  {| timeLeft := timeLeft s; currentProblem := currentProblem s;
     score := score s; streak := streak s;
     totalCorrect := totalCorrect s; totalAttempted := totalAttempted s;
     feedback := feedback s; selectedOption := selectedOption s;
     timerRef := timerRef s; feedbackTimerRef := feedbackTimerRef s;
     gameActiveRef := gameActiveRef s; scoreRef := scoreRef s;
     problemIndexRef := problemIndexRef s;
     isProcessingRef := isProcessingRef s;
     timeouts := q; onComplete := onComplete s |}.

(** One tick of the countdown, followed by the effect on [timeLeft]. *)
Definition tick (s : State) : State :=
  if negb (timerRef s) then s
  else if timeLeft s <=? 1 then
    {| timeLeft := 0; currentProblem := currentProblem s;
       score := score s; streak := streak s;
       totalCorrect := totalCorrect s; totalAttempted := totalAttempted s;
       feedback := feedback s; selectedOption := selectedOption s;
       timerRef := false; feedbackTimerRef := feedbackTimerRef s;
       gameActiveRef := false; scoreRef := scoreRef s;
       problemIndexRef := problemIndexRef s;
       isProcessingRef := isProcessingRef s;
       timeouts := Timeouts.clearTimeout (feedbackTimerRef s) (timeouts s);
       onComplete := onComplete s ++ [scoreRef s] |}
  else
    {| timeLeft := timeLeft s - 1; currentProblem := currentProblem s;
       score := score s; streak := streak s;
       totalCorrect := totalCorrect s; totalAttempted := totalAttempted s;
       feedback := feedback s; selectedOption := selectedOption s;
       timerRef := timerRef s; feedbackTimerRef := feedbackTimerRef s;
       gameActiveRef := gameActiveRef s; scoreRef := scoreRef s;
       problemIndexRef := problemIndexRef s;
       isProcessingRef := isProcessingRef s;
       timeouts := timeouts s; onComplete := onComplete s |}.

Inductive Event :=
| OptionClick (value : Z)
| Tick
| Fire (handle : nat) (p : Problem).   (* [p]: the problem generated next *)

Definition step (d : Difficulty) (e : Event) (s : State) : State :=
  match e with
  | OptionClick value => handleOptionClick d value s
  | Tick => tick s
  | Fire h p =>
      match Timeouts.lookup h (timeouts s) with
      | Some FeedbackEnd =>
          let s := setTimeouts (Timeouts.remove h (timeouts s)) s in
          if gameActiveRef s then nextProblem p s else s
      | None => s
      end
  end.

Definition run (d : Difficulty) (es : list Event) (s : State) : State :=
  foldl (fun acc e => step d e acc) s es.

(** *** The problems *)

Definition offsets : list Z := [-3; -2; -1; 1; 2; 3; 5; -5; 10; -10].

(** The first loop of [generateDistractors].  [shuffled] is what
    [offsets.sort(() => Math.random() - 0.5)] returns: the offsets in an
    order that depends on the draws and on the engine.  The set of
    distractors keeps the order of insertion. *)
Definition pickDistractors (answer : Z) (shuffled : list Z) : list Z :=
  foldl (fun distractors offset =>
           if (3 <=? length distractors)%nat then distractors
           else
             let val := answer + offset in
             if (0 <=? val) && negb (val =? answer) &&
                negb (bool_decide (val ∈ distractors))
             then distractors ++ [val] else distractors)
        [] shuffled.

(** The fallback loop, which has no bound of its own: [fuel] bounds its
    iterations. *)
Fixpoint fallbackLoop (fuel : nat) (answer fallback : Z)
  (distractors : list Z) : option (list Z) :=
  if (length distractors <? 3)%nat then
    match fuel with
    | O => None
    | S fuel' =>
        let val := answer + fallback in
        fallbackLoop fuel' answer
          (if 0 <? fallback then - fallback else - fallback + 1)
          (if negb (val =? answer) && negb (bool_decide (val ∈ distractors))
           then distractors ++ [val] else distractors)
    end
  else Some distractors.

Definition generateDistractors (fuel : nat) (answer : Z)
  (shuffled : list Z) : option (list Z) :=
  fallbackLoop fuel answer 1 (pickDistractors answer shuffled).

Inductive Op := add | sub | mul | div.

(** What the text of a problem shows, [lhs op rhs = ?], and the answer. *)
Record Question := { lhs : Z; op : Op; rhs : Z; value : Z }.

Definition tierOf (d : Difficulty) (problemIndex : Z) : Z :=
  let tierStep := if bool_decide (d = easy) then 8 else 5 in
  Z.min (problemIndex / tierStep) 4.

(** The operands of [generateProblem]; [u0], [u1], [u2] are its first
    three draws. *)
Definition pickQuestion (d : Difficulty) (problemIndex : Z) (u0 u1 u2 : Q)
  : Question :=
  let tier := tierOf d problemIndex in
  let plus (maxNum base : Z) :=
    let a := randomBelow u1 maxNum + base in
    let b := randomBelow u2 maxNum + base in
    {| lhs := a; op := add; rhs := b; value := a + b |} in
  let minus (maxNum base : Z) :=
    let b := randomBelow u1 maxNum + base in
    let a := b + randomBelow u2 maxNum + 1 in
    {| lhs := a; op := sub; rhs := b; value := a - b |} in
  let times (maxMul : Z) :=
    let a := randomBelow u1 maxMul + 2 in
    let b := randomBelow u2 maxMul + 2 in
    {| lhs := a; op := mul; rhs := b; value := a * b |} in
  match d with
  | easy =>
      let maxNum := Z.min (10 + tier * 2) 20 in
      if Qltb u0 (1 # 2) then plus maxNum 1 else minus maxNum 1
  | normal =>
      let maxNum := Z.min (20 + tier * 8) 50 in
      match randomBelow u0 3 with
      | 0 => plus maxNum 1
      | 1 => minus maxNum 1
      | _ => times (Z.min (6 + tier * 2) 12)
      end
  | hard =>
      let maxNum := Z.min (30 + tier * 15) 99 in
      match randomBelow u0 4 with
      | 0 => plus maxNum 10
      | 1 => minus maxNum 10
      | 2 => times (Z.min (8 + tier * 2) 15)
      | _ =>
          let maxDiv := Z.min (8 + tier * 2) 15 in
          let divisor := randomBelow u1 maxDiv + 2 in
          let quotient := randomBelow u2 maxDiv + 2 in
          {| lhs := divisor * quotient; op := div; rhs := divisor;
             value := quotient |}
      end
  end.

(** The number that the shown expression denotes, if it is an integer. *)
Definition evaluate (q : Question) : option Z :=
  match op q with
  | add => Some (lhs q + rhs q)
  | sub => Some (lhs q - rhs q)
  | mul => Some (lhs q * rhs q)
  | div =>
      if (rhs q =? 0) || negb (lhs q mod rhs q =? 0) then None
      else Some (lhs q / rhs q)
  end.

(** [generateProblem(difficulty, problemIndex)].  [rand] gives the first
    three draws, [shuffled] is the outcome of the sort of the offsets, and
    [rand'] gives the draws made after that sort, which [shuffleArray]
    uses. *)
Definition generateProblem (fuel : nat) (rand : nat -> Q)
  (shuffled : list Z) (rand' : nat -> Q) (d : Difficulty)
  (problemIndex : Z) : option (Question * Problem) :=
  let q := pickQuestion d problemIndex (rand 0%nat) (rand 1%nat)
             (rand 2%nat) in
  match generateDistractors fuel (value q) shuffled with
  | Some distractors =>
      Some (q, {| answer := value q;
                  options := shuffle rand' 0 (value q :: distractors) |})
  | None => None
  end.

End ArithmeticChallenge.

(** ** games/PatternReason.tsx *)

Module PatternReason.

Record Settings := { questionCount : Z; pointsPerCorrect : Z }.

Definition DIFFICULTY_SETTINGS (d : Difficulty) : Settings :=
  match d with
  | easy => {| questionCount := 10; pointsPerCorrect := 50 |}
  | normal => {| questionCount := 12; pointsPerCorrect := 67 |}
  | hard => {| questionCount := 15; pointsPerCorrect := 67 |}
  end.

Definition SPEED_BONUS : Z := 10.
Definition SPEED_THRESHOLD_MS : Z := 8000.

(** The symbols of a question are display only. *)
Record PatternQuestion := { correctIndex : Z }.

Inductive Feedback := correct | wrong.

(** The feedback timeout closes over [currentQuestion]. *)
Inductive Callback := Advance (currentQuestion : nat).

Record State := {
  questions : list PatternQuestion;
  currentQuestion : nat;
  score : Z;
  feedback : option Feedback;
  selectedOption : option Z;
  questionStartTime : Z;
  feedbackTimerRef : option nat;
  isProcessing : bool;
  scoreRef : Z;
  timeouts : Timeouts.Queue Callback;
  onComplete : list Z
}.

(** [qs] is [selectQuestions(difficulty)], [now] is [Date.now()]. *)
Definition init (qs : list PatternQuestion) (now : Z) : State :=
  {| questions := qs; currentQuestion := 0; score := 0; feedback := None;
     selectedOption := None; questionStartTime := now;
     feedbackTimerRef := None; isProcessing := false; scoreRef := 0;
     timeouts := Timeouts.empty; onComplete := [] |}.

Definition handleOptionClick (d : Difficulty) (optionIndex now : Z)
  (s : State) : State :=
  let settings := DIFFICULTY_SETTINGS d in
  if isProcessing s then s
  else if bool_decide (feedback s <> None) then s
  else
    match questions s !! currentQuestion s with
    | None =>
        (* [question] is [undefined]: reading [correctIndex] throws, after
           the flag has been set *)
        {| questions := questions s; currentQuestion := currentQuestion s;
           score := score s; feedback := feedback s;
           selectedOption := selectedOption s;
           questionStartTime := questionStartTime s;
           feedbackTimerRef := feedbackTimerRef s; isProcessing := true;
           scoreRef := scoreRef s; timeouts := timeouts s;
           onComplete := onComplete s |}
    | Some question =>
        let isCorrect := optionIndex =? correctIndex question in
        let answerTime := now - questionStartTime s in
        let '(q, h) :=
          Timeouts.setTimeout (Advance (currentQuestion s)) (timeouts s) in
        if isCorrect then
          let points :=
            if answerTime <=? SPEED_THRESHOLD_MS
            then pointsPerCorrect settings + SPEED_BONUS
            else pointsPerCorrect settings in
          let newScore := score s + points in
          {| questions := questions s;
             currentQuestion := currentQuestion s;
             score := newScore; feedback := Some correct;
             selectedOption := Some optionIndex;
             questionStartTime := questionStartTime s;
             feedbackTimerRef := Some h; isProcessing := true;
             scoreRef := newScore; timeouts := q;
             onComplete := onComplete s |}
        else
          {| questions := questions s;
             currentQuestion := currentQuestion s;
             score := score s; feedback := Some wrong;
             selectedOption := Some optionIndex;
             questionStartTime := questionStartTime s;
             feedbackTimerRef := Some h; isProcessing := true;
             scoreRef := scoreRef s; timeouts := q;
             onComplete := onComplete s |}
    end.

(** The feedback timeout; [now] is [Date.now()] when the effect on
    [currentQuestion] runs. *)
Definition advance (cq : nat) (now : Z) (s : State) : State :=
  let nextQuestion := S cq in
  if (length (questions s) <=? nextQuestion)%nat then
    {| questions := questions s; currentQuestion := currentQuestion s;
       score := score s; feedback := feedback s;
       selectedOption := selectedOption s;
       questionStartTime := questionStartTime s;
       feedbackTimerRef := feedbackTimerRef s;
       isProcessing := isProcessing s; scoreRef := scoreRef s;
       timeouts := timeouts s;
       onComplete := onComplete s ++ [scoreRef s] |}
  else
    {| questions := questions s; currentQuestion := nextQuestion;
       score := score s; feedback := None; selectedOption := None;
       questionStartTime :=
         if bool_decide (nextQuestion = currentQuestion s)
         then questionStartTime s else now;
       feedbackTimerRef := feedbackTimerRef s; isProcessing := false;
       scoreRef := scoreRef s; timeouts := timeouts s;
       onComplete := onComplete s |}.

Definition setTimeouts (q : Timeouts.Queue Callback) (s : State) : State :=
  {| questions := questions s; currentQuestion := currentQuestion s;
     score := score s; feedback := feedback s;
     selectedOption := selectedOption s;
     questionStartTime := questionStartTime s;
     feedbackTimerRef := feedbackTimerRef s;
     isProcessing := isProcessing s; scoreRef := scoreRef s;
     timeouts := q; onComplete := onComplete s |}.

Inductive Event :=
| OptionClick (optionIndex now : Z)
| Fire (handle : nat) (now : Z).

Definition step (d : Difficulty) (e : Event) (s : State) : State :=
  match e with
  | OptionClick optionIndex now => handleOptionClick d optionIndex now s
  | Fire h now =>
      match Timeouts.lookup h (timeouts s) with
      | Some (Advance cq) =>
          advance cq now (setTimeouts (Timeouts.remove h (timeouts s)) s)
      | None => s
      end
  end.

Definition run (d : Difficulty) (es : list Event) (s : State) : State :=
  foldl (fun acc e => step d e acc) s es.

End PatternReason.

(** ** games/StroopTest.tsx *)

Module StroopTest.

Record Settings := {
  totalRounds : Z;
  colorCount : nat;
  shufflePositions : bool
}.

Definition DIFFICULTY_SETTINGS (d : Difficulty) : Settings :=
  match d with
  | easy =>
      {| totalRounds := 15; colorCount := 3; shufflePositions := false |}
  | normal =>
      {| totalRounds := 20; colorCount := 4; shufflePositions := false |}
  | hard =>
      {| totalRounds := 25; colorCount := 4; shufflePositions := true |}
  end.

(** The [name] fields of [COLORS]. *)
Inductive ColorName := red | blue | green | yellow.

#[global] Instance ColorName_eq_dec : EqDecision ColorName.
Proof. solve_decision. Defined.

Record Trial := {
  word : ColorName;
  inkColor : ColorName;
  correctAnswer : ColorName;
  options : list ColorName
}.

Inductive Feedback := correct | wrong.

Inductive Callback := Complete | LoadTrial.

Record State := {
  round : Z;
  score : Z;
  trial : Trial;
  streak : Z;
  feedback : option Feedback;
  feedbackTimerRef : option nat;
  isProcessing : bool;
  trialStartTime : Z;
  scoreRef : Z;
  roundRef : Z;
  timeouts : Timeouts.Queue Callback;
  onComplete : list Z
}.

(** [t] is [generateTrial(...)], [now] is [Date.now()]. *)
Definition loadTrial (t : Trial) (now : Z) (s : State) : State :=
  {| round := round s; score := score s; trial := t; streak := streak s;
     feedback := None; feedbackTimerRef := feedbackTimerRef s;
     isProcessing := false; trialStartTime := now; scoreRef := scoreRef s;
     roundRef := roundRef s; timeouts := timeouts s;
     onComplete := onComplete s |}.

(** The component after the mount effect [loadTrial()]. *)
Definition init (t : Trial) (now : Z) : State :=
  {| round := 1; score := 0; trial := t; streak := 0; feedback := None;
     feedbackTimerRef := None; isProcessing := false;
     trialStartTime := now; scoreRef := 0; roundRef := 1;
     timeouts := Timeouts.empty; onComplete := [] |}.

Definition handleOptionClick (d : Difficulty) (colorName : ColorName)
  (now : Z) (s : State) : State :=
  if isProcessing s then s
  else
    let answerTime := now - trialStartTime s in
    let isCorrect := bool_decide (colorName = correctAnswer (trial s)) in
    let newStreak := streak s + 1 in
    let points :=
      (if answerTime <=? 2000 then 10 + 5 else 10) +
      (if newStreak =? 10 then 50 else if newStreak =? 5 then 20 else 0) in
    let newScore :=
      if isCorrect then score s + points else Z.max 0 (score s - 5) in
    let nextRound := roundRef s + 1 in
    let last := totalRounds (DIFFICULTY_SETTINGS d) <? nextRound in
    let '(q, h) :=
      Timeouts.setTimeout (if last then Complete else LoadTrial)
        (timeouts s) in
    {| round := if last then round s else nextRound;
       score := newScore; trial := trial s;
       streak := if isCorrect then newStreak else 0;
       feedback := Some (if isCorrect then correct else wrong);
       feedbackTimerRef := Some h; isProcessing := true;
       trialStartTime := trialStartTime s; scoreRef := newScore;
       roundRef := if last then roundRef s else nextRound;
       timeouts := q; onComplete := onComplete s |}.

Definition setTimeouts (q : Timeouts.Queue Callback) (s : State) : State :=
  {| round := round s; score := score s; trial := trial s;
     streak := streak s; feedback := feedback s;
     feedbackTimerRef := feedbackTimerRef s;
     isProcessing := isProcessing s; trialStartTime := trialStartTime s;
     scoreRef := scoreRef s; roundRef := roundRef s; timeouts := q;
     onComplete := onComplete s |}.

Definition callOnComplete (n : Z) (s : State) : State :=
  {| round := round s; score := score s; trial := trial s;
     streak := streak s; feedback := feedback s;
     feedbackTimerRef := feedbackTimerRef s;
     isProcessing := isProcessing s; trialStartTime := trialStartTime s;
     scoreRef := scoreRef s; roundRef := roundRef s;
     timeouts := timeouts s; onComplete := onComplete s ++ [n] |}.

Inductive Event :=
| OptionClick (colorName : ColorName) (now : Z)
| Fire (handle : nat) (t : Trial) (now : Z).

Definition step (d : Difficulty) (e : Event) (s : State) : State :=
  match e with
  | OptionClick colorName now => handleOptionClick d colorName now s
  | Fire h t now =>
      match Timeouts.lookup h (timeouts s) with
      | Some c =>
          let s := setTimeouts (Timeouts.remove h (timeouts s)) s in
          match c with
          | Complete => callOnComplete (scoreRef s) s
          | LoadTrial => loadTrial t now s
          end
      | None => s
      end
  end.

Definition run (d : Difficulty) (es : list Event) (s : State) : State :=
  foldl (fun acc e => step d e acc) s es.

(** *** The trials *)

Definition COLORS : list ColorName := [red; blue; green; yellow].

(** The [incongruentRate] field of the settings. *)
Definition incongruentRate (d : Difficulty) : Q :=
  match d with
  | easy => 3 # 10
  | normal => 7 # 10
  | hard => 17 # 20
  end.

Definition colorPool (d : Difficulty) : list ColorName :=
  take (colorCount (DIFFICULTY_SETTINGS d)) COLORS.

(** [generateTrial], drawing from draw [k] on.  [None] stands for the
    exception that reading a field of [undefined] raises, should an index
    fall outside its array. *)
Definition generateTrial (rand : nat -> Q) (k : nat)
  (pool : list ColorName) (rate : Q) (shufflePos : bool) : option Trial :=
  let isIncongruent := Qltb (rand k) rate in
  let wordIndex :=
    Z.to_nat (randomBelow (rand (S k)) (Z.of_nat (length pool))) in
  match pool !! wordIndex with
  | None => None
  | Some wordColor =>
      let others :=
        (filter (fun p => p.1 <> wordIndex)
           (imap (fun i c => (i, c)) pool)).*2 in
      let ink :=
        if isIncongruent then
          others !! Z.to_nat (randomBelow (rand (S (S k)))
                                (Z.of_nat (length others)))
        else Some wordColor in
      let k' := if isIncongruent then S (S (S k)) else S (S k) in
      match ink with
      | None => None
      | Some inkC =>
          Some {| word := wordColor; inkColor := inkC;
                  correctAnswer := inkC;
                  options := if shufflePos then shuffle rand k' pool
                             else pool |}
      end
  end.

(** *** The highest score *)

(** The bonus of a right answer that makes the streak [newStreak]. *)
Definition streakBonus (newStreak : Z) : Z :=
  if newStreak =? 10 then 50 else if newStreak =? 5 then 20 else 0.

(** [bestGains r] lists, for the streaks 0 to 10 (a longer streak earns as
    one of 10), the most that [r] further answers can add to the score:
    an answer is right within two seconds, or it is wrong and costs 5
    points. *)
Fixpoint bestGains (r : nat) : list Z :=
  match r with
  | O => replicate 11 0
  | S r' =>
      let prev := bestGains r' in
      (fun st =>
         Z.max (10 + 5 + streakBonus (st + 1) +
                default 0 (prev !! Z.to_nat (Z.min (st + 1) 10)))
               (default 0 (prev !! 0%nat) - 5)) <$> seqZ 0 11
  end.

Definition bestGain (r : nat) (st : Z) : Z :=
  default 0 (bestGains r !! Z.to_nat (Z.min st 10)).

Definition maxScore (d : Difficulty) : Z :=
  bestGain (Z.to_nat (totalRounds (DIFFICULTY_SETTINGS d))) 0.

(** The answers that the player still has to give. *)
Definition answersLeft (d : Difficulty) (s : State) : Z :=
  totalRounds (DIFFICULTY_SETTINGS d) - roundRef s + 1.

(** What a run keeps: the score, with the most that the remaining answers
    can add to it, stays within [maxScore]. *)
Definition withinBest (d : Difficulty) (s : State) : Prop :=
  0 <= score s /\ scoreRef s = score s /\ 0 <= streak s /\
  Forall (fun n => 0 <= n <= maxScore d) (onComplete s) /\
  exists left : nat,
    Z.of_nat left <= totalRounds (DIFFICULTY_SETTINGS d) /\
    score s + bestGain left (streak s) <= maxScore d /\
    ((isProcessing s = false /\ Timeouts.pending (timeouts s) = [] /\
      Z.of_nat left = answersLeft d s /\ (0 < left)%nat) \/
     (isProcessing s = true /\
      (exists h, Timeouts.pending (timeouts s) = [(h, LoadTrial)]) /\
      Z.of_nat left = answersLeft d s /\ (0 < left)%nat) \/
     (isProcessing s = true /\ left = 0%nat /\
      (Timeouts.pending (timeouts s) = [] \/
       exists h, Timeouts.pending (timeouts s) = [(h, Complete)]))).

(** A game played through: the player gives the answers [cs] one after the
    other, each at once, and every feedback timeout fires before the next
    answer; [t] is the trial shown every time. *)
Definition playThrough (t : Trial) (cs : list ColorName) : list Event :=
  mjoin (imap (fun i c => [OptionClick c 0; Fire (S i) t 0]) cs).

(** Answers that reach [maxScore] when the right answer is [right]. *)
Definition bestAnswers (d : Difficulty) (right wrong : ColorName)
  : list ColorName :=
  match d with
  | easy => replicate 15 right
  | normal => replicate 20 right
  | hard => replicate 10 right ++ [wrong] ++ replicate 14 right
  end.

End StroopTest.

(** ** games/WordSort.tsx *)

Module WordSort.

Record Settings := {
  categoryCount : nat;
  wordsPerCategory : nat;
  timeLimit : option Z
}.

Definition DIFFICULTY_SETTINGS (d : Difficulty) : Settings :=
  match d with
  | easy =>
      {| categoryCount := 2; wordsPerCategory := 6; timeLimit := None |}
  | normal =>
      {| categoryCount := 3; wordsPerCategory := 6; timeLimit := Some 90 |}
  | hard =>
      {| categoryCount := 4; wordsPerCategory := 6; timeLimit := Some 60 |}
  end.

(** The six keys of [WORD_BANK]. *)
Inductive Category :=
| healthyDiet | exercise | cognitiveTraining
| socialActivity | emotionManagement | sleepHealth.

#[global] Instance Category_eq_dec : EqDecision Category.
Proof. solve_decision. Defined.

(** The text of a word is display only. *)
Record WordItem := { category : Category }.

Inductive FeedbackType := correct | wrong.

(** The feedback timeout calls the [advanceToNext] of the render in which
    the click was handled, which closes over [currentIndex]. *)
Inductive Callback := AfterFeedback (currentIndex : nat).

Record State := {
  gameWords : list WordItem;
  currentIndex : nat;
  score : Z;
  streak : Z;
  correctCount : Z;
  feedback : option FeedbackType;
  timeLeft : option Z;
  gameOver : bool;
  isProcessing : bool;
  gameOverRef : bool;
  completedRef : bool;
  timeouts : Timeouts.Queue Callback;
  onComplete : list Z
}.

(** [ws] is the [words] field of [initGame(...)]. *)
Definition init (d : Difficulty) (ws : list WordItem) : State :=
  {| gameWords := ws; currentIndex := 0; score := 0; streak := 0;
     correctCount := 0; feedback := None;
     timeLeft := timeLimit (DIFFICULTY_SETTINGS d); gameOver := false;
     isProcessing := false; gameOverRef := false; completedRef := false;
     timeouts := Timeouts.empty; onComplete := [] |}.

Definition endGame (s : State) : State :=
  {| gameWords := gameWords s; currentIndex := currentIndex s;
     score := score s; streak := streak s; correctCount := correctCount s;
     feedback := feedback s; timeLeft := timeLeft s; gameOver := true;
     isProcessing := isProcessing s; gameOverRef := true;
     completedRef := completedRef s; timeouts := timeouts s;
     onComplete := onComplete s |}.

(** The three effects, in the order of the source, run after a render. *)
Definition effects (s : State) : State :=
  let s :=
    match timeLeft s with
    | Some t => if negb (gameOverRef s) && (t <=? 0) then endGame s else s
    | None => s
    end in
  let s :=
    if bool_decide (timeLeft s = Some 0) && negb (gameOverRef s)
    then endGame s else s in
  if gameOver s && negb (completedRef s) then
    {| gameWords := gameWords s; currentIndex := currentIndex s;
       score := score s; streak := streak s;
       correctCount := correctCount s; feedback := feedback s;
       timeLeft := timeLeft s; gameOver := gameOver s;
       isProcessing := isProcessing s; gameOverRef := gameOverRef s;
       completedRef := true; timeouts := timeouts s;
       onComplete := onComplete s ++ [Z.max 0 (score s)] |}
  else s.

Definition handleCategoryClick (selectedCategory : Category) (s : State)
  : State :=
  if isProcessing s || gameOverRef s || gameOver s then s
  else if (length (gameWords s) <=? currentIndex s)%nat then s
  else
    match gameWords s !! currentIndex s with
    | None => s
    | Some currentWord =>
        let isCorrect :=
          bool_decide (selectedCategory = category currentWord) in
        let '(q, h) :=
          Timeouts.setTimeout (AfterFeedback (currentIndex s))
            (timeouts s) in
        if isCorrect then
          let newStreak := streak s + 1 in
          let points :=
            if (3 <=? newStreak) && (newStreak mod 3 =? 0)
            then 10 + 15 else 10 in
          {| gameWords := gameWords s; currentIndex := currentIndex s;
             score := score s + points; streak := newStreak;
             correctCount := correctCount s + 1;
             feedback := Some correct; timeLeft := timeLeft s;
             gameOver := gameOver s; isProcessing := true;
             gameOverRef := gameOverRef s;
             completedRef := completedRef s; timeouts := q;
             onComplete := onComplete s |}
        else
          {| gameWords := gameWords s; currentIndex := currentIndex s;
             score := score s - 5; streak := 0;
             correctCount := correctCount s;
             feedback := Some wrong; timeLeft := timeLeft s;
             gameOver := gameOver s; isProcessing := true;
             gameOverRef := gameOverRef s;
             completedRef := completedRef s; timeouts := q;
             onComplete := onComplete s |}
    end.

(** The feedback timeout: [setFeedback(null); advanceToNext();
    isProcessing.current = false]. *)
Definition afterFeedback (ci : nat) (s : State) : State :=
  let nextIndex := S ci in
  let over := (length (gameWords s) <=? nextIndex)%nat in
  {| gameWords := gameWords s;
     currentIndex := if over then currentIndex s else nextIndex;
     score := score s; streak := streak s; correctCount := correctCount s;
     feedback := None; timeLeft := timeLeft s;
     gameOver := if over then true else gameOver s;
     isProcessing := false;
     gameOverRef := if over then true else gameOverRef s;
     completedRef := completedRef s; timeouts := timeouts s;
     onComplete := onComplete s |}.

Definition setTimeouts (q : Timeouts.Queue Callback) (s : State) : State :=
  {| gameWords := gameWords s; currentIndex := currentIndex s;
     score := score s; streak := streak s; correctCount := correctCount s;
     feedback := feedback s; timeLeft := timeLeft s;
     gameOver := gameOver s; isProcessing := isProcessing s;
     gameOverRef := gameOverRef s; completedRef := completedRef s;
     timeouts := q; onComplete := onComplete s |}.

(** One tick of the countdown, which runs while [timeLeft] is positive and
    the game is not over. *)
Definition tick (s : State) : State :=
  match timeLeft s with
  | Some prev =>
      if (0 <? prev) && negb (gameOverRef s) then
        {| gameWords := gameWords s; currentIndex := currentIndex s;
           score := score s; streak := streak s;
           correctCount := correctCount s; feedback := feedback s;
           timeLeft := Some (if prev <=? 1 then 0 else prev - 1);
           gameOver := gameOver s; isProcessing := isProcessing s;
           gameOverRef := gameOverRef s; completedRef := completedRef s;
           timeouts := timeouts s; onComplete := onComplete s |}
      else s
  | None => s
  end.

Inductive Event :=
| CategoryClick (selectedCategory : Category)
| Tick
| Fire (handle : nat).

Definition step (e : Event) (s : State) : State :=
  effects
    match e with
    | CategoryClick c => handleCategoryClick c s
    | Tick => tick s
    | Fire h =>
        match Timeouts.lookup h (timeouts s) with
        | Some (AfterFeedback ci) =>
            afterFeedback ci
              (setTimeouts (Timeouts.remove h (timeouts s)) s)
        | None => s
        end
    end.

Definition run (es : list Event) (s : State) : State :=
  foldl (fun acc e => step e acc) s es.

(** *** The words of a session *)

(** [Object.keys(WORD_BANK)], in the order of the literal. *)
Definition allCategories : list Category :=
  [healthyDiet; exercise; cognitiveTraining;
   socialActivity; emotionManagement; sleepHealth].

(** Every row of [WORD_BANK] has eight words; a word is named by its
    category and its position in the row. *)
Definition bankRow : list nat := seq 0 8.

(** The loop over the selected categories: the words collected so far and
    the number of the next draw. *)
Definition collectWords (rand : nat -> Q) (wordsPerCategory : nat)
  (acc : list (Category * nat) * nat) (c : Category)
  : list (Category * nat) * nat :=
  let '(words, k) := acc in
  let selectedWords := take wordsPerCategory (shuffle rand k bankRow) in
  (words ++ ((fun text => (c, text)) <$> selectedWords),
   (k + (length bankRow - 1))%nat).

(** [initGame(categoryCount, wordsPerCategory)], drawing from draw [0]
    on: the categories and the words, each with its position in its row. *)
Definition initGame (rand : nat -> Q) (categoryCount wordsPerCategory : nat)
  : list Category * list (Category * nat) :=
  let selectedCategories := take categoryCount (shuffle rand 0 allCategories) in
  let '(words, k) :=
    foldl (collectWords rand wordsPerCategory)
          ([], (length allCategories - 1)%nat) selectedCategories in
  (selectedCategories, shuffle rand k words).

(** The words as the component holds them. *)
Definition gameWordsOf (words : list (Category * nat)) : list WordItem :=
  (fun w => {| category := w.1 |}) <$> words.

(** *** The highest score

    A right answer earns 10 points and every third of a streak 15 more, so
    [n] words earn at most [maxScore n]. *)
Definition maxScore (n : Z) : Z := 10 * n + 15 * (n / 3).

(** The score with the most that [left] further words can add to it when
    the streak stands at [st]. *)
Definition potential (sc st left : Z) : Z :=
  sc + 10 * left + 15 * ((left + st mod 3) / 3).

(** What a run over the words [ws] keeps. *)
Definition withinBest (ws : list WordItem) (s : State) : Prop :=
  let M := maxScore (Z.of_nat (length ws)) in
  gameWords s = ws /\ 0 <= streak s /\ score s <= M /\
  Forall (fun r => 0 <= r <= M) (onComplete s) /\
  (gameOverRef s = true \/
   exists left : nat,
     potential (score s) (streak s) (Z.of_nat left) <= M /\
     ((isProcessing s = false /\ Timeouts.pending (timeouts s) = [] /\
       (left + currentIndex s = length ws)%nat) \/
      (isProcessing s = true /\
       (exists h, Timeouts.pending (timeouts s)
                  = [(h, AfterFeedback (currentIndex s))]) /\
       (left + currentIndex s + 1 = length ws)%nat))).

(** A game played through without a mistake: the player sorts every word
    into its category and every feedback timeout fires before the next
    answer. *)
Definition playThrough (ws : list WordItem) : list Event :=
  mjoin (imap (fun i w => [CategoryClick (category w); Fire (S i)]) ws).

End WordSort.

(** ** games/DigitSpan.tsx *)

Module DigitSpan.

Record Settings := { startLength : Z; maxLength : Z; displayTime : Z }.

Definition SETTINGS (d : Difficulty) : Settings :=
  match d with
  | easy => {| startLength := 3; maxLength := 6; displayTime := 1200 |}
  | normal => {| startLength := 3; maxLength := 8; displayTime := 1000 |}
  | hard => {| startLength := 4; maxLength := 10; displayTime := 800 |}
  end.

Inductive Phase := showing | input | feedback | done.

#[global] Instance Phase_eq_dec : EqDecision Phase.
Proof. solve_decision. Defined.

(** The three timeouts of [handleConfirm], with what they close over. *)
Inductive Callback :=
| NextLength (newScore sequenceLength : Z)
| GameOver (finalScore : Z)
| Retry (sequenceLength : Z).

Record State := {
  phase : Phase;
  currentSequence : list Z;
  playerInput : list Z;
  sequenceLength : Z;
  score : Z;
  showingIndex : Z;
  failCount : Z;
  longestCorrect : Z;
  lastCorrect : option bool;
  firstTryAtLength : bool;
  gameOverRef : bool;
  timeouts : Timeouts.Queue Callback;
  onComplete : list Z
}.

(** [sq] is [generateSequence(settings.startLength)]. *)
Definition init (d : Difficulty) (sq : list Z) : State :=
  {| phase := showing; currentSequence := sq; playerInput := [];
     sequenceLength := startLength (SETTINGS d); score := 0;
     showingIndex := -1; failCount := 0; longestCorrect := 0;
     lastCorrect := None; firstTryAtLength := true; gameOverRef := false;
     timeouts := Timeouts.empty; onComplete := [] |}.

Definition setPlayerInput (i : list Z) (s : State) : State :=
  {| phase := phase s; currentSequence := currentSequence s;
     playerInput := i; sequenceLength := sequenceLength s;
     score := score s; showingIndex := showingIndex s;
     failCount := failCount s; longestCorrect := longestCorrect s;
     lastCorrect := lastCorrect s; firstTryAtLength := firstTryAtLength s;
     gameOverRef := gameOverRef s; timeouts := timeouts s;
     onComplete := onComplete s |}.

Definition guarded (s : State) : bool :=
  negb (bool_decide (phase s = input)) || gameOverRef s.

Definition handleNumberPress (num : Z) (s : State) : State :=
  if guarded s then s else setPlayerInput (playerInput s ++ [num]) s.

Definition handleBackspace (s : State) : State :=
  if guarded s then s
  else setPlayerInput (take (length (playerInput s) - 1) (playerInput s)) s.

Definition handleConfirm (d : Difficulty) (s : State) : State :=
  if guarded s then s
  else
    let reversed := reverse (currentSequence s) in
    let isCorrect := bool_decide (playerInput s = reversed) in
    if isCorrect then
      let roundScore :=
        sequenceLength s * 20 + (if firstTryAtLength s then 10 else 0) in
      let newScore := score s + roundScore in
      let newLongest := Z.max (longestCorrect s) (sequenceLength s) in
      let '(q, _) :=
        Timeouts.setTimeout (NextLength newScore (sequenceLength s))
          (timeouts s) in
      {| phase := feedback; currentSequence := currentSequence s;
         playerInput := playerInput s;
         sequenceLength := sequenceLength s; score := newScore;
         showingIndex := showingIndex s; failCount := 0;
         longestCorrect := newLongest; lastCorrect := Some true;
         firstTryAtLength := firstTryAtLength s;
         gameOverRef := gameOverRef s; timeouts := q;
         onComplete := onComplete s |}
    else
      let newFailCount := failCount s + 1 in
      let maxFails := if bool_decide (d = easy) then 3 else 2 in
      let over := maxFails <=? newFailCount in
      let '(q, _) :=
        Timeouts.setTimeout
          (if over then GameOver (score s) else Retry (sequenceLength s))
          (timeouts s) in
      {| phase := feedback; currentSequence := currentSequence s;
         playerInput := playerInput s;
         sequenceLength := sequenceLength s; score := score s;
         showingIndex := showingIndex s;
         failCount := if over then failCount s else newFailCount;
         longestCorrect := longestCorrect s; lastCorrect := Some false;
         firstTryAtLength := firstTryAtLength s;
         gameOverRef := gameOverRef s; timeouts := q;
         onComplete := onComplete s |}.

(** A fresh sequence is put on display. *)
Definition show (sq : list Z) (len : Z) (firstTry : bool) (s : State)
  : State :=
  {| phase := showing; currentSequence := sq; playerInput := [];
     sequenceLength := len; score := score s; showingIndex := -1;
     failCount := failCount s; longestCorrect := longestCorrect s;
     lastCorrect := lastCorrect s; firstTryAtLength := firstTry;
     gameOverRef := gameOverRef s; timeouts := timeouts s;
     onComplete := onComplete s |}.

Definition finish (n : Z) (s : State) : State :=
  {| phase := done; currentSequence := currentSequence s;
     playerInput := playerInput s; sequenceLength := sequenceLength s;
     score := score s; showingIndex := showingIndex s;
     failCount := failCount s; longestCorrect := longestCorrect s;
     lastCorrect := lastCorrect s; firstTryAtLength := firstTryAtLength s;
     gameOverRef := true; timeouts := timeouts s;
     onComplete := onComplete s ++ [n] |}.

(** [sq] is what [generateSequence] returns if the callback calls it. *)
Definition runCallback (d : Difficulty) (sq : list Z) (c : Callback)
  (s : State) : State :=
  match c with
  | NextLength newScore len =>
      let nextLength := len + 1 in
      if maxLength (SETTINGS d) <? nextLength then finish newScore s
      else show sq nextLength true s
  | GameOver finalScore => finish finalScore s
  | Retry len => show sq (sequenceLength s) false s
  end.

(** One step of the display effects: the start delay, the next digit, or
    the switch to [input] once every digit has been shown. *)
Definition showStep (s : State) : State :=
  if negb (bool_decide (phase s = showing)) then s
  else
    let next (ph : Phase) (i : Z) :=
      {| phase := ph; currentSequence := currentSequence s;
         playerInput := playerInput s;
         sequenceLength := sequenceLength s; score := score s;
         showingIndex := i; failCount := failCount s;
         longestCorrect := longestCorrect s;
         lastCorrect := lastCorrect s;
         firstTryAtLength := firstTryAtLength s;
         gameOverRef := gameOverRef s; timeouts := timeouts s;
         onComplete := onComplete s |} in
    if showingIndex s <? 0 then next showing 0
    else if Z.of_nat (length (currentSequence s)) <=? showingIndex s
         then next input (-1)
         else next showing (showingIndex s + 1).

Definition setTimeouts (q : Timeouts.Queue Callback) (s : State) : State :=
  {| phase := phase s; currentSequence := currentSequence s;
     playerInput := playerInput s; sequenceLength := sequenceLength s;
     score := score s; showingIndex := showingIndex s;
     failCount := failCount s; longestCorrect := longestCorrect s;
     lastCorrect := lastCorrect s; firstTryAtLength := firstTryAtLength s;
     gameOverRef := gameOverRef s; timeouts := q;
     onComplete := onComplete s |}.

Inductive Event :=
| NumberPress (num : Z)
| Backspace
| Confirm
| ShowStep
| Fire (handle : nat) (sq : list Z).

Definition step (d : Difficulty) (e : Event) (s : State) : State :=
  match e with
  | NumberPress num => handleNumberPress num s
  | Backspace => handleBackspace s
  | Confirm => handleConfirm d s
  | ShowStep => showStep s
  | Fire h sq =>
      match Timeouts.lookup h (timeouts s) with
      | Some c =>
          runCallback d sq c
            (setTimeouts (Timeouts.remove h (timeouts s)) s)
      | None => s
      end
  end.

Definition run (d : Difficulty) (es : list Event) (s : State) : State :=
  foldl (fun acc e => step d e acc) s es.

End DigitSpan.

(** ** games/MemoryMatch.tsx *)

Module MemoryMatch.

Record Settings := { pairs : Z; cols : Z; rows : Z; timeLimit : Z }.

Definition DIFFICULTY_SETTINGS (d : Difficulty) : Settings :=
  match d with
  | easy => {| pairs := 3; cols := 3; rows := 2; timeLimit := 0 |}
  | normal => {| pairs := 6; cols := 4; rows := 3; timeLimit := 0 |}
  | hard => {| pairs := 8; cols := 4; rows := 4; timeLimit := 60 |}
  end.

(** [icon] is the position of the icon in [CARD_ICONS]. *)
Record Card := { id : nat; icon : nat; flipped : bool; matched : bool }.

Inductive Callback :=
| MatchFound (first second : nat)
| NoMatch (first second : nat).

Record State := {
  cards : list Card;
  flippedIndices : list nat;
  errors : Z;
  matches : Z;
  timeLeft : Z;
  gameStarted : bool;
  isChecking : bool;
  gameOver : bool;
  startTime : Z;
  timeouts : Timeouts.Queue Callback;
  onComplete : list Z
}.

(** [cs] is [createCards(settings.pairs)]. *)
Definition init (d : Difficulty) (cs : list Card) : State :=
  {| cards := cs; flippedIndices := []; errors := 0; matches := 0;
     timeLeft := timeLimit (DIFFICULTY_SETTINGS d); gameStarted := false;
     isChecking := false; gameOver := false; startTime := 0;
     timeouts := Timeouts.empty; onComplete := [] |}.

Definition calculateScore (d : Difficulty)
  (matchCount errorCount timeUsed : Z) : Z :=
  let limit := timeLimit (DIFFICULTY_SETTINGS d) in
  let score := matchCount * 100 - errorCount * 10 in
  let score :=
    if 0 <? limit then score + Z.max 0 ((limit - timeUsed) * 2)
    else score in
  Z.max 0 score.

Definition flipCard (b : bool) (c : Card) : Card :=
  {| id := id c; icon := icon c; flipped := b; matched := matched c |}.

Definition matchCard (c : Card) : Card :=
  {| id := id c; icon := icon c; flipped := flipped c; matched := true |}.

Definition handleCardClick (index : nat) (now : Z) (s : State) : State :=
  if gameOver s then s
  else if isChecking s then s
  else
    match cards s !! index with
    | None => s      (* [cards[index]] is [undefined]: the read throws *)
    | Some card =>
        if flipped card || matched card then s
        else if (2 <=? length (flippedIndices s))%nat then s
        else
          let newCards := <[index := flipCard true card]> (cards s) in
          let newFlipped := flippedIndices s ++ [index] in
          let started := gameStarted s in
          match newFlipped with
          | [first; second] =>
              let same :=
                bool_decide (icon <$> newCards !! first =
                             icon <$> newCards !! second) in
              let '(q, _) :=
                Timeouts.setTimeout
                  (if same then MatchFound first second
                   else NoMatch first second) (timeouts s) in
              {| cards := newCards; flippedIndices := newFlipped;
                 errors := if same then errors s else errors s + 1;
                 matches := matches s; timeLeft := timeLeft s;
                 gameStarted := true; isChecking := true;
                 gameOver := gameOver s;
                 startTime := if started then startTime s else now;
                 timeouts := q; onComplete := onComplete s |}
          | _ =>
              {| cards := newCards; flippedIndices := newFlipped;
                 errors := errors s; matches := matches s;
                 timeLeft := timeLeft s; gameStarted := true;
                 isChecking := isChecking s; gameOver := gameOver s;
                 startTime := if started then startTime s else now;
                 timeouts := timeouts s; onComplete := onComplete s |}
          end
    end.

Definition mapAt (f : Card -> Card) (first second : nat)
  (cs : list Card) : list Card :=
  imap (fun i card =>
          if bool_decide (i = first) || bool_decide (i = second)
          then f card else card) cs.

Definition runCallback (c : Callback) (s : State) : State :=
  match c with
  | MatchFound first second =>
      {| cards := mapAt matchCard first second (cards s);
         flippedIndices := []; errors := errors s;
         matches := matches s + 1; timeLeft := timeLeft s;
         gameStarted := gameStarted s; isChecking := false;
         gameOver := gameOver s; startTime := startTime s;
         timeouts := timeouts s; onComplete := onComplete s |}
  | NoMatch first second =>
      {| cards := mapAt (flipCard false) first second (cards s);
         flippedIndices := []; errors := errors s;
         matches := matches s; timeLeft := timeLeft s;
         gameStarted := gameStarted s; isChecking := false;
         gameOver := gameOver s; startTime := startTime s;
         timeouts := timeouts s; onComplete := onComplete s |}
  end.

Definition complete (n : Z) (s : State) : State :=
  {| cards := cards s; flippedIndices := flippedIndices s;
     errors := errors s; matches := matches s; timeLeft := timeLeft s;
     gameStarted := gameStarted s; isChecking := isChecking s;
     gameOver := true; startTime := startTime s;
     timeouts := timeouts s; onComplete := onComplete s ++ [n] |}.

(** The two completion effects, run after a render; [now] is [Date.now()]. *)
Definition effects (d : Difficulty) (now : Z) (s : State) : State :=
  let limit := timeLimit (DIFFICULTY_SETTINGS d) in
  let s :=
    if (0 <? limit) && gameStarted s && (timeLeft s =? 0) &&
       negb (gameOver s)
    then complete (calculateScore d (matches s) (errors s) limit) s
    else s in
  if (matches s =? pairs (DIFFICULTY_SETTINGS d)) && (0 <? matches s) &&
     negb (gameOver s)
  then
    let timeUsed :=
      if 0 <? limit then limit - timeLeft s
      else if 0 <? startTime s then (now - startTime s) / 1000
      else 0 in
    complete (calculateScore d (matches s) (errors s) timeUsed) s
  else s.

Definition setTimeouts (q : Timeouts.Queue Callback) (s : State) : State :=
  {| cards := cards s; flippedIndices := flippedIndices s;
     errors := errors s; matches := matches s; timeLeft := timeLeft s;
     gameStarted := gameStarted s; isChecking := isChecking s;
     gameOver := gameOver s; startTime := startTime s;
     timeouts := q; onComplete := onComplete s |}.

(** One tick of the countdown of the timed mode. *)
Definition tick (d : Difficulty) (s : State) : State :=
  if gameStarted s && negb (timeLimit (DIFFICULTY_SETTINGS d) =? 0) &&
     (0 <? timeLeft s)
  then
    {| cards := cards s; flippedIndices := flippedIndices s;
       errors := errors s; matches := matches s;
       timeLeft := if timeLeft s <=? 1 then 0 else timeLeft s - 1;
       gameStarted := gameStarted s; isChecking := isChecking s;
       gameOver := gameOver s; startTime := startTime s;
       timeouts := timeouts s; onComplete := onComplete s |}
  else s.

Inductive Event :=
| CardClick (index : nat) (now : Z)
| Tick (now : Z)
| Fire (handle : nat) (now : Z).

Definition step (d : Difficulty) (e : Event) (s : State) : State :=
  match e with
  | CardClick index now => effects d now (handleCardClick index now s)
  | Tick now => effects d now (tick d s)
  | Fire h now =>
      match Timeouts.lookup h (timeouts s) with
      | Some c =>
          effects d now
            (runCallback c
               (setTimeouts (Timeouts.remove h (timeouts s)) s))
      | None => s
      end
  end.

Definition run (d : Difficulty) (es : list Event) (s : State) : State :=
  foldl (fun acc e => step d e acc) s es.

(** *** The deck *)

(** The twelve icons of [CARD_ICONS], by position. *)
Definition CARD_ICONS : list nat := seq 0 12.

(** [createCards(pairs)], drawing from draw [0] on. *)
Definition createCards (rand : nat -> Q) (pairs : Z) : list Card :=
  let icons := take (Z.to_nat pairs) (shuffle rand 0 CARD_ICONS) in
  let doubled := icons ++ icons in
  let shuffled := shuffle rand (length CARD_ICONS - 1) doubled in
  imap (fun index icon =>
          {| id := index; icon := icon; flipped := false;
             matched := false |}) shuffled.

End MemoryMatch.

(** ** Sessions used as examples *)

Module Scenarios.

Definition sampleRecord (n : nat) : Storage.TrainingRecord :=
  {| Storage.gameId := schulte; Storage.difficulty := normal;
     Storage.score := Z.of_nat n; Storage.timestamp := 1000 + Z.of_nat n |}.

Definition emptyStorage : Storage.LocalStorage :=
  {| Storage.cogpark_best_scores := None; Storage.cogpark_records := None |}.

(** An easy grid: nine cells clicked in order, some ticks in between, up
    to the click that completes it. *)
Definition schulteEasyBoard : list Z := [3; 1; 2; 9; 8; 7; 4; 5; 6].

Definition schulteEasyLastClick : SchulteGrid.State :=
  SchulteGrid.run easy
    [SchulteGrid.CellClick 1; SchulteGrid.Tick; SchulteGrid.CellClick 2;
     SchulteGrid.CellClick 0; SchulteGrid.Tick; SchulteGrid.Tick;
     SchulteGrid.CellClick 6; SchulteGrid.CellClick 7;
     SchulteGrid.CellClick 8; SchulteGrid.Tick; SchulteGrid.CellClick 5;
     SchulteGrid.CellClick 4]
    (SchulteGrid.init schulteEasyBoard).

Definition pathFires (n : nat) : list PathMemory.Event :=
  replicate n (PathMemory.TimerFire [0; 1; 2]).

(** Round one on the path [0; 1]: a wrong cell, the retry, then the right
    cells; round two on the path [0; 1; 2]: a wrong cell again. *)
Definition pathTwoRetries : list PathMemory.Event :=
  pathFires 6 ++ [PathMemory.CellClick 5] ++
  pathFires 6 ++ [PathMemory.CellClick 0; PathMemory.CellClick 1] ++
  pathFires 9 ++ [PathMemory.CellClick 7].

(** Round one of an easy path session after the retry has been used: the
    path [0; 1] is on display again and the player is to answer. *)
Definition pathRetryUsed : PathMemory.State :=
  PathMemory.run easy
    (pathFires 6 ++ [PathMemory.CellClick 5] ++ pathFires 6)
    (PathMemory.init easy [0; 1]).

(** An arithmetic problem with answer 7, and one with answer 12. *)
Definition sevenProblem : ArithmeticChallenge.Problem :=
  {| ArithmeticChallenge.answer := 7;
     ArithmeticChallenge.options := [7; 8; 5; 9] |}.

Definition twelveProblem : ArithmeticChallenge.Problem :=
  {| ArithmeticChallenge.answer := 12;
     ArithmeticChallenge.options := [11; 12; 14; 9] |}.

(** Random draws of the reaction game: the shortest delays of the hard
    mode, without and with a trick signal. *)
Definition plainDraw : ReactionTest.Random :=
  {| ReactionTest.delay := 500; ReactionTest.trick := false;
     ReactionTest.secondDelay := 800 |}.

Definition trickDraw : ReactionTest.Random :=
  {| ReactionTest.delay := 500; ReactionTest.trick := true;
     ReactionTest.secondDelay := 800 |}.

(** [n + 1] ordinary trials answered [rt] ms after the signal; the trial
    that follows is armed with a trick signal. *)
Definition reactionTrials (n : nat) (rt : Q) : list ReactionTest.Event :=
  [ReactionTest.Fire plainDraw] ++
  concat (replicate n
            [ReactionTest.Fire plainDraw; ReactionTest.Click rt;
             ReactionTest.Fire plainDraw]) ++
  [ReactionTest.Fire plainDraw; ReactionTest.Click rt;
   ReactionTest.Fire trickDraw].

(** Hard mode, trial 14 of 15 shows a trick signal (time T).
    - T + 100: click on the trick signal; the advance timer S is armed.
    - T + 150: the trick signal is withdrawn, phase [ready].
    - T + 950: the real signal.
    - T + 1200: click, trial 15 recorded: completion timer O1.
    - T + 1600: S fires and starts another trial (a trick one).
    - T + 2100: its trick signal.
    - T + 2110: click, a sixteenth time recorded: completion timer O2.
    - T + 2250: the trick signal is withdrawn, phase [ready].
    - T + 2300: click, too early: advance timer X replaces O2 in the ref.
    - T + 2700: O1 fires: [onComplete], the game is unmounted, X cleared.
    - T + 3610: O2 fires: [onComplete] again. *)
Definition reactionRace : list ReactionTest.Event :=
  reactionTrials 12 300 ++
  [ReactionTest.Fire trickDraw; ReactionTest.Click 100;
   ReactionTest.Fire trickDraw; ReactionTest.Fire trickDraw;
   ReactionTest.Click 250;
   ReactionTest.Fire trickDraw; ReactionTest.Fire trickDraw;
   ReactionTest.Click 10;
   ReactionTest.Fire trickDraw;
   ReactionTest.Click 50;
   ReactionTest.Fire trickDraw; ReactionTest.Fire trickDraw].

(** Hard mode, trial 14 of 15 shows a trick signal (time T = 31400) and is
    clicked at T + 100: the trial is recorded and the advance is scheduled
    for T + 1600, while the timer that withdraws the trick signal at
    T + 150 stays pending. *)
Definition reactionTrickHit : list ReactionTest.Event :=
  reactionTrials 12 300 ++
  [ReactionTest.Fire trickDraw; ReactionTest.Click 100].

(** Then the trick signal is withdrawn (T + 150), the real signal is shown
    (T + 950) and clicked at T + 1200, 400 ms before the advance is due. *)
Definition reactionSecondHit : list ReactionTest.Event :=
  reactionTrickHit ++
  [ReactionTest.Fire trickDraw; ReactionTest.Fire trickDraw;
   ReactionTest.Click 250].

(** Hard mode: fourteen trials answered after 800 ms (no points), then a
    trick signal clicked 149.6 ms after it appeared, 0.4 ms before it is
    withdrawn. *)
Definition reactionTrickClick : list ReactionTest.Event :=
  reactionTrials 13 800 ++
  [ReactionTest.Fire trickDraw; ReactionTest.Click (748 # 5)].

Definition reactionTrickSession : list ReactionTest.Event :=
  reactionTrickClick ++
  [ReactionTest.Fire trickDraw; ReactionTest.Fire trickDraw;
   ReactionTest.Fire trickDraw].

End Scenarios.

(** ** The click handlers of the nine games, side by side *)

Module Session.

Definition State (g : GameId) : Type :=
  match g with
  | memory => MemoryMatch.State
  | schulte => SchulteGrid.State
  | stroop => StroopTest.State
  | wordSort => WordSort.State
  | pathMemory => PathMemory.State
  | reaction => ReactionTest.State
  | digitSpan => DigitSpan.State
  | arithmetic => ArithmeticChallenge.State
  | patternReason => PatternReason.State
  end.

(** The three kinds of key of the digit pad. *)
Inductive Key := NumberKey (num : Z) | BackspaceKey | ConfirmKey.

(** What a click carries: the argument of the handler and, where the
    handler reads the clock, the time it reads. *)
Definition Input (g : GameId) : Type :=
  match g with
  | memory => (nat * Z)%type
  | schulte => nat
  | stroop => (StroopTest.ColorName * Z)%type
  | wordSort => WordSort.Category
  | pathMemory => Z
  | reaction => unit
  | digitSpan => Key
  | arithmetic => Z
  | patternReason => (Z * Z)%type
  end.

Definition handler (g : GameId) (d : Difficulty)
  : Input g -> State g -> State g :=
  match g with
  | memory => fun i s => MemoryMatch.handleCardClick (fst i) (snd i) s
  | schulte => fun i s => SchulteGrid.handleCellClick d i s
  | stroop => fun i s => StroopTest.handleOptionClick d (fst i) (snd i) s
  | wordSort => fun i s => WordSort.handleCategoryClick i s
  | pathMemory => fun i s => PathMemory.handleCellClick d i s
  | reaction => fun _ s => ReactionTest.handleCircleClick d s
  | digitSpan =>
      fun i s =>
        match i with
        | NumberKey num => DigitSpan.handleNumberPress num s
        | BackspaceKey => DigitSpan.handleBackspace s
        | ConfirmKey => DigitSpan.handleConfirm d s
        end
  | arithmetic => fun i s => ArithmeticChallenge.handleOptionClick d i s
  | patternReason =>
      fun i s => PatternReason.handleOptionClick d (fst i) (snd i) s
  end.

(** The guard of each game: the processing flag where the game has one
    ([isProcessing], [isProcessingRef], [isChecking]), else the phase or
    ref that stands while a transition is pending. *)
Definition processing (g : GameId) : State g -> bool :=
  match g with
  | memory => fun s => MemoryMatch.isChecking s
  | schulte => fun s => SchulteGrid.finishedRef s
  | stroop => fun s => StroopTest.isProcessing s
  | wordSort => fun s => WordSort.isProcessing s
  | pathMemory =>
      fun s => negb (bool_decide (PathMemory.phase s = PathMemory.input))
  | reaction =>
      fun s =>
        match ReactionTest.phase s with
        | ReactionTest.result | ReactionTest.tooEarly => true
        | _ => false
        end
  | digitSpan =>
      fun s => negb (bool_decide (DigitSpan.phase s = DigitSpan.input))
  | arithmetic => fun s => ArithmeticChallenge.isProcessingRef s
  | patternReason => fun s => PatternReason.isProcessing s
  end.

(** What the completion callback is allowed to have logged: nothing yet,
    or one score that is not negative. *)
Definition completedAtMostOnce (log : list Z) : Prop :=
  log = [] \/ exists n : Z, log = [n] /\ 0 <= n.

End Session.

(** ** Invariants of the sessions *)

Module Invariants.

Definition wordSort (s : WordSort.State) : Prop :=
  (WordSort.completedRef s = false /\ WordSort.onComplete s = []) \/
  (WordSort.completedRef s = true /\
   exists n, WordSort.onComplete s = [n] /\ 0 <= n).

Definition memoryMatch (s : MemoryMatch.State) : Prop :=
  (MemoryMatch.gameOver s = false /\ MemoryMatch.onComplete s = []) \/
  (MemoryMatch.gameOver s = true /\
   exists n, MemoryMatch.onComplete s = [n] /\ 0 <= n).

Definition schulteGrid (s : SchulteGrid.State) : Prop :=
  (SchulteGrid.finishedRef s = false /\ SchulteGrid.deferred s = [] /\
   SchulteGrid.onComplete s = []) \/
  (SchulteGrid.finishedRef s = true /\
   exists n, 0 <= n /\
     ((SchulteGrid.deferred s = [n] /\ SchulteGrid.onComplete s = []) \/
      (SchulteGrid.deferred s = [] /\ SchulteGrid.onComplete s = [n]))).

Definition arithmetic (s : ArithmeticChallenge.State) : Prop :=
  0 <= ArithmeticChallenge.streak s /\
  0 <= ArithmeticChallenge.score s /\
  0 <= ArithmeticChallenge.scoreRef s /\
  ((ArithmeticChallenge.timerRef s = true /\
    ArithmeticChallenge.onComplete s = []) \/
   (ArithmeticChallenge.timerRef s = false /\
    exists n, ArithmeticChallenge.onComplete s = [n] /\ 0 <= n)).

(** A question game is idle, awaits its one feedback timeout, or has
    reported its score. *)
Definition patternReason (s : PatternReason.State) : Prop :=
  0 <= PatternReason.score s /\
  0 <= PatternReason.scoreRef s /\
  ((Timeouts.pending (PatternReason.timeouts s) = [] /\
    (PatternReason.isProcessing s = false ->
     PatternReason.onComplete s = []) /\
    Session.completedAtMostOnce (PatternReason.onComplete s)) \/
   (exists h c,
      Timeouts.pending (PatternReason.timeouts s) = [(h, c)] /\
      PatternReason.isProcessing s = true /\
      PatternReason.onComplete s = [])).

Definition stroopTest (s : StroopTest.State) : Prop :=
  0 <= StroopTest.score s /\
  0 <= StroopTest.scoreRef s /\
  0 <= StroopTest.streak s /\
  ((Timeouts.pending (StroopTest.timeouts s) = [] /\
    (StroopTest.isProcessing s = false -> StroopTest.onComplete s = []) /\
    Session.completedAtMostOnce (StroopTest.onComplete s)) \/
   (exists h c,
      Timeouts.pending (StroopTest.timeouts s) = [(h, c)] /\
      StroopTest.isProcessing s = true /\
      StroopTest.onComplete s = [])).

Definition digitSpanCallback (c : DigitSpan.Callback) : Prop :=
  match c with
  | DigitSpan.NextLength newScore len => 0 <= newScore /\ 0 <= len
  | DigitSpan.GameOver finalScore => 0 <= finalScore
  | DigitSpan.Retry _ => True
  end.

Definition digitSpan (s : DigitSpan.State) : Prop :=
  0 <= DigitSpan.score s /\
  0 <= DigitSpan.sequenceLength s /\
  ((Timeouts.pending (DigitSpan.timeouts s) = [] /\
    ((DigitSpan.gameOverRef s = false /\ DigitSpan.onComplete s = []) \/
     (DigitSpan.gameOverRef s = true /\
      DigitSpan.phase s = DigitSpan.done /\
      exists n, DigitSpan.onComplete s = [n] /\ 0 <= n))) \/
   (exists h c,
      Timeouts.pending (DigitSpan.timeouts s) = [(h, c)] /\
      DigitSpan.phase s = DigitSpan.feedback /\
      DigitSpan.gameOverRef s = false /\
      DigitSpan.onComplete s = [] /\
      digitSpanCallback c)).

Definition highlightOnly (c : PathMemory.Callback) : Prop :=
  match c with
  | PathMemory.HighlightOn _ | PathMemory.HighlightOff => True
  | _ => False
  end.

(** The pending timers of the path game: none while the player answers or
    after the score is reported, otherwise the rest of a display or the
    one timer of a transition. *)
Definition pathTimers (s : PathMemory.State) : Prop :=
  (exists pre,
     PathMemory.timeouts s = pre ++ [PathMemory.ToInput] /\
     Forall highlightOnly pre) \/
  (exists sq, PathMemory.timeouts s = [PathMemory.ShowSequence sq]) \/
  (exists sq, PathMemory.timeouts s = [PathMemory.RetryShow sq]) \/
  (exists len, PathMemory.timeouts s = [PathMemory.NextRound len]) \/
  (exists n, 0 <= n /\ PathMemory.timeouts s = [PathMemory.CompleteMax n]) \/
  (exists n, 0 <= n /\ PathMemory.timeouts s = [PathMemory.CompleteFail n] /\
             PathMemory.phase s = PathMemory.gameover).

Definition pathMemory (s : PathMemory.State) : Prop :=
  0 <= PathMemory.score s /\
  ((PathMemory.timeouts s = [] /\ PathMemory.phase s = PathMemory.input /\
    PathMemory.onComplete s = []) \/
   (PathMemory.timeouts s = [] /\ PathMemory.phase s = PathMemory.gameover /\
    exists n, PathMemory.onComplete s = [n] /\ 0 <= n) \/
   (PathMemory.onComplete s = [] /\
    PathMemory.phase s <> PathMemory.input /\ pathTimers s)).

End Invariants.

(** ** components/RadarChart.tsx

    The length of the spoke drawn for a score; the angle of the spoke is
    fixed by the position of the dimension and is not modelled. *)

Module RadarChart.

Definition MAX_RADIUS : Z := 120.

Definition clamped (score : Z) : Z := Z.max 0 (Z.min 100 score).

(** [(clamped / 100) * MAX_RADIUS], in doubles. *)
Definition radius (score : Z) : Q :=
  double (double (inject_Z (clamped score) / 100) * inject_Z MAX_RADIUS).

End RadarChart.

(** ** components/MainMenu.tsx *)

Module MainMenu.

Definition allCompleted (scores : gmap GameId Z) : bool :=
  forallb (fun g => bool_decide (is_Some (scores !! g))) GAMES.

(** The numerator of the progress label. *)
Definition progress (scores : gmap GameId Z) : nat :=
  length (filter (fun g => is_Some (scores !! g)) GAMES).

(** Is the best-score line of a card rendered? *)
Definition showsBest (best : option Z) : bool :=
  match best with
  | Some b => 0 <? b
  | None => false
  end.

End MainMenu.

(** ** components/TrainingHistory.tsx *)

Module TrainingHistory.
Import Storage.

(** The [filter] cell: ['all'] or a game id. *)
Inductive Filter := all | only (g : GameId).

(** The records as the page holds them: read once at mount, newest
    first. *)
Definition records (st : LocalStorage) : list TrainingRecord :=
  reverse (loadRecords st).

Definition filtered (f : Filter) (rs : list TrainingRecord)
  : list TrainingRecord :=
  match f with
  | all => rs
  | only g => filter (fun r => gameId r = g) rs
  end.

Definition totalGames (rs : list TrainingRecord) : nat := length rs.

(** [todayStart] is [todayStart.getTime()]. *)
Definition todayCount (todayStart : Z) (rs : list TrainingRecord) : nat :=
  length (filter (fun r => todayStart <= timestamp r) rs).

Definition avgScore (rs : list TrainingRecord) : Z :=
  if (0 <? totalGames rs)%nat
  then Math_round
         (inject_Z (foldl (fun s r => s + score r) 0 rs)
          / inject_Z (Z.of_nat (totalGames rs)))
  else 0.

(** What [handleClear] does to [localStorage]; it then calls [onBack]. *)
Definition handleClear (st : LocalStorage) : LocalStorage := clearRecords st.

End TrainingHistory.

(** ** components/GameWrapper.tsx *)

Module GameWrapper.

Inductive Phase := playing | finished.

#[global] Instance Phase_eq_dec : EqDecision Phase.
Proof. solve_decision. Defined.

Record State := { phase : Phase; score : Z; bestScore : option Z }.

Definition init : State :=
  {| phase := playing; score := 0; bestScore := None |}.

(** [st] is [localStorage] at the call. *)
Definition handleComplete (g : GameId) (st : Storage.LocalStorage)
  (finalScore : Z) (s : State) : State :=
  {| phase := finished; score := finalScore;
     bestScore := Storage.loadBestScores st !! g |}.

Definition handleRetry (s : State) : State :=
  {| phase := playing; score := score s; bestScore := bestScore s |}.

(** Is the new-record banner rendered (rather than the best-score line)? *)
Definition newRecord (s : State) : bool :=
  match bestScore s with
  | None => true
  | Some best => best <? score s
  end.

Inductive Event :=
| Complete (finalScore : Z)    (* the game calls [onComplete] *)
| Retry                        (* the retry button of the finished screen *)
| Finish                       (* its back-to-menu button *)
| Back.                        (* the arrow of the header *)

(** What the wrapper asks of [App]. *)
Inductive Output := OnFinish (score : Z) | OnBack.

(** The two buttons of the finished screen exist in that phase only. *)
Definition step (g : GameId) (st : Storage.LocalStorage) (e : Event)
  (s : State) : State * option Output :=
  match e with
  | Complete finalScore => (handleComplete g st finalScore s, None)
  | Retry =>
      (if bool_decide (phase s = finished) then handleRetry s else s, None)
  | Finish =>
      (s, if bool_decide (phase s = finished)
          then Some (OnFinish (score s)) else None)
  | Back => (s, Some OnBack)
  end.

(** The wrapper lives until it has asked [App] to leave the page. *)
Fixpoint run (g : GameId) (st : Storage.LocalStorage) (es : list Event)
  (s : State) : State * option Output :=
  match es with
  | [] => (s, None)
  | e :: es' =>
      match step g st e s with
      | (s', None) => run g st es' s'
      | r => r
      end
  end.

(** The score on the finished screen after the events [es], if that screen
    is up. *)
Definition onScreen (es : list Event) : option Z :=
  foldl (fun acc e =>
           match e with
           | Complete n => Some n
           | Retry => None
           | _ => acc
           end) None es.

End GameWrapper.

(** ** App.tsx: the pages *)

Module AppPages.

Inductive Page := menu | game | result | history.

#[global] Instance Page_eq_dec : EqDecision Page.
Proof. solve_decision. Defined.

(** The cells of [App]: [app] holds [difficulty] and [scores] together
    with [localStorage]; [bestScores] and [recordCount] are copies of what
    was stored when they were last set. *)
Record State := {
  page : Page;
  currentGame : option GameId;
  bestScores : gmap GameId Z;
  recordCount : nat;
  app : App.State
}.

(** The initial [scores]: the stored best of a game if it is positive. *)
Definition initialScores (st : Storage.LocalStorage) : gmap GameId Z :=
  filter (fun kv => 0 < kv.2) (Storage.loadBestScores st).

(** The component at its first render (a page load). *)
Definition init (st : Storage.LocalStorage) : State :=
  {| page := menu; currentGame := None;
     bestScores := Storage.loadBestScores st;
     recordCount := length (Storage.loadRecords st);
     app := {| App.difficulty := normal; App.scores := initialScores st;
               App.storage := st |} |}.

Definition setPage (p : Page) (s : State) : State :=
  {| page := p; currentGame := currentGame s; bestScores := bestScores s;
     recordCount := recordCount s; app := app s |}.

Definition startGame (gameId : GameId) (diff : Difficulty) (s : State)
  : State :=
  {| page := game; currentGame := Some gameId; bestScores := bestScores s;
     recordCount := recordCount s; app := App.startGame diff (app s) |}.

Definition finishGame (gameId : GameId) (score now : Z) (s : State)
  : State :=
  let a := App.finishGame gameId score now (app s) in
  {| page := menu; currentGame := currentGame s;
     bestScores := Storage.loadBestScores (App.storage a);
     recordCount := length (Storage.loadRecords (App.storage a));
     app := a |}.

Definition showResult : State -> State := setPage result.
Definition showHistory : State -> State := setPage history.
Definition backToMenu : State -> State := setPage menu.

(** The child that [App] renders. *)
Inductive View :=
| GameWrapperView (gameId : GameId) (difficulty : Difficulty)
| ResultPageView
| TrainingHistoryView
| MainMenuView.

Definition render (s : State) : View :=
  match page s, currentGame s with
  | game, Some g => GameWrapperView g (App.difficulty (app s))
  | result, _ => ResultPageView
  | history, _ => TrainingHistoryView
  | _, _ => MainMenuView
  end.

(** What the rendered child can ask of [App]. *)
Inductive Event :=
| StartGame (gameId : GameId) (diff : Difficulty)   (* menu: card, level *)
| ShowResult                      (* menu: the profile button *)
| ShowHistory                     (* menu: the records button *)
| Finish (score now : Z)          (* wrapper: [onFinish(score)] *)
| Back                            (* wrapper, profile, history: [onBack] *)
| ClearHistory.                   (* history: [handleClear] *)

(** An event is refused ([None]) when the control that raises it is not
    rendered: the profile button needs every game to have a score, the
    clear button a record on the history page. *)
Definition step (e : Event) (s : State) : option State :=
  match e, render s with
  | StartGame g d, MainMenuView => Some (startGame g d s)
  | ShowResult, MainMenuView =>
      if MainMenu.allCompleted (App.scores (app s))
      then Some (showResult s) else None
  | ShowHistory, MainMenuView => Some (showHistory s)
  | Finish score now, GameWrapperView g _ => Some (finishGame g score now s)
  | Back, (GameWrapperView _ _ | ResultPageView | TrainingHistoryView) =>
      Some (backToMenu s)
  | ClearHistory, TrainingHistoryView =>
      let st := App.storage (app s) in
      if (0 <? TrainingHistory.totalGames (TrainingHistory.records st))%nat
      then
        Some (backToMenu
                {| page := page s; currentGame := currentGame s;
                   bestScores := bestScores s;
                   recordCount := recordCount s;
                   app := {| App.difficulty := App.difficulty (app s);
                             App.scores := App.scores (app s);
                             App.storage :=
                               TrainingHistory.handleClear st |} |})
      else None
  | _, _ => None
  end.

Fixpoint run (es : list Event) (s : State) : option State :=
  match es with
  | [] => Some s
  | e :: es' =>
      match step e s with
      | Some s' => run es' s'
      | None => None
      end
  end.

(** The copies held by [App] agree with [localStorage]. *)
Definition inSync (s : State) : Prop :=
  bestScores s = Storage.loadBestScores (App.storage (app s)) /\
  recordCount s = length (Storage.loadRecords (App.storage (app s))).

Definition isClear (e : Event) : bool :=
  match e with ClearHistory => true | _ => false end.

End AppPages.

(** * Properties *)

Import Scenarios.

(** ** Arithmetic helpers *)

Lemma Math_round_comp (x y : Q) : (x == y)%Q -> Math_round x = Math_round y.
Proof.
  intros H. unfold Math_round. apply Qfloor_comp. now rewrite H.
Qed.

Lemma Math_round_Z (z : Z) : Math_round (inject_Z z) = z.
Proof.
  unfold Math_round, inject_Z, Qplus, Qfloor. simpl.
  rewrite Z.mul_1_r. replace (z * 2 + 1) with (1 + z * 2) by lia.
  rewrite Z.div_add by lia. reflexivity.
Qed.

Lemma Math_round_div (n d : Z) :
  0 < d -> Math_round (inject_Z n / inject_Z d) = round_half_up n d.
Proof.
  intros Hd. destruct d as [|p|p]; try lia.
  unfold Math_round, round_half_up.
  assert (E : (inject_Z n / inject_Z (Z.pos p) + (1 # 2)
               == (2 * n + Z.pos p) # (2 * p))%Q).
  { unfold Qeq, Qdiv, Qmult, Qinv, Qplus, inject_Z. simpl.
    rewrite !Pos2Z.inj_mul. ring. }
  rewrite (Qfloor_comp _ _ E). reflexivity.
Qed.

Lemma round_half_up_nearest (n d : Z) :
  0 < d ->
  2 * d * round_half_up n d <= 2 * n + d < 2 * d * (round_half_up n d + 1).
Proof.
  intros Hd. unfold round_half_up.
  pose proof (Z.mul_div_le (2 * n + d) (2 * d) ltac:(lia)).
  pose proof (Z.mul_succ_div_gt (2 * n + d) (2 * d) ltac:(lia)).
  lia.
Qed.

(** ** Doubles *)

Lemma roundNE_bounds (x : Q) : Qfloor x <= roundNE x <= Qfloor x + 1.
Proof.
  unfold roundNE. cbv zeta.
  destruct (x - inject_Z (Qfloor x) ?= 1 # 2)%Q; [destruct (Z.even _)| |]; lia.
Qed.

Lemma roundNE_comp (x y : Q) : (x == y)%Q -> roundNE x = roundNE y.
Proof.
  intros H. unfold roundNE. cbv zeta.
  rewrite (Qfloor_comp x y H).
  replace (x - inject_Z (Qfloor y) ?= 1 # 2)%Q
    with (y - inject_Z (Qfloor y) ?= 1 # 2)%Q; [reflexivity|].
  apply Qcompare_comp; [now rewrite H | reflexivity].
Qed.

Lemma roundNE_inject_Z (z : Z) : roundNE (inject_Z z) = z.
Proof.
  unfold roundNE. cbv zeta. rewrite Qfloor_Z.
  destruct (Qcompare_spec (inject_Z z - inject_Z z) (1 # 2)) as [H|H|H];
    [lra | reflexivity | lra].
Qed.

Lemma roundNE_mono (x y : Q) : (x <= y)%Q -> roundNE x <= roundNE y.
Proof.
  intros H. pose proof (Qfloor_resp_le x y H) as Hf.
  pose proof (roundNE_bounds x). pose proof (roundNE_bounds y).
  destruct (Z.eq_dec (Qfloor x) (Qfloor y)) as [E|E]; [|lia].
  unfold roundNE. cbv zeta. rewrite E.
  destruct (Qcompare_spec (x - inject_Z (Qfloor y)) (1 # 2)) as [Hx|Hx|Hx];
    destruct (Qcompare_spec (y - inject_Z (Qfloor y)) (1 # 2)) as [Hy|Hy|Hy];
    try destruct (Z.even _); try lia; lra.
Qed.

Lemma pow2_pos (e : Z) : (0 < 2 ^ e)%Q.
Proof. apply Qpower_0_lt. reflexivity. Qed.

Lemma pow2_plus (a b : Z) : (2 ^ (a + b) == 2 ^ a * 2 ^ b)%Q.
Proof. apply Qpower_plus. discriminate. Qed.

Lemma pow2_succ (e : Z) : (2 ^ (e + 1) == 2 * 2 ^ e)%Q.
Proof. rewrite pow2_plus. change (2 ^ 1)%Q with 2%Q. ring. Qed.

Lemma pow2_le (a b : Z) : a <= b -> (2 ^ a <= 2 ^ b)%Q.
Proof. intros H. apply Qpower_le_compat_l; [exact H | discriminate]. Qed.

Lemma pow2_inject (n : Z) : 0 <= n -> (inject_Z (2 ^ n) == 2 ^ n)%Q.
Proof. intros H. now rewrite Zpower_Qpower. Qed.

(** Two binades that share a point are one. *)
Lemma binade_unique_aux (x : Q) (e e' : Z) :
  (2 ^ e <= x)%Q -> (x < 2 ^ (e' + 1))%Q -> e <= e'.
Proof.
  intros H1 H2. enough (e < e' + 1) by lia.
  apply (Qpower_lt_compat_l_inv 2); [|reflexivity].
  eapply Qle_lt_trans; eassumption.
Qed.

Lemma binade_spec (x : Q) :
  (0 < x)%Q -> (2 ^ binade x <= x)%Q /\ (x < 2 ^ (binade x + 1))%Q.
Proof.
  intros Hx. unfold binade. cbv zeta.
  destruct x as [n d]. cbn [Qnum Qden].
  assert (Hn : 0 < n) by (unfold Qlt in Hx; cbn in Hx; lia).
  set (a := Z.log2 n). set (b := Z.log2 (Z.pos d)).
  destruct (Z.log2_spec n Hn) as [Ha1 Ha2]. fold a in Ha1, Ha2.
  destruct (Z.log2_spec (Z.pos d) ltac:(lia)) as [Hb1 Hb2]. fold b in Hb1, Hb2.
  assert (Ha0 : 0 <= a) by apply Z.log2_nonneg.
  assert (Hb0 : 0 <= b) by apply Z.log2_nonneg.
  assert (Qa1 : (2 ^ a <= inject_Z n)%Q)
    by (rewrite <- pow2_inject by lia; now rewrite <- Zle_Qle).
  assert (Qa2 : (inject_Z n < 2 ^ (a + 1))%Q)
    by (rewrite <- pow2_inject by lia; now rewrite <- Zlt_Qlt).
  assert (Qb1 : (2 ^ b <= inject_Z (Z.pos d))%Q)
    by (rewrite <- pow2_inject by lia; now rewrite <- Zle_Qle).
  assert (Qb2 : (inject_Z (Z.pos d) < 2 ^ (b + 1))%Q)
    by (rewrite <- pow2_inject by lia; now rewrite <- Zlt_Qlt).
  assert (Hd : (0 < inject_Z (Z.pos d))%Q) by reflexivity.
  assert (Ex : (n # d == inject_Z n / inject_Z (Z.pos d))%Q)
    by apply Qmake_Qdiv.
  pose proof (pow2_pos (a - b)) as Pc. pose proof (pow2_pos (a - b - 1)) as Pc'.
  pose proof (pow2_pos b) as Pb.
  destruct (Qle_bool (2 ^ (a - b)) (n # d)) eqn:C.
  - apply Qle_bool_iff in C. split; [exact C|].
    rewrite Ex. apply Qlt_shift_div_r; [exact Hd|].
    eapply Qlt_le_trans; [exact Qa2|].
    replace (a + 1) with ((a - b + 1) + b) by lia. rewrite pow2_plus.
    apply Qmult_le_l; [apply pow2_pos | exact Qb1].
  - assert (C' : (n # d < 2 ^ (a - b))%Q).
    { apply Qnot_le_lt. intros H. apply Qle_bool_iff in H. congruence. }
    split.
    + rewrite Ex. apply Qle_shift_div_l; [exact Hd|].
      eapply Qle_trans; [|exact Qa1].
      replace a with ((a - b - 1) + (b + 1)) at 2 by lia. rewrite pow2_plus.
      apply Qmult_le_l; [apply pow2_pos | apply Qlt_le_weak; exact Qb2].
    + replace (a - b - 1 + 1) with (a - b) by lia. exact C'.
Qed.

Lemma binade_unique (x : Q) (e : Z) :
  (2 ^ e <= x)%Q -> (x < 2 ^ (e + 1))%Q -> binade x = e.
Proof.
  intros H1 H2.
  assert (Hx : (0 < x)%Q) by (eapply Qlt_le_trans; [apply pow2_pos | exact H1]).
  destruct (binade_spec x Hx) as [B1 B2].
  pose proof (binade_unique_aux x e (binade x) H1 B2).
  pose proof (binade_unique_aux x (binade x) e B1 H2). lia.
Qed.

Lemma binade_comp (x y : Q) : (0 < x)%Q -> (x == y)%Q -> binade x = binade y.
Proof.
  intros Hx E. destruct (binade_spec x Hx) as [B1 B2].
  symmetry. apply binade_unique; now rewrite <- E.
Qed.

Lemma binade_mono (x y : Q) : (0 < x)%Q -> (x <= y)%Q -> binade x <= binade y.
Proof.
  intros Hx H. destruct (binade_spec x Hx) as [B1 _].
  destruct (binade_spec y ltac:(lra)) as [_ C2].
  apply (binade_unique_aux y); [lra | exact C2].
Qed.

(** The significand of a positive number lies in [2^52, 2^53]. *)
Lemma significand_range (x : Q) :
  (0 < x)%Q ->
  2 ^ 52 <= roundNE (x / 2 ^ (binade x - 52)) <= 2 ^ 53.
Proof.
  intros Hx. destruct (binade_spec x Hx) as [B1 B2].
  pose proof (pow2_pos (binade x - 52)) as Pu.
  assert (E1 : (2 ^ binade x == inject_Z (2 ^ 52) * 2 ^ (binade x - 52))%Q).
  { rewrite pow2_inject by lia. rewrite <- pow2_plus. now replace (52 + (binade x - 52)) with (binade x) by lia. }
  assert (E2 : (2 ^ (binade x + 1) == inject_Z (2 ^ 53) * 2 ^ (binade x - 52))%Q).
  { rewrite pow2_inject by lia. rewrite <- pow2_plus. now replace (53 + (binade x - 52)) with (binade x + 1) by lia. }
  split.
  - rewrite <- (roundNE_inject_Z (2 ^ 52)). apply roundNE_mono.
    apply Qle_shift_div_l; [exact Pu|]. now rewrite <- E1.
  - rewrite <- (roundNE_inject_Z (2 ^ 53)). apply roundNE_mono.
    apply Qle_shift_div_r; [exact Pu|]. rewrite <- E2. now apply Qlt_le_weak.
Qed.

Lemma doublePos_mono (x y : Q) :
  (0 < x)%Q -> (x <= y)%Q -> (doublePos x <= doublePos y)%Q.
Proof.
  intros Hx H. assert (Hy : (0 < y)%Q) by lra.
  pose proof (binade_mono x y Hx H) as He.
  pose proof (significand_range x Hx) as [_ Sx].
  pose proof (significand_range y Hy) as [Sy _].
  unfold doublePos. cbv zeta.
  set (ex := binade x) in *. set (ey := binade y) in *.
  pose proof (pow2_pos (ex - 52)) as Pux. pose proof (pow2_pos (ey - 52)) as Puy.
  destruct (Z.eq_dec ex ey) as [E|E].
  - rewrite E. apply Qmult_le_compat_r; [|lra].
    rewrite <- Zle_Qle. apply roundNE_mono.
    apply Qmult_le_compat_r; [exact H|]. apply Qlt_le_weak, Qinv_lt_0_compat. exact Puy.
  - assert (Hlt : ex + 1 <= ey) by lia.
    apply Qle_trans with (inject_Z (2 ^ 53) * 2 ^ (ex - 52))%Q.
    { apply Qmult_le_compat_r; [|lra]. now rewrite <- Zle_Qle. }
    apply Qle_trans with (inject_Z (2 ^ 52) * 2 ^ (ey - 52))%Q.
    2:{ apply Qmult_le_compat_r; [|lra]. now rewrite <- Zle_Qle. }
    rewrite !pow2_inject by lia. rewrite <- !pow2_plus. apply pow2_le. lia.
Qed.

Lemma doublePos_pos (x : Q) : (0 < x)%Q -> (0 < doublePos x)%Q.
Proof.
  intros Hx. pose proof (significand_range x Hx) as [S _].
  unfold doublePos. cbv zeta.
  pose proof (pow2_pos (binade x - 52)) as Pu.
  apply Qmult_lt_0_compat; [|exact Pu].
  replace 0%Q with (inject_Z 0) by reflexivity. rewrite <- Zlt_Qlt.
  assert (0 < 2 ^ 52) by reflexivity. lia.
Qed.

Lemma doublePos_comp (x y : Q) :
  (0 < x)%Q -> (x == y)%Q -> (doublePos x == doublePos y)%Q.
Proof.
  intros Hx E. unfold doublePos. cbv zeta.
  rewrite (binade_comp x y Hx E).
  rewrite (roundNE_comp (x / 2 ^ (binade y - 52)) (y / 2 ^ (binade y - 52)));
    [reflexivity | now rewrite E].
Qed.

Lemma double_mono (x y : Q) : (x <= y)%Q -> (double x <= double y)%Q.
Proof.
  intros H. unfold double.
  destruct (Qcompare_spec x 0) as [Hx|Hx|Hx];
    destruct (Qcompare_spec y 0) as [Hy|Hy|Hy]; try lra.
  - pose proof (doublePos_pos y Hy). lra.
  - pose proof (doublePos_pos (- x) ltac:(lra)). lra.
  - pose proof (doublePos_mono (- y) (- x) ltac:(lra) ltac:(lra)). lra.
  - pose proof (doublePos_pos (- x) ltac:(lra)).
    pose proof (doublePos_pos y Hy). lra.
  - now apply doublePos_mono.
Qed.

Lemma double_comp (x y : Q) : (x == y)%Q -> (double x == double y)%Q.
Proof.
  intros E. unfold double.
  rewrite (Qcompare_comp x y E 0%Q 0%Q (Qeq_refl 0%Q)).
  destruct (Qcompare_spec y 0) as [Hy|Hy|Hy]; [reflexivity| |].
  - apply Qopp_comp, doublePos_comp; [lra | now rewrite E].
  - apply doublePos_comp; [lra | exact E].
Qed.

Lemma double_nonneg (x : Q) : (0 <= x)%Q -> (0 <= double x)%Q.
Proof. intros H. change 0%Q with (double 0) at 1. now apply double_mono. Qed.

(** ** Sums *)

Lemma sumZ_app (l k : list Z) : sumZ (l ++ k) = sumZ l + sumZ k.
Proof. unfold sumZ. induction l as [|x l IH]; simpl; lia. Qed.

Lemma sumZ_Permutation (l k : list Z) : l ≡ₚ k -> sumZ l = sumZ k.
Proof.
  unfold sumZ. induction 1; simpl; lia.
Qed.

Lemma foldl_add_sumZ {A} (f : A -> Z) (l : list A) (acc : Z) :
  foldl (fun sum x => sum + f x) acc l = acc + sumZ (f <$> l).
Proof.
  revert acc. induction l as [|x l IH]; intros acc; csimpl.
  - unfold sumZ. simpl. lia.
  - rewrite IH. unfold sumZ. simpl. lia.
Qed.

(** ** Normalisation *)

Lemma MAX_SCORES_pos (g : GameId) (d : Difficulty) : 0 < MAX_SCORES g d.
Proof. destruct g, d; reflexivity. Qed.

Lemma MAX_SCORES_table (g : GameId) (d : Difficulty) :
  In (MAX_SCORES g d) Scoring.tableMaxima.
Proof. destruct g, d; cbn; tauto. Qed.

Lemma Math_round_mono (x y : Q) : (x <= y)%Q -> Math_round x <= Math_round y.
Proof.
  intros H. unfold Math_round. apply Qfloor_resp_le. lra.
Qed.

Lemma percent_mono (max raw raw' : Z) :
  0 < max -> raw <= raw' ->
  (Scoring.percent max raw <= Scoring.percent max raw')%Q.
Proof.
  intros Hmax Hle. unfold Scoring.percent.
  assert (Hm : (0 < inject_Z max)%Q)
    by (change 0%Q with (inject_Z 0); now rewrite <- Zlt_Qlt).
  apply double_mono. apply Qmult_le_compat_r; [|discriminate].
  apply double_mono. apply Qmult_le_compat_r.
  - now rewrite <- Zle_Qle.
  - apply Qlt_le_weak, Qinv_lt_0_compat. exact Hm.
Qed.

Lemma percent_nonneg (max raw : Z) :
  0 < max -> 0 <= raw -> (0 <= Scoring.percent max raw)%Q.
Proof.
  intros Hmax Hraw. unfold Scoring.percent.
  assert (Hm : (0 < inject_Z max)%Q)
    by (change 0%Q with (inject_Z 0); now rewrite <- Zlt_Qlt).
  apply double_nonneg. apply Qmult_le_0_compat; [|discriminate].
  apply double_nonneg. apply Qmult_le_0_compat.
  - change 0%Q with (inject_Z 0). now rewrite <- Zle_Qle.
  - apply Qlt_le_weak, Qinv_lt_0_compat. exact Hm.
Qed.

Lemma normalizeScore_mono (g : GameId) (d : Difficulty) (raw raw' : Z) :
  raw <= raw' ->
  Scoring.normalizeScore g d raw <= Scoring.normalizeScore g d raw'.
Proof.
  intros Hle. unfold Scoring.normalizeScore, Scoring.normalizeWith.
  apply Z.min_le_compat_l, Math_round_mono, percent_mono;
    [apply MAX_SCORES_pos | exact Hle].
Qed.

Lemma normalizeScore_le_100 (g : GameId) (d : Difficulty) (raw : Z) :
  Scoring.normalizeScore g d raw <= 100.
Proof. unfold Scoring.normalizeScore, Scoring.normalizeWith. lia. Qed.

Lemma normalizeScore_range (g : GameId) (d : Difficulty) (raw : Z) :
  0 <= raw -> 0 <= Scoring.normalizeScore g d raw <= 100.
Proof.
  intros Hraw. split; [|apply normalizeScore_le_100].
  unfold Scoring.normalizeScore, Scoring.normalizeWith.
  apply Z.min_glb; [lia|].
  change 0 with (Math_round 0). apply Math_round_mono.
  apply percent_nonneg; [apply MAX_SCORES_pos | exact Hraw].
Qed.

(** On the scores 0..max of every maximum of the table, [percent] is the
    product that the binary64 operations of the Standard Library give. *)
Lemma percent_is_binary64 (max raw : Z) :
  In max Scoring.tableMaxima -> 0 <= raw <= max ->
  exists q : Q,
    Binary64.toQ (Scoring.percentBinary64 max raw) = Some q /\
    (q == Scoring.percent max raw)%Q.
Proof.
  intros Hmax Hraw.
  set (check := fun max raw : Z =>
         match Binary64.toQ (Scoring.percentBinary64 max raw) with
         | Some q => Qeq_bool q (Scoring.percent max raw)
         | None => false
         end).
  assert (Hall : forallb (fun max => forallb (check max) (seqZ 0 (max + 1)))
                   Scoring.tableMaxima = true)
    by (vm_compute; reflexivity).
  rewrite forallb_forall in Hall. specialize (Hall max Hmax).
  rewrite forallb_forall in Hall.
  assert (Hin : In raw (seqZ 0 (max + 1))).
  { apply list_elem_of_In, elem_of_seqZ. lia. }
  specialize (Hall raw Hin). unfold check in Hall.
  destruct (Binary64.toQ (Scoring.percentBinary64 max raw)) as [q|];
    [|discriminate].
  exists q. split; [reflexivity|]. now apply Qeq_bool_iff.
Qed.

(** On the table [normalizeScore] is the formula of the specification,
    except at some of the scores whose exact percentage ends in .5, where it
    is one less. *)
Lemma normalizeScore_formula_or_tie (g : GameId) (d : Difficulty) (raw : Z) :
  0 <= raw ->
  Scoring.normalizeScore g d raw = Scoring.normalize raw (MAX_SCORES g d) \/
  ((200 * raw) mod (2 * MAX_SCORES g d) = MAX_SCORES g d /\
   Scoring.normalizeScore g d raw =
     Scoring.normalize raw (MAX_SCORES g d) - 1).
Proof.
  intros Hraw. pose proof (MAX_SCORES_pos g d) as Hpos.
  pose proof (MAX_SCORES_table g d) as Hmax.
  unfold Scoring.normalizeScore. set (max := MAX_SCORES g d) in *.
  destruct (Z.le_gt_cases max raw) as [Hge|Hlt].
  - left.
    assert (E1 : Scoring.normalizeWith max raw = 100).
    { pose proof (normalizeScore_mono g d max raw Hge) as Hm.
      pose proof (normalizeScore_le_100 g d raw) as Hu.
      unfold Scoring.normalizeScore in Hm, Hu. fold max in Hm, Hu.
      assert (Scoring.normalizeWith max max = 100); [|lia].
      clear -Hmax. cbn in Hmax.
      repeat (destruct Hmax as [<-|Hmax]; [vm_compute; reflexivity|]).
      destruct Hmax. }
    rewrite E1. unfold Scoring.normalize, round_half_up.
    assert (100 <= (2 * (100 * raw) + max) / (2 * max))
      by (apply Z.div_le_lower_bound; lia).
    lia.
  - set (check := fun max raw : Z =>
           let n := Scoring.normalizeWith max raw in
           let e := Scoring.normalize raw max in
           (n =? e) || (((200 * raw) mod (2 * max) =? max) && (n =? e - 1))).
    assert (Hall : forallb (fun max => forallb (check max) (seqZ 0 max))
                     Scoring.tableMaxima = true)
      by (vm_compute; reflexivity).
    rewrite forallb_forall in Hall. specialize (Hall max Hmax).
    rewrite forallb_forall in Hall.
    assert (Hin : In raw (seqZ 0 max)).
    { apply list_elem_of_In, elem_of_seqZ. lia. }
    specialize (Hall raw Hin). unfold check in Hall. cbv zeta in Hall.
    apply orb_true_iff in Hall as [H|H].
    + left. now apply Z.eqb_eq in H.
    + right. apply andb_true_iff in H as [H1 H2].
      apply Z.eqb_eq in H1. apply Z.eqb_eq in H2. split; assumption.
Qed.

(** C8: [normalizeScore] does not return [min(100, round(raw / max * 100))]
    for every raw score.  The code divides and then multiplies in doubles;
    460 of 800 (a grid of the normal level found in 61 s with two errors)
    becomes 57.49999999999999 and is rounded to 57, where the formula
    gives round(57.5) = 58; likewise 116 of 800 (14 for 15) and 690 of
    1200 (57 for 58).  The two examples of the specification hold,
    and so does the formula for every score of the table that is not such
    a tie. *)
Theorem C8_normalize_rounds_doubles :
  SchulteGrid.calculateScore 61 2
    (SchulteGrid.targetTime (SchulteGrid.SETTINGS normal)) = 460 /\
  Scoring.normalizeScore schulte normal 460 = 57 /\
  Scoring.normalize 460 (MAX_SCORES schulte normal) = 58 /\
  Scoring.normalizeWith 800 116 = 14 /\ Scoring.normalize 116 800 = 15 /\
  Scoring.normalizeWith 1200 690 = 57 /\ Scoring.normalize 690 1200 = 58 /\
  Scoring.normalizeWith 900 450 = 50 /\
  Scoring.normalizeWith 900 1000 = 100 /\
  (forall (g : GameId) (d : Difficulty) (raw : Z),
     0 <= raw ->
     Scoring.normalizeScore g d raw = Scoring.normalize raw (MAX_SCORES g d) \/
     ((200 * raw) mod (2 * MAX_SCORES g d) = MAX_SCORES g d /\
      Scoring.normalizeScore g d raw =
        Scoring.normalize raw (MAX_SCORES g d) - 1)) /\
  (forall (g : GameId) (d : Difficulty) (raw : Z),
     0 <= raw <= MAX_SCORES g d ->
     exists q : Q,
       Binary64.toQ (Scoring.percentBinary64 (MAX_SCORES g d) raw) = Some q /\
       Scoring.normalizeScore g d raw = Z.min 100 (Math_round q)).
Proof.
  do 9 (split; [vm_compute; reflexivity|]).
  split; [exact normalizeScore_formula_or_tie|].
  intros g d raw Hraw.
  destruct (percent_is_binary64 (MAX_SCORES g d) raw (MAX_SCORES_table g d)
              Hraw) as (q & Hq & E).
  exists q. split; [exact Hq|].
  unfold Scoring.normalizeScore, Scoring.normalizeWith.
  f_equal. apply Math_round_comp. now symmetry.
Qed.

(** ** Persistence *)

Lemma loadRecords_saveRecord g d sc now st :
  Storage.loadRecords (Storage.saveRecord g d sc now st) =
  let all :=
    Storage.loadRecords st ++
    [{| Storage.gameId := g; Storage.difficulty := d;
        Storage.score := sc; Storage.timestamp := now |}] in
  drop (length all - 200) all.
Proof.
  unfold Storage.saveRecord, Storage.loadRecords at 1. simpl.
  destruct (200 <? _)%nat eqn:E; [reflexivity|].
  apply Nat.ltb_ge in E.
  replace (_ - 200)%nat with 0%nat by lia. reflexivity.
Qed.

Lemma loadRecords_saveRecords rs st :
  (length (Storage.loadRecords st) <= 200)%nat ->
  Storage.loadRecords (Storage.saveRecords rs st) =
  drop (length (Storage.loadRecords st ++ rs) - 200)
       (Storage.loadRecords st ++ rs).
Proof.
  revert st. induction rs as [|r rs IH]; intros st Hst.
  - simpl. rewrite app_nil_r.
    replace (_ - 200)%nat with 0%nat by lia. reflexivity.
  - unfold Storage.saveRecords in *. simpl.
    rewrite IH; rewrite loadRecords_saveRecord; cbv zeta.
    + destruct r as [g d sc now]; simpl.
      set (old := Storage.loadRecords st) in *.
      set (r := {| Storage.gameId := g |}).
      rewrite <- drop_app_le by (rewrite length_app; simpl; lia).
      rewrite <- (assoc_L (++) old [r] rs). simpl.
      rewrite !length_drop, !length_app. simpl.
      rewrite drop_drop. f_equal. lia.
    + rewrite length_drop, length_app. simpl. lia.
Qed.

Lemma length_loadRecords_saveRecord g d sc now st :
  (length (Storage.loadRecords (Storage.saveRecord g d sc now st)) <= 200)%nat.
Proof.
  rewrite loadRecords_saveRecord. cbv zeta.
  rewrite length_drop, length_app. simpl. lia.
Qed.

(** C9: after any non-empty sequence of [saveRecord] calls, whatever the
    log held before, the log holds at most 200 entries, and they are the
    newest ones of the old log followed by the appended records, in
    insertion order; 205 appends to an empty store keep exactly the last
    200. *)
Theorem C9_saveRecord_fifo (rs : list Storage.TrainingRecord)
  (st : Storage.LocalStorage) :
  rs <> [] \/ (length (Storage.loadRecords st) <= 200)%nat ->
  let all := Storage.loadRecords st ++ rs in
  let kept := Storage.loadRecords (Storage.saveRecords rs st) in
  kept = drop (length all - 200) all /\
  (length kept <= 200)%nat /\
  length kept = Nat.min 200 (length all) /\
  (Storage.loadRecords st = [] -> length rs = 205%nat ->
   length kept = 200%nat /\ kept = drop 5 rs).
Proof.
  intros Hst all kept.
  assert (E : kept = drop (length all - 200) all).
  { subst kept all. destruct Hst as [Hne | Hle].
    - destruct rs as [|r rs]; [congruence|].
      change (Storage.saveRecords (r :: rs) st)
        with (Storage.saveRecords rs
                (Storage.saveRecord (Storage.gameId r)
                   (Storage.difficulty r) (Storage.score r)
                   (Storage.timestamp r) st)).
      rewrite loadRecords_saveRecords
        by apply length_loadRecords_saveRecord.
      rewrite loadRecords_saveRecord. cbv zeta.
      destruct r as [g d sc now]; simpl.
      set (old := Storage.loadRecords st).
      set (r := {| Storage.gameId := g |}).
      rewrite <- drop_app_le by (rewrite length_app; simpl; lia).
      rewrite <- (assoc_L (++) old [r] rs). simpl.
      rewrite !length_drop, !length_app. simpl.
      rewrite drop_drop. f_equal. lia.
    - now apply loadRecords_saveRecords. }
  repeat split.
  - exact E.
  - rewrite E, length_drop. lia.
  - rewrite E, length_drop. lia.
  - rewrite E, length_drop. subst all. rewrite H. simpl. lia.
  - rewrite E. subst all. rewrite H. simpl. now rewrite H0.
Qed.

Lemma C9_saveRecord_fifo_witness :
  let rs := sampleRecord <$> seq 0 205 in
  let kept := Storage.loadRecords (Storage.saveRecords rs emptyStorage) in
  length kept = 200%nat /\ kept = sampleRecord <$> seq 5 200.
Proof.
  intros rs kept.
  destruct (C9_saveRecord_fifo rs emptyStorage) as (_ & _ & _ & H).
  - right. simpl. lia.
  - destruct H as [Hlen Hkept]; [reflexivity | reflexivity |].
    split; [exact Hlen | exact Hkept].
Defined.

Lemma saveBestScore_lookup g sc st :
  Storage.loadBestScores (Storage.saveBestScore g sc st) !! g =
  Some (match Storage.loadBestScores st !! g with
        | None => sc
        | Some old => Z.max old sc
        end).
Proof.
  unfold Storage.saveBestScore.
  destruct (Storage.loadBestScores st !! g) as [old|] eqn:E.
  - destruct (old <? sc) eqn:C.
    + apply Z.ltb_lt in C. unfold Storage.loadBestScores at 1. simpl.
      rewrite lookup_insert_eq. f_equal. lia.
    + apply Z.ltb_ge in C. rewrite E. f_equal. lia.
  - unfold Storage.loadBestScores at 1. simpl. now rewrite lookup_insert_eq.
Qed.

Lemma saveBestScore_other g g' sc st :
  g <> g' ->
  Storage.loadBestScores (Storage.saveBestScore g sc st) !! g' =
  Storage.loadBestScores st !! g'.
Proof.
  intros Hne. unfold Storage.saveBestScore.
  destruct (Storage.loadBestScores st !! g) as [old|] eqn:E.
  - destruct (old <? sc); [|reflexivity].
    unfold Storage.loadBestScores at 1. simpl. now rewrite lookup_insert_ne.
  - unfold Storage.loadBestScores at 1. simpl. now rewrite lookup_insert_ne.
Qed.

(** C10: [saveBestScore] overwrites the stored best of a game only when
    there is none or the new score is strictly greater; otherwise the call
    leaves [localStorage] as it was.  The stored value never decreases, the
    other games are untouched, and saving 50 then 40 leaves 50. *)
Theorem C10_saveBestScore_monotone :
  (forall g sc st,
      Storage.loadBestScores (Storage.saveBestScore g sc st) !! g =
      Some (match Storage.loadBestScores st !! g with
            | None => sc
            | Some old => Z.max old sc
            end)) /\
  (forall g sc st old,
      Storage.loadBestScores st !! g = Some old -> sc <= old ->
      Storage.saveBestScore g sc st = st) /\
  (forall g sc st old,
      Storage.loadBestScores st !! g = Some old ->
      exists new,
        Storage.loadBestScores (Storage.saveBestScore g sc st) !! g = Some new
        /\ old <= new) /\
  (forall g g' sc st,
      g <> g' ->
      Storage.loadBestScores (Storage.saveBestScore g sc st) !! g' =
      Storage.loadBestScores st !! g') /\
  (forall g st,
      Storage.loadBestScores st !! g = None ->
      Storage.loadBestScores
        (Storage.saveBestScore g 40 (Storage.saveBestScore g 50 st)) !! g =
      Some 50).
Proof.
  repeat split.
  - apply saveBestScore_lookup.
  - intros g sc st old Hold Hle. unfold Storage.saveBestScore.
    rewrite Hold. destruct (old <? sc) eqn:C; [|reflexivity].
    apply Z.ltb_lt in C. lia.
  - intros g sc st old Hold. rewrite saveBestScore_lookup, Hold.
    eexists; split; [reflexivity | lia].
  - intros. now apply saveBestScore_other.
  - intros g st Hnone. rewrite !saveBestScore_lookup, Hnone. reflexivity.
Qed.

(** ** Profile average *)

Lemma GAMES_all (g : GameId) : g ∈ GAMES.
Proof. destruct g; compute_done. Qed.

Lemma GAMES_NoDup : NoDup GAMES.
Proof. compute_done. Qed.

Lemma playedGames_keys (scores : gmap GameId Z) :
  ResultPage.playedGames scores ≡ₚ (map_to_list scores).*1.
Proof.
  apply NoDup_Permutation.
  - apply NoDup_filter, GAMES_NoDup.
  - apply NoDup_fst_map_to_list.
  - intros g. unfold ResultPage.playedGames.
    rewrite list_elem_of_filter, list_elem_of_fmap. split.
    + intros [[v Hv] _]. exists (g, v). split; [reflexivity|].
      now apply elem_of_map_to_list.
    + intros [[k v] [-> Hkv]]. apply elem_of_map_to_list in Hkv.
      split; [now exists v | apply GAMES_all].
Qed.

Lemma normalizedPlayed_keys (scores : gmap GameId Z) :
  ResultPage.normalizedPlayed scores =
  (fun g => Scoring.normalizeScore g normal (scores !!! g)) <$>
  (map_to_list scores).*1.
Proof.
  unfold ResultPage.normalizedPlayed. rewrite <- list_fmap_compose.
  apply list_fmap_ext. intros i [k v] Hkv. simpl.
  apply list_elem_of_lookup_2, elem_of_map_to_list in Hkv.
  now rewrite (lookup_total_correct _ _ _ Hkv).
Qed.

Lemma average_rounded_mean (scores : gmap GameId Z) :
  ResultPage.average scores =
  if decide (size scores = 0%nat) then 0
  else round_half_up (sumZ (ResultPage.normalizedPlayed scores))
         (Z.of_nat (size scores)).
Proof.
  unfold ResultPage.average.
  pose proof (playedGames_keys scores) as Hperm.
  assert (Hlen : length (ResultPage.playedGames scores) = size scores).
  { rewrite Hperm, length_fmap. apply length_map_to_list. }
  rewrite Hlen. destruct (decide (size scores = 0%nat)) as [E|E].
  - rewrite E. reflexivity.
  - replace (0 <? size scores)%nat with true
      by (symmetry; apply Nat.ltb_lt; lia).
    rewrite Math_round_div by lia. f_equal.
    rewrite foldl_add_sumZ, Z.add_0_l, normalizedPlayed_keys.
    apply sumZ_Permutation. now rewrite Hperm.
Qed.

(** C7: the profile average is the rounded mean of the normalised scores of
    exactly the games that have a score (absent games enter neither the sum
    nor the count), every score being normalised against the
    normal-difficulty maximum whatever difficulty the session was played
    at: a single score of 300 in the matching game gives 50, its share of
    the normal maximum 600, although 300 is the whole maximum of the easy
    level. *)
Theorem C7_profile_average :
  (forall scores : gmap GameId Z,
      ResultPage.average scores =
      if decide (size scores = 0%nat) then 0
      else round_half_up (sumZ (ResultPage.normalizedPlayed scores))
             (Z.of_nat (size scores))) /\
  (forall scores : gmap GameId Z,
      ResultPage.normalizedPlayed scores =
      (fun kv =>
         Scoring.normalizeWith (MAX_SCORES (fst kv) normal) (snd kv)) <$>
      map_to_list scores) /\
  (forall (g : GameId) (v : Z),
      ResultPage.average {[ g := v ]} = Scoring.normalizeScore g normal v) /\
  (forall (s : App.State) (g : GameId) (sc now : Z) (d1 d2 : Difficulty),
      ResultPage.average
        (App.scores (App.finishGame g sc now (App.startGame d1 s))) =
      ResultPage.average
        (App.scores (App.finishGame g sc now (App.startGame d2 s)))) /\
  ResultPage.average {[ memory := 300 ]} = 50 /\
  Scoring.normalizeScore memory easy 300 = 100 /\
  ResultPage.average {[ memory := 300; reaction := 800 ]} = 75 /\
  ResultPage.average {[ schulte := 460 ]} = 57 /\
  ResultPage.average {[ schulte := 460; reaction := 650 ]} = 69 /\
  ResultPage.rating {[ schulte := 460; reaction := 650 ]} = Scoring.ThirdTier.
Proof.
  split; [|split; [|split; [|split]]].
  - apply average_rounded_mean.
  - intros scores. reflexivity.
  - intros g v. rewrite average_rounded_mean.
    rewrite map_size_singleton. cbn [decide]. 
    unfold ResultPage.normalizedPlayed. rewrite map_to_list_singleton.
    cbn. unfold round_half_up, sumZ. cbn [foldr].
    symmetry. apply Z.div_unique with 1; lia.
  - intros s g sc now d1 d2. reflexivity.
  - repeat split; vm_compute; reflexivity.
Qed.

(** ** Grid search *)

Lemma Qle_bool_false (x y : Q) : (y < x)%Q -> Qle_bool x y = false.
Proof.
  intros H. destruct (Qle_bool x y) eqn:E; [|reflexivity].
  apply Qle_bool_iff in E. now apply Qlt_not_le in H.
Qed.

Lemma Qle_bool_true (x y : Q) : (x <= y)%Q -> Qle_bool x y = true.
Proof. apply Qle_bool_iff. Qed.

Lemma calculateScore_tiers (elapsed : Q) (errors targetTime : Z) :
  let T := inject_Z targetTime in
  let score := SchulteGrid.calculateScore elapsed errors targetTime in
  ((elapsed <= T)%Q -> score = Z.max 0 (500 + 300 - 20 * errors)) /\
  ((T < elapsed)%Q -> (elapsed <= T * (3 # 2))%Q ->
   score = Z.max 0 (500 + 200 - 20 * errors)) /\
  ((T < elapsed)%Q -> (T * (3 # 2) < elapsed)%Q -> (elapsed <= T * 2)%Q ->
   score = Z.max 0 (500 + 100 - 20 * errors)) /\
  ((T < elapsed)%Q -> (T * (3 # 2) < elapsed)%Q -> (T * 2 < elapsed)%Q ->
   score = Z.max 0 (500 + 0 - 20 * errors)).
Proof.
  intros T score. subst T score. unfold SchulteGrid.calculateScore.
  repeat split; intros;
    repeat match goal with
      | H : (_ <= _)%Q |- _ => rewrite (Qle_bool_true _ _ H); clear H
      | H : (_ < _)%Q |- _ => rewrite (Qle_bool_false _ _ H); clear H
      end; f_equal; lia.
Qed.

(** C4: the click that completes the grid reports
    [max(0, 500 + tier bonus - 20 * errors)], the tier being read off the
    final elapsed time (300 up to the target, 200 up to 1.5 times, 100 up to
    twice the target, else 0); with no error and a final elapsed time within
    the target the reported score is 800. *)
Theorem C4_grid_search_score (d : Difficulty) (s : SchulteGrid.State)
  (index : nat) :
  SchulteGrid.finishedRef s = false ->
  SchulteGrid.deferred s = [] ->
  SchulteGrid.numbers s !! index = Some (SchulteGrid.nextNumber s) ->
  SchulteGrid.nextNumber s ∉ SchulteGrid.completed s ->
  SchulteGrid.size (SchulteGrid.SETTINGS d) *
    SchulteGrid.size (SchulteGrid.SETTINGS d) < SchulteGrid.nextNumber s + 1 ->
  let s' := SchulteGrid.handleCellClick d index s in
  let s'' := SchulteGrid.step d SchulteGrid.Deferred s' in
  let T := inject_Z (SchulteGrid.targetTime (SchulteGrid.SETTINGS d)) in
  let e := SchulteGrid.elapsed s' in
  let errs := SchulteGrid.errors s in
  exists score,
    SchulteGrid.onComplete s'' = SchulteGrid.onComplete s ++ [score] /\
    SchulteGrid.finishedRef s' = true /\
    e = SchulteGrid.nextTick (SchulteGrid.elapsed s) /\
    ((e <= T)%Q -> errs = 0 -> score = 800) /\
    ((e <= T)%Q -> score = Z.max 0 (500 + 300 - 20 * errs)) /\
    ((T < e)%Q -> (e <= T * (3 # 2))%Q ->
     score = Z.max 0 (500 + 200 - 20 * errs)) /\
    ((T < e)%Q -> (T * (3 # 2) < e)%Q -> (e <= T * 2)%Q ->
     score = Z.max 0 (500 + 100 - 20 * errs)) /\
    ((T < e)%Q -> (T * (3 # 2) < e)%Q -> (T * 2 < e)%Q ->
     score = Z.max 0 (500 + 0 - 20 * errs)).
Proof.
  intros Hfin Hdef Hnum Hnew Htotal s' s'' T e errs.
  subst s'' e s'. unfold SchulteGrid.handleCellClick.
  rewrite Hfin, Hnum. rewrite decide_False by exact Hnew.
  rewrite Z.eqb_refl.
  replace (_ <? _) with true by (symmetry; apply Z.ltb_lt; exact Htotal).
  cbn [SchulteGrid.step SchulteGrid.deferred SchulteGrid.onComplete
       SchulteGrid.elapsed SchulteGrid.finishedRef].
  rewrite Hdef. cbn [app SchulteGrid.onComplete].
  pose proof (calculateScore_tiers
                (SchulteGrid.nextTick (SchulteGrid.elapsed s)) errs
                (SchulteGrid.targetTime (SchulteGrid.SETTINGS d)))
    as (H1 & H2 & H3 & H4).
  fold T in H1, H2, H3, H4.
  exists (SchulteGrid.calculateScore
            (SchulteGrid.nextTick (SchulteGrid.elapsed s)) errs
            (SchulteGrid.targetTime (SchulteGrid.SETTINGS d))).
  repeat split; try assumption.
  intros HT Herr. rewrite (H1 HT), Herr. reflexivity.
Qed.

Lemma C4_grid_search_score_witness :
  SchulteGrid.onComplete
    (SchulteGrid.step easy SchulteGrid.Deferred
       (SchulteGrid.handleCellClick easy 3 schulteEasyLastClick)) = [800].
Proof.
  destruct (C4_grid_search_score easy schulteEasyLastClick 3)
    as (score & Hlog & _ & _ & H800 & _).
  - reflexivity.
  - reflexivity.
  - reflexivity.
  - vm_compute. set_solver.
  - reflexivity.
  - rewrite Hlog, H800; [reflexivity | | reflexivity].
    vm_compute. discriminate.
Defined.

(** ** Spatial recall *)

(** C1, as stated, fails: the session below is granted a retry in round one
    and a second retry in round two; the wrong attempt of round two leaves
    the session running (phase [error], the path about to be shown again,
    nothing reported). *)
Lemma C1_retry_replenished_each_round :
  let s0 := PathMemory.init easy [0; 1] in
  let s := PathMemory.run easy pathTwoRetries s0 in
  PathMemory.retriesGranted easy pathTwoRetries s0 = 2%nat /\
  PathMemory.phase s = PathMemory.error /\
  PathMemory.timeouts s = [PathMemory.RetryShow [0; 1; 2]] /\
  PathMemory.onComplete s = [] /\
  ~ (forall d sq es,
        (PathMemory.retriesGranted d es (PathMemory.init d sq) <= 1)%nat).
Proof.
  intros s0 s. repeat split.
  intros H. specialize (H easy [0; 1] pathTwoRetries).
  vm_compute in H. lia.
Qed.

Lemma wrongAnswer_used (s : PathMemory.State) :
  PathMemory.retryUsed s = true ->
  PathMemory.wrongAnswer s =
  PathMemory.addTimeout (PathMemory.CompleteFail (PathMemory.score s))
    (PathMemory.setPhase PathMemory.gameover s).
Proof. intros H. unfold PathMemory.wrongAnswer. now rewrite H. Qed.

Lemma wrongAnswer_fresh (s : PathMemory.State) :
  PathMemory.retryUsed s = false ->
  PathMemory.wrongAnswer s =
  PathMemory.addTimeout (PathMemory.RetryShow (PathMemory.sequence s))
    (PathMemory.setPhase PathMemory.error
       (PathMemory.setRetryUsed true s)).
Proof. intros H. unfold PathMemory.wrongAnswer. now rewrite H. Qed.

Lemma handleCellClick_wrong d c s :
  PathMemory.isWrongAttempt c s = true ->
  PathMemory.handleCellClick d c s =
  PathMemory.wrongAnswer
    (PathMemory.setPlayerInput (PathMemory.playerInput s ++ [c]) s).
Proof.
  unfold PathMemory.isWrongAttempt, PathMemory.handleCellClick.
  intros [Hph Hw]%andb_true_iff. rewrite Hph. cbn [negb].
  destruct (_ =? _)%nat.
  - apply negb_true_iff in Hw. now rewrite Hw.
  - now rewrite Hw.
Qed.

Lemma handleCellClick_not_wrong d c s :
  PathMemory.isWrongAttempt c s = false ->
  PathMemory.retryUsed (PathMemory.handleCellClick d c s) =
  PathMemory.retryUsed s.
Proof.
  unfold PathMemory.isWrongAttempt, PathMemory.handleCellClick.
  destruct (bool_decide (PathMemory.phase s = PathMemory.input));
    cbn [negb andb]; [|reflexivity].
  destruct (_ =? _)%nat.
  - intros Hw. apply negb_false_iff in Hw. rewrite Hw.
    destruct (_ <? _); reflexivity.
  - intros Hw. rewrite Hw. reflexivity.
Qed.

Lemma fire_retryUsed rnd s :
  PathMemory.retryUsed (PathMemory.fire rnd s) =
  match PathMemory.timeouts s with
  | PathMemory.NextRound _ :: _ => false
  | _ => PathMemory.retryUsed s
  end.
Proof.
  unfold PathMemory.fire.
  destruct (PathMemory.timeouts s) as [|[] rest]; reflexivity.
Qed.

Lemma retriesInRound_invariant d es s acc :
  acc = (if PathMemory.retryUsed s then 1 else 0)%nat ->
  PathMemory.retriesInRound d es s acc =
  (if PathMemory.retryUsed (PathMemory.run d es s) then 1 else 0)%nat.
Proof.
  revert s acc. induction es as [|e es IH]; intros s acc Hacc.
  - exact Hacc.
  - cbn [PathMemory.retriesInRound PathMemory.run foldl].
    apply IH. destruct e as [c|rnd].
    + cbn [PathMemory.startsRound PathMemory.grantsRetry PathMemory.step].
      destruct (PathMemory.isWrongAttempt c s) eqn:Hw; cbn [andb].
      * rewrite (handleCellClick_wrong d c s Hw).
        destruct (PathMemory.retryUsed s) eqn:Hr.
        -- rewrite wrongAnswer_used by exact Hr. cbn. now rewrite Hr.
        -- rewrite wrongAnswer_fresh by exact Hr. cbn. now subst acc.
      * now rewrite (handleCellClick_not_wrong d c s Hw).
    + cbn [PathMemory.startsRound PathMemory.grantsRetry PathMemory.step].
      rewrite fire_retryUsed.
      destruct (PathMemory.timeouts s) as [|[] rest]; auto.
Qed.

(** C1, amended: the retry is an allowance of the round.  Along every run
    the retries granted since the round started number one if [retryUsed]
    is set and none otherwise; a wrong attempt made when the retry of the
    round is used ends the session, and the pre-failure score is what gets
    reported; a wrong attempt made when it is unused is granted the retry;
    starting a round clears [retryUsed]. *)
Theorem C1_retry_once_per_round :
  (forall d sq es,
      let s := PathMemory.run d es (PathMemory.init d sq) in
      PathMemory.retriesInRound d es (PathMemory.init d sq) 0 =
      (if PathMemory.retryUsed s then 1 else 0)%nat) /\
  (forall d c s,
      PathMemory.isWrongAttempt c s = true ->
      PathMemory.retryUsed s = true ->
      let s' := PathMemory.handleCellClick d c s in
      PathMemory.phase s' = PathMemory.gameover /\
      PathMemory.timeouts s' =
        PathMemory.timeouts s ++ [PathMemory.CompleteFail (PathMemory.score s)]
      /\
      (PathMemory.timeouts s = [] ->
       forall rnd,
         PathMemory.onComplete (PathMemory.fire rnd s') =
         PathMemory.onComplete s ++ [PathMemory.score s])) /\
  (forall d c s,
      PathMemory.isWrongAttempt c s = true ->
      PathMemory.retryUsed s = false ->
      let s' := PathMemory.handleCellClick d c s in
      PathMemory.phase s' = PathMemory.error /\
      PathMemory.retryUsed s' = true /\
      PathMemory.onComplete s' = PathMemory.onComplete s /\
      PathMemory.timeouts s' =
        PathMemory.timeouts s ++ [PathMemory.RetryShow (PathMemory.sequence s)])
  /\
  (forall sq s, PathMemory.retryUsed (PathMemory.startRound sq s) = false).
Proof.
  split; [|split; [|split]].
  - intros d sq es s. now apply retriesInRound_invariant.
  - intros d c s Hw Hr s'. subst s'.
    rewrite (handleCellClick_wrong d c s Hw), wrongAnswer_used by exact Hr.
    repeat split. intros Hts rnd. unfold PathMemory.fire. cbn.
    rewrite Hts. reflexivity.
  - intros d c s Hw Hr s'. subst s'.
    rewrite (handleCellClick_wrong d c s Hw), wrongAnswer_fresh by exact Hr.
    repeat split.
  - reflexivity.
Qed.

(** ** Reaction timing *)

Lemma calculateTrialScore_spec (rt : Z) :
  (150 <= rt -> ReactionTest.calculateTrialScore rt = Z.max 0 (800 - rt)) /\
  (rt < 150 -> ReactionTest.calculateTrialScore rt = 0).
Proof.
  unfold ReactionTest.calculateTrialScore. split; intros H.
  - replace (rt <? 150) with false by (symmetry; apply Z.ltb_ge; lia).
    reflexivity.
  - replace (rt <? 150) with true by (symmetry; apply Z.ltb_lt; lia).
    reflexivity.
Qed.

Lemma calculateTrialScore_range (rt : Z) :
  0 <= ReactionTest.calculateTrialScore rt <= 650.
Proof.
  unfold ReactionTest.calculateTrialScore.
  destruct (rt <? 150) eqn:E; [lia|]. apply Z.ltb_ge in E. lia.
Qed.

Lemma finalScore_rounded_mean (rts : list Z) :
  rts <> [] ->
  ReactionTest.finalScore rts =
  Z.min 800
    (round_half_up (sumZ (ReactionTest.calculateTrialScore <$> rts))
       (Z.of_nat (length rts))).
Proof.
  intros Hne. unfold ReactionTest.finalScore.
  rewrite Math_round_Z, foldl_add_sumZ, Z.add_0_l.
  rewrite Math_round_div; [reflexivity|].
  destruct rts; [congruence | simpl; lia].
Qed.

Lemma handleCircleClick_last_trial d s :
  ReactionTest.phase s = ReactionTest.signal ->
  ReactionTest.trials (ReactionTest.DIFFICULTY_SETTINGS d)
    <= ReactionTest.currentTrial s + 1 ->
  let rt := Math_round (ReactionTest.now s - ReactionTest.signalTimeRef s) in
  let s' := ReactionTest.handleCircleClick d s in
  ReactionTest.reactionTimes s' = ReactionTest.reactionTimes s ++ [rt] /\
  ReactionTest.timers s' =
    ReactionTest.timers s ++
    [{| ReactionTest.id := ReactionTest.nextId s;
        ReactionTest.due := ReactionTest.now s + inject_Z 1500;
        ReactionTest.callback :=
          ReactionTest.AdvanceComplete (ReactionTest.reactionTimes s') |}].
Proof.
  intros Hph Hlast rt s'. subst s' rt.
  unfold ReactionTest.handleCircleClick. rewrite Hph.
  replace (_ <=? _) with true by (symmetry; apply Z.leb_le; exact Hlast).
  split; reflexivity.
Qed.

Lemma onComplete_clearTimeout ref s :
  ReactionTest.onComplete (ReactionTest.clearTimeout ref s) =
  ReactionTest.onComplete s.
Proof. destruct ref; reflexivity. Qed.

Lemma onComplete_unmount s :
  ReactionTest.onComplete (ReactionTest.unmount s) = ReactionTest.onComplete s.
Proof.
  unfold ReactionTest.unmount. cbn [ReactionTest.setEnv ReactionTest.onComplete].
  now rewrite !onComplete_clearTimeout.
Qed.

(** C5: a recorded reaction time [rt] counts [max(0, 800 - rt)] from 150 ms
    on and nothing below (120 ms counts 0, 250 ms counts 550); the click
    that ends the last trial arms the completion callback with all recorded
    times, and the score that callback hands to [onComplete] is the rounded
    mean of their counts, capped at 800. *)
Theorem C5_reaction_score :
  (forall rt : Z,
      (150 <= rt ->
       ReactionTest.calculateTrialScore rt = Z.max 0 (800 - rt)) /\
      (rt < 150 -> ReactionTest.calculateTrialScore rt = 0)) /\
  ReactionTest.calculateTrialScore 120 = 0 /\
  ReactionTest.calculateTrialScore 250 = 550 /\
  (forall rts : list Z,
      rts <> [] ->
      ReactionTest.finalScore rts =
      Z.min 800
        (round_half_up (sumZ (ReactionTest.calculateTrialScore <$> rts))
           (Z.of_nat (length rts)))) /\
  (forall d s,
      ReactionTest.phase s = ReactionTest.signal ->
      ReactionTest.trials (ReactionTest.DIFFICULTY_SETTINGS d)
        <= ReactionTest.currentTrial s + 1 ->
      let rt :=
        Math_round (ReactionTest.now s - ReactionTest.signalTimeRef s) in
      let s' := ReactionTest.handleCircleClick d s in
      ReactionTest.reactionTimes s' = ReactionTest.reactionTimes s ++ [rt] /\
      ReactionTest.timers s' =
        ReactionTest.timers s ++
        [{| ReactionTest.id := ReactionTest.nextId s;
            ReactionTest.due := ReactionTest.now s + inject_Z 1500;
            ReactionTest.callback :=
              ReactionTest.AdvanceComplete (ReactionTest.reactionTimes s')
         |}]) /\
  (forall d r rts s,
      ReactionTest.onComplete
        (ReactionTest.runCallback d r (ReactionTest.AdvanceComplete rts) s) =
      ReactionTest.onComplete s ++ [ReactionTest.finalScore rts]).
Proof.
  split; [exact calculateTrialScore_spec|].
  split; [reflexivity|]. split; [reflexivity|].
  split; [exact finalScore_rounded_mean|].
  split; [exact handleCircleClick_last_trial|].
  intros d r rts s. cbn [ReactionTest.runCallback].
  unfold ReactionTest.callOnComplete.
  cbn [ReactionTest.setEnv ReactionTest.mounted].
  destruct (ReactionTest.mounted s); [|reflexivity].
  now rewrite onComplete_unmount.
Qed.

(** ** The processing guard *)

Lemma handler_guarded (g : GameId) (d : Difficulty) (i : Session.Input g)
  (s : Session.State g) :
  Session.processing g s = true -> Session.handler g d i s = s.
Proof.
  destruct g; cbn [Session.processing Session.handler Session.State
                   Session.Input] in *; intros H.
  - unfold MemoryMatch.handleCardClick. rewrite H.
    now destruct (MemoryMatch.gameOver s).
  - unfold SchulteGrid.handleCellClick. now rewrite H.
  - unfold StroopTest.handleOptionClick. now rewrite H.
  - unfold WordSort.handleCategoryClick. now rewrite H.
  - unfold PathMemory.handleCellClick. now rewrite H.
  - unfold ReactionTest.handleCircleClick.
    destruct (ReactionTest.phase s); congruence.
  - destruct i; unfold DigitSpan.handleNumberPress, DigitSpan.handleBackspace,
      DigitSpan.handleConfirm, DigitSpan.guarded; now rewrite H.
  - unfold ArithmeticChallenge.handleOptionClick. now rewrite H.
  - unfold PatternReason.handleOptionClick. now rewrite H.
Qed.

Lemma Timeouts_lookup_fresh {C} (c : C) (q : Timeouts.Queue C) :
  Timeouts.pending q = [] ->
  Timeouts.lookup (snd (Timeouts.setTimeout c q))
    (fst (Timeouts.setTimeout c q)) = Some c /\
  Timeouts.pending
    (Timeouts.remove (snd (Timeouts.setTimeout c q))
       (fst (Timeouts.setTimeout c q))) = [].
Proof.
  intros Hq. unfold Timeouts.setTimeout, Timeouts.lookup, Timeouts.remove.
  cbn [fst snd Timeouts.pending Timeouts.nextHandle]. rewrite Hq.
  cbn [app list_find filter list_filter fst].
  rewrite decide_True by reflexivity.
  split; [reflexivity|].
  rewrite decide_False by (intros H; now apply H). reflexivity.
Qed.

Ltac fresh_timeout Hq :=
  unfold Timeouts.setTimeout, Timeouts.lookup, Timeouts.remove;
  cbn [fst snd Timeouts.pending Timeouts.nextHandle];
  rewrite ?Hq;
  cbn [app list_find filter list_filter fst snd Timeouts.pending
       Timeouts.nextHandle];
  rewrite ?decide_True by reflexivity;
  rewrite ?decide_False by (let H := fresh in intros H; now apply H);
  cbn [fmap option_fmap option_map].

Lemma arithmetic_double_click d v w p s :
  ArithmeticChallenge.isProcessingRef s = false ->
  ArithmeticChallenge.gameActiveRef s = true ->
  Timeouts.pending (ArithmeticChallenge.timeouts s) = [] ->
  let settings := ArithmeticChallenge.DIFFICULTY_SETTINGS d in
  let isCorrect :=
    v =? ArithmeticChallenge.answer (ArithmeticChallenge.currentProblem s) in
  let s1 := ArithmeticChallenge.handleOptionClick d v s in
  let h := Timeouts.nextHandle (ArithmeticChallenge.timeouts s) in
  let s2 :=
    ArithmeticChallenge.run d
      [ArithmeticChallenge.OptionClick v; ArithmeticChallenge.OptionClick w;
       ArithmeticChallenge.Fire h p] s in
  ArithmeticChallenge.isProcessingRef s1 = true /\
  ArithmeticChallenge.handleOptionClick d w s1 = s1 /\
  ArithmeticChallenge.score s1 =
    ArithmeticChallenge.score s +
    (if isCorrect
     then ArithmeticChallenge.pointsPerCorrect settings +
          Z.min (ArithmeticChallenge.streak s *
                 ArithmeticChallenge.comboBonus settings)
                (ArithmeticChallenge.maxComboExtra settings)
     else 0) /\
  ArithmeticChallenge.streak s1 =
    (if isCorrect then ArithmeticChallenge.streak s + 1 else 0) /\
  ArithmeticChallenge.score s2 = ArithmeticChallenge.score s1 /\
  ArithmeticChallenge.streak s2 = ArithmeticChallenge.streak s1 /\
  ArithmeticChallenge.problemIndexRef s2 =
    ArithmeticChallenge.problemIndexRef s + 1 /\
  ArithmeticChallenge.isProcessingRef s2 = false /\
  Timeouts.pending (ArithmeticChallenge.timeouts s2) = [].
Proof.
  intros Hp Ha Hq settings isCorrect s1 h s2.
  assert (E1 : ArithmeticChallenge.isProcessingRef s1 = true).
  { subst s1. unfold ArithmeticChallenge.handleOptionClick.
    rewrite Hp, Ha. cbn [negb]. fresh_timeout Hq.
    now destruct (v =? _). }
  assert (E2 : ArithmeticChallenge.handleOptionClick d w s1 = s1).
  { unfold ArithmeticChallenge.handleOptionClick at 1. now rewrite E1. }
  subst s2. cbn [ArithmeticChallenge.run foldl ArithmeticChallenge.step].
  fold s1. rewrite E2. clear E1 E2.
  subst s1 isCorrect settings h.
  unfold ArithmeticChallenge.handleOptionClick.
  rewrite Hp, Ha. cbn [negb]. fresh_timeout Hq.
  destruct (v =? _); cbn; rewrite ?Ha; cbn; fresh_timeout Hq;
    repeat split; try reflexivity; try lia.
  all: f_equal; f_equal; lia.
Qed.

Lemma pattern_double_click d i j now now' now'' question s :
  PatternReason.isProcessing s = false ->
  PatternReason.feedback s = None ->
  Timeouts.pending (PatternReason.timeouts s) = [] ->
  PatternReason.questions s !! PatternReason.currentQuestion s
    = Some question ->
  (S (PatternReason.currentQuestion s) < length (PatternReason.questions s))%nat
  ->
  let settings := PatternReason.DIFFICULTY_SETTINGS d in
  let isCorrect := i =? PatternReason.correctIndex question in
  let s1 := PatternReason.handleOptionClick d i now s in
  let h := Timeouts.nextHandle (PatternReason.timeouts s) in
  let s2 :=
    PatternReason.run d
      [PatternReason.OptionClick i now; PatternReason.OptionClick j now';
       PatternReason.Fire h now''] s in
  PatternReason.isProcessing s1 = true /\
  PatternReason.handleOptionClick d j now' s1 = s1 /\
  PatternReason.score s1 =
    PatternReason.score s +
    (if isCorrect
     then PatternReason.pointsPerCorrect settings +
          (if now - PatternReason.questionStartTime s <=? 8000
           then 10 else 0)
     else 0) /\
  PatternReason.score s2 = PatternReason.score s1 /\
  PatternReason.currentQuestion s2 = S (PatternReason.currentQuestion s) /\
  PatternReason.isProcessing s2 = false /\
  PatternReason.onComplete s2 = PatternReason.onComplete s /\
  Timeouts.pending (PatternReason.timeouts s2) = [].
Proof.
  intros Hp Hf Hq Hquest Hlast settings isCorrect s1 h s2.
  assert (E1 : PatternReason.isProcessing s1 = true).
  { subst s1. unfold PatternReason.handleOptionClick.
    rewrite Hp, Hf, Hquest. fresh_timeout Hq.
    rewrite bool_decide_false by (intros H; now apply H).
    now destruct (i =? _). }
  assert (E2 : PatternReason.handleOptionClick d j now' s1 = s1).
  { unfold PatternReason.handleOptionClick at 1. now rewrite E1. }
  subst s2. cbn [PatternReason.run foldl PatternReason.step].
  fold s1. rewrite E2. clear E1 E2.
  subst s1 isCorrect settings h.
  unfold PatternReason.handleOptionClick.
  rewrite Hp, Hf, Hquest.
  rewrite bool_decide_false by (intros H; now apply H).
  fresh_timeout Hq.
  assert (Hle : (length (PatternReason.questions s)
                 <=? S (PatternReason.currentQuestion s))%nat = false)
    by (apply Nat.leb_gt; exact Hlast).
  unfold PatternReason.SPEED_THRESHOLD_MS, PatternReason.SPEED_BONUS.
  destruct (i =? _); cbn; fresh_timeout Hq;
    unfold PatternReason.advance; cbn; rewrite Hle; cbn;
    repeat split; try reflexivity; try lia;
    destruct (_ <=? 8000); lia.
Qed.

Lemma stroop_double_click d c c' now now' now'' t s :
  StroopTest.isProcessing s = false ->
  Timeouts.pending (StroopTest.timeouts s) = [] ->
  StroopTest.roundRef s = StroopTest.round s ->
  StroopTest.round s < StroopTest.totalRounds (StroopTest.DIFFICULTY_SETTINGS d)
  ->
  let isCorrect :=
    bool_decide (c = StroopTest.correctAnswer (StroopTest.trial s)) in
  let s1 := StroopTest.handleOptionClick d c now s in
  let h := Timeouts.nextHandle (StroopTest.timeouts s) in
  let s2 :=
    StroopTest.run d
      [StroopTest.OptionClick c now; StroopTest.OptionClick c' now';
       StroopTest.Fire h t now''] s in
  StroopTest.isProcessing s1 = true /\
  StroopTest.handleOptionClick d c' now' s1 = s1 /\
  StroopTest.streak s1 = (if isCorrect then StroopTest.streak s + 1 else 0) /\
  (isCorrect = false ->
   StroopTest.score s1 = Z.max 0 (StroopTest.score s - 5)) /\
  (isCorrect = true ->
   StroopTest.score s + 10 <= StroopTest.score s1
     <= StroopTest.score s + 65) /\
  StroopTest.round s1 = StroopTest.round s + 1 /\
  StroopTest.score s2 = StroopTest.score s1 /\
  StroopTest.streak s2 = StroopTest.streak s1 /\
  StroopTest.round s2 = StroopTest.round s + 1 /\
  StroopTest.isProcessing s2 = false /\
  StroopTest.onComplete s2 = StroopTest.onComplete s /\
  Timeouts.pending (StroopTest.timeouts s2) = [].
Proof.
  intros Hp Hq Href Hround isCorrect s1 h s2.
  assert (Hlast :
    (StroopTest.totalRounds (StroopTest.DIFFICULTY_SETTINGS d)
       <? StroopTest.roundRef s + 1) = false)
    by (apply Z.ltb_ge; lia).
  assert (E1 : StroopTest.isProcessing s1 = true).
  { subst s1. unfold StroopTest.handleOptionClick.
    rewrite Hp, Hlast. fresh_timeout Hq. reflexivity. }
  assert (E2 : StroopTest.handleOptionClick d c' now' s1 = s1).
  { unfold StroopTest.handleOptionClick at 1. now rewrite E1. }
  subst s2. cbn [StroopTest.run foldl StroopTest.step].
  fold s1. rewrite E2. clear E1 E2.
  subst s1 isCorrect h.
  unfold StroopTest.handleOptionClick.
  rewrite Hp, Hlast. fresh_timeout Hq. cbn. fresh_timeout Hq. cbn.
  rewrite ?Href.
  repeat split; try reflexivity; try lia.
  all: try (intros H; rewrite H; reflexivity).
  all: try match goal with
         | H : bool_decide _ = _ |- _ => rewrite H
         end.
  all: try reflexivity.
  all: destruct (now - StroopTest.trialStartTime s <=? 2000),
         (StroopTest.streak s + 1 =? 10), (StroopTest.streak s + 1 =? 5);
       lia.
Qed.

Lemma wordSort_effects_idle s :
  WordSort.gameOver s = false ->
  (forall t, WordSort.timeLeft s = Some t -> 0 < t) ->
  WordSort.effects s = s.
Proof.
  intros Hg Ht. unfold WordSort.effects.
  destruct (WordSort.timeLeft s) as [t|] eqn:E.
  - specialize (Ht t eq_refl).
    replace (t <=? 0) with false by (symmetry; apply Z.leb_gt; lia).
    rewrite andb_false_r, E.
    rewrite bool_decide_false by (intros [= ->]; lia).
    cbn [andb]. now rewrite Hg.
  - rewrite E. rewrite bool_decide_false by discriminate.
    cbn [andb]. now rewrite Hg.
Qed.

Lemma wordSort_double_click c c' word s :
  WordSort.isProcessing s = false ->
  WordSort.gameOverRef s = false ->
  WordSort.gameOver s = false ->
  (forall t, WordSort.timeLeft s = Some t -> 0 < t) ->
  Timeouts.pending (WordSort.timeouts s) = [] ->
  WordSort.gameWords s !! WordSort.currentIndex s = Some word ->
  (S (WordSort.currentIndex s) < length (WordSort.gameWords s))%nat ->
  let isCorrect := bool_decide (c = WordSort.category word) in
  let s1 := WordSort.handleCategoryClick c s in
  let h := Timeouts.nextHandle (WordSort.timeouts s) in
  let s2 :=
    WordSort.run
      [WordSort.CategoryClick c; WordSort.CategoryClick c'; WordSort.Fire h]
      s in
  WordSort.isProcessing s1 = true /\
  WordSort.handleCategoryClick c' s1 = s1 /\
  WordSort.streak s1 = (if isCorrect then WordSort.streak s + 1 else 0) /\
  WordSort.score s1 =
    WordSort.score s +
    (if isCorrect
     then if (3 <=? WordSort.streak s + 1) &&
             ((WordSort.streak s + 1) mod 3 =? 0)
          then 25 else 10
     else -5) /\
  WordSort.score s2 = WordSort.score s1 /\
  WordSort.streak s2 = WordSort.streak s1 /\
  WordSort.currentIndex s2 = S (WordSort.currentIndex s) /\
  WordSort.isProcessing s2 = false /\
  WordSort.onComplete s2 = WordSort.onComplete s /\
  Timeouts.pending (WordSort.timeouts s2) = [].
Proof.
  intros Hp Hgr Hg Ht Hq Hword Hlast isCorrect s1 h s2.
  assert (Hlt : (length (WordSort.gameWords s)
                 <=? WordSort.currentIndex s)%nat = false)
    by (apply Nat.leb_gt; lia).
  assert (Hle : (length (WordSort.gameWords s)
                 <=? S (WordSort.currentIndex s))%nat = false)
    by (apply Nat.leb_gt; exact Hlast).
  assert (E1 : WordSort.isProcessing s1 = true).
  { subst s1. unfold WordSort.handleCategoryClick.
    rewrite Hp, Hgr, Hg, Hlt, Hword. cbn [orb]. fresh_timeout Hq.
    now destruct (bool_decide _). }
  assert (E2 : WordSort.handleCategoryClick c' s1 = s1).
  { unfold WordSort.handleCategoryClick at 1. now rewrite E1. }
  assert (E3 : WordSort.effects s1 = s1).
  { subst s1. unfold WordSort.handleCategoryClick.
    rewrite Hp, Hgr, Hg, Hlt, Hword. cbn [orb]. fresh_timeout Hq.
    destruct (bool_decide _); apply wordSort_effects_idle; cbn; auto. }
  subst s2. cbn [WordSort.run foldl]. unfold WordSort.step.
  fold s1. rewrite E3, E2, E3. clear E1 E2 E3.
  subst s1 isCorrect h.
  unfold WordSort.handleCategoryClick.
  rewrite Hp, Hgr, Hg, Hlt, Hword. cbn [orb]. fresh_timeout Hq.
  destruct (bool_decide _); cbn; fresh_timeout Hq;
    unfold WordSort.afterFeedback; cbn; rewrite Hle; cbn;
    (rewrite wordSort_effects_idle; [|cbn; auto|cbn; auto]);
    cbn; repeat split; try reflexivity; try lia;
    destruct (_ && _); lia.
Qed.

(** C6: a click handled while the guard of the game stands returns the
    state as it was, in all nine games, and in the four question games
    click, click, advance leaves the score and the streak of one answer and
    moves the round counter by one.  The reaction game has no flag: its
    guard is the phase, and a timer that is still pending can change the
    phase before the advance fires.  In hard mode, [reactionTrickHit]
    clicks the trick signal of trial 14: the trial is recorded, the phase is
    [result], the advance (timer 30) is due at 33000, and a click 40 ms
    later is dropped.  But the timer that withdraws the trick signal is
    still pending; it sets the phase to [ready], the real signal follows,
    and in [reactionSecondHit] the click at 32600 is recorded as trial 15
    with the advance of trial 14 still pending: two reaction times and two
    trials for one advance. *)
Theorem C6_reaction_second_click_recorded :
  (forall (g : GameId) (d : Difficulty) (i : Session.Input g)
          (s : Session.State g),
      Session.processing g s = true -> Session.handler g d i s = s) /\
  (forall (g : GameId) (d : Difficulty) (i j : Session.Input g)
          (s : Session.State g),
      Session.processing g (Session.handler g d i s) = true ->
      Session.handler g d j (Session.handler g d i s) =
      Session.handler g d i s) /\
  (forall d v w p s,
      ArithmeticChallenge.isProcessingRef s = false ->
      ArithmeticChallenge.gameActiveRef s = true ->
      Timeouts.pending (ArithmeticChallenge.timeouts s) = [] ->
      let s1 := ArithmeticChallenge.handleOptionClick d v s in
      let h := Timeouts.nextHandle (ArithmeticChallenge.timeouts s) in
      let s2 :=
        ArithmeticChallenge.run d
          [ArithmeticChallenge.OptionClick v;
           ArithmeticChallenge.OptionClick w;
           ArithmeticChallenge.Fire h p] s in
      ArithmeticChallenge.isProcessingRef s1 = true /\
      ArithmeticChallenge.handleOptionClick d w s1 = s1 /\
      ArithmeticChallenge.score s2 = ArithmeticChallenge.score s1 /\
      ArithmeticChallenge.streak s2 = ArithmeticChallenge.streak s1 /\
      ArithmeticChallenge.problemIndexRef s2 =
        ArithmeticChallenge.problemIndexRef s + 1) /\
  (forall d i j now now' now'' question s,
      PatternReason.isProcessing s = false ->
      PatternReason.feedback s = None ->
      Timeouts.pending (PatternReason.timeouts s) = [] ->
      PatternReason.questions s !! PatternReason.currentQuestion s
        = Some question ->
      (S (PatternReason.currentQuestion s)
       < length (PatternReason.questions s))%nat ->
      let s1 := PatternReason.handleOptionClick d i now s in
      let h := Timeouts.nextHandle (PatternReason.timeouts s) in
      let s2 :=
        PatternReason.run d
          [PatternReason.OptionClick i now;
           PatternReason.OptionClick j now';
           PatternReason.Fire h now''] s in
      PatternReason.isProcessing s1 = true /\
      PatternReason.handleOptionClick d j now' s1 = s1 /\
      PatternReason.score s2 = PatternReason.score s1 /\
      PatternReason.currentQuestion s2 =
        S (PatternReason.currentQuestion s)) /\
  (forall d c c' now now' now'' t s,
      StroopTest.isProcessing s = false ->
      Timeouts.pending (StroopTest.timeouts s) = [] ->
      StroopTest.roundRef s = StroopTest.round s ->
      StroopTest.round s
        < StroopTest.totalRounds (StroopTest.DIFFICULTY_SETTINGS d) ->
      let s1 := StroopTest.handleOptionClick d c now s in
      let h := Timeouts.nextHandle (StroopTest.timeouts s) in
      let s2 :=
        StroopTest.run d
          [StroopTest.OptionClick c now; StroopTest.OptionClick c' now';
           StroopTest.Fire h t now''] s in
      StroopTest.isProcessing s1 = true /\
      StroopTest.handleOptionClick d c' now' s1 = s1 /\
      StroopTest.score s2 = StroopTest.score s1 /\
      StroopTest.streak s2 = StroopTest.streak s1 /\
      StroopTest.round s2 = StroopTest.round s + 1) /\
  (forall c c' word s,
      WordSort.isProcessing s = false ->
      WordSort.gameOverRef s = false ->
      WordSort.gameOver s = false ->
      (forall t, WordSort.timeLeft s = Some t -> 0 < t) ->
      Timeouts.pending (WordSort.timeouts s) = [] ->
      WordSort.gameWords s !! WordSort.currentIndex s = Some word ->
      (S (WordSort.currentIndex s) < length (WordSort.gameWords s))%nat ->
      let s1 := WordSort.handleCategoryClick c s in
      let h := Timeouts.nextHandle (WordSort.timeouts s) in
      let s2 :=
        WordSort.run
          [WordSort.CategoryClick c; WordSort.CategoryClick c';
           WordSort.Fire h] s in
      WordSort.isProcessing s1 = true /\
      WordSort.handleCategoryClick c' s1 = s1 /\
      WordSort.score s2 = WordSort.score s1 /\
      WordSort.streak s2 = WordSort.streak s1 /\
      WordSort.currentIndex s2 = S (WordSort.currentIndex s)) /\
  (let s0 :=
     ReactionTest.run hard
       (reactionTrials 12 300 ++ [ReactionTest.Fire trickDraw])
       ReactionTest.init in
   let s1 := ReactionTest.run hard reactionTrickHit ReactionTest.init in
   let s1' :=
     ReactionTest.run hard (reactionTrickHit ++ [ReactionTest.Click 40])
       ReactionTest.init in
   let s2 := ReactionTest.run hard reactionSecondHit ReactionTest.init in
   let hide :=
     {| ReactionTest.id := 29; ReactionTest.due := 31550;
        ReactionTest.callback := ReactionTest.TrickHide |} in
   let advance :=
     {| ReactionTest.id := 30; ReactionTest.due := 33000;
        ReactionTest.callback := ReactionTest.AdvanceStart |} in
   ReactionTest.phase <$> s0 = Some ReactionTest.signal /\
   ReactionTest.currentTrial <$> s0 = Some 13 /\
   ReactionTest.reactionTimes <$> s0 = Some (replicate 13 300) /\
   ReactionTest.phase <$> s1 = Some ReactionTest.result /\
   Session.processing reaction <$> s1 = Some true /\
   ReactionTest.currentTrial <$> s1 = Some 14 /\
   ReactionTest.reactionTimes <$> s1 = Some (replicate 13 300 ++ [100]) /\
   ReactionTest.advanceTimeoutRef <$> s1 = Some (Some 30%nat) /\
   ReactionTest.timers <$> s1 = Some [hide; advance] /\
   ReactionTest.phase <$> s1' = Some ReactionTest.result /\
   ReactionTest.currentTrial <$> s1' = Some 14 /\
   ReactionTest.reactionTimes <$> s1' = Some (replicate 13 300 ++ [100]) /\
   ReactionTest.timers <$> s1' = Some [hide; advance] /\
   ReactionTest.now <$> s2 = Some 32600%Q /\
   ReactionTest.phase <$> s2 = Some ReactionTest.result /\
   ReactionTest.currentTrial <$> s2 = Some 15 /\
   ReactionTest.reactionTimes <$> s2
     = Some (replicate 13 300 ++ [100; 250]) /\
   ReactionTest.timers <$> s2
     = Some [advance;
             {| ReactionTest.id := 32; ReactionTest.due := 34100;
                ReactionTest.callback :=
                  ReactionTest.AdvanceComplete
                    (replicate 13 300 ++ [100; 250]) |}]).
Proof.
  split; [exact handler_guarded|].
  split; [intros g d i j s H; now apply handler_guarded|].
  split; [|split; [|split; [|split]]].
  - intros d v w p s Hp Ha Hq.
    pose proof (arithmetic_double_click d v w p s Hp Ha Hq) as H.
    cbv zeta in *. tauto.
  - intros d i j now now' now'' question s Hp Hf Hq Hquest Hlast.
    pose proof (pattern_double_click d i j now now' now'' question s
                  Hp Hf Hq Hquest Hlast) as H.
    cbv zeta in *. tauto.
  - intros d c c' now now' now'' t s Hp Hq Href Hround.
    pose proof (stroop_double_click d c c' now now' now'' t s
                  Hp Hq Href Hround) as H.
    cbv zeta in *. tauto.
  - intros c c' word s Hp Hgr Hg Ht Hq Hword Hlast.
    pose proof (wordSort_double_click c c' word s
                  Hp Hgr Hg Ht Hq Hword Hlast) as H.
    cbv zeta in *. tauto.
  - cbv zeta. repeat split; vm_compute; reflexivity.
Qed.

(** ** The completion callback

    Along every sequence of events each of the eight games below calls
    [onComplete] at most once, with a score that is not negative. *)

Lemma foldl_invariant {S E} (P : S -> Prop) (f : S -> E -> S) (es : list E)
  (s : S) :
  P s -> (forall s e, P s -> P (f s e)) -> P (foldl f s es).
Proof.
  intros H0 Hstep. revert s H0.
  induction es as [|e es IH]; intros s H0; simpl; auto.
Qed.

(** *** Categorisation *)

Lemma wordSort_effects_log s :
  (WordSort.completedRef (WordSort.effects s) = WordSort.completedRef s /\
   WordSort.onComplete (WordSort.effects s) = WordSort.onComplete s) \/
  (WordSort.completedRef s = false /\
   WordSort.completedRef (WordSort.effects s) = true /\
   WordSort.onComplete (WordSort.effects s) =
     WordSort.onComplete s ++ [Z.max 0 (WordSort.score s)]).
Proof.
  unfold WordSort.effects.
  destruct (WordSort.timeLeft s) as [t|] eqn:Et;
    [destruct (negb (WordSort.gameOverRef s) && (t <=? 0)) eqn:E1|];
    cbn [WordSort.endGame WordSort.timeLeft WordSort.gameOverRef
         WordSort.gameOver WordSort.completedRef];
    rewrite ?Et;
    destruct (bool_decide _ && _) eqn:E2;
    cbn [WordSort.endGame WordSort.timeLeft WordSort.gameOverRef
         WordSort.gameOver WordSort.completedRef andb];
    destruct (WordSort.completedRef s) eqn:Ec;
    try destruct (WordSort.gameOver s) eqn:Eg;
    cbn; rewrite ?Ec; auto.
Qed.

Lemma wordSort_effects_inv s :
  Invariants.wordSort s -> Invariants.wordSort (WordSort.effects s).
Proof.
  unfold Invariants.wordSort.
  destruct (wordSort_effects_log s) as [[-> ->]|(Hc & -> & ->)]; [auto|].
  intros [[_ ->]|[Hc' _]]; [|congruence].
  right. split; [reflexivity|]. eexists. split; [reflexivity|lia].
Qed.

Lemma wordSort_completes_once d ws es :
  Session.completedAtMostOnce
    (WordSort.onComplete (WordSort.run es (WordSort.init d ws))).
Proof.
  assert (H : Invariants.wordSort (WordSort.run es (WordSort.init d ws))).
  { unfold WordSort.run. apply (foldl_invariant Invariants.wordSort).
    - left. split; reflexivity.
    - intros s e Hs. unfold WordSort.step. apply wordSort_effects_inv.
      destruct e as [c| |h].
      + unfold WordSort.handleCategoryClick, Invariants.wordSort in *.
        repeat match goal with
          | |- context [match ?x with _ => _ end] => destruct x eqn:?
          end; cbn; auto.
      + unfold WordSort.tick, Invariants.wordSort in *.
        repeat match goal with
          | |- context [match ?x with _ => _ end] => destruct x eqn:?
          end; cbn; auto.
      + destruct (Timeouts.lookup h (WordSort.timeouts s)) as [[ci]|]; auto. }
  destruct H as [[_ ->]|[_ H]]; [now left | now right].
Qed.

(** *** Memory match *)

Lemma memoryMatch_calculateScore_nonneg d m e t :
  0 <= MemoryMatch.calculateScore d m e t.
Proof. unfold MemoryMatch.calculateScore. lia. Qed.

Lemma memoryMatch_complete_guarded (c : bool) n s :
  0 <= n -> Invariants.memoryMatch s ->
  Invariants.memoryMatch
    (if c && negb (MemoryMatch.gameOver s)
     then MemoryMatch.complete n s else s).
Proof.
  unfold Invariants.memoryMatch. intros Hn [[Hg Hlog]|[Hg Hlog]];
    rewrite Hg; cbn [negb].
  - rewrite andb_true_r. destruct c; [|left; auto].
    right. cbn. split; [reflexivity|]. rewrite Hlog.
    eexists. split; [reflexivity|exact Hn].
  - rewrite andb_false_r. right. auto.
Qed.

Lemma memoryMatch_effects_inv d now s :
  Invariants.memoryMatch s ->
  Invariants.memoryMatch (MemoryMatch.effects d now s).
Proof.
  intros Hs. unfold MemoryMatch.effects.
  apply memoryMatch_complete_guarded;
    [apply memoryMatch_calculateScore_nonneg|].
  apply memoryMatch_complete_guarded;
    [apply memoryMatch_calculateScore_nonneg|exact Hs].
Qed.

Lemma memoryMatch_click_frame index now s :
  MemoryMatch.gameOver (MemoryMatch.handleCardClick index now s) =
    MemoryMatch.gameOver s /\
  MemoryMatch.onComplete (MemoryMatch.handleCardClick index now s) =
    MemoryMatch.onComplete s.
Proof.
  unfold MemoryMatch.handleCardClick.
  destruct (MemoryMatch.gameOver s) eqn:Eg; [now rewrite Eg|].
  destruct (MemoryMatch.isChecking s); [now rewrite Eg|].
  destruct (MemoryMatch.cards s !! index) as [card|]; [|now rewrite Eg].
  destruct (_ || _); [now rewrite Eg|].
  destruct (2 <=? _)%nat; [now rewrite Eg|].
  destruct (MemoryMatch.flippedIndices s ++ [index]) as [|a [|b [|c l]]];
    cbn; rewrite ?Eg; auto.
Qed.

Lemma memoryMatch_completes_once d cs es :
  Session.completedAtMostOnce
    (MemoryMatch.onComplete (MemoryMatch.run d es (MemoryMatch.init d cs))).
Proof.
  assert (H : Invariants.memoryMatch
                (MemoryMatch.run d es (MemoryMatch.init d cs))).
  { unfold MemoryMatch.run. apply (foldl_invariant Invariants.memoryMatch).
    - left. split; reflexivity.
    - intros s e Hs. destruct e as [index now|now|h now];
        cbn [MemoryMatch.step].
      + apply memoryMatch_effects_inv.
        destruct (memoryMatch_click_frame index now s) as [E1 E2].
        unfold Invariants.memoryMatch. now rewrite E1, E2.
      + apply memoryMatch_effects_inv.
        unfold MemoryMatch.tick, Invariants.memoryMatch in *.
        destruct (_ && _); cbn; auto.
      + destruct (Timeouts.lookup h (MemoryMatch.timeouts s)) as [[f g|f g]|];
          [apply memoryMatch_effects_inv..|]; auto. }
  destruct H as [[_ ->]|[_ H]]; [now left | now right].
Qed.

(** *** Grid search *)

Lemma schulte_calculateScore_nonneg e errs t :
  0 <= SchulteGrid.calculateScore e errs t.
Proof. unfold SchulteGrid.calculateScore. lia. Qed.

Lemma schulteGrid_completes_once d nums es :
  Session.completedAtMostOnce
    (SchulteGrid.onComplete
       (SchulteGrid.run d es (SchulteGrid.init nums))).
Proof.
  assert (H : Invariants.schulteGrid
                (SchulteGrid.run d es (SchulteGrid.init nums))).
  { unfold SchulteGrid.run. apply (foldl_invariant Invariants.schulteGrid).
    - left. repeat split.
    - intros s e Hs. unfold Invariants.schulteGrid in *.
      destruct e as [index| | |]; cbn [SchulteGrid.step].
      + unfold SchulteGrid.handleCellClick.
        destruct Hs as [(Hf & Hd & Hl)|(Hf & Hrest)]; rewrite Hf;
          [|right; auto].
        repeat match goal with
          | |- context [match ?x with _ => _ end] => destruct x eqn:?
          end; cbn; rewrite ?Hf, ?Hd, ?Hl; auto.
        right. split; [reflexivity|]. eexists.
        split; [apply schulte_calculateScore_nonneg|].
        left. split; reflexivity.
      + destruct (SchulteGrid.started s); cbn; auto.
      + destruct (SchulteGrid.errorTimerRef s); cbn; auto.
      + destruct Hs as [(Hf & Hd & Hl)|(Hf & n & Hn & [[Hd Hl]|[Hd Hl]])];
          rewrite Hd.
        * left. auto.
        * right. cbn. split; [exact Hf|]. exists n. split; [exact Hn|].
          right. rewrite Hl. split; reflexivity.
        * right. split; [exact Hf|]. exists n. split; [exact Hn|].
          right. split; assumption. }
  destruct H as [(_ & _ & ->)|(_ & n & Hn & [[_ ->]|[_ ->]])].
  - now left.
  - now left.
  - right. now exists n.
Qed.

(** *** Arithmetic *)

Lemma arithmetic_completes_once d p es :
  Session.completedAtMostOnce
    (ArithmeticChallenge.onComplete
       (ArithmeticChallenge.run d es (ArithmeticChallenge.init d p))).
Proof.
  assert (H : Invariants.arithmetic
                (ArithmeticChallenge.run d es (ArithmeticChallenge.init d p))).
  { unfold ArithmeticChallenge.run.
    apply (foldl_invariant Invariants.arithmetic).
    - unfold Invariants.arithmetic. cbn. repeat split; try lia.
      left. split; reflexivity.
    - intros s e (Hst & Hsc & Hsr & Hlog). unfold Invariants.arithmetic.
      destruct e as [v| |h q]; cbn [ArithmeticChallenge.step].
      + unfold ArithmeticChallenge.handleOptionClick.
        destruct (ArithmeticChallenge.isProcessingRef s); [auto|].
        destruct (negb (ArithmeticChallenge.gameActiveRef s)); [auto|].
        cbn. destruct (v =? _); cbn; repeat split; try lia; auto;
          destruct d; cbn; lia.
      + unfold ArithmeticChallenge.tick.
        destruct (negb (ArithmeticChallenge.timerRef s)) eqn:Et; [auto|].
        apply negb_false_iff in Et.
        destruct (_ <=? 1); cbn; repeat split; try lia; auto.
        right. split; [reflexivity|].
        destruct Hlog as [[_ ->]|[Hf _]]; [|congruence].
        eexists. split; [reflexivity|lia].
      + destruct (Timeouts.lookup h (ArithmeticChallenge.timeouts s))
          as [[]|]; [|auto].
        cbn. destruct (ArithmeticChallenge.gameActiveRef s); cbn;
          repeat split; auto. }
  destruct H as (_ & _ & _ & [[_ ->]|[_ H]]); [now left | now right].
Qed.

(** *** Pattern reasoning *)

Lemma Timeouts_lookup_singleton {C} (h h0 n : nat) (c : C) :
  Timeouts.lookup h {| Timeouts.pending := [(h0, c)];
                       Timeouts.nextHandle := n |}
  = if decide (h0 = h) then Some c else None.
Proof.
  unfold Timeouts.lookup. cbn. destruct (decide (h0 = h)); reflexivity.
Qed.

Lemma Timeouts_lookup_pending {C} (h : nat) (q : Timeouts.Queue C) h0 c :
  Timeouts.pending q = [(h0, c)] ->
  (Timeouts.lookup h q = Some c /\
   Timeouts.pending (Timeouts.remove h q) = []) \/
  Timeouts.lookup h q = None.
Proof.
  intros Hq. unfold Timeouts.lookup, Timeouts.remove. rewrite Hq. cbn.
  destruct (decide (h0 = h)) as [->|Hne].
  - left. split; [reflexivity|].
    rewrite decide_False by (intros H; now apply H). reflexivity.
  - right. reflexivity.
Qed.

Lemma Timeouts_lookup_empty {C} (h : nat) (q : Timeouts.Queue C) :
  Timeouts.pending q = [] -> Timeouts.lookup h q = None.
Proof. intros Hq. unfold Timeouts.lookup. now rewrite Hq. Qed.

Lemma patternReason_completes_once d qs now es :
  Session.completedAtMostOnce
    (PatternReason.onComplete
       (PatternReason.run d es (PatternReason.init qs now))).
Proof.
  assert (H : Invariants.patternReason
                (PatternReason.run d es (PatternReason.init qs now))).
  { unfold PatternReason.run.
    apply (foldl_invariant Invariants.patternReason).
    - unfold Invariants.patternReason. cbn. repeat split; try lia.
      left. repeat split. now left.
    - intros s e Hinv.
      destruct e as [i t|h t]; cbn [PatternReason.step].
      + unfold PatternReason.handleOptionClick.
        destruct (PatternReason.isProcessing s) eqn:Ep; [exact Hinv|].
        destruct (bool_decide _); [exact Hinv|].
        destruct Hinv as (Hsc & Hsr & Hq).
        destruct Hq as [(Hp & Hidle & Hlog)|(h & c & _ & Hp & _)];
          [|congruence].
        specialize (Hidle Ep). unfold Invariants.patternReason.
        destruct (PatternReason.questions s !! _) as [question|].
        * unfold Timeouts.setTimeout. rewrite Hp. cbn.
          unfold PatternReason.SPEED_BONUS.
          destruct (i =? _); cbn; repeat split; try lia;
            try (destruct (_ <=? _); destruct d; cbn; lia);
            right; eexists _, _; repeat split; assumption.
        * cbn. repeat split; try assumption.
          left. repeat split; try assumption. discriminate.
      + destruct Hinv as (Hsc & Hsr & Hq). unfold Invariants.patternReason.
        destruct Hq as [(Hp & Hidle & Hlog)|(h0 & c & Hp & Hproc & Hlog)].
        * rewrite (Timeouts_lookup_empty h _ Hp). repeat split; auto.
        * destruct (Timeouts_lookup_pending h _ h0 c Hp) as [[-> Hr]| ->];
            [|repeat split; eauto 10].
          destruct c as [cq]. unfold PatternReason.advance. cbn.
          destruct (_ <=? _)%nat; cbn; rewrite ?Hlog, ?Hproc;
            repeat split; try assumption; left; repeat split;
            try assumption; try discriminate.
          -- right. eexists. split; [reflexivity|assumption].
          -- now left. }
  destruct H as (_ & _ & [(_ & _ & H)|(h & c & _ & _ & ->)]);
    [exact H | now left].
Qed.

(** *** Interference test *)

Lemma stroopTest_completes_once d t now es :
  Session.completedAtMostOnce
    (StroopTest.onComplete (StroopTest.run d es (StroopTest.init t now))).
Proof.
  assert (H : Invariants.stroopTest
                (StroopTest.run d es (StroopTest.init t now))).
  { unfold StroopTest.run.
    apply (foldl_invariant Invariants.stroopTest).
    - unfold Invariants.stroopTest. cbn. repeat split; try lia.
      left. repeat split. now left.
    - intros s e Hinv.
      destruct e as [c tm|h t' tm]; cbn [StroopTest.step].
      + unfold StroopTest.handleOptionClick.
        destruct (StroopTest.isProcessing s) eqn:Ep; [exact Hinv|].
        destruct Hinv as (Hsc & Hsr & Hst & Hq).
        destruct Hq as [(Hp & Hidle & Hlog)|(h & c0 & _ & Hp & _)];
          [|congruence].
        specialize (Hidle Ep). unfold Invariants.stroopTest.
        unfold Timeouts.setTimeout. rewrite Hp. cbn.
        assert (Hnew :
          0 <= (if bool_decide (c = StroopTest.correctAnswer (StroopTest.trial s))
                then StroopTest.score s +
                     ((if tm - StroopTest.trialStartTime s <=? 2000
                       then 10 + 5 else 10) +
                      (if StroopTest.streak s + 1 =? 10 then 50
                       else if StroopTest.streak s + 1 =? 5 then 20 else 0))
                else Z.max 0 (StroopTest.score s - 5))).
        { destruct (bool_decide _), (tm - StroopTest.trialStartTime s <=? 2000),
            (StroopTest.streak s + 1 =? 10), (StroopTest.streak s + 1 =? 5);
            lia. }
        repeat split; try exact Hnew.
        * destruct (bool_decide _); lia.
        * right. eexists _, _. repeat split; assumption.
      + destruct Hinv as (Hsc & Hsr & Hst & Hq). unfold Invariants.stroopTest.
        destruct Hq as [(Hp & Hidle & Hlog)|(h0 & c & Hp & Hproc & Hlog)].
        * rewrite (Timeouts_lookup_empty h _ Hp). repeat split; auto.
        * destruct (Timeouts_lookup_pending h _ h0 c Hp) as [[-> Hr]| ->];
            [|repeat split; eauto 10].
          destruct c; cbn; rewrite ?Hlog, ?Hproc;
            repeat split; try assumption; left; repeat split;
            try assumption; try discriminate.
          right. eexists. split; [reflexivity|assumption]. now left. }
  destruct H as (_ & _ & _ & [(_ & _ & H)|(h & c & _ & _ & ->)]);
    [exact H | now left].
Qed.

(** *** Digit span *)

Lemma digitSpan_completes_once d sq es :
  Session.completedAtMostOnce
    (DigitSpan.onComplete (DigitSpan.run d es (DigitSpan.init d sq))).
Proof.
  assert (H : Invariants.digitSpan
                (DigitSpan.run d es (DigitSpan.init d sq))).
  { unfold DigitSpan.run.
    apply (foldl_invariant Invariants.digitSpan).
    - unfold Invariants.digitSpan. cbn. repeat split; try lia.
      + destruct d; cbn; lia.
      + left. split; [reflexivity|]. left. split; reflexivity.
    - intros s e Hinv.
      destruct e as [num| | | |h sq']; cbn [DigitSpan.step].
      + unfold DigitSpan.handleNumberPress.
        destruct (DigitSpan.guarded s); exact Hinv.
      + unfold DigitSpan.handleBackspace.
        destruct (DigitSpan.guarded s); exact Hinv.
      + unfold DigitSpan.handleConfirm.
        destruct (DigitSpan.guarded s) eqn:Eg; [exact Hinv|].
        unfold DigitSpan.guarded in Eg.
        apply orb_false_iff in Eg as [Eph Ego].
        apply negb_false_iff, bool_decide_eq_true in Eph.
        destruct Hinv as (Hsc & Hlen & Hq).
        destruct Hq as [(Hp & Hlog)|(h & c & _ & Hph & _)]; [|congruence].
        destruct Hlog as [[_ Hlog]|[Hgo _]]; [|congruence].
        unfold Invariants.digitSpan, Timeouts.setTimeout. rewrite Hp.
        destruct (bool_decide (DigitSpan.playerInput s = _)); cbn.
        * repeat split; try (destruct (DigitSpan.firstTryAtLength s); lia).
          right. eexists _, _. repeat split; try eassumption;
            destruct (DigitSpan.firstTryAtLength s); lia.
        * repeat split; try assumption.
          right. eexists _, _. repeat split; try eassumption.
          destruct (_ <=? _); cbn; auto.
      + unfold DigitSpan.showStep.
        destruct (negb (bool_decide _)) eqn:Eph; [exact Hinv|].
        apply negb_false_iff, bool_decide_eq_true in Eph.
        destruct Hinv as (Hsc & Hlen & Hq). unfold Invariants.digitSpan.
        destruct Hq as [(Hp & Hlog)|(h & c & _ & Hph & _)]; [|congruence].
        destruct Hlog as [[Hgo Hlog]|(_ & Hph & _)]; [|congruence].
        destruct (_ <? 0); [|destruct (_ <=? _)]; cbn;
          repeat split; try assumption; tauto.
      + destruct Hinv as (Hsc & Hlen & Hq). unfold Invariants.digitSpan.
        destruct Hq as [(Hp & Hlog)|(h0 & c & Hp & Hph & Hgo & Hlog & Hc)].
        * rewrite (Timeouts_lookup_empty h _ Hp). repeat split; auto.
        * destruct (Timeouts_lookup_pending h _ h0 c Hp) as [[-> Hr]| ->];
            [|repeat split; eauto 12].
          remember (Timeouts.remove h (DigitSpan.timeouts s)) as q eqn:Eq.
          clear Eq.
          destruct c as [ns len|fs|len]; cbn in Hc |- *.
          -- destruct (_ <? _); cbn; rewrite ?Hlog; repeat split;
               try lia; left; (split; [assumption|]).
             ++ right. repeat split. eexists. split; [reflexivity|lia].
             ++ left. split; [assumption|reflexivity].
          -- rewrite Hlog. repeat split; try assumption.
             left. split; [assumption|]. right. repeat split.
             eexists. split; [reflexivity|assumption].
          -- repeat split; try assumption.
             left. split; [assumption|]. left. split; assumption. }
  destruct H as (_ & _ & [(_ & [[_ ->]|(_ & _ & H)])|(h & c & _ & _ & _ & -> & _)]).
  - now left.
  - now right.
  - now left.
Qed.

(** *** Spatial recall *)

Lemma showTimers_shape (sq : list Z) :
  exists pre,
    PathMemory.showTimers sq = pre ++ [PathMemory.ToInput] /\
    Forall Invariants.highlightOnly pre.
Proof.
  unfold PathMemory.showTimers. eexists. split; [reflexivity|].
  generalize (List.seq 0 (length sq)). intros l.
  induction l as [|i l IH]; cbn; [constructor|].
  repeat constructor. exact IH.
Qed.

Lemma pathMemory_show_inv sq s :
  0 <= PathMemory.score s ->
  PathMemory.timeouts s = [] ->
  PathMemory.onComplete s = [] ->
  Invariants.pathMemory (PathMemory.startShowingSequence sq s).
Proof.
  intros Hsc Hts Hlog. unfold Invariants.pathMemory. split; [exact Hsc|].
  right. right. unfold Invariants.pathTimers. cbn. rewrite Hts. cbn.
  repeat split; [assumption|discriminate|].
  left. apply showTimers_shape.
Qed.

Lemma pathMemory_click_inv d c s :
  Invariants.pathMemory s ->
  Invariants.pathMemory (PathMemory.handleCellClick d c s).
Proof.
  intros Hinv. unfold PathMemory.handleCellClick.
  destruct (negb (bool_decide _)) eqn:Eph; [exact Hinv|].
  apply negb_false_iff, bool_decide_eq_true in Eph.
  destruct Hinv as (Hsc & [(Hts & _ & Hlog)|[(_ & Hph & _)|(_ & Hph & _)]]);
    [|congruence..].
  assert (Hwrong :
    forall i, Invariants.pathMemory
                (PathMemory.wrongAnswer (PathMemory.setPlayerInput i s))).
  { intros i. unfold PathMemory.wrongAnswer, Invariants.pathMemory. cbn.
    destruct (PathMemory.retryUsed s); cbn; rewrite Hts; cbn;
      (split; [exact Hsc|]); right; right;
      (repeat split; [assumption|discriminate|]);
      unfold Invariants.pathTimers; cbn; rewrite ?Hts; cbn.
    - do 5 right. exists (PathMemory.score s).
      split; [exact Hsc|]. split; reflexivity.
    - right. right. left. eexists. reflexivity. }
  destruct (_ =? _)%nat.
  - destruct (bool_decide (_ = PathMemory.sequence s)); [|apply Hwrong].
    unfold Invariants.pathMemory, Invariants.pathTimers.
    destruct (_ <? _); cbn; rewrite Hts; cbn;
      (split; [lia|]); right; right;
      (repeat split; [assumption|discriminate|]); rewrite ?Hts; cbn.
    + do 4 right. left. eexists. split; [|reflexivity]. lia.
    + do 3 right. left. eexists. reflexivity.
  - destruct (negb (bool_decide _)); [apply Hwrong|].
    unfold Invariants.pathMemory. cbn. split; [exact Hsc|]. left.
    repeat split; assumption.
Qed.

Lemma pathMemory_fire_inv rnd s :
  Invariants.pathMemory s -> Invariants.pathMemory (PathMemory.fire rnd s).
Proof.
  intros Hinv. unfold PathMemory.fire.
  destruct (PathMemory.timeouts s) as [|c rest] eqn:Ets; [exact Hinv|].
  destruct Hinv as (Hsc & [(Hts & _)|[(Hts & _)|(Hlog & Hph & Htm)]]);
    [congruence..|].
  unfold Invariants.pathTimers in Htm. rewrite Ets in Htm.
  destruct Htm as [(pre & Hpre & Hhl)|[(sq & Hq)|[(sq & Hq)|[(len & Hq)|
                   [(n & Hn & Hq)|(n & Hn & Hq & Hgo)]]]]].
  - destruct pre as [|p pre]; cbn in Hpre; injection Hpre as -> ->.
    + unfold Invariants.pathMemory. cbn. split; [exact Hsc|]. left.
      repeat split. exact Hlog.
    + apply Forall_cons in Hhl as [Hp Hhl].
      assert (Hrest : Invariants.pathTimers
                        (PathMemory.setTimeouts
                           (pre ++ [PathMemory.ToInput]) s)).
      { left. exists pre. split; [reflexivity|exact Hhl]. }
      destruct p; cbn in Hp; try contradiction;
        unfold Invariants.pathMemory; cbn; (split; [exact Hsc|]);
        right; right; repeat split; try assumption;
        left; exists pre; (split; [reflexivity|exact Hhl]).
  - injection Hq as -> ->. now apply pathMemory_show_inv.
  - injection Hq as -> ->. now apply pathMemory_show_inv.
  - injection Hq as -> ->. unfold Invariants.pathMemory. cbn.
    split; [exact Hsc|]. right. right.
    repeat split; [assumption|discriminate|].
    right. left. eexists. reflexivity.
  - injection Hq as -> ->. unfold Invariants.pathMemory. cbn.
    split; [exact Hsc|]. right. left. rewrite Hlog.
    repeat split. eexists. split; [reflexivity|exact Hn].
  - injection Hq as -> ->. unfold Invariants.pathMemory. cbn.
    split; [exact Hsc|]. right. left. rewrite Hlog.
    repeat split; [exact Hgo|]. eexists. split; [reflexivity|exact Hn].
Qed.

Lemma pathMemory_completes_once d sq es :
  Session.completedAtMostOnce
    (PathMemory.onComplete (PathMemory.run d es (PathMemory.init d sq))).
Proof.
  assert (H : Invariants.pathMemory
                (PathMemory.run d es (PathMemory.init d sq))).
  { unfold PathMemory.run.
    apply (foldl_invariant Invariants.pathMemory).
    - unfold Invariants.pathMemory. cbn. split; [lia|]. right. right.
      repeat split; [discriminate|]. right. left. eexists. reflexivity.
    - intros s [c|rnd] Hinv; cbn [PathMemory.step].
      + now apply pathMemory_click_inv.
      + now apply pathMemory_fire_inv. }
  destruct H as (_ & [(_ & _ & ->)|[(_ & _ & H)|(-> & _)]]);
    [now left | now right | now left].
Qed.

(** *** Reaction timing: the score reported is never negative *)

Lemma sumZ_nonneg (l : list Z) : Forall (fun n => 0 <= n) l -> 0 <= sumZ l.
Proof. unfold sumZ. induction 1; simpl; lia. Qed.

Lemma reaction_finalScore_range (rts : list Z) :
  0 <= ReactionTest.finalScore rts <= 800.
Proof.
  destruct rts as [|rt rts].
  - vm_compute. split; discriminate.
  - rewrite finalScore_rounded_mean by discriminate.
    split; [|lia]. apply Z.min_glb; [lia|].
    unfold round_half_up. apply Z.div_pos; [|simpl length; lia].
    assert (0 <= sumZ (ReactionTest.calculateTrialScore <$> rt :: rts)).
    { apply sumZ_nonneg, Forall_fmap, Forall_true. intros x.
      apply calculateTrialScore_range. }
    simpl length. lia.
Qed.

(** ** Completion callback and trick signal of the reaction game *)

(** C2: along every sequence of events eight of the nine games call
    [onComplete] at most once, with a score that is not negative, and the
    score the reaction game computes lies between 0 and 800; but the
    reaction game can call [onComplete] twice: the hard-mode session
    [reactionRace] reports 470 and, 910 ms later, 441. *)
Theorem C2_reaction_completes_twice :
  (forall d cs es,
      Session.completedAtMostOnce
        (MemoryMatch.onComplete
           (MemoryMatch.run d es (MemoryMatch.init d cs)))) /\
  (forall d nums es,
      Session.completedAtMostOnce
        (SchulteGrid.onComplete
           (SchulteGrid.run d es (SchulteGrid.init nums)))) /\
  (forall d t now es,
      Session.completedAtMostOnce
        (StroopTest.onComplete
           (StroopTest.run d es (StroopTest.init t now)))) /\
  (forall d ws es,
      Session.completedAtMostOnce
        (WordSort.onComplete (WordSort.run es (WordSort.init d ws)))) /\
  (forall d sq es,
      Session.completedAtMostOnce
        (PathMemory.onComplete
           (PathMemory.run d es (PathMemory.init d sq)))) /\
  (forall d sq es,
      Session.completedAtMostOnce
        (DigitSpan.onComplete (DigitSpan.run d es (DigitSpan.init d sq)))) /\
  (forall d p es,
      Session.completedAtMostOnce
        (ArithmeticChallenge.onComplete
           (ArithmeticChallenge.run d es (ArithmeticChallenge.init d p)))) /\
  (forall d qs now es,
      Session.completedAtMostOnce
        (PatternReason.onComplete
           (PatternReason.run d es (PatternReason.init qs now)))) /\
  (forall rts, 0 <= ReactionTest.finalScore rts <= 800) /\
  ReactionTest.onComplete <$>
    ReactionTest.run hard reactionRace ReactionTest.init
  = Some [470; 441].
Proof.
  split; [exact memoryMatch_completes_once|].
  split; [exact schulteGrid_completes_once|].
  split; [exact stroopTest_completes_once|].
  split; [exact wordSort_completes_once|].
  split; [exact pathMemory_completes_once|].
  split; [exact digitSpan_completes_once|].
  split; [exact arithmetic_completes_once|].
  split; [exact patternReason_completes_once|].
  split; [exact reaction_finalScore_range|].
  vm_compute. reflexivity.
Qed.

Lemma trickHide_reverts_to_ready d r s :
  ReactionTest.phase (ReactionTest.runCallback d r ReactionTest.TrickHide s)
  = ReactionTest.ready.
Proof. reflexivity. Qed.

Lemma click_when_ready_is_false_start d s :
  ReactionTest.phase s = ReactionTest.ready ->
  let s' := ReactionTest.handleCircleClick d s in
  ReactionTest.phase s' = ReactionTest.tooEarly /\
  ReactionTest.reactionTimes s' = ReactionTest.reactionTimes s /\
  ReactionTest.currentTrial s' = ReactionTest.currentTrial s.
Proof.
  intros Hph s'. subst s'. unfold ReactionTest.handleCircleClick.
  rewrite Hph.
  destruct (ReactionTest.delayTimeoutRef s) eqn:E1,
    (ReactionTest.trickTimeoutRef s) eqn:E2;
    cbn; rewrite ?E1, ?E2; cbn; repeat split; reflexivity.
Qed.

(** C3 at the failing input: in [reactionTrickClick] the fifteenth trial
    shows a trick signal and the click comes 149.6 ms later, before the
    signal is withdrawn; the handler records the time 150 as a trial worth
    650 points, and the session, whose fourteen other trials earned
    nothing, reports 43. *)
Theorem C3_trick_signal_click_scores :
  (ReactionTest.phase <$>
     ReactionTest.run hard (reactionTrials 13 800 ++
                            [ReactionTest.Fire trickDraw]) ReactionTest.init
   = Some ReactionTest.signal) /\
  (ReactionTest.isTrickTrialRef <$>
     ReactionTest.run hard (reactionTrials 13 800 ++
                            [ReactionTest.Fire trickDraw]) ReactionTest.init
   = Some true) /\
  (ReactionTest.reactionTimes <$>
     ReactionTest.run hard reactionTrickClick ReactionTest.init
   = Some (replicate 14 800 ++ [150])) /\
  ReactionTest.calculateTrialScore 800 = 0 /\
  ReactionTest.calculateTrialScore 150 = 650 /\
  (ReactionTest.onComplete <$>
     ReactionTest.run hard reactionTrickSession ReactionTest.init
   = Some [43]).
Proof. repeat split; vm_compute; reflexivity. Qed.


(** ** Instances *)

Lemma C1_retry_once_per_round_witness :
  PathMemory.retryUsed pathRetryUsed = true /\
  PathMemory.score pathRetryUsed = 0 /\
  PathMemory.phase (PathMemory.handleCellClick easy 5 pathRetryUsed)
    = PathMemory.gameover /\
  PathMemory.onComplete
    (PathMemory.fire [] (PathMemory.handleCellClick easy 5 pathRetryUsed))
    = [0].
Proof.
  destruct C1_retry_once_per_round as (_ & H & _).
  destruct (H easy 5 pathRetryUsed) as (Hph & _ & Hlog);
    [reflexivity | reflexivity |].
  split; [reflexivity|]. split; [reflexivity|].
  split; [exact Hph|]. apply Hlog. reflexivity.
Defined.

Lemma C5_reaction_score_witness :
  ReactionTest.calculateTrialScore 250 = Z.max 0 (800 - 250) /\
  ReactionTest.finalScore [120; 250] = 275.
Proof.
  destruct C5_reaction_score as (Hrt & _ & _ & Hmean & _).
  split.
  - apply (Hrt 250). lia.
  - rewrite Hmean by discriminate. reflexivity.
Defined.

Lemma C10_saveBestScore_monotone_witness :
  Storage.loadBestScores
    (Storage.saveBestScore schulte 40
       (Storage.saveBestScore schulte 50 emptyStorage)) !! schulte
  = Some 50.
Proof.
  destruct C10_saveBestScore_monotone as (_ & _ & _ & _ & H).
  apply H. reflexivity.
Defined.

(** * Further properties of the code *)

(** ** Storage queries *)

(** X1: [getGameRecords] after a [saveRecord], for a log within its cap.
    The history of a game is its old history, less the oldest record of the
    whole log when that log was full and that record belonged to the game,
    followed by the new record when the save was for this game.  So a save
    can evict a record of another game, and never more than one; the new
    record is always the newest of its game. *)
Theorem X1_getGameRecords_saveRecord (g g' : GameId) (d : Difficulty)
  (sc now : Z) (st : Storage.LocalStorage) :
  (length (Storage.loadRecords st) <= 200)%nat ->
  let new :=
    {| Storage.gameId := g; Storage.difficulty := d;
       Storage.score := sc; Storage.timestamp := now |} in
  let kept :=
    if (length (Storage.loadRecords st) =? 200)%nat
    then tail (Storage.loadRecords st) else Storage.loadRecords st in
  Storage.getGameRecords g' (Storage.saveRecord g d sc now st) =
    filter (fun r => Storage.gameId r = g') kept ++
    (if decide (g = g') then [new] else []) /\
  last (Storage.getGameRecords g (Storage.saveRecord g d sc now st)) =
    Some new /\
  ((length (Storage.loadRecords st) < 200)%nat ->
   Storage.getGameRecords g' (Storage.saveRecord g d sc now st) =
     Storage.getGameRecords g' st ++ (if decide (g = g') then [new] else [])).
Proof.
  intros Hlen new kept.
  assert (E : Storage.loadRecords (Storage.saveRecord g d sc now st) =
              kept ++ [new]).
  { rewrite loadRecords_saveRecord. cbv zeta. fold new. subst kept.
    rewrite length_app. simpl.
    destruct (length (Storage.loadRecords st) =? 200)%nat eqn:C.
    - apply Nat.eqb_eq in C. rewrite C. simpl.
      destruct (Storage.loadRecords st) as [|r rs]; [discriminate|].
      reflexivity.
    - apply Nat.eqb_neq in C.
      replace (_ - 200)%nat with 0%nat by lia. reflexivity. }
  assert (F : forall h,
             Storage.getGameRecords h (Storage.saveRecord g d sc now st) =
             filter (fun r => Storage.gameId r = h) kept ++
             (if decide (g = h) then [new] else [])).
  { intros h. unfold Storage.getGameRecords. rewrite E, filter_app.
    reflexivity. }
  split; [apply F|]. split.
  - rewrite F. rewrite decide_True by reflexivity. apply last_snoc.
  - intros Hlt. rewrite F. subst kept.
    replace (_ =? 200)%nat with false
      by (symmetry; apply Nat.eqb_neq; lia).
    reflexivity.
Qed.

Lemma X1_getGameRecords_saveRecord_witness :
  let full := Storage.saveRecords (sampleRecord <$> seq 0 200) emptyStorage in
  length (Storage.getGameRecords schulte full) = 200%nat /\
  length (Storage.getGameRecords schulte
            (Storage.saveRecord memory easy 300 5000 full)) = 199%nat /\
  Storage.getGameRecords memory
    (Storage.saveRecord memory easy 300 5000 full) =
  [{| Storage.gameId := memory; Storage.difficulty := easy;
      Storage.score := 300; Storage.timestamp := 5000 |}].
Proof.
  intros full.
  assert (Hlen : (length (Storage.loadRecords full) <= 200)%nat)
    by (vm_compute; lia).
  pose proof (X1_getGameRecords_saveRecord memory schulte easy 300 5000
                full Hlen) as (Hs & _ & _).
  pose proof (X1_getGameRecords_saveRecord memory memory easy 300 5000
                full Hlen) as (Hm & _ & _).
  split; [vm_compute; reflexivity|]. split.
  - rewrite Hs. vm_compute. reflexivity.
  - rewrite Hm. vm_compute. reflexivity.
Defined.

(** ** The history page *)

Lemma history_avgScore_sum (rs : list Storage.TrainingRecord) :
  TrainingHistory.avgScore rs =
  if decide (rs = []) then 0
  else round_half_up (sumZ (Storage.score <$> rs)) (Z.of_nat (length rs)).
Proof.
  unfold TrainingHistory.avgScore, TrainingHistory.totalGames.
  destruct rs as [|r rs]; [reflexivity|].
  rewrite decide_False by discriminate.
  replace (0 <? length (r :: rs))%nat with true by reflexivity.
  rewrite Math_round_div by (simpl; lia).
  now rewrite foldl_add_sumZ, Z.add_0_l.
Qed.

(** X2: the history page shows what the storage queries return.  Its
    records are the stored log, newest first; filtered by a game they are
    [getGameRecords] of that game, newest first; its count for today is
    [getTodayCount]; its average is the mean of the raw scores of the whole
    log, whatever the game and the difficulty, rounded half up (0 for an
    empty log). *)
Theorem X2_history_page_views (st : Storage.LocalStorage) (g : GameId)
  (todayStart : Z) :
  let rs := TrainingHistory.records st in
  TrainingHistory.filtered TrainingHistory.all rs =
    reverse (Storage.loadRecords st) /\
  TrainingHistory.filtered (TrainingHistory.only g) rs =
    reverse (Storage.getGameRecords g st) /\
  TrainingHistory.totalGames rs = length (Storage.loadRecords st) /\
  TrainingHistory.todayCount todayStart rs =
    Storage.getTodayCount todayStart st /\
  TrainingHistory.avgScore rs =
    (if decide (Storage.loadRecords st = []) then 0
     else round_half_up (sumZ (Storage.score <$> Storage.loadRecords st))
            (Z.of_nat (length (Storage.loadRecords st)))).
Proof.
  intros rs. subst rs. unfold TrainingHistory.records.
  split; [reflexivity|]. split; [|split; [|split]].
  - simpl. unfold Storage.getGameRecords. apply filter_reverse.
  - unfold TrainingHistory.totalGames. apply length_reverse.
  - unfold TrainingHistory.todayCount, Storage.getTodayCount.
    now rewrite filter_reverse, length_reverse.
  - rewrite history_avgScore_sum.
    destruct (Storage.loadRecords st) as [|r l] eqn:E; [reflexivity|].
    rewrite decide_False.
    + rewrite decide_False by discriminate.
      rewrite length_reverse. f_equal.
      apply sumZ_Permutation. now rewrite reverse_Permutation.
    + intros H. apply (f_equal length) in H.
      rewrite length_reverse in H. discriminate.
Qed.

(** ** The two stores are independent *)

(** X4: saving a best score and appending a record touch different keys:
    neither changes what the other loads, and the two calls of
    [finishGame] can be made in either order. *)
Theorem X4_saveBestScore_saveRecord_commute (g g' : GameId) (d : Difficulty)
  (sc sc' now : Z) (st : Storage.LocalStorage) :
  Storage.loadRecords (Storage.saveBestScore g' sc' st) =
    Storage.loadRecords st /\
  Storage.loadBestScores (Storage.saveRecord g d sc now st) =
    Storage.loadBestScores st /\
  Storage.saveRecord g d sc now (Storage.saveBestScore g' sc' st) =
    Storage.saveBestScore g' sc' (Storage.saveRecord g d sc now st).
Proof.
  split; [|split].
  - unfold Storage.saveBestScore.
    destruct (Storage.loadBestScores st !! g') as [old|];
      [destruct (old <? sc')|]; reflexivity.
  - reflexivity.
  - unfold Storage.saveBestScore.
    change (Storage.loadBestScores (Storage.saveRecord g d sc now st))
      with (Storage.loadBestScores st).
    destruct (Storage.loadBestScores st !! g') as [old|];
      [destruct (old <? sc')|]; reflexivity.
Qed.

(** ** Sequences of best-score saves *)

Lemma saveBestScores_cons g x l st :
  Storage.saveBestScores g (x :: l) st =
  Storage.saveBestScores g l (Storage.saveBestScore g x st).
Proof. reflexivity. Qed.

Lemma saveBestScore_is_Some g sc st :
  Storage.cogpark_best_scores (Storage.saveBestScore g sc st) =
  Some (Storage.loadBestScores (Storage.saveBestScore g sc st)).
Proof.
  unfold Storage.saveBestScore, Storage.loadBestScores.
  destruct (Storage.cogpark_best_scores st) as [m|] eqn:E; simpl.
  - destruct (m !! g) as [old|]; [destruct (old <? sc)|]; simpl;
      rewrite ?E; reflexivity.
  - rewrite lookup_empty. reflexivity.
Qed.

Lemma saveBestScores_is_Some g scs st :
  scs <> [] ->
  Storage.cogpark_best_scores (Storage.saveBestScores g scs st) =
  Some (Storage.loadBestScores (Storage.saveBestScores g scs st)).
Proof.
  intros Hne. destruct scs as [|x l]; [congruence|]. clear Hne.
  revert x st. induction l as [|y l IH]; intros x st.
  - apply saveBestScore_is_Some.
  - rewrite saveBestScores_cons. apply IH.
Qed.

Lemma saveBestScores_records g scs st :
  Storage.cogpark_records (Storage.saveBestScores g scs st) =
  Storage.cogpark_records st.
Proof.
  revert st. induction scs as [|x l IH]; intros st; [reflexivity|].
  rewrite saveBestScores_cons, IH. unfold Storage.saveBestScore.
  destruct (Storage.loadBestScores st !! g) as [old|];
    [destruct (old <? x)|]; reflexivity.
Qed.

Lemma saveBestScores_other g g' scs st :
  g' <> g ->
  Storage.loadBestScores (Storage.saveBestScores g scs st) !! g' =
  Storage.loadBestScores st !! g'.
Proof.
  intros Hne. revert st. induction scs as [|x l IH]; intros st;
    [reflexivity|].
  rewrite saveBestScores_cons, IH. now apply saveBestScore_other.
Qed.

Lemma saveBestScores_ge_old g scs st old :
  Storage.loadBestScores st !! g = Some old ->
  exists b,
    Storage.loadBestScores (Storage.saveBestScores g scs st) !! g = Some b /\
    old <= b.
Proof.
  revert st old. induction scs as [|x l IH]; intros st old Hold.
  - exists old. split; [exact Hold | lia].
  - rewrite saveBestScores_cons.
    destruct (IH (Storage.saveBestScore g x st) (Z.max old x))
      as (b & Hb & Hle).
    + now rewrite saveBestScore_lookup, Hold.
    + exists b. split; [exact Hb | lia].
Qed.

Lemma saveBestScores_upper g scs st sc :
  sc ∈ scs ->
  exists b,
    Storage.loadBestScores (Storage.saveBestScores g scs st) !! g = Some b /\
    sc <= b.
Proof.
  revert st. induction scs as [|x l IH]; intros st Hin.
  - now apply elem_of_nil in Hin.
  - rewrite saveBestScores_cons. apply elem_of_cons in Hin as [-> | Hin].
    + pose proof (saveBestScore_lookup g x st) as Hx.
      destruct (Storage.loadBestScores st !! g) as [old|].
      * destruct (saveBestScores_ge_old g l _ _ Hx) as (b & Hb & Hle).
        exists b. split; [exact Hb | lia].
      * destruct (saveBestScores_ge_old g l _ _ Hx) as (b & Hb & Hle).
        exists b. split; [exact Hb | lia].
    + now apply IH.
Qed.

Lemma saveBestScores_mem g scs st b :
  Storage.loadBestScores (Storage.saveBestScores g scs st) !! g = Some b ->
  Storage.loadBestScores st !! g = Some b \/ b ∈ scs.
Proof.
  revert st. induction scs as [|x l IH]; intros st Hb.
  - now left.
  - rewrite saveBestScores_cons in Hb. apply IH in Hb as [Hb | Hb].
    + rewrite saveBestScore_lookup in Hb. injection Hb as Hb.
      destruct (Storage.loadBestScores st !! g) as [old|].
      * destruct (Z.max_spec old x) as [[_ E] | [_ E]]; rewrite E in Hb.
        -- right. subst b. apply elem_of_cons. now left.
        -- left. now subst b.
      * right. subst b. apply elem_of_cons. now left.
    + right. apply elem_of_cons. now right.
Qed.

(** X5: the best score stored for a game after a sequence of saves is the
    maximum of the best stored before and of the saved scores: it bounds
    every one of them and is one of them.  The order of the saves does not
    matter, down to the stored data; the other games and the log are not
    touched. *)
Theorem X5_best_score_is_maximum (g : GameId) (scs scs' : list Z)
  (st : Storage.LocalStorage) :
  scs ≡ₚ scs' ->
  let st1 := Storage.saveBestScores g scs st in
  st1 = Storage.saveBestScores g scs' st /\
  (forall sc, sc ∈ scs ->
     exists b, Storage.loadBestScores st1 !! g = Some b /\ sc <= b) /\
  (forall old, Storage.loadBestScores st !! g = Some old ->
     exists b, Storage.loadBestScores st1 !! g = Some b /\ old <= b) /\
  (forall b, Storage.loadBestScores st1 !! g = Some b ->
     Storage.loadBestScores st !! g = Some b \/ b ∈ scs) /\
  (forall g', g' <> g ->
     Storage.loadBestScores st1 !! g' = Storage.loadBestScores st !! g') /\
  Storage.loadRecords st1 = Storage.loadRecords st.
Proof.
  intros Hperm st1. subst st1.
  split; [|split; [|split; [|split; [|split]]]].
  - destruct scs as [|x l].
    { apply Permutation_nil_l in Hperm. now subst scs'. }
    assert (Hne' : scs' <> []).
    { intros ->. now apply Permutation_nil_r in Hperm. }
    set (a := Storage.saveBestScores g (x :: l) st).
    set (b := Storage.saveBestScores g scs' st).
    assert (Hmap : Storage.loadBestScores a = Storage.loadBestScores b).
    { apply map_eq. intros k. destruct (decide (k = g)) as [->|Hk].
      - destruct (saveBestScores_upper g (x :: l) st x) as (va & Ha & _);
          [apply elem_of_cons; now left|].
        destruct (saveBestScores_upper g scs' st x) as (vb & Hb & _);
          [rewrite <- Hperm; apply elem_of_cons; now left|].
        fold a in Ha. fold b in Hb. rewrite Ha, Hb. f_equal.
        assert (Hab : forall s1 s2 v1 v2,
                   s1 ≡ₚ s2 ->
                   Storage.loadBestScores (Storage.saveBestScores g s1 st)
                     !! g = Some v1 ->
                   Storage.loadBestScores (Storage.saveBestScores g s2 st)
                     !! g = Some v2 ->
                   v1 <= v2).
        { intros s1 s2 v1 v2 Hp H1 H2.
          apply saveBestScores_mem in H1 as [H1 | H1].
          - destruct (saveBestScores_ge_old g s2 st v1 H1) as (w & Hw & Hle).
            rewrite Hw in H2. injection H2 as <-. exact Hle.
          - rewrite Hp in H1.
            destruct (saveBestScores_upper g s2 st v1 H1) as (w & Hw & Hle).
            rewrite Hw in H2. injection H2 as <-. exact Hle. }
        pose proof (Hab _ _ _ _ Hperm Ha Hb).
        pose proof (Hab _ _ _ _ (symmetry Hperm) Hb Ha). lia.
      - unfold a, b. now rewrite !saveBestScores_other. }
    destruct a as [ba ra] eqn:Ea, b as [bb rb] eqn:Eb. f_equal.
    + pose proof (saveBestScores_is_Some g (x :: l) st ltac:(discriminate))
        as Ha.
      pose proof (saveBestScores_is_Some g scs' st Hne') as Hb.
      fold a in Ha. fold b in Hb. rewrite Ea in Ha. rewrite Eb in Hb.
      simpl in Ha, Hb. rewrite Ha, Hb. f_equal. exact Hmap.
    + pose proof (saveBestScores_records g (x :: l) st) as Ha.
      pose proof (saveBestScores_records g scs' st) as Hb.
      fold a in Ha. fold b in Hb. rewrite Ea in Ha. rewrite Eb in Hb.
      simpl in Ha, Hb. congruence.
  - intros sc. apply saveBestScores_upper.
  - intros old. apply saveBestScores_ge_old.
  - intros b. apply saveBestScores_mem.
  - intros g'. apply saveBestScores_other.
  - unfold Storage.loadRecords. now rewrite saveBestScores_records.
Qed.

Lemma X5_best_score_is_maximum_witness :
  Storage.saveBestScores stroop [120; 300; 45] emptyStorage =
  Storage.saveBestScores stroop [300; 45; 120] emptyStorage /\
  Storage.loadBestScores
    (Storage.saveBestScores stroop [120; 300; 45] emptyStorage) !! stroop =
  Some 300.
Proof.
  assert (Hp : [120; 300; 45] ≡ₚ [300; 45; 120]).
  { change [300; 45; 120] with ([300; 45] ++ [120]).
    rewrite <- Permutation_cons_append. reflexivity. }
  destruct (X5_best_score_is_maximum stroop _ _ emptyStorage Hp)
    as (Heq & _).
  split; [exact Heq | vm_compute; reflexivity].
Defined.

(** ** Normalisation and the profile *)

(** Where a threshold of [normalizeScore] lies, from its values at two
    neighbouring scores. *)
Lemma normalizeScore_threshold (g : GameId) (d : Difficulty) (k r : Z) :
  Scoring.normalizeScore g d (r - 1) < k ->
  k <= Scoring.normalizeScore g d r ->
  forall raw, k <= Scoring.normalizeScore g d raw <-> r <= raw.
Proof.
  intros Hlo Hhi raw. split; intros H.
  - destruct (Z.le_gt_cases r raw) as [Hle|Hgt]; [exact Hle|].
    pose proof (normalizeScore_mono g d raw (r - 1) ltac:(lia)). lia.
  - pose proof (normalizeScore_mono g d r raw H). lia.
Qed.

(** X12: the shape of [normalizeScore] on the score table.  It grows with
    the raw score; a raw score that is not negative lands in 0..100; it
    saturates at 100 exactly from 99.5 % of the maximum on, and shows 0
    below 0.5 % of it; a negative raw score is not clamped from below. *)
Theorem X12_normalizeScore_shape (g : GameId) (d : Difficulty) :
  (forall raw raw', raw <= raw' ->
     Scoring.normalizeScore g d raw <= Scoring.normalizeScore g d raw') /\
  (forall raw, 0 <= raw -> 0 <= Scoring.normalizeScore g d raw <= 100) /\
  (forall raw,
     Scoring.normalizeScore g d raw = 100 <->
     199 * MAX_SCORES g d <= 200 * raw) /\
  (forall raw,
     Scoring.normalizeScore g d raw <= 0 <-> 200 * raw < MAX_SCORES g d) /\
  (forall raw,
     200 * raw < - MAX_SCORES g d -> Scoring.normalizeScore g d raw < 0).
Proof.
  split; [intros raw raw'; apply normalizeScore_mono|].
  split; [intros raw; apply normalizeScore_range|].
  set (top := (199 * MAX_SCORES g d + 199) / 200).
  set (low := (MAX_SCORES g d + 199) / 200).
  set (neg := (- MAX_SCORES g d - 1) / 200).
  assert (Htop : Scoring.normalizeScore g d (top - 1) < 100 /\
                 100 <= Scoring.normalizeScore g d top /\
                 200 * (top - 1) < 199 * MAX_SCORES g d <= 200 * top)
    by (subst top; destruct g, d; vm_compute; repeat split;
        first [reflexivity | discriminate]).
  assert (Hlow : Scoring.normalizeScore g d (low - 1) < 1 /\
                 1 <= Scoring.normalizeScore g d low /\
                 200 * (low - 1) < MAX_SCORES g d <= 200 * low)
    by (subst low; destruct g, d; vm_compute; repeat split;
        first [reflexivity | discriminate]).
  assert (Hneg : Scoring.normalizeScore g d neg < 0 /\
                 200 * neg < - MAX_SCORES g d <= 200 * (neg + 1))
    by (subst neg; destruct g, d; vm_compute; repeat split;
        first [reflexivity | discriminate]).
  destruct Htop as (T1 & T2 & T3). destruct Hlow as (L1 & L2 & L3).
  destruct Hneg as (N1 & N2).
  split; [|split].
  - intros raw.
    pose proof (normalizeScore_threshold g d 100 top T1 T2 raw) as H.
    pose proof (normalizeScore_le_100 g d raw). lia.
  - intros raw.
    pose proof (normalizeScore_threshold g d 1 low L1 L2 raw) as H. lia.
  - intros raw Hraw.
    pose proof (normalizeScore_mono g d raw neg ltac:(lia)). lia.
Qed.

Lemma sumZ_le_100 (l : list Z) :
  Forall (fun n => n <= 100) l -> sumZ l <= 100 * Z.of_nat (length l).
Proof.
  unfold sumZ. induction 1 as [|x l Hx _ IH]; simpl; lia.
Qed.

Lemma normalizedPlayed_le_100 (scores : gmap GameId Z) :
  Forall (fun n => n <= 100) (ResultPage.normalizedPlayed scores).
Proof.
  unfold ResultPage.normalizedPlayed. apply Forall_fmap, Forall_forall.
  intros [k v] _. simpl. apply normalizeScore_le_100.
Qed.

Lemma normalizedPlayed_nonneg (scores : gmap GameId Z) :
  (forall g v, scores !! g = Some v -> 0 <= v) ->
  Forall (fun n => 0 <= n) (ResultPage.normalizedPlayed scores).
Proof.
  intros Hpos. unfold ResultPage.normalizedPlayed.
  apply Forall_fmap, Forall_forall. intros [k v] Hkv. simpl.
  apply elem_of_map_to_list in Hkv.
  apply normalizeScore_range. now apply (Hpos k).
Qed.

Lemma length_normalizedPlayed (scores : gmap GameId Z) :
  length (ResultPage.normalizedPlayed scores) = size scores.
Proof.
  unfold ResultPage.normalizedPlayed. rewrite length_fmap.
  apply length_map_to_list.
Qed.

Lemma getRating_tiers (a : Z) :
  (Scoring.getRating a = Scoring.TopTier <-> 90 <= a) /\
  (Scoring.getRating a = Scoring.SecondTier <-> 70 <= a < 90) /\
  (Scoring.getRating a = Scoring.ThirdTier <-> 50 <= a < 70) /\
  (Scoring.getRating a = Scoring.BaselineTier <-> a < 50).
Proof.
  unfold Scoring.getRating.
  destruct (Z.leb_spec 90 a); [repeat split; try discriminate; lia|].
  destruct (Z.leb_spec 70 a); [repeat split; try discriminate; lia|].
  destruct (Z.leb_spec 50 a); repeat split; try discriminate; lia.
Qed.

Lemma getRating_rank_mono (a b : Z) :
  a <= b ->
  Scoring.rank (Scoring.getRating a) <= Scoring.rank (Scoring.getRating b).
Proof.
  intros Hle. unfold Scoring.getRating.
  destruct (Z.leb_spec 90 a), (Z.leb_spec 90 b); cbn; try lia;
    destruct (Z.leb_spec 70 a), (Z.leb_spec 70 b); cbn; try lia;
    destruct (Z.leb_spec 50 a), (Z.leb_spec 50 b); cbn; lia.
Qed.

(** X13: the profile average never exceeds 100 and, when no score is
    negative, is not negative either; so the rating is decided on 0..100,
    where a higher average never gets a lower tier: the top tier from 90,
    the second from 70, the third from 50, the baseline below. *)
Theorem X13_profile_average_range (scores scores' : gmap GameId Z) :
  ResultPage.average scores <= 100 /\
  ((forall g v, scores !! g = Some v -> 0 <= v) ->
   0 <= ResultPage.average scores) /\
  (ResultPage.rating scores = Scoring.TopTier <->
   90 <= ResultPage.average scores) /\
  (ResultPage.rating scores = Scoring.SecondTier <->
   70 <= ResultPage.average scores < 90) /\
  (ResultPage.rating scores = Scoring.ThirdTier <->
   50 <= ResultPage.average scores < 70) /\
  (ResultPage.rating scores = Scoring.BaselineTier <->
   ResultPage.average scores < 50) /\
  (ResultPage.average scores <= ResultPage.average scores' ->
   Scoring.rank (ResultPage.rating scores)
     <= Scoring.rank (ResultPage.rating scores')) /\
  (ResultPage.average scores <= ResultPage.average scores' ->
   ResultPage.rating scores = Scoring.TopTier ->
   ResultPage.rating scores' = Scoring.TopTier) /\
  (ResultPage.average scores <= ResultPage.average scores' ->
   ResultPage.rating scores' = Scoring.BaselineTier ->
   ResultPage.rating scores = Scoring.BaselineTier).
Proof.
  assert (Hle : forall sc : gmap GameId Z, ResultPage.average sc <= 100).
  { intros sc. rewrite average_rounded_mean.
    destruct (decide (size sc = 0%nat)); [lia|].
    unfold round_half_up.
    pose proof (sumZ_le_100 _ (normalizedPlayed_le_100 sc)) as Hs.
    rewrite length_normalizedPlayed in Hs.
    enough ((2 * sumZ (ResultPage.normalizedPlayed sc) +
             Z.of_nat (size sc)) / (2 * Z.of_nat (size sc)) < 101) by lia.
    apply Z.div_lt_upper_bound; lia. }
  destruct (getRating_tiers (ResultPage.average scores))
    as (T1 & T2 & T3 & T4).
  destruct (getRating_tiers (ResultPage.average scores'))
    as (T1' & T2' & T3' & T4').
  unfold ResultPage.rating.
  split; [apply Hle|]. split; [|split; [exact T1|split; [exact T2|
    split; [exact T3|split; [exact T4|split; [|split]]]]]].
  - intros Hpos. rewrite average_rounded_mean.
    destruct (decide (size scores = 0%nat)); [lia|].
    unfold round_half_up.
    pose proof (sumZ_nonneg _ (normalizedPlayed_nonneg scores Hpos)).
    apply Z.div_pos; lia.
  - apply getRating_rank_mono.
  - intros H1 H2. apply T1'. apply T1 in H2. lia.
  - intros H1 H2. apply T4. apply T4' in H2. lia.
Qed.

Lemma double_1 : (double 1 == 1)%Q.
Proof. vm_compute. reflexivity. Qed.

Lemma double_120 : (double 120 == 120)%Q.
Proof. vm_compute. reflexivity. Qed.

Lemma radius_per_point (k : Z) :
  0 <= k <= 100 ->
  (- (1 # 10 ^ 13) <= RadarChart.radius k - inject_Z k * (6 # 5))%Q /\
  (RadarChart.radius k - inject_Z k * (6 # 5) <= 1 # 10 ^ 13)%Q.
Proof.
  intros Hk.
  set (check := fun k : Z =>
         Qle_bool (- (1 # 10 ^ 13))
           (RadarChart.radius k - inject_Z k * (6 # 5)) &&
         Qle_bool (RadarChart.radius k - inject_Z k * (6 # 5))
           (1 # 10 ^ 13)).
  assert (Hall : forallb check (seqZ 0 101) = true)
    by (vm_compute; reflexivity).
  rewrite forallb_forall in Hall.
  assert (Hin : In k (seqZ 0 101))
    by (apply list_elem_of_In, elem_of_seqZ; lia).
  specialize (Hall k Hin). unfold check in Hall.
  apply andb_true_iff in Hall as [H1 H2].
  split; now apply Qle_bool_iff.
Qed.

(** X14: the spoke of the radar chart.  Its length lies between 0 and
    [MAX_RADIUS] for every number; for the values the profile page hands
    over it is 1.2 pixels per point when the raw score is not negative, up
    to the rounding of its two operations (less than 10^-13 pixels), and a
    game without a score has length 0. *)
Theorem X14_radar_spoke (scores : gmap GameId Z) (g : GameId) (n : Z) :
  (0 <= RadarChart.radius n)%Q /\
  (RadarChart.radius n <= inject_Z RadarChart.MAX_RADIUS)%Q /\
  (scores !! g = None ->
   (RadarChart.radius (ResultPage.normalizedScores scores g) == 0)%Q) /\
  (forall v, scores !! g = Some v -> 0 <= v ->
     RadarChart.clamped (ResultPage.normalizedScores scores g) =
       Scoring.normalizeScore g normal v /\
     (- (1 # 10 ^ 13) <=
      RadarChart.radius (ResultPage.normalizedScores scores g) -
      inject_Z (Scoring.normalizeScore g normal v) * (6 # 5))%Q /\
     (RadarChart.radius (ResultPage.normalizedScores scores g) -
      inject_Z (Scoring.normalizeScore g normal v) * (6 # 5)
      <= 1 # 10 ^ 13)%Q).
Proof.
  assert (Hc : 0 <= RadarChart.clamped n <= 100)
    by (unfold RadarChart.clamped; lia).
  assert (Q0 : (0 <= inject_Z (RadarChart.clamped n) / 100)%Q).
  { apply Qle_shift_div_l; [reflexivity|]. rewrite Qmult_0_l.
    change 0%Q with (inject_Z 0). rewrite <- Zle_Qle. lia. }
  assert (Q1 : (inject_Z (RadarChart.clamped n) / 100 <= 1)%Q).
  { apply Qle_shift_div_r; [reflexivity|]. rewrite Qmult_1_l.
    change 100%Q with (inject_Z 100). rewrite <- Zle_Qle. lia. }
  pose proof (double_nonneg _ Q0) as D0.
  pose proof (double_mono _ _ Q1) as D1. rewrite double_1 in D1.
  split; [|split; [|split]].
  - unfold RadarChart.radius. apply double_nonneg.
    apply Qmult_le_0_compat; [exact D0 | discriminate].
  - unfold RadarChart.radius, RadarChart.MAX_RADIUS.
    change (inject_Z 120) with 120%Q.
    apply Qle_trans with (double 120);
      [apply double_mono; lra | rewrite double_120; apply Qle_refl].
  - intros Hnone. unfold ResultPage.normalizedScores. rewrite Hnone.
    vm_compute. reflexivity.
  - intros v Hv Hpos. unfold ResultPage.normalizedScores. rewrite Hv.
    pose proof (normalizeScore_range g normal v Hpos) as R.
    split; [unfold RadarChart.clamped; lia | now apply radius_per_point].
Qed.

Lemma X14_radar_spoke_witness :
  let v := ResultPage.normalizedScores {[ schulte := 460 ]} schulte in
  RadarChart.clamped v = 57 /\
  (RadarChart.radius v == 4813222101752217 # 70368744177664)%Q /\
  (RadarChart.radius v < 342 # 5)%Q /\
  (- (1 # 10 ^ 13) <= RadarChart.radius v - (342 # 5))%Q.
Proof.
  intros v.
  assert (E : v = 57) by (subst v; vm_compute; reflexivity).
  destruct (X14_radar_spoke {[ schulte := 460 ]} schulte 0)
    as (_ & _ & _ & H).
  destruct (H 460) as (H1 & H2 & _); [reflexivity | lia |].
  fold v in H1, H2. rewrite <- H1 in H2. rewrite E in H2 |- *.
  split; [reflexivity|]. split; [vm_compute; reflexivity|].
  split; [vm_compute; reflexivity|].
  assert (Eq : (inject_Z (RadarChart.clamped 57) * (6 # 5) == 342 # 5)%Q)
    by (vm_compute; reflexivity).
  rewrite Eq in H2. exact H2.
Defined.

(** ** The menu *)

Lemma allCompleted_all (scores : gmap GameId Z) :
  MainMenu.allCompleted scores = true <-> forall g, is_Some (scores !! g).
Proof.
  unfold MainMenu.allCompleted. rewrite forallb_forall. split.
  - intros H g. specialize (H g).
    rewrite <- list_elem_of_In in H. specialize (H (GAMES_all g)).
    now apply bool_decide_eq_true in H.
  - intros H g _. apply bool_decide_eq_true, H.
Qed.

Lemma playedGames_all (scores : gmap GameId Z) :
  (forall g, is_Some (scores !! g)) -> ResultPage.playedGames scores = GAMES.
Proof.
  intros H. unfold ResultPage.playedGames.
  induction GAMES as [|g l IH]; [reflexivity|].
  rewrite filter_cons, decide_True by apply H. now rewrite IH.
Qed.

(** X11: the profile button of the menu.  It is rendered exactly when
    every one of the nine games has a score, which is when the progress
    label reads 9/9; the progress counts the games with a score.  For such
    scores the profile page averages over all nine games: the sum of the
    nine normalised scores over 9, rounded half up. *)
Theorem X11_profile_needs_all_nine (scores : gmap GameId Z) :
  (MainMenu.allCompleted scores = true <->
   forall g, is_Some (scores !! g)) /\
  (MainMenu.allCompleted scores = true <->
   MainMenu.progress scores = length GAMES) /\
  MainMenu.progress scores = size scores /\
  (MainMenu.allCompleted scores = true ->
   ResultPage.playedGames scores = GAMES /\
   ResultPage.average scores =
     round_half_up
       (sumZ ((fun g => Scoring.normalizeScore g normal (scores !!! g))
                <$> GAMES)) 9).
Proof.
  assert (Hsize : MainMenu.progress scores = size scores).
  { unfold MainMenu.progress.
    change (filter _ GAMES) with (ResultPage.playedGames scores).
    rewrite playedGames_keys, length_fmap. apply length_map_to_list. }
  split; [apply allCompleted_all|]. split; [|split; [exact Hsize|]].
  - rewrite allCompleted_all. split.
    + intros H. unfold MainMenu.progress.
      change (filter _ GAMES) with (ResultPage.playedGames scores).
      now rewrite playedGames_all.
    + intros H g. unfold MainMenu.progress in H.
      destruct (scores !! g) as [v|] eqn:E; [now exists v|].
      exfalso.
      assert (Hlt : (length (filter (fun g => is_Some (scores !! g)) GAMES)
                     < length GAMES)%nat).
      { apply (length_filter_lt _ _ g); [apply GAMES_all|].
        rewrite E. intros [? ?]. discriminate. }
      lia.
  - intros H. pose proof (proj1 (allCompleted_all scores) H) as Hall.
    pose proof (playedGames_all scores Hall) as Hp. split; [exact Hp|].
    unfold ResultPage.average. rewrite Hp.
    replace (0 <? length GAMES)%nat with true by reflexivity.
    change (Z.of_nat (length GAMES)) with 9.
    rewrite Math_round_div by lia.
    now rewrite foldl_add_sumZ, Z.add_0_l.
Qed.

(** ** The wrapper of a game *)

(** X9: the new-record banner of the finished screen is shown exactly when
    [saveBestScore], called with the same score on the same storage, writes:
    the banner and the stored best cannot disagree. *)
Theorem X9_new_record_banner (g : GameId) (st : Storage.LocalStorage)
  (sc : Z) (s : GameWrapper.State) :
  GameWrapper.newRecord (GameWrapper.handleComplete g st sc s) = true <->
  Storage.saveBestScore g sc st <> st.
Proof.
  unfold GameWrapper.newRecord, GameWrapper.handleComplete. simpl.
  pose proof (saveBestScore_lookup g sc st) as Hl.
  unfold Storage.saveBestScore in *.
  destruct (Storage.loadBestScores st !! g) as [old|] eqn:E.
  - destruct (old <? sc) eqn:C.
    + split; [|reflexivity]. intros _ Heq. rewrite Heq, E in Hl.
      apply Z.ltb_lt in C. injection Hl as Hl. lia.
    + split; [discriminate | congruence].
  - split; [|reflexivity]. intros _ Heq. rewrite Heq, E in Hl.
    discriminate.
Qed.

Lemma onScreen_snoc (pre : list GameWrapper.Event) (e : GameWrapper.Event) :
  GameWrapper.onScreen (pre ++ [e]) =
  match e with
  | GameWrapper.Complete n => Some n
  | GameWrapper.Retry => None
  | _ => GameWrapper.onScreen pre
  end.
Proof. unfold GameWrapper.onScreen. now rewrite foldl_snoc. Qed.

Lemma wrapper_run_finish g st es :
  forall pre s s' n,
    (GameWrapper.phase s = GameWrapper.finished ->
     GameWrapper.onScreen pre = Some (GameWrapper.score s)) ->
    (GameWrapper.phase s = GameWrapper.playing ->
     GameWrapper.onScreen pre = None) ->
    GameWrapper.run g st es s = (s', Some (GameWrapper.OnFinish n)) ->
    exists mid post,
      es = mid ++ GameWrapper.Finish :: post /\
      GameWrapper.onScreen (pre ++ mid) = Some n /\
      GameWrapper.score s' = n /\
      GameWrapper.phase s' = GameWrapper.finished.
Proof.
  induction es as [|e es IH]; intros pre s s' n Hfin Hplay Hrun.
  - discriminate.
  - assert (Hstep :
      forall s1,
        GameWrapper.step g st e s = (s1, None) ->
        (GameWrapper.phase s1 = GameWrapper.finished ->
         GameWrapper.onScreen (pre ++ [e]) = Some (GameWrapper.score s1)) /\
        (GameWrapper.phase s1 = GameWrapper.playing ->
         GameWrapper.onScreen (pre ++ [e]) = None)).
    { intros s1 Hs. rewrite onScreen_snoc.
      destruct e; simpl in Hs.
      - injection Hs as <-. simpl. split; [reflexivity | discriminate].
      - destruct (bool_decide (GameWrapper.phase s = GameWrapper.finished))
          eqn:B; injection Hs as <-.
        + simpl. split; [discriminate | reflexivity].
        + apply bool_decide_eq_false in B.
          split; [intros F; contradiction|].
          intros _. reflexivity.
      - destruct (bool_decide _); [discriminate|].
        injection Hs as <-. split; assumption.
      - discriminate. }
    simpl in Hrun.
    destruct (GameWrapper.step g st e s) as [s1 [o|]] eqn:Es.
    + injection Hrun as <- Ho. destruct e; simpl in Es; try discriminate.
      * destruct (bool_decide (GameWrapper.phase s = GameWrapper.finished))
          eqn:B; [|discriminate].
        apply bool_decide_eq_true in B.
        injection Es as <- <-. injection Ho as <-.
        exists [], es. rewrite app_nil_r.
        repeat split; [now apply Hfin | exact B].
      * injection Es as _ <-. discriminate.
    + destruct (Hstep s1 eq_refl) as [H1 H2].
      destruct (IH (pre ++ [e]) s1 s' n H1 H2 Hrun)
        as (mid & post & -> & Hon & Hsc & Hph).
      exists (e :: mid), post. rewrite <- (assoc_L (++)) in Hon.
      repeat split; assumption.
Qed.

(** X10: what the wrapper hands to [App].  If a run of the wrapper ends
    with [onFinish(n)], the back-to-menu button was pressed while the
    finished screen showed [n]: [n] is the score of the last completion
    before the press, and no retry came in between.  A completion followed
    by a retry is never reported, and the arrow of the header leaves
    without a score. *)
Theorem X10_wrapper_reports_score_on_screen (g : GameId)
  (st : Storage.LocalStorage) (es : list GameWrapper.Event)
  (s' : GameWrapper.State) (n : Z) :
  GameWrapper.run g st es GameWrapper.init =
    (s', Some (GameWrapper.OnFinish n)) ->
  exists pre post,
    es = pre ++ GameWrapper.Finish :: post /\
    GameWrapper.onScreen pre = Some n /\
    GameWrapper.score s' = n /\
    GameWrapper.phase s' = GameWrapper.finished.
Proof.
  intros Hrun.
  destruct (wrapper_run_finish g st es [] GameWrapper.init s' n)
    as (mid & post & E & H); [discriminate | reflexivity | exact Hrun |].
  exists mid, post. split; [exact E | exact H].
Qed.

Lemma X10_wrapper_reports_score_on_screen_witness :
  let es :=
    [GameWrapper.Complete 120; GameWrapper.Retry; GameWrapper.Finish;
     GameWrapper.Complete 90; GameWrapper.Finish; GameWrapper.Retry] in
  exists pre post,
    es = pre ++ GameWrapper.Finish :: post /\
    GameWrapper.onScreen pre = Some 90.
Proof.
  intros es.
  destruct (X10_wrapper_reports_score_on_screen memory emptyStorage es
              {| GameWrapper.phase := GameWrapper.finished;
                 GameWrapper.score := 90;
                 GameWrapper.bestScore := None |} 90 eq_refl)
    as (pre & post & E & H & _).
  exists pre, post. split; [exact E | exact H].
Defined.

(** ** The pages of the application *)

Lemma initialScores_lookup (st : Storage.LocalStorage) (g : GameId) :
  AppPages.initialScores st !! g =
  match Storage.loadBestScores st !! g with
  | Some b => if 0 <? b then Some b else None
  | None => None
  end.
Proof.
  unfold AppPages.initialScores.
  destruct (Storage.loadBestScores st !! g) as [b|] eqn:E.
  - destruct (0 <? b) eqn:C.
    + apply map_lookup_filter_Some. split; [exact E|]. simpl.
      now apply Z.ltb_lt.
    + apply map_lookup_filter_None. right. intros x Hx. simpl.
      rewrite E in Hx. injection Hx as <-. apply Z.ltb_ge in C. lia.
  - apply map_lookup_filter_None. left. exact E.
Qed.

(** X6: what a page load restores.  The session scores start from the
    stored best scores that are positive, so a card is marked as played
    exactly when it shows a best score.  After a game has been finished with
    [sc] the session shows [sc]; after a reload it shows the stored best
    instead, which can be higher, and it shows nothing when that best is 0
    or negative. *)
Theorem X6_reload_restores_best_scores (st : Storage.LocalStorage)
  (g : GameId) :
  App.scores (AppPages.app (AppPages.init st)) !! g =
    match Storage.loadBestScores st !! g with
    | Some b => if 0 <? b then Some b else None
    | None => None
    end /\
  (is_Some (App.scores (AppPages.app (AppPages.init st)) !! g) <->
   MainMenu.showsBest (AppPages.bestScores (AppPages.init st) !! g) = true) /\
  (forall (s : AppPages.State) (sc now : Z),
     let s' := AppPages.finishGame g sc now s in
     let best :=
       match Storage.loadBestScores (App.storage (AppPages.app s)) !! g with
       | Some old => Z.max old sc
       | None => sc
       end in
     App.scores (AppPages.app s') !! g = Some sc /\
     AppPages.bestScores s' !! g = Some best /\
     App.scores
       (AppPages.app (AppPages.init (App.storage (AppPages.app s')))) !! g =
       (if 0 <? best then Some best else None)).
Proof.
  split; [apply initialScores_lookup|]. split.
  - simpl. rewrite initialScores_lookup. unfold MainMenu.showsBest.
    destruct (Storage.loadBestScores st !! g) as [b|].
    + destruct (0 <? b); split; intros H; try reflexivity;
        try discriminate; try (now exists b).
      destruct H. discriminate.
    + split; [intros [? ?]|]; discriminate.
  - intros s sc now s' best.
    assert (Hb : Storage.loadBestScores (App.storage (AppPages.app s')) !! g
                 = Some best).
    { subst s'. simpl.
      change (Storage.loadBestScores (Storage.saveRecord _ _ _ _ ?x))
        with (Storage.loadBestScores x).
      now rewrite saveBestScore_lookup. }
    split; [|split].
    + subst s'. simpl. apply lookup_insert_eq.
    + exact Hb.
    + simpl. rewrite initialScores_lookup.
      change (Storage.loadBestScores (Storage.saveRecord _ _ _ _ ?x))
        with (Storage.loadBestScores x).
      rewrite saveBestScore_lookup. reflexivity.
Qed.

Lemma appPages_run_invariant (P : AppPages.State -> Prop)
  (ok : AppPages.Event -> bool) :
  (forall e s s', ok e = true -> P s -> AppPages.step e s = Some s' -> P s') ->
  forall es s s',
    forallb ok es = true -> P s -> AppPages.run es s = Some s' -> P s'.
Proof.
  intros Hstep. induction es as [|e es IH]; intros s s' Hok Hs Hrun.
  - injection Hrun as <-. exact Hs.
  - simpl in Hok, Hrun. apply andb_prop in Hok as [He Hes].
    destruct (AppPages.step e s) as [s1|] eqn:E; [|discriminate].
    exact (IH s1 s' Hes (Hstep e s s1 He Hs E) Hrun).
Qed.

Lemma appPages_step_cases e s s' :
  AppPages.step e s = Some s' ->
  (exists g d, e = AppPages.StartGame g d /\ s' = AppPages.startGame g d s) \/
  (e = AppPages.ShowResult /\ s' = AppPages.showResult s /\
   MainMenu.allCompleted (App.scores (AppPages.app s)) = true) \/
  (e = AppPages.ShowHistory /\ s' = AppPages.showHistory s) \/
  (exists g sc now,
     e = AppPages.Finish sc now /\ AppPages.currentGame s = Some g /\
     AppPages.page s = AppPages.game /\
     s' = AppPages.finishGame g sc now s) \/
  (e = AppPages.Back /\ s' = AppPages.backToMenu s) \/
  (e = AppPages.ClearHistory /\
   s' = AppPages.backToMenu
          {| AppPages.page := AppPages.page s;
             AppPages.currentGame := AppPages.currentGame s;
             AppPages.bestScores := AppPages.bestScores s;
             AppPages.recordCount := AppPages.recordCount s;
             AppPages.app :=
               {| App.difficulty := App.difficulty (AppPages.app s);
                  App.scores := App.scores (AppPages.app s);
                  App.storage :=
                    TrainingHistory.handleClear
                      (App.storage (AppPages.app s)) |} |}).
Proof.
  unfold AppPages.step, AppPages.render. intros H.
  destruct e; destruct (AppPages.page s) eqn:Pg;
    destruct (AppPages.currentGame s) as [g0|] eqn:Cg;
    try discriminate;
    try (injection H as <-);
    try (left; do 2 eexists; split; reflexivity);
    try (destruct (MainMenu.allCompleted _) eqn:A; [|discriminate];
         injection H as <-; right; left; repeat split; assumption);
    try (right; right; left; split; reflexivity);
    try (right; right; right; left; exists g0, score, now;
         repeat split; reflexivity);
    try (right; right; right; right; left; split; reflexivity);
    try (destruct (0 <? _)%nat; [|discriminate]; injection H as <-;
         right; right; right; right; right; split; reflexivity).
Qed.

(** X7: what holds on every page the application can reach from a page
    load.  A game page always has its game; the profile page is only
    reached with a score for each of the nine games; the best scores and
    the record count that the menu shows are those of the storage, unless
    the history has just been cleared: then the storage is empty and the
    menu goes on showing the old values until a game is finished.  If the
    history is never cleared they always agree. *)
Theorem X7_app_pages_invariants (st : Storage.LocalStorage)
  (es : list AppPages.Event) (s : AppPages.State) :
  AppPages.run es (AppPages.init st) = Some s ->
  (AppPages.page s = AppPages.game -> is_Some (AppPages.currentGame s)) /\
  (AppPages.page s = AppPages.result ->
   MainMenu.allCompleted (App.scores (AppPages.app s)) = true) /\
  (AppPages.inSync s \/
   App.storage (AppPages.app s) = Storage.clearRecords st) /\
  (forallb (fun e => negb (AppPages.isClear e)) es = true ->
   AppPages.inSync s).
Proof.
  intros Hrun.
  assert (Hall : forallb (fun _ : AppPages.Event => true) es = true)
    by (clear; induction es; simpl; auto).
  split; [|split; [|split]].
  - revert Hrun.
    apply (appPages_run_invariant
             (fun s => AppPages.page s = AppPages.game ->
                       is_Some (AppPages.currentGame s))
             (fun _ => true)); [|exact Hall|discriminate].
    intros e s0 s1 _ Hs Hstep.
    apply appPages_step_cases in Hstep
      as [(g & d & -> & ->) | [(-> & -> & _) | [(-> & ->) |
          [(g & sc & now & -> & Hg & Hp & ->) | [(-> & ->) | (-> & ->)]]]]];
      simpl; try discriminate.
    intros _. now exists g.
  - revert Hrun.
    apply (appPages_run_invariant
             (fun s => AppPages.page s = AppPages.result ->
                       MainMenu.allCompleted (App.scores (AppPages.app s))
                       = true)
             (fun _ => true)); [|exact Hall|discriminate].
    intros e s0 s1 _ Hs Hstep.
    apply appPages_step_cases in Hstep
      as [(g & d & -> & ->) | [(-> & -> & A) | [(-> & ->) |
          [(g & sc & now & -> & Hg & Hp & ->) | [(-> & ->) | (-> & ->)]]]]];
      simpl; try discriminate.
    intros _. exact A.
  - revert Hrun.
    apply (appPages_run_invariant
             (fun s => AppPages.inSync s \/
                       App.storage (AppPages.app s) = Storage.clearRecords st)
             (fun _ => true)); [|exact Hall|left; split; reflexivity].
    intros e s0 s1 _ Hs Hstep.
    apply appPages_step_cases in Hstep
      as [(g & d & -> & ->) | [(-> & -> & A) | [(-> & ->) |
          [(g & sc & now & -> & Hg & Hp & ->) | [(-> & ->) | (-> & ->)]]]]];
      try exact Hs.
    + left. split; reflexivity.
    + right. reflexivity.
  - intros Hnc.
    refine (appPages_run_invariant AppPages.inSync
              (fun e => negb (AppPages.isClear e)) _ es _ s Hnc _ Hrun);
      [|split; reflexivity].
    intros e s0 s1 He Hs Hstep.
    apply appPages_step_cases in Hstep
      as [(g & d & -> & ->) | [(-> & -> & A) | [(-> & ->) |
          [(g & sc & now & -> & Hg & Hp & ->) | [(-> & ->) | (-> & ->)]]]]];
      try exact Hs; try discriminate.
    split; reflexivity.
Qed.

(** X8: while the history is not cleared, the best score stored for a game
    (and shown on its card) is never below the score the session holds for
    it. *)
Theorem X8_session_score_below_best (st : Storage.LocalStorage)
  (es : list AppPages.Event) (s : AppPages.State) (g : GameId) (v : Z) :
  AppPages.run es (AppPages.init st) = Some s ->
  forallb (fun e => negb (AppPages.isClear e)) es = true ->
  App.scores (AppPages.app s) !! g = Some v ->
  exists b,
    Storage.loadBestScores (App.storage (AppPages.app s)) !! g = Some b /\
    v <= b.
Proof.
  intros Hrun Hnc. revert g v.
  refine (appPages_run_invariant
            (fun s => forall g v,
               App.scores (AppPages.app s) !! g = Some v ->
               exists b,
                 Storage.loadBestScores (App.storage (AppPages.app s)) !! g
                 = Some b /\ v <= b)
            (fun e => negb (AppPages.isClear e)) _ es _ s Hnc _ Hrun).
  - intros e s0 s1 He Hs Hstep.
    apply appPages_step_cases in Hstep
      as [(g & d & -> & ->) | [(-> & -> & A) | [(-> & ->) |
          [(g & sc & now & -> & Hg & Hp & ->) | [(-> & ->) | (-> & ->)]]]]];
      try exact Hs; try discriminate.
    intros g' v. simpl.
    change (Storage.loadBestScores (Storage.saveRecord _ _ _ _ ?x))
      with (Storage.loadBestScores x).
    destruct (decide (g' = g)) as [->|Hne].
    + rewrite lookup_insert_eq, saveBestScore_lookup. intros [= <-].
      destruct (Storage.loadBestScores _ !! g) as [old|];
        eexists; split; try reflexivity; lia.
    + rewrite lookup_insert_ne by congruence.
      rewrite saveBestScore_other by congruence. apply Hs.
  - intros g v. simpl. rewrite initialScores_lookup.
    destruct (Storage.loadBestScores st !! g) as [b|]; [|discriminate].
    destruct (0 <? b); [|discriminate]. intros [= <-].
    exists b. split; [reflexivity | lia].
Qed.

Lemma X7_app_pages_invariants_witness :
  match
    AppPages.run
      [AppPages.StartGame schulte easy; AppPages.Finish 700 1000;
       AppPages.ShowHistory; AppPages.ClearHistory;
       AppPages.StartGame memory normal]
      (AppPages.init emptyStorage)
  with
  | Some s =>
      is_Some (AppPages.currentGame s) /\
      App.storage (AppPages.app s) = emptyStorage /\
      AppPages.recordCount s = 1%nat
  | None => False
  end.
Proof.
  destruct (AppPages.run _ _) as [s|] eqn:E;
    [|vm_compute in E; discriminate].
  destruct (X7_app_pages_invariants emptyStorage _ s E) as (Hg & _ & _ & _).
  vm_compute in E. injection E as <-.
  split; [apply Hg; reflexivity | split; reflexivity].
Defined.

Lemma X8_session_score_below_best_witness :
  match
    AppPages.run
      [AppPages.StartGame memory hard; AppPages.Finish 250 1000;
       AppPages.StartGame memory easy; AppPages.Finish 100 2000]
      (AppPages.init emptyStorage)
  with
  | Some s =>
      App.scores (AppPages.app s) !! memory = Some 100 /\
      exists b,
        Storage.loadBestScores (App.storage (AppPages.app s)) !! memory
        = Some b /\ 100 <= b
  | None => False
  end.
Proof.
  destruct (AppPages.run _ _) as [s|] eqn:E;
    [|vm_compute in E; discriminate].
  assert (Hs : App.scores (AppPages.app s) !! memory = Some 100).
  { vm_compute in E. injection E as <-. reflexivity. }
  split; [exact Hs|].
  exact (X8_session_score_below_best emptyStorage _ s memory 100 E
           eq_refl Hs).
Defined.

(** ** Random draws *)

Lemma randomBelow_range (u : Q) (n : Z) :
  (0 <= u)%Q -> (u < 1)%Q -> 0 < n -> 0 <= randomBelow u n < n.
Proof.
  intros H0 H1 Hn. unfold randomBelow. split.
  - change 0 with (Qfloor 0). apply Qfloor_resp_le.
    apply Qmult_le_0_compat; [exact H0|].
    change 0%Q with (inject_Z 0). rewrite <- Zle_Qle. lia.
  - rewrite Zlt_Qlt. eapply Qle_lt_trans; [apply Qfloor_le|].
    rewrite <- (Qmult_1_l (inject_Z n)) at 2.
    apply Qmult_lt_compat_r; [|exact H1].
    change 0%Q with (inject_Z 0). rewrite <- Zlt_Qlt. exact Hn.
Qed.

Lemma validDraws_draws (l : list Q) :
  Forall (fun u => (0 <= u)%Q /\ (u < 1)%Q) l -> validDraws (draws l).
Proof.
  intros Hl k. unfold draws. revert k.
  induction Hl as [|u l Hu _ IH]; intros [|k]; simpl;
    try (split; [apply Qle_refl | reflexivity]); [exact Hu | apply IH].
Qed.

Lemma swap_Permutation {A} (i j : nat) (arr : list A) : swap i j arr ≡ₚ arr.
Proof.
  unfold swap.
  destruct (arr !! i) as [x|] eqn:Ei; [|reflexivity].
  destruct (arr !! j) as [y|] eqn:Ej; [|reflexivity].
  pose proof (lookup_lt_Some _ _ _ Ei) as Hi.
  pose proof (lookup_lt_Some _ _ _ Ej) as Hj.
  apply Permutation_inj. split; [now rewrite !length_insert|].
  exists (fun k => if decide (k = i) then j
                   else if decide (k = j) then i else k).
  split.
  - intros a b. repeat case_decide; intros; subst; congruence.
  - intros k. destruct (decide (k = i)) as [->|Hki].
    + destruct (decide (i = j)) as [->|Hij].
      * rewrite list_lookup_insert_eq by (rewrite length_insert; lia).
        congruence.
      * rewrite list_lookup_insert_ne by congruence.
        rewrite list_lookup_insert_eq by lia. congruence.
    + destruct (decide (k = j)) as [->|Hkj].
      * rewrite list_lookup_insert_eq by (rewrite length_insert; lia).
        congruence.
      * rewrite !list_lookup_insert_ne by congruence. reflexivity.
Qed.

Lemma shuffleLoop_Permutation {A} (rand : nat -> Q) (i k : nat)
  (arr : list A) :
  shuffleLoop rand k i arr ≡ₚ arr.
Proof.
  revert k arr. induction i as [|i IH]; intros k arr; [reflexivity|].
  cbn [shuffleLoop]. rewrite IH. apply swap_Permutation.
Qed.

Lemma shuffle_Permutation {A} (rand : nat -> Q) (k : nat) (array : list A) :
  shuffle rand k array ≡ₚ array.
Proof. apply shuffleLoop_Permutation. Qed.

(** The swap of the loop is a real exchange for draws below 1. *)
Lemma swap_lookup {A} (i j : nat) (arr : list A) :
  (j <= i < length arr)%nat ->
  swap i j arr !! i = arr !! j /\ swap i j arr !! j = arr !! i /\
  length (swap i j arr) = length arr.
Proof.
  intros H. unfold swap.
  destruct (lookup_lt_is_Some_2 arr i ltac:(lia)) as [x Ei].
  destruct (lookup_lt_is_Some_2 arr j ltac:(lia)) as [y Ej].
  rewrite Ei, Ej. rewrite !length_insert.
  destruct (decide (i = j)) as [->|Hij].
  - rewrite list_lookup_insert_eq by (rewrite length_insert; lia).
    repeat split; congruence.
  - rewrite list_lookup_insert_ne by congruence.
    rewrite list_lookup_insert_eq by lia.
    rewrite list_lookup_insert_eq by (rewrite length_insert; lia).
    repeat split; congruence.
Qed.

(** X15: the shuffle that six files share returns a rearrangement of its
    argument: the same elements with the same multiplicities, for every
    sequence of draws.  With draws in [0, 1) the index drawn in the round
    of [i] lies in [0..i], so every exchange of the loop is a proper one
    (no read or write outside the array). *)
Theorem X15_shuffle_rearranges {A} (rand : nat -> Q) (k : nat)
  (array : list A) :
  validDraws rand ->
  shuffle rand k array ≡ₚ array /\
  length (shuffle rand k array) = length array /\
  (forall x, x ∈ shuffle rand k array <-> x ∈ array) /\
  (NoDup array -> NoDup (shuffle rand k array)) /\
  (forall i : nat, (0 < i < length array)%nat ->
     let j := Z.to_nat (randomBelow (rand (k + (length array - 1 - i))%nat)
                          (Z.of_nat i + 1)) in
     (j <= i)%nat).
Proof.
  intros Hv. pose proof (shuffle_Permutation rand k array) as Hp.
  split; [exact Hp|]. split; [now rewrite Hp|].
  split; [intros x; now rewrite Hp|]. split; [intros H; now rewrite Hp|].
  intros i Hi j. subst j.
  destruct (Hv (k + (length array - 1 - i))%nat) as [H0 H1].
  pose proof (randomBelow_range _ (Z.of_nat i + 1) H0 H1 ltac:(lia)). lia.
Qed.

Lemma X15_shuffle_rearranges_witness :
  let rand := draws [9 # 10; 1 # 3; 1 # 2; 0%Q] in
  shuffle rand 0 [1; 2; 3; 4; 5] = [3; 1; 4; 2; 5] /\
  shuffle rand 0 [1; 2; 3; 4; 5] ≡ₚ [1; 2; 3; 4; 5].
Proof.
  intros rand.
  assert (Hv : validDraws rand).
  { apply validDraws_draws. repeat constructor; discriminate. }
  destruct (X15_shuffle_rearranges rand 0 [1; 2; 3; 4; 5] Hv) as (Hp & _).
  split; [vm_compute; reflexivity | exact Hp].
Defined.

(** ** The grid *)

Lemma cellOf_spec (n : Z) (nums : list Z) :
  n ∈ nums ->
  nums !! SchulteGrid.cellOf n nums = Some n /\
  (NoDup nums -> forall i, nums !! i = Some n -> i = SchulteGrid.cellOf n nums).
Proof.
  intros Hin. unfold SchulteGrid.cellOf.
  destruct (list_find (fun m => m = n) nums) as [[i m]|] eqn:E.
  - apply list_find_Some in E as (Hi & -> & _). split; [exact Hi|].
    intros Hnd j Hj. eapply NoDup_lookup; eassumption.
  - apply list_find_None in E. rewrite Forall_forall in E.
    now specialize (E n Hin).
Qed.

Lemma ordered_elem (total : nat) (n : Z) :
  n ∈ (fun i => Z.of_nat i + 1) <$> seq 0 total <-> 1 <= n <= Z.of_nat total.
Proof.
  rewrite list_elem_of_fmap. split.
  - intros (i & -> & Hi). apply elem_of_seq in Hi. lia.
  - intros H. exists (Z.to_nat (n - 1)). split; [lia|].
    apply elem_of_seq. lia.
Qed.

Lemma ordered_NoDup (total : nat) :
  NoDup ((fun i => Z.of_nat i + 1) <$> seq 0 total).
Proof.
  apply NoDup_fmap_2; [|apply NoDup_seq]. intros a b H. lia.
Qed.

(** X16: the board of the grid game.  For draws in [0, 1),
    [generateNumbers(size)] holds every number from 1 to [size * size]
    exactly once: the board has [size * size] cells, no number twice, and
    each number of the range sits in one cell, the one [cellOf] finds. *)
Theorem X16_generateNumbers_board (rand : nat -> Q) (size : Z) :
  validDraws rand ->
  let nums := SchulteGrid.generateNumbers rand size in
  length nums = Z.to_nat (size * size) /\
  NoDup nums /\
  (forall n, n ∈ nums <-> 1 <= n <= size * size) /\
  (forall n, 1 <= n <= size * size ->
     nums !! SchulteGrid.cellOf n nums = Some n /\
     forall i, nums !! i = Some n -> i = SchulteGrid.cellOf n nums).
Proof.
  intros Hv nums.
  assert (Hp : nums ≡ₚ
               (fun i => Z.of_nat i + 1) <$> seq 0 (Z.to_nat (size * size)))
    by apply shuffle_Permutation.
  assert (Hnd : NoDup nums) by (rewrite Hp; apply ordered_NoDup).
  assert (Hin : forall n, n ∈ nums <-> 1 <= n <= size * size).
  { intros n. rewrite Hp, ordered_elem. lia. }
  split; [|split; [exact Hnd|split; [exact Hin|]]].
  - rewrite Hp, length_fmap. apply length_seq.
  - intros n Hn. destruct (cellOf_spec n nums) as [H1 H2];
      [now apply Hin|].
    split; [exact H1 | exact (H2 Hnd)].
Qed.

Lemma X16_generateNumbers_board_witness :
  let rand := draws [1 # 2; 3 # 4; 1 # 10; 9 # 10; 1 # 3; 2 # 3; 1 # 5; 0%Q] in
  let nums := SchulteGrid.generateNumbers rand 3 in
  nums = [9; 4; 8; 3; 2; 6; 1; 7; 5] /\ NoDup nums /\
  SchulteGrid.cellOf 1 nums = 6%nat.
Proof.
  intros rand nums.
  assert (Hv : validDraws rand).
  { apply validDraws_draws. repeat constructor; discriminate. }
  destruct (X16_generateNumbers_board rand 3 Hv) as (_ & Hnd & _).
  split; [vm_compute; reflexivity|]. split; [exact Hnd|].
  vm_compute. reflexivity.
Defined.

Lemma schulte_total_pos (d : Difficulty) :
  0 < SchulteGrid.size (SchulteGrid.SETTINGS d) *
      SchulteGrid.size (SchulteGrid.SETTINGS d).
Proof. destruct d; reflexivity. Qed.

Lemma ordered_set_snoc (m : nat) :
  (list_to_set ((fun i => Z.of_nat i + 1) <$> seq 0 (S m)) : gset Z) =
  {[ Z.of_nat m + 1 ]} ∪
  list_to_set ((fun i => Z.of_nat i + 1) <$> seq 0 m).
Proof.
  rewrite seq_S, fmap_app, list_to_set_app_L. simpl.
  rewrite (right_id_L ∅ (∪)). apply (comm_L (∪)).
Qed.

Lemma clicksInOrder_S (nums : list Z) (m : nat) :
  SchulteGrid.clicksInOrder nums (S m) =
  SchulteGrid.clicksInOrder nums m ++
  [SchulteGrid.CellClick (SchulteGrid.cellOf (Z.of_nat m + 1) nums)].
Proof.
  unfold SchulteGrid.clicksInOrder. now rewrite seq_S, fmap_app.
Qed.

(** The session after the first [m] numbers have been clicked in order,
    nothing else having happened. *)
Lemma schulte_clicks_prefix (d : Difficulty) (nums : list Z) (m : nat) :
  (forall n, 1 <= n <= SchulteGrid.size (SchulteGrid.SETTINGS d) *
                       SchulteGrid.size (SchulteGrid.SETTINGS d) ->
             n ∈ nums) ->
  Z.of_nat m < SchulteGrid.size (SchulteGrid.SETTINGS d) *
               SchulteGrid.size (SchulteGrid.SETTINGS d) ->
  SchulteGrid.run d (SchulteGrid.clicksInOrder nums m)
    (SchulteGrid.init nums) =
  {| SchulteGrid.numbers := nums;
     SchulteGrid.nextNumber := Z.of_nat m + 1;
     SchulteGrid.completed :=
       list_to_set ((fun i => Z.of_nat i + 1) <$> seq 0 m);
     SchulteGrid.errors := 0; SchulteGrid.elapsed := 0;
     SchulteGrid.started := negb (m =? 0)%nat;
     SchulteGrid.errorCell := None; SchulteGrid.errorTimerRef := false;
     SchulteGrid.finishedRef := false; SchulteGrid.deferred := [];
     SchulteGrid.onComplete := [] |}.
Proof.
  intros Hall. induction m as [|m IH]; intros Hm; [reflexivity|].
  rewrite clicksInOrder_S. unfold SchulteGrid.run in *.
  rewrite foldl_snoc, IH by lia. cbn [SchulteGrid.step].
  unfold SchulteGrid.handleCellClick. cbn -[Z.mul Z.add Z.of_nat seq].
  destruct (cellOf_spec (Z.of_nat m + 1) nums) as [Hc _];
    [apply Hall; lia|].
  rewrite Hc.
  rewrite decide_False.
  2:{ rewrite elem_of_list_to_set, ordered_elem. lia. }
  rewrite Z.eqb_refl.
  replace (_ <? Z.of_nat m + 1 + 1) with false
    by (symmetry; apply Z.ltb_ge; lia).
  rewrite ordered_set_snoc. f_equal. lia.
Qed.

(** X17: a generated board can always be completed.  On the board that
    [generateNumbers] makes for the difficulty, clicking the cell of 1,
    then the cell of 2, and so on, every click is accepted: no error is
    counted, the last click finishes the game, and the deferred call
    reports 800, the highest score of the game (no tick has passed). *)
Theorem X17_schulte_can_be_completed (rand : nat -> Q) (d : Difficulty) :
  validDraws rand ->
  let size := SchulteGrid.size (SchulteGrid.SETTINGS d) in
  let nums := SchulteGrid.generateNumbers rand size in
  let clicks := SchulteGrid.clicksInOrder nums (Z.to_nat (size * size)) in
  let s := SchulteGrid.run d clicks (SchulteGrid.init nums) in
  SchulteGrid.finishedRef s = true /\
  SchulteGrid.errors s = 0 /\
  SchulteGrid.nextNumber s = size * size + 1 /\
  SchulteGrid.deferred s = [800] /\
  SchulteGrid.onComplete s = [] /\
  SchulteGrid.onComplete (SchulteGrid.step d SchulteGrid.Deferred s) = [800] /\
  800 = MAX_SCORES schulte d.
Proof.
  intros Hv size nums clicks s.
  pose proof (schulte_total_pos d) as Hpos. fold size in Hpos.
  assert (Hall : forall n, 1 <= n <= size * size -> n ∈ nums).
  { intros n Hn. unfold nums, SchulteGrid.generateNumbers.
    rewrite shuffle_Permutation, ordered_elem. lia. }
  assert (Es : s =
    {| SchulteGrid.numbers := nums;
       SchulteGrid.nextNumber := size * size + 1;
       SchulteGrid.completed :=
         list_to_set ((fun i => Z.of_nat i + 1) <$>
                        seq 0 (Z.to_nat (size * size)));
       SchulteGrid.errors := 0;
       SchulteGrid.elapsed := SchulteGrid.nextTick 0;
       SchulteGrid.started := true;
       SchulteGrid.errorCell := None; SchulteGrid.errorTimerRef := false;
       SchulteGrid.finishedRef := true; SchulteGrid.deferred := [800];
       SchulteGrid.onComplete := [] |}).
  { subst s clicks.
    destruct (Z.to_nat (size * size)) as [|m] eqn:Em; [lia|].
    rewrite clicksInOrder_S. unfold SchulteGrid.run.
    rewrite foldl_snoc.
    pose proof (schulte_clicks_prefix d nums m Hall ltac:(fold size; lia))
      as Hpre.
    unfold SchulteGrid.run in Hpre. rewrite Hpre.
    cbn [SchulteGrid.step]. unfold SchulteGrid.handleCellClick.
    cbn -[Z.mul Z.add Z.of_nat seq SchulteGrid.nextTick
          SchulteGrid.calculateScore].
    destruct (cellOf_spec (Z.of_nat m + 1) nums) as [Hc _];
      [apply Hall; lia|].
    rewrite Hc.
    rewrite decide_False.
    2:{ rewrite elem_of_list_to_set, ordered_elem. lia. }
    rewrite Z.eqb_refl. fold size.
    replace (size * size <? Z.of_nat m + 1 + 1) with true
      by (symmetry; apply Z.ltb_lt; lia).
    rewrite ordered_set_snoc.
    replace (Z.of_nat m + 1 + 1) with (size * size + 1) by lia.
    f_equal. f_equal. destruct d; reflexivity. }
  rewrite Es. cbn. repeat split.
Qed.

Lemma X17_schulte_can_be_completed_witness :
  let rand := draws [1 # 2; 3 # 4; 1 # 10; 9 # 10; 1 # 3; 2 # 3; 1 # 5; 0%Q] in
  let nums := SchulteGrid.generateNumbers rand 3 in
  SchulteGrid.clicksInOrder nums 9 =
    SchulteGrid.CellClick <$> [6; 4; 3; 1; 8; 5; 7; 2; 0]%nat /\
  SchulteGrid.deferred
    (SchulteGrid.run easy (SchulteGrid.clicksInOrder nums 9)
       (SchulteGrid.init nums)) = [800].
Proof.
  intros rand nums.
  assert (Hv : validDraws rand).
  { apply validDraws_draws. repeat constructor; discriminate. }
  destruct (X17_schulte_can_be_completed rand easy Hv)
    as (_ & _ & _ & H & _).
  split; [vm_compute; reflexivity | exact H].
Defined.

(** X18: what every run of the grid game keeps, whatever the board and the
    events.  The next number stays within 1..[total + 1]; the completed
    numbers are exactly those below it; the game is finished exactly when
    the next number is [total + 1]; the error count never decreases below
    0; and a reported score lies between 0 and 800, the maximum of the
    score table for the game. *)
Theorem X18_schulte_invariants (d : Difficulty) (nums : list Z)
  (es : list SchulteGrid.Event) :
  let total := SchulteGrid.size (SchulteGrid.SETTINGS d) *
               SchulteGrid.size (SchulteGrid.SETTINGS d) in
  let s := SchulteGrid.run d es (SchulteGrid.init nums) in
  1 <= SchulteGrid.nextNumber s <= total + 1 /\
  SchulteGrid.completed s =
    list_to_set (seqZ 1 (SchulteGrid.nextNumber s - 1)) /\
  (SchulteGrid.finishedRef s = true <->
   SchulteGrid.nextNumber s = total + 1) /\
  0 <= SchulteGrid.errors s /\
  Forall (fun n => 0 <= n <= MAX_SCORES schulte d)
    (SchulteGrid.deferred s ++ SchulteGrid.onComplete s).
Proof.
  intros total s. subst s. pose proof (schulte_total_pos d) as Hpos.
  fold total in Hpos.
  unfold SchulteGrid.run.
  apply (foldl_invariant
           (fun s =>
              1 <= SchulteGrid.nextNumber s <= total + 1 /\
              SchulteGrid.completed s =
                list_to_set (seqZ 1 (SchulteGrid.nextNumber s - 1)) /\
              (SchulteGrid.finishedRef s = true <->
               SchulteGrid.nextNumber s = total + 1) /\
              0 <= SchulteGrid.errors s /\
              Forall (fun n => 0 <= n <= MAX_SCORES schulte d)
                (SchulteGrid.deferred s ++ SchulteGrid.onComplete s))).
  - cbn. split; [lia|]. split; [reflexivity|].
    split; [split; [discriminate | lia]|]. split; [lia | constructor].
  - intros s e Hinv.
    assert (Hsc : forall el,
               0 <= SchulteGrid.calculateScore el (SchulteGrid.errors s)
                      (SchulteGrid.targetTime (SchulteGrid.SETTINGS d))
               <= MAX_SCORES schulte d).
    { intros el. destruct Hinv as (_ & _ & _ & He & _).
      replace (MAX_SCORES schulte d) with 800 by (destruct d; reflexivity).
      unfold SchulteGrid.calculateScore.
      repeat destruct (Qle_bool _ _); lia. }
    destruct e as [index| | |]; cbn [SchulteGrid.step].
    + unfold SchulteGrid.handleCellClick. fold total.
      remember (SchulteGrid.finishedRef s) as fin eqn:Ef in |- *.
      destruct fin; [exact Hinv|]. symmetry in Ef.
      pose proof Hinv as (Hn & Hc & Hf & He & Hl).
      assert (Hlt : SchulteGrid.nextNumber s <= total).
      { destruct (decide (SchulteGrid.nextNumber s = total + 1)) as [E|E];
          [|lia]. apply Hf in E. congruence. }
      assert (Hwrong :
        1 <= SchulteGrid.nextNumber s <= total + 1 /\
        SchulteGrid.completed s =
          list_to_set (seqZ 1 (SchulteGrid.nextNumber s - 1)) /\
        (false = true <-> SchulteGrid.nextNumber s = total + 1) /\
        0 <= SchulteGrid.errors s + 1 /\
        Forall (fun n => 0 <= n <= MAX_SCORES schulte d)
          (SchulteGrid.deferred s ++ SchulteGrid.onComplete s)).
      { split; [exact Hn|]. split; [exact Hc|].
        split; [rewrite <- Ef; exact Hf|]. split; [lia | exact Hl]. }
      destruct (SchulteGrid.numbers s !! index) as [clicked|] eqn:Ec;
        [|exact Hwrong].
      destruct (decide (clicked ∈ SchulteGrid.completed s)); [exact Hinv|].
      destruct (clicked =? SchulteGrid.nextNumber s) eqn:Eq;
        [|exact Hwrong].
      apply Z.eqb_eq in Eq. subst clicked.
      assert (Hset :
        {[SchulteGrid.nextNumber s]} ∪ SchulteGrid.completed s =
        list_to_set (seqZ 1 (SchulteGrid.nextNumber s + 1 - 1))).
      { rewrite Hc. apply set_eq. intros x.
        rewrite elem_of_union, elem_of_singleton,
          !elem_of_list_to_set, !elem_of_seqZ. lia. }
      destruct (total <? SchulteGrid.nextNumber s + 1) eqn:El.
      * apply Z.ltb_lt in El. cbn.
        split; [lia|]. split; [exact Hset|].
        split; [split; [lia | reflexivity]|]. split; [exact He|].
        rewrite <- (assoc_L (++)).
        apply Forall_app in Hl as [Hd Ho]. apply Forall_app.
        split; [exact Hd|]. apply Forall_cons. split; [apply Hsc|].
        exact Ho.
      * apply Z.ltb_ge in El. cbn.
        split; [lia|]. split; [exact Hset|].
        split; [split; [discriminate | lia]|].
        split; assumption.
    + destruct (SchulteGrid.started s); [|exact Hinv]. cbn. exact Hinv.
    + destruct (SchulteGrid.errorTimerRef s); [|exact Hinv]. cbn.
      exact Hinv.
    + destruct Hinv as (Hn & Hc & Hf & He & Hl).
      destruct (SchulteGrid.deferred s) as [|sc rest] eqn:Ed.
      * rewrite Ed. repeat split; try tauto; try lia.
      * cbn. repeat split; try tauto; try lia.
        simpl in Hl. apply Forall_cons in Hl as [Hsc' Hl].
        apply Forall_app in Hl as [Hr Ho]. apply Forall_app.
        split; [exact Hr|]. apply Forall_app. split; [exact Ho|].
        apply Forall_cons. split; [exact Hsc' | constructor].
Qed.

(** ** The path of the spatial game *)

Lemma drawnCells_S (rand : nat -> Q) (k n : nat) (totalCells : Z) :
  PathMemory.drawnCells rand k (S n) totalCells =
  randomBelow (rand k) totalCells ::
  PathMemory.drawnCells rand (S k) n totalCells.
Proof.
  unfold PathMemory.drawnCells. cbn [seq fmap list_fmap].
  rewrite Nat.add_0_r. f_equal.
  rewrite <- fmap_S_seq, <- list_fmap_compose.
  apply list_fmap_ext. intros i x _. simpl. f_equal. f_equal. lia.
Qed.

Lemma range_NoDup_length (l : list Z) (n : Z) :
  NoDup l -> Forall (fun c => 0 <= c < n) l -> Z.of_nat (length l) <= Z.max 0 n.
Proof.
  intros Hnd Hr.
  assert (Hsub : l ⊆+ seqZ 0 n).
  { apply NoDup_submseteq; [exact Hnd|]. intros x Hx.
    rewrite Forall_forall in Hr. apply elem_of_seqZ. specialize (Hr x Hx).
    lia. }
  apply submseteq_length in Hsub. rewrite length_seqZ in Hsub. lia.
Qed.

Lemma generateSequenceLoop_sound (rand : nat -> Q) (len totalCells : Z) :
  validDraws rand -> 0 < totalCells ->
  forall fuel k indices sq,
    NoDup indices -> Forall (fun c => 0 <= c < totalCells) indices ->
    (length indices <= Z.to_nat len)%nat ->
    PathMemory.generateSequenceLoop fuel rand k len totalCells indices
      = Some sq ->
    length sq = Z.to_nat len /\ NoDup sq /\
    Forall (fun c => 0 <= c < totalCells) sq /\
    (forall x, x ∈ sq ->
       x ∈ indices \/ x ∈ PathMemory.drawnCells rand k fuel totalCells).
Proof.
  intros Hv Hpos. induction fuel as [|fuel IH];
    intros k indices sq Hnd Hr Hlen Hrun; cbn [PathMemory.generateSequenceLoop] in Hrun;
    destruct (Z.of_nat (length indices) <? len) eqn:C;
    try discriminate;
    try (apply Z.ltb_ge in C; injection Hrun as <-;
         split; [lia|]; split; [exact Hnd|]; split; [exact Hr|];
         intros x Hx; now left).
  apply Z.ltb_lt in C.
  set (r := randomBelow (rand k) totalCells) in *.
  assert (Hrr : 0 <= r < totalCells).
  { destruct (Hv k). now apply randomBelow_range. }
  rewrite drawnCells_S. fold r.
  destruct (bool_decide (r ∈ indices)) eqn:B.
  - destruct (IH (S k) indices sq Hnd Hr Hlen Hrun) as (H1 & H2 & H3 & H4).
    split; [exact H1|]. split; [exact H2|]. split; [exact H3|].
    intros x Hx. destruct (H4 x Hx) as [?|?]; [now left|].
    right. apply elem_of_cons. now right.
  - apply bool_decide_eq_false in B.
    destruct (IH (S k) (indices ++ [r]) sq) as (H1 & H2 & H3 & H4).
    + apply NoDup_app. split; [exact Hnd|]. split; [|apply NoDup_singleton].
      intros x Hx Hx'. apply list_elem_of_singleton in Hx'. now subst x.
    + apply Forall_app. split; [exact Hr|]. now apply Forall_singleton.
    + rewrite length_app. simpl. lia.
    + exact Hrun.
    + split; [exact H1|]. split; [exact H2|]. split; [exact H3|].
      intros x Hx. destruct (H4 x Hx) as [Hi|Hd].
      * apply elem_of_app in Hi as [?|Hi]; [now left|].
        apply list_elem_of_singleton in Hi. subst x. right.
        apply elem_of_cons. now left.
      * right. apply elem_of_cons. now right.
Qed.

Lemma generateSequenceLoop_returns (rand : nat -> Q) (len totalCells : Z) :
  forall fuel k indices,
    NoDup indices ->
    (Z.to_nat len <=
     size (list_to_set
             (indices ++ PathMemory.drawnCells rand k fuel totalCells)
           : gset Z))%nat ->
    exists sq,
      PathMemory.generateSequenceLoop fuel rand k len totalCells indices
      = Some sq.
Proof.
  induction fuel as [|fuel IH]; intros k indices Hnd Hsize;
    cbn [PathMemory.generateSequenceLoop];
    destruct (Z.of_nat (length indices) <? len) eqn:C;
    try (eexists; reflexivity).
  - exfalso. apply Z.ltb_lt in C.
    unfold PathMemory.drawnCells in Hsize. simpl in Hsize.
    rewrite app_nil_r, size_list_to_set in Hsize by exact Hnd. lia.
  - rewrite drawnCells_S in Hsize.
    set (r := randomBelow (rand k) totalCells) in *.
    destruct (bool_decide (r ∈ indices)) eqn:B.
    + apply bool_decide_eq_true in B. apply IH; [exact Hnd|].
      replace (list_to_set
                 (indices ++ PathMemory.drawnCells rand (S k) fuel totalCells)
               : gset Z)
        with (list_to_set
                (indices ++ r ::
                 PathMemory.drawnCells rand (S k) fuel totalCells)
              : gset Z); [exact Hsize|].
      apply set_eq. intros x.
      rewrite !elem_of_list_to_set, !elem_of_app, elem_of_cons.
      split; [|tauto]. intros [?|[->|?]]; tauto.
    + apply bool_decide_eq_false in B. apply IH.
      * apply NoDup_app. split; [exact Hnd|].
        split; [|apply NoDup_singleton].
        intros x Hx Hx'. apply list_elem_of_singleton in Hx'. now subst x.
      * rewrite <- (assoc_L (++)). exact Hsize.
Qed.

Lemma generateSequenceLoop_starves (rand : nat -> Q) (len totalCells : Z) :
  validDraws rand -> 0 < totalCells -> totalCells < len ->
  forall fuel k indices,
    NoDup indices -> Forall (fun c => 0 <= c < totalCells) indices ->
    PathMemory.generateSequenceLoop fuel rand k len totalCells indices = None.
Proof.
  intros Hv Hpos Hlt. induction fuel as [|fuel IH];
    intros k indices Hnd Hr; cbn [PathMemory.generateSequenceLoop];
    pose proof (range_NoDup_length indices totalCells Hnd Hr) as Hlen;
    (replace (Z.of_nat (length indices) <? len) with true
       by (symmetry; apply Z.ltb_lt; lia)); [reflexivity|].
  set (r := randomBelow (rand k) totalCells).
  assert (Hrr : 0 <= r < totalCells).
  { destruct (Hv k). now apply randomBelow_range. }
  destruct (bool_decide (r ∈ indices)) eqn:B; [now apply IH|].
  apply bool_decide_eq_false in B. apply IH.
  - apply NoDup_app. split; [exact Hnd|]. split; [|apply NoDup_singleton].
    intros x Hx Hx'. apply list_elem_of_singleton in Hx'. now subst x.
  - apply Forall_app. split; [exact Hr|]. now apply Forall_singleton.
Qed.

(** X19: the path that [generateSequence(length, totalCells)] draws, for
    draws in [0, 1) and a grid with cells.  If the loop returns, the path
    has exactly [length] cells, all of the grid and all different, each
    one drawn.  It returns as soon as [length] different cells have been
    drawn: draws that name that many different cells suffice.  Asked for
    more cells than the grid has it never returns, whatever the draws; the
    settings of the game ask for at most 6 of 9, 8 of 16 and 10 of 25. *)
Theorem X19_path_generateSequence (rand : nat -> Q) (k fuel : nat)
  (len totalCells : Z) :
  validDraws rand -> 0 < totalCells ->
  (forall sq,
     PathMemory.generateSequence fuel rand k len totalCells = Some sq ->
     length sq = Z.to_nat len /\ NoDup sq /\
     Forall (fun c => 0 <= c < totalCells) sq /\
     (forall x, x ∈ sq -> x ∈ PathMemory.drawnCells rand k fuel totalCells)) /\
  ((Z.to_nat len <=
    size (list_to_set (PathMemory.drawnCells rand k fuel totalCells)
          : gset Z))%nat ->
   exists sq,
     PathMemory.generateSequence fuel rand k len totalCells = Some sq) /\
  (totalCells < len ->
   PathMemory.generateSequence fuel rand k len totalCells = None) /\
  (forall d,
     PathMemory.maxLength (PathMemory.SETTINGS d) <=
     PathMemory.gridSize (PathMemory.SETTINGS d) *
     PathMemory.gridSize (PathMemory.SETTINGS d)).
Proof.
  intros Hv Hpos. unfold PathMemory.generateSequence.
  split; [|split; [|split]].
  - intros sq Hrun.
    destruct (generateSequenceLoop_sound rand len totalCells Hv Hpos
                fuel k [] sq) as (H1 & H2 & H3 & H4);
      [apply NoDup_nil_2 | constructor | simpl; lia | exact Hrun |].
    split; [exact H1|]. split; [exact H2|]. split; [exact H3|].
    intros x Hx. destruct (H4 x Hx) as [Hn|?]; [|assumption].
    now apply elem_of_nil in Hn.
  - intros Hsize. apply generateSequenceLoop_returns;
      [apply NoDup_nil_2 | exact Hsize].
  - intros Hlt. apply generateSequenceLoop_starves; try assumption;
      [apply NoDup_nil_2 | constructor].
  - intros d. destruct d; cbn; lia.
Qed.

Lemma X19_path_generateSequence_witness :
  let rand := draws [1 # 2; 1 # 2; 1 # 9; 5 # 9; 8 # 9] in
  PathMemory.generateSequence 5 rand 0 3 9 = Some [4; 1; 5] /\
  (forall sq,
     PathMemory.generateSequence 5 rand 0 3 9 = Some sq -> NoDup sq) /\
  PathMemory.generateSequence 5 rand 0 10 9 = None.
Proof.
  intros rand.
  assert (Hv : validDraws rand).
  { apply validDraws_draws. repeat constructor; discriminate. }
  destruct (X19_path_generateSequence rand 0 5 3 9 Hv ltac:(lia))
    as (Hs & _ & _ & _).
  destruct (X19_path_generateSequence rand 0 5 10 9 Hv ltac:(lia))
    as (_ & _ & Hn & _).
  split; [vm_compute; reflexivity|]. split.
  - intros sq Hsq. now destruct (Hs sq Hsq) as (_ & H & _).
  - apply Hn. lia.
Defined.

(** ** The delays of the reaction game *)

Lemma getRandomDelay_range (u : Q) (min max : Z) :
  (0 <= u)%Q -> (u < 1)%Q -> min <= max ->
  min <= ReactionTest.getRandomDelay u min max <= max.
Proof.
  intros H0 H1 Hle. unfold ReactionTest.getRandomDelay.
  pose proof (randomBelow_range u (max - min + 1) H0 H1 ltac:(lia)). lia.
Qed.

Lemma getRandomDelay_onto (min max t : Z) :
  min <= t <= max ->
  exists u : Q,
    (0 <= u)%Q /\ (u < 1)%Q /\ ReactionTest.getRandomDelay u min max = t.
Proof.
  intros Ht. exists ((t - min) # Z.to_pos (max - min + 1)).
  assert (Hp : Z.pos (Z.to_pos (max - min + 1)) = max - min + 1)
    by (apply Z2Pos.id; lia).
  split; [|split].
  - unfold Qle. simpl. lia.
  - unfold Qlt. simpl. rewrite Hp. lia.
  - unfold ReactionTest.getRandomDelay, randomBelow.
    rewrite (Qfloor_comp _ (inject_Z (t - min))); [rewrite Qfloor_Z; lia|].
    unfold Qeq, Qmult, inject_Z. simpl. rewrite Pos.mul_1_r, Hp. ring.
Qed.

Lemma reaction_clearTimeout_env ref s :
  ReactionTest.now (ReactionTest.clearTimeout ref s) = ReactionTest.now s /\
  ReactionTest.nextId (ReactionTest.clearTimeout ref s) =
    ReactionTest.nextId s.
Proof. destruct ref; split; reflexivity. Qed.

(** The timer that [startTrial] arms. *)
Lemma reaction_startTrial_timer (d : Difficulty) (r : ReactionTest.Random)
  (s : ReactionTest.State) :
  last (ReactionTest.timers (ReactionTest.startTrial d r s)) =
  Some {| ReactionTest.id := ReactionTest.nextId s;
          ReactionTest.due :=
            (ReactionTest.now s + inject_Z (ReactionTest.delay r))%Q;
          ReactionTest.callback :=
            ReactionTest.Delay
              (ReactionTest.trickTrials (ReactionTest.DIFFICULTY_SETTINGS d)
               && ReactionTest.trick r) |}.
Proof.
  unfold ReactionTest.startTrial. cbv zeta.
  set (s1 := ReactionTest.clearTimeout (ReactionTest.delayTimeoutRef s) s).
  set (s2 := ReactionTest.clearTimeout (ReactionTest.trickTimeoutRef s1) s1).
  destruct (reaction_clearTimeout_env (ReactionTest.delayTimeoutRef s) s)
    as [N1 I1]. fold s1 in N1, I1.
  destruct (reaction_clearTimeout_env (ReactionTest.trickTimeoutRef s1) s1)
    as [N2 I2]. fold s2 in N2, I2.
  cbn. rewrite last_snoc. rewrite N2, N1, I2, I1. reflexivity.
Qed.

(** X20: the delays of the reaction game.  For a draw in [0, 1),
    [getRandomDelay(min, max)] is an integer of [min..max], and every
    integer of that range is the delay of some draw.  So what a trial draws
    is within the ranges of its difficulty: the delay within
    [minDelay..maxDelay], the delay of the real signal after a trick within
    800..2000 ms, each value of these ranges being drawn by some draw.  The
    timer that [startTrial] arms is due after the delay drawn and shows a
    trick signal exactly when the game is played in hard mode and the
    second draw is below 0.3. *)
Theorem X20_reaction_random_delays (d : Difficulty) (u1 u2 u3 : Q)
  (s : ReactionTest.State) :
  let settings := ReactionTest.DIFFICULTY_SETTINGS d in
  let r := ReactionTest.drawRandom d u1 u2 u3 in
  (forall (u : Q) (min max : Z),
     (0 <= u)%Q -> (u < 1)%Q -> min <= max ->
     min <= ReactionTest.getRandomDelay u min max <= max) /\
  (forall min max t : Z,
     min <= t <= max ->
     exists u : Q,
       (0 <= u)%Q /\ (u < 1)%Q /\ ReactionTest.getRandomDelay u min max = t) /\
  ((0 <= u1)%Q -> (u1 < 1)%Q ->
   ReactionTest.minDelay settings <= ReactionTest.delay r
     <= ReactionTest.maxDelay settings) /\
  ((0 <= u3)%Q -> (u3 < 1)%Q -> 800 <= ReactionTest.secondDelay r <= 2000) /\
  ((0 <= u1)%Q -> (u1 < 1)%Q -> (0 <= u3)%Q -> (u3 < 1)%Q ->
   ReactionTest.validRandom d r = true) /\
  (forall t,
     ReactionTest.minDelay settings <= t <= ReactionTest.maxDelay settings ->
     exists u : Q,
       (0 <= u)%Q /\ (u < 1)%Q /\
       ReactionTest.delay (ReactionTest.drawRandom d u u2 u3) = t) /\
  (forall t,
     800 <= t <= 2000 ->
     exists u : Q,
       (0 <= u)%Q /\ (u < 1)%Q /\
       ReactionTest.secondDelay (ReactionTest.drawRandom d u1 u2 u) = t) /\
  (exists isTrick : bool,
     last (ReactionTest.timers (ReactionTest.startTrial d r s)) =
       Some {| ReactionTest.id := ReactionTest.nextId s;
               ReactionTest.due :=
                 (ReactionTest.now s + inject_Z (ReactionTest.delay r))%Q;
               ReactionTest.callback := ReactionTest.Delay isTrick |} /\
     (isTrick = true <-> d = hard /\ (u2 < 3 # 10)%Q)).
Proof.
  intros settings r.
  assert (Hmm : ReactionTest.minDelay settings <= ReactionTest.maxDelay settings)
    by (destruct d; cbn; lia).
  assert (Htrick : ReactionTest.trick r = true <-> (u2 < 3 # 10)%Q).
  { subst r. cbn. unfold Qltb. rewrite negb_true_iff.
    destruct (Qle_bool (3 # 10) u2) eqn:E.
    - apply Qle_bool_iff in E. split; [discriminate|].
      intros Hlt. exfalso. apply (Qlt_not_le _ _ Hlt E).
    - split; [|reflexivity]. intros _. apply Qnot_le_lt. intros Hle.
      apply Qle_bool_iff in Hle. congruence. }
  split; [exact getRandomDelay_range|].
  split; [exact getRandomDelay_onto|].
  split; [intros H10 H11; now apply getRandomDelay_range|].
  split; [intros H30 H31; apply getRandomDelay_range; [assumption ..|lia]|].
  split; [|split; [|split]].
  - intros H10 H11 H30 H31.
    pose proof (getRandomDelay_range u1 _ _ H10 H11 Hmm) as Hd.
    pose proof (getRandomDelay_range u3 800 2000 H30 H31 ltac:(lia)) as Hs.
    unfold ReactionTest.validRandom. fold settings. subst r. cbn.
    fold settings.
    repeat (apply andb_true_intro; split); apply Z.leb_le; lia.
  - intros t Ht. apply getRandomDelay_onto. exact Ht.
  - intros t Ht. apply getRandomDelay_onto. exact Ht.
  - exists (ReactionTest.trickTrials settings && ReactionTest.trick r).
    split; [apply reaction_startTrial_timer|].
    rewrite andb_true_iff, Htrick.
    destruct d; cbn; split; intros [H1 H2]; split; try assumption;
      try reflexivity; discriminate.
Qed.

Lemma X20_reaction_random_delays_witness :
  ReactionTest.drawRandom hard (1 # 3) (1 # 4) (999 # 1000) =
  {| ReactionTest.delay := 2000; ReactionTest.trick := true;
     ReactionTest.secondDelay := 1999 |} /\
  ReactionTest.validRandom hard
    (ReactionTest.drawRandom hard (1 # 3) (1 # 4) (999 # 1000)) = true /\
  last (ReactionTest.timers
          (ReactionTest.startTrial hard
             (ReactionTest.drawRandom hard (1 # 3) (1 # 4) (999 # 1000))
             ReactionTest.init)) =
  Some {| ReactionTest.id := 2; ReactionTest.due := 2000;
          ReactionTest.callback := ReactionTest.Delay true |} /\
  last (ReactionTest.timers
          (ReactionTest.startTrial normal
             (ReactionTest.drawRandom normal (1 # 3) (1 # 4) (999 # 1000))
             ReactionTest.init)) =
  Some {| ReactionTest.id := 2; ReactionTest.due := 2000;
          ReactionTest.callback := ReactionTest.Delay false |}.
Proof.
  pose proof (X20_reaction_random_delays hard (1 # 3) (1 # 4) (999 # 1000)
                ReactionTest.init) as H.
  cbv zeta in H. destruct H as (_ & _ & _ & _ & Hv & _).
  split; [vm_compute; reflexivity|].
  split; [apply Hv; first [reflexivity | discriminate]|].
  split; vm_compute; reflexivity.
Defined.

(** ** The reaction game: what a run keeps *)

Lemma reaction_phase_clearTimeout ref s :
  ReactionTest.phase (ReactionTest.clearTimeout ref s) = ReactionTest.phase s.
Proof. destruct ref; reflexivity. Qed.

Lemma reaction_trial_clearTimeout ref s :
  ReactionTest.currentTrial (ReactionTest.clearTimeout ref s) =
  ReactionTest.currentTrial s.
Proof. destruct ref; reflexivity. Qed.

Lemma reaction_times_clearTimeout ref s :
  ReactionTest.reactionTimes (ReactionTest.clearTimeout ref s) =
  ReactionTest.reactionTimes s.
Proof. destruct ref; reflexivity. Qed.

Ltac reaction_cells :=
  cbn;
  rewrite ?reaction_phase_clearTimeout, ?reaction_trial_clearTimeout,
    ?reaction_times_clearTimeout, ?onComplete_clearTimeout;
  cbn.

Lemma reaction_startTrial_cells d r s :
  ReactionTest.phase (ReactionTest.startTrial d r s) = ReactionTest.ready /\
  ReactionTest.currentTrial (ReactionTest.startTrial d r s) =
    ReactionTest.currentTrial s /\
  ReactionTest.reactionTimes (ReactionTest.startTrial d r s) =
    ReactionTest.reactionTimes s /\
  ReactionTest.onComplete (ReactionTest.startTrial d r s) =
    ReactionTest.onComplete s.
Proof.
  unfold ReactionTest.startTrial. reaction_cells. repeat split.
Qed.

Lemma reaction_runCallback_cells d r c s :
  let n := ReactionTest.runCallback d r c s in
  ReactionTest.currentTrial n = ReactionTest.currentTrial s /\
  ReactionTest.reactionTimes n = ReactionTest.reactionTimes s /\
  (ReactionTest.phase n = ReactionTest.ready \/
   ReactionTest.phase n = ReactionTest.signal \/
   ReactionTest.phase n = ReactionTest.phase s) /\
  (ReactionTest.onComplete n = ReactionTest.onComplete s \/
   exists rts,
     ReactionTest.onComplete n =
     ReactionTest.onComplete s ++ [ReactionTest.finalScore rts]).
Proof.
  intros n. subst n.
  destruct c as [|[|]| | | |rts]; cbn [ReactionTest.runCallback].
  - destruct (reaction_startTrial_cells d r s) as (P & C & R & L).
    rewrite P, C, R, L. repeat split; auto.
  - cbn. repeat split; auto.
  - cbn. repeat split; auto.
  - cbn. repeat split; auto.
  - cbn. repeat split; auto.
  - destruct (reaction_startTrial_cells d r s) as (P & C & R & L).
    rewrite P, C, R, L. repeat split; auto.
  - unfold ReactionTest.callOnComplete. cbn.
    destruct (ReactionTest.mounted s).
    + unfold ReactionTest.unmount. reaction_cells.
      repeat split; auto. right. now exists rts.
    + cbn. repeat split; auto. right. now exists rts.
Qed.

Lemma reaction_click_cells d s :
  let n := ReactionTest.handleCircleClick d s in
  ReactionTest.onComplete n = ReactionTest.onComplete s /\
  ReactionTest.phase n <> ReactionTest.done \/
  ReactionTest.phase n = ReactionTest.phase s /\
  ReactionTest.onComplete n = ReactionTest.onComplete s.
Proof.
  intros n. subst n. unfold ReactionTest.handleCircleClick.
  destruct (ReactionTest.phase s) eqn:P; try (right; split; [exact P|reflexivity]).
  - left. cbn. rewrite !onComplete_clearTimeout. split; [reflexivity|].
    discriminate.
  - left. destruct (_ <=? _); cbn; split; [reflexivity | discriminate |
                                           reflexivity | discriminate].
Qed.

Lemma reaction_click_trials d s :
  ReactionTest.currentTrial s = Z.of_nat (length (ReactionTest.reactionTimes s)) ->
  let n := ReactionTest.handleCircleClick d s in
  ReactionTest.currentTrial n = Z.of_nat (length (ReactionTest.reactionTimes n)).
Proof.
  intros H n. subst n. unfold ReactionTest.handleCircleClick.
  destruct (ReactionTest.phase s) eqn:P; try exact H.
  - reaction_cells. exact H.
  - destruct (_ <=? _); cbn; rewrite length_app; simpl; lia.
Qed.

Lemma reaction_step_invariant d e s s' :
  ReactionTest.step d e s = Some s' ->
  Forall (fun n => 0 <= n <= 650) (ReactionTest.onComplete s) /\
  ReactionTest.currentTrial s =
    Z.of_nat (length (ReactionTest.reactionTimes s)) /\
  ReactionTest.phase s <> ReactionTest.done ->
  Forall (fun n => 0 <= n <= 650) (ReactionTest.onComplete s') /\
  ReactionTest.currentTrial s' =
    Z.of_nat (length (ReactionTest.reactionTimes s')) /\
  ReactionTest.phase s' <> ReactionTest.done.
Proof.
  intros Hstep (Hlog & Htr & Hph).
  assert (Hfin : forall rts, 0 <= ReactionTest.finalScore rts <= 650).
  { intros rts. destruct rts as [|rt rts]; [vm_compute; split; discriminate|].
    rewrite finalScore_rounded_mean by discriminate.
    pose proof (reaction_finalScore_range (rt :: rts)) as Hr.
    rewrite finalScore_rounded_mean in Hr by discriminate.
    split; [lia|].
    enough (round_half_up
              (sumZ (ReactionTest.calculateTrialScore <$> rt :: rts))
              (Z.of_nat (length (rt :: rts))) < 651) by lia.
    unfold round_half_up.
    assert (Hn : 0 < Z.of_nat (length (rt :: rts))) by (simpl length; lia).
    apply Z.div_lt_upper_bound; [lia|].
    assert (Hs : forall l : list Z,
               sumZ (ReactionTest.calculateTrialScore <$> l)
               <= 650 * Z.of_nat (length l)).
    { induction l as [|x l IH]; [vm_compute; discriminate|].
      pose proof (calculateTrialScore_range x). unfold sumZ in *.
      cbn [fmap list_fmap foldr length]. lia. }
    specialize (Hs (rt :: rts)). lia. }
  destruct e as [after|r]; cbn [ReactionTest.step] in Hstep.
  - destruct (_ && _ && _); [|discriminate]. injection Hstep as <-.
    set (s0 := ReactionTest.setEnv _ _ _ _ _ s).
    assert (H0 : ReactionTest.currentTrial s0 =
                 Z.of_nat (length (ReactionTest.reactionTimes s0)))
      by exact Htr.
    split; [|split].
    + destruct (reaction_click_cells d s0) as [[L _]|[_ L]];
        rewrite L; exact Hlog.
    + now apply reaction_click_trials.
    + destruct (reaction_click_cells d s0) as [[_ P]|[P _]];
        [exact P | rewrite P; exact Hph].
  - destruct (ReactionTest.validRandom d r); [|discriminate].
    destruct (ReactionTest.earliest (ReactionTest.timers s)) as [tm|];
      [|discriminate].
    injection Hstep as <-.
    set (s1 := ReactionTest.setEnv _ _ _ _ _ s).
    destruct (reaction_runCallback_cells d r (ReactionTest.callback tm) s1)
      as (C & R & P & L).
    set (n := ReactionTest.runCallback d r (ReactionTest.callback tm) s1) in *.
    assert (Hlog' : Forall (fun n => 0 <= n <= 650) (ReactionTest.onComplete n)).
    { destruct L as [L|[rts L]]; rewrite L; [exact Hlog|].
      apply Forall_app. split; [exact Hlog|].
      apply Forall_singleton, Hfin. }
    unfold ReactionTest.dropStateUpdates.
    destruct (ReactionTest.mounted s).
    + split; [exact Hlog'|]. split.
      * rewrite C, R. exact Htr.
      * destruct P as [P|[P|P]]; rewrite P; try discriminate. exact Hph.
    + cbn. split; [exact Hlog'|]. split; [exact Htr | exact Hph].
Qed.

(** X21: what every run of the reaction game keeps.  A score it reports
    lies between 0 and 650: a trial counts at most 650 (a time of exactly
    150 ms), so the cap at 800 never takes effect and the profile never
    shows more than 81 for this game.  The trial counter equals the number
    of recorded times, too-early clicks adding to neither; and the phase
    [done] is never entered, so the summary screen that the component
    renders for it is never shown. *)
Theorem X21_reaction_run_keeps (d : Difficulty)
  (es : list ReactionTest.Event) (s : ReactionTest.State) :
  ReactionTest.run d es ReactionTest.init = Some s ->
  Forall (fun n => 0 <= n <= 650) (ReactionTest.onComplete s) /\
  Forall (fun n => Scoring.normalizeScore reaction normal n <= 81)
    (ReactionTest.onComplete s) /\
  ReactionTest.currentTrial s =
    Z.of_nat (length (ReactionTest.reactionTimes s)) /\
  (ReactionTest.phase s = ReactionTest.done -> False) /\
  (forall rt, ReactionTest.calculateTrialScore rt = 650 <-> rt = 150).
Proof.
  intros Hrun.
  assert (H : Forall (fun n => 0 <= n <= 650) (ReactionTest.onComplete s) /\
              ReactionTest.currentTrial s =
                Z.of_nat (length (ReactionTest.reactionTimes s)) /\
              ReactionTest.phase s <> ReactionTest.done).
  { revert Hrun.
    assert (H0 : Forall (fun n => 0 <= n <= 650)
                   (ReactionTest.onComplete ReactionTest.init) /\
                 ReactionTest.currentTrial ReactionTest.init =
                   Z.of_nat (length (ReactionTest.reactionTimes
                                       ReactionTest.init)) /\
                 ReactionTest.phase ReactionTest.init <> ReactionTest.done).
    { cbn. split; [constructor|]. split; [reflexivity | discriminate]. }
    revert H0. generalize ReactionTest.init.
    induction es as [|e es IH]; intros s0 H0 Hrun.
    - injection Hrun as <-. exact H0.
    - cbn [ReactionTest.run] in Hrun.
      destruct (ReactionTest.step d e s0) as [s1|] eqn:E; [|discriminate].
      exact (IH s1 (reaction_step_invariant d e s0 s1 E H0) Hrun). }
  destruct H as (Hlog & Htr & Hph).
  split; [exact Hlog|]. split; [|split; [exact Htr|split; [exact Hph|]]].
  - eapply Forall_impl; [exact Hlog|]. intros n Hn. cbv beta in *.
    etransitivity; [apply (normalizeScore_mono _ _ n 650); lia|].
    vm_compute. discriminate.
  - intros rt. unfold ReactionTest.calculateTrialScore.
    destruct (rt <? 150) eqn:E.
    + apply Z.ltb_lt in E. lia.
    + apply Z.ltb_ge in E. lia.
Qed.

Lemma X21_reaction_run_keeps_witness :
  match ReactionTest.run hard reactionRace ReactionTest.init with
  | Some s =>
      ReactionTest.onComplete s = [470; 441] /\
      Forall (fun n => 0 <= n <= 650) (ReactionTest.onComplete s)
  | None => False
  end.
Proof.
  destruct (ReactionTest.run hard reactionRace ReactionTest.init)
    as [s|] eqn:E; [|vm_compute in E; discriminate].
  destruct (X21_reaction_run_keeps hard reactionRace s E) as (H & _).
  split; [|exact H].
  vm_compute in E. injection E as <-. reflexivity.
Defined.

(** ** The problems of the arithmetic game *)

Lemma pickDistractors_fold (answer : Z) (l acc : list Z) :
  NoDup (acc ++ (Z.add answer <$> l)) -> (length acc <= 3)%nat ->
  foldl (fun distractors offset =>
           if (3 <=? length distractors)%nat then distractors
           else
             let val := answer + offset in
             if (0 <=? val) && negb (val =? answer) &&
                negb (bool_decide (val ∈ distractors))
             then distractors ++ [val] else distractors)
        acc l =
  take 3 (acc ++ filter (fun v => 0 <= v /\ v <> answer) (Z.add answer <$> l)).
Proof.
  revert acc. induction l as [|o l IH]; intros acc Hnd Hlen.
  - simpl. rewrite app_nil_r. symmetry. now apply take_ge.
  - cbn [foldl fmap list_fmap]. rewrite filter_cons.
    destruct (3 <=? length acc)%nat eqn:C.
    + apply Nat.leb_le in C.
      rewrite IH; [|rewrite fmap_cons in Hnd;
                    apply NoDup_app in Hnd as (H1 & H2 & H3);
                    apply NoDup_app; split; [exact H1|];
                    split; [|now apply NoDup_cons in H3];
                    intros x Hx Hx'; apply (H2 x Hx);
                    apply elem_of_cons; now right | exact Hlen].
      rewrite !take_app_le by lia. reflexivity.
    + apply Nat.leb_gt in C. cbv zeta.
      rewrite fmap_cons in Hnd.
      assert (Hfresh : answer + o ∉ acc).
      { apply NoDup_app in Hnd as (_ & H2 & _). intros Hin.
        apply (H2 _ Hin). apply elem_of_cons. now left. }
      rewrite (bool_decide_eq_false_2 _ Hfresh). simpl negb.
      rewrite andb_true_r.
      destruct (decide (0 <= answer + o /\ answer + o <> answer)) as [V|V].
      * replace ((0 <=? answer + o) && negb (answer + o =? answer))
          with true.
        2:{ symmetry. apply andb_true_intro. split; [apply Z.leb_le; lia|].
            apply negb_true_iff, Z.eqb_neq. lia. }
        rewrite IH.
        -- now rewrite <- (assoc_L (++)).
        -- rewrite <- (assoc_L (++)). exact Hnd.
        -- rewrite length_app. simpl. lia.
      * replace ((0 <=? answer + o) && negb (answer + o =? answer))
          with false.
        2:{ symmetry. apply andb_false_iff.
            destruct (Z.leb_spec 0 (answer + o)); [right|now left].
            apply negb_false_iff, Z.eqb_eq. lia. }
        apply IH; [|exact Hlen].
        apply NoDup_app in Hnd as (H1 & H2 & H3).
        apply NoDup_app. split; [exact H1|].
        split; [|now apply NoDup_cons in H3].
        intros x Hx Hx'. apply (H2 x Hx). apply elem_of_cons. now right.
Qed.

Lemma offsets_valid_count (answer : Z) :
  0 <= answer ->
  (5 <= length (filter (fun v : Z => (0 <= v /\ v <> answer)%Z)
                  (Z.add answer <$> ArithmeticChallenge.offsets)))%nat.
Proof.
  intros Ha. unfold ArithmeticChallenge.offsets.
  cbn [fmap list_fmap].
  repeat (rewrite filter_cons;
          destruct (decide _) as [?|?]; [|try (exfalso; lia)]);
    rewrite filter_nil; simpl; lia.
Qed.

Lemma generateDistractors_spec (answer : Z) (shuffled : list Z) :
  0 <= answer -> shuffled ≡ₚ ArithmeticChallenge.offsets ->
  exists ds,
    ArithmeticChallenge.generateDistractors 0 answer shuffled = Some ds /\
    length ds = 3%nat /\ NoDup ds /\ (answer ∉ ds) /\
    Forall (fun v => 0 <= v /\ (answer - 10 <= v <= answer + 10)) ds.
Proof.
  intros Ha Hp.
  set (P := fun v : Z => 0 <= v /\ v <> answer).
  set (vals := Z.add answer <$> shuffled).
  assert (Hnd : NoDup vals).
  { apply NoDup_fmap_2; [intros a b H; lia|]. rewrite Hp. compute_done. }
  assert (Hpick : ArithmeticChallenge.pickDistractors answer shuffled =
                  take 3 (filter P vals)).
  { unfold ArithmeticChallenge.pickDistractors.
    rewrite pickDistractors_fold; [reflexivity | exact Hnd | simpl; lia]. }
  assert (Hcount : (5 <= length (filter P vals))%nat).
  { unfold vals. rewrite Hp. now apply offsets_valid_count. }
  exists (take 3 (filter P vals)).
  assert (Hlen : length (take 3 (filter P vals)) = 3%nat)
    by (rewrite length_take; lia).
  split; [|split; [exact Hlen|split; [|split]]].
  - unfold ArithmeticChallenge.generateDistractors. rewrite Hpick.
    cbn [ArithmeticChallenge.fallbackLoop]. now rewrite Hlen.
  - eapply sublist_NoDup; [|apply sublist_take].
    eapply sublist_NoDup; [exact Hnd | apply sublist_filter].
  - intros Hin. apply elem_of_take in Hin as (i & Hi & _).
    apply list_elem_of_lookup_2, list_elem_of_filter in Hi as [[_ Hne] _].
    congruence.
  - apply Forall_forall. intros v Hin.
    apply elem_of_take in Hin as (i & Hi & _).
    apply list_elem_of_lookup_2, list_elem_of_filter in Hi as [[Hv _] Hin].
    split; [exact Hv|]. unfold vals in Hin.
    apply list_elem_of_fmap in Hin as (o & -> & Ho). rewrite Hp in Ho.
    unfold ArithmeticChallenge.offsets in Ho.
    repeat (apply elem_of_cons in Ho as [->|Ho]; [lia|]).
    now apply elem_of_nil in Ho.
Qed.

Lemma pickQuestion_spec (d : Difficulty) (problemIndex : Z) (u0 u1 u2 : Q) :
  (0 <= u1)%Q -> (u1 < 1)%Q -> (0 <= u2)%Q -> (u2 < 1)%Q ->
  0 <= problemIndex ->
  let q := ArithmeticChallenge.pickQuestion d problemIndex u0 u1 u2 in
  1 <= ArithmeticChallenge.value q /\
  ArithmeticChallenge.evaluate q = Some (ArithmeticChallenge.value q).
Proof.
  intros H10 H11 H20 H21 Hpi.
  assert (R1 : forall n, 0 < n -> 0 <= randomBelow u1 n < n)
    by (intros n; now apply randomBelow_range).
  assert (R2 : forall n, 0 < n -> 0 <= randomBelow u2 n < n)
    by (intros n; now apply randomBelow_range).
  assert (Ht : 0 <= ArithmeticChallenge.tierOf d problemIndex <= 4).
  { unfold ArithmeticChallenge.tierOf.
    destruct (bool_decide (d = easy));
      [pose proof (Z.div_pos problemIndex 8 Hpi ltac:(lia))
      |pose proof (Z.div_pos problemIndex 5 Hpi ltac:(lia))]; lia. }
  unfold ArithmeticChallenge.pickQuestion.
  set (tier := ArithmeticChallenge.tierOf d problemIndex) in *.
  cbv zeta.
  assert (Hdiv : forall a b, 0 < a ->
            ArithmeticChallenge.evaluate
              {| ArithmeticChallenge.lhs := a * b;
                 ArithmeticChallenge.op := ArithmeticChallenge.div;
                 ArithmeticChallenge.rhs := a;
                 ArithmeticChallenge.value := b |} = Some b).
  { intros a b Hpos. unfold ArithmeticChallenge.evaluate.
    cbn [ArithmeticChallenge.lhs ArithmeticChallenge.op
         ArithmeticChallenge.rhs ArithmeticChallenge.value].
    replace (a =? 0) with false by (symmetry; apply Z.eqb_neq; lia).
    rewrite (Z.mul_comm a b), Z.mod_mul by lia.
    now rewrite Z.div_mul by lia. }
  assert (Hm1 : forall m, 0 < m -> 0 <= randomBelow u1 m /\ 0 <= randomBelow u2 m)
    by (intros m Hm; pose proof (R1 m Hm); pose proof (R2 m Hm); lia).
  destruct d.
  - destruct (Hm1 (Z.min (10 + tier * 2) 20) ltac:(lia)).
    destruct (Qltb u0 (1 # 2)); unfold ArithmeticChallenge.evaluate;
      cbn [ArithmeticChallenge.lhs ArithmeticChallenge.op
           ArithmeticChallenge.rhs ArithmeticChallenge.value];
      (split; [lia | f_equal; lia]).
  - destruct (Hm1 (Z.min (20 + tier * 8) 50) ltac:(lia)).
    destruct (Hm1 (Z.min (6 + tier * 2) 12) ltac:(lia)).
    destruct (randomBelow u0 3) as [|[p|p|]|p];
      unfold ArithmeticChallenge.evaluate;
      cbn [ArithmeticChallenge.lhs ArithmeticChallenge.op
           ArithmeticChallenge.rhs ArithmeticChallenge.value];
      (split; [nia | f_equal; lia]).
  - destruct (Hm1 (Z.min (30 + tier * 15) 99) ltac:(lia)).
    destruct (Hm1 (Z.min (8 + tier * 2) 15) ltac:(lia)).
    destruct (randomBelow u0 4) as [|[p|[p|p|]|]|p];
      try (unfold ArithmeticChallenge.evaluate;
           cbn [ArithmeticChallenge.lhs ArithmeticChallenge.op
                ArithmeticChallenge.rhs ArithmeticChallenge.value];
           (split; [nia | f_equal; lia]));
      (cbn [ArithmeticChallenge.value]; split; [lia | apply Hdiv; lia]).
Qed.

(** X22: the problems of the arithmetic game.  For draws in [0, 1), a
    rearranged list of offsets and a problem index that is not negative,
    [generateProblem] succeeds without entering its fallback loop, and the
    problem it makes is sound: the answer is the value of the expression
    shown (a division is exact), it is at least 1, and the four options are
    different numbers, none negative, all within 10 of the answer, the
    answer being one of them.  So exactly one button is right. *)
Theorem X22_arithmetic_problem_is_sound (rand rand' : nat -> Q)
  (shuffled : list Z) (d : Difficulty) (problemIndex : Z) :
  validDraws rand -> validDraws rand' ->
  shuffled ≡ₚ ArithmeticChallenge.offsets -> 0 <= problemIndex ->
  exists q p,
    ArithmeticChallenge.generateProblem 0 rand shuffled rand' d problemIndex
      = Some (q, p) /\
    ArithmeticChallenge.evaluate q = Some (ArithmeticChallenge.answer p) /\
    1 <= ArithmeticChallenge.answer p /\
    length (ArithmeticChallenge.options p) = 4%nat /\
    NoDup (ArithmeticChallenge.options p) /\
    ArithmeticChallenge.answer p ∈ ArithmeticChallenge.options p /\
    length (filter (fun v => v = ArithmeticChallenge.answer p)
              (ArithmeticChallenge.options p)) = 1%nat /\
    Forall (fun v => 0 <= v /\
                     (ArithmeticChallenge.answer p - 10 <= v
                        <= ArithmeticChallenge.answer p + 10))
      (ArithmeticChallenge.options p).
Proof.
  intros Hv Hv' Hp Hpi.
  destruct (Hv 1%nat) as [H10 H11]. destruct (Hv 2%nat) as [H20 H21].
  destruct (pickQuestion_spec d problemIndex (rand 0%nat) (rand 1%nat)
              (rand 2%nat) H10 H11 H20 H21 Hpi) as (Hval & Hev).
  set (q := ArithmeticChallenge.pickQuestion d problemIndex (rand 0%nat)
              (rand 1%nat) (rand 2%nat)) in *.
  destruct (generateDistractors_spec (ArithmeticChallenge.value q) shuffled
              ltac:(lia) Hp) as (ds & Hds & Hlen & Hnd & Hnin & Hr).
  set (opts := shuffle rand' 0 (ArithmeticChallenge.value q :: ds)).
  assert (Hperm : opts ≡ₚ ArithmeticChallenge.value q :: ds)
    by apply shuffle_Permutation.
  exists q, {| ArithmeticChallenge.answer := ArithmeticChallenge.value q;
               ArithmeticChallenge.options := opts |}.
  cbn [ArithmeticChallenge.answer ArithmeticChallenge.options].
  split; [|split; [exact Hev|split; [exact Hval|split; [|split;
    [|split; [|split]]]]]].
  - unfold ArithmeticChallenge.generateProblem. fold q. now rewrite Hds.
  - rewrite Hperm. simpl. now rewrite Hlen.
  - rewrite Hperm. apply NoDup_cons. split; assumption.
  - rewrite Hperm. apply elem_of_cons. now left.
  - rewrite Hperm. rewrite filter_cons, decide_True by reflexivity.
    simpl. f_equal. apply length_zero_iff_nil.
    destruct (filter _ ds) as [|x l] eqn:E; [reflexivity|].
    assert (Hx : x ∈ filter (fun v => v = ArithmeticChallenge.value q) ds)
      by (rewrite E; apply elem_of_cons; now left).
    apply list_elem_of_filter in Hx as [-> Hx]. contradiction.
  - rewrite Hperm. apply Forall_cons. split; [lia | exact Hr].
Qed.

Lemma X22_arithmetic_problem_is_sound_witness :
  let rand := draws [3 # 4; 1 # 2; 9 # 10] in
  let rand' := draws [1 # 2; 1 # 2; 0%Q] in
  let shuffled := [10; -1; -10; 5; 3; -3; 2; -5; 1; -2] in
  ArithmeticChallenge.generateProblem 0 rand shuffled rand' hard 12 =
  Some ({| ArithmeticChallenge.lhs := 96;
           ArithmeticChallenge.op := ArithmeticChallenge.div;
           ArithmeticChallenge.rhs := 8;
           ArithmeticChallenge.value := 12 |},
        {| ArithmeticChallenge.answer := 12;
           ArithmeticChallenge.options := [2; 12; 22; 11] |}) /\
  exists q p,
    ArithmeticChallenge.generateProblem 0 rand shuffled rand' hard 12
      = Some (q, p) /\
    NoDup (ArithmeticChallenge.options p).
Proof.
  intros rand rand' shuffled.
  assert (Hv : validDraws rand).
  { apply validDraws_draws. repeat constructor; discriminate. }
  assert (Hv' : validDraws rand').
  { apply validDraws_draws. repeat constructor; discriminate. }
  assert (Hp : shuffled ≡ₚ ArithmeticChallenge.offsets).
  { apply NoDup_Permutation; [compute_done | compute_done |].
    intros x. unfold shuffled, ArithmeticChallenge.offsets.
    rewrite !elem_of_cons, !elem_of_nil. lia. }
  destruct (X22_arithmetic_problem_is_sound rand rand' shuffled hard 12
              Hv Hv' Hp ltac:(lia)) as (q & p & Hg & _ & _ & _ & Hnd & _).
  split; [vm_compute; reflexivity|].
  exists q, p. split; [exact Hg | exact Hnd].
Defined.

(** ** The trials of the Stroop game *)

Lemma filter_eq_not_elem `{EqDecision A} (c : A) (l : list A) :
  c ∉ l -> filter (fun x => x = c) l = [].
Proof.
  intros Hc. destruct (filter (fun x => x = c) l) as [|x l'] eqn:E;
    [reflexivity|].
  assert (Hx : x ∈ filter (fun x => x = c) l)
    by (rewrite E; apply elem_of_cons; now left).
  apply list_elem_of_filter in Hx as [-> Hx]. contradiction.
Qed.

Lemma NoDup_count_one `{EqDecision A} (c : A) (l : list A) :
  NoDup l -> c ∈ l -> length (filter (fun x => x = c) l) = 1%nat.
Proof.
  intros Hnd Hc. apply list_elem_of_split in Hc as (l1 & l2 & ->).
  apply NoDup_app in Hnd as (_ & Hd & Hnd).
  apply NoDup_cons in Hnd as [Hc2 _].
  rewrite filter_app, filter_cons, decide_True by reflexivity.
  rewrite !filter_eq_not_elem; [reflexivity | exact Hc2 |].
  intros Hc1. apply (Hd c Hc1). apply elem_of_cons. now left.
Qed.

Lemma stroop_others_elem {A} (pool : list A) (w : nat) (x : A) :
  x ∈ (filter (fun p => p.1 <> w) (imap (fun i c => (i, c)) pool)).*2 <->
  exists i, i <> w /\ pool !! i = Some x.
Proof.
  rewrite list_elem_of_fmap. split.
  - intros ([i y] & -> & Hin). apply list_elem_of_filter in Hin as [Hne Hin].
    apply elem_of_lookup_imap in Hin as (j & z & Heq & Hl).
    inversion Heq; subst. exists j. split; [exact Hne | exact Hl].
  - intros (i & Hne & Hl). exists (i, x). split; [reflexivity|].
    apply list_elem_of_filter. split; [exact Hne|].
    apply elem_of_lookup_imap. now exists i, x.
Qed.

Lemma randomBelow_index (u : Q) (n : nat) :
  (0 <= u)%Q -> (u < 1)%Q -> (0 < n)%nat ->
  (Z.to_nat (randomBelow u (Z.of_nat n)) < n)%nat.
Proof.
  intros H0 H1 Hn.
  pose proof (randomBelow_range u (Z.of_nat n) H0 H1 ltac:(lia)). lia.
Qed.

Lemma randomBelow_zero (u : Q) : randomBelow u 0 = 0.
Proof.
  unfold randomBelow.
  rewrite (Qfloor_comp (u * inject_Z 0) 0) by (unfold inject_Z; ring).
  reflexivity.
Qed.

(** X23: the trials of the Stroop game.  With draws in [0, 1) and a pool of
    different colours, [generateTrial] raises exactly when the pool is
    empty, or has one colour and the trial is drawn incongruent.  A trial
    it returns shows a word of the pool, its right answer is the ink, the
    ink differs from the word exactly when the trial was drawn incongruent,
    and its buttons are the colours of the pool (in the order of the pool
    unless positions are shuffled), so that exactly one button is right. *)
Theorem X23_stroop_generateTrial (rand : nat -> Q) (k : nat)
  (pool : list StroopTest.ColorName) (rate : Q) (shufflePos : bool) :
  validDraws rand -> NoDup pool ->
  (StroopTest.generateTrial rand k pool rate shufflePos = None <->
   pool = [] \/ (length pool = 1%nat /\ Qltb (rand k) rate = true)) /\
  (forall t,
     StroopTest.generateTrial rand k pool rate shufflePos = Some t ->
     StroopTest.word t ∈ pool /\
     StroopTest.correctAnswer t = StroopTest.inkColor t /\
     (StroopTest.inkColor t = StroopTest.word t <->
      Qltb (rand k) rate = false) /\
     StroopTest.options t ≡ₚ pool /\
     (shufflePos = false -> StroopTest.options t = pool) /\
     length (filter (fun c => c = StroopTest.correctAnswer t)
               (StroopTest.options t)) = 1%nat).
Proof.
  intros Hv Hnd.
  destruct (Hv (S k)) as [H10 H11]. destruct (Hv (S (S k))) as [H20 H21].
  unfold StroopTest.generateTrial. cbv zeta.
  set (w := Z.to_nat (randomBelow (rand (S k)) (Z.of_nat (length pool)))).
  set (others := (filter (fun p => p.1 <> w)
                    (imap (fun i c => (i, c)) pool)).*2).
  set (j := Z.to_nat (randomBelow (rand (S (S k)))
                        (Z.of_nat (length others)))).
  set (opts := if shufflePos
               then shuffle rand
                      (if Qltb (rand k) rate then S (S (S k)) else S (S k))
                      pool
               else pool).
  assert (Hopts : opts ≡ₚ pool).
  { subst opts. destruct shufflePos; [apply shuffle_Permutation|reflexivity]. }
  assert (Hone : forall c, c ∈ pool ->
            length (filter (fun c' => c' = c) opts) = 1%nat).
  { intros c Hc. rewrite Hopts. now apply NoDup_count_one. }
  destruct (decide (pool = [])) as [Epool|Epool].
  { subst pool. split; [|intros t H; discriminate].
    split; [now left|reflexivity]. }
  assert (Hlen : (0 < length pool)%nat)
    by (destruct pool; [congruence | simpl; lia]).
  assert (Hw : (w < length pool)%nat) by now apply randomBelow_index.
  destruct (lookup_lt_is_Some_2 pool w Hw) as [wc Hwc].
  rewrite Hwc.
  assert (Hwin : wc ∈ pool) by (eapply list_elem_of_lookup_2; exact Hwc).
  destruct (Qltb (rand k) rate) eqn:Einc.
  - (* incongruent *)
    destruct (others !! j) as [ink|] eqn:Eink.
    + split.
      * split; [discriminate|]. intros [H|[H _]]; [congruence|].
        exfalso.
        assert (Hin : ink ∈ others)
          by (eapply list_elem_of_lookup_2; exact Eink).
        apply stroop_others_elem in Hin as (i & Hne & Hi).
        apply lookup_lt_Some in Hi. lia.
      * intros t [= <-]. cbn.
        assert (Hin : ink ∈ others)
          by (eapply list_elem_of_lookup_2; exact Eink).
        apply stroop_others_elem in Hin as (i & Hne & Hi).
        assert (Hinkin : ink ∈ pool)
          by (eapply list_elem_of_lookup_2; exact Hi).
        split; [exact Hwin|]. split; [reflexivity|].
        split; [|split; [exact Hopts|split;
          [intros ->; reflexivity | now apply Hone]]].
        split; [|discriminate]. intros ->. exfalso. apply Hne.
        eapply NoDup_lookup; eauto.
    + split; [|intros t H; discriminate].
      split; [|reflexivity]. intros _. right. split; [|reflexivity].
      destruct (decide (length pool = 1%nat)) as [E|E]; [exact E|exfalso].
      assert (Hex : exists i, i <> w /\ (i < length pool)%nat).
      { destruct w; [exists 1%nat | exists 0%nat]; split; lia. }
      destruct Hex as (i & Hne & Hi).
      destruct (lookup_lt_is_Some_2 pool i Hi) as [x Hx].
      assert (Hin : x ∈ others)
        by (apply stroop_others_elem; now exists i).
      assert (Hol : (0 < length others)%nat).
      { destruct others; [now apply elem_of_nil in Hin | simpl; lia]. }
      assert (Hj : (j < length others)%nat) by now apply randomBelow_index.
      apply lookup_lt_is_Some_2 in Hj as [y Hy]. congruence.
  - (* congruent *)
    split.
    + split; [discriminate|]. intros [H|[_ H]]; [congruence|discriminate].
    + intros t [= <-]. cbn.
      split; [exact Hwin|]. split; [reflexivity|].
      split; [split; reflexivity|].
      split; [exact Hopts|]. split; [intros ->; reflexivity|].
      now apply Hone.
Qed.

Lemma X23_stroop_generateTrial_witness :
  let rand := draws [1 # 2; 3 # 4; 1 # 3; 1 # 2; 0%Q; 9 # 10] in
  StroopTest.generateTrial rand 0 (StroopTest.colorPool hard)
    (StroopTest.incongruentRate hard) true =
  Some {| StroopTest.word := StroopTest.yellow;
          StroopTest.inkColor := StroopTest.blue;
          StroopTest.correctAnswer := StroopTest.blue;
          StroopTest.options :=
            [StroopTest.yellow; StroopTest.blue; StroopTest.red;
             StroopTest.green] |} /\
  StroopTest.generateTrial rand 0 [StroopTest.red]
    (StroopTest.incongruentRate hard) false = None.
Proof.
  intros rand.
  assert (Hv : validDraws rand).
  { apply validDraws_draws. repeat constructor; discriminate. }
  split; [vm_compute; reflexivity|].
  apply (X23_stroop_generateTrial rand 0 [StroopTest.red]
           (StroopTest.incongruentRate hard) false Hv).
  - apply NoDup_singleton.
  - right. split; reflexivity.
Defined.

(** ** The highest score of the Stroop game *)

Lemma bestGains_length (r : nat) : length (StroopTest.bestGains r) = 11%nat.
Proof. destruct r; reflexivity. Qed.

Lemma bestGain_0 (st : Z) : 0 <= st -> StroopTest.bestGain 0 st = 0.
Proof.
  intros Hst. unfold StroopTest.bestGain. cbn [StroopTest.bestGains].
  rewrite lookup_replicate_2 by lia. reflexivity.
Qed.

Lemma bestGain_S (r : nat) (st : Z) :
  0 <= st ->
  StroopTest.bestGain (S r) st =
  Z.max (10 + 5 + StroopTest.streakBonus (st + 1)
         + StroopTest.bestGain r (st + 1))
        (StroopTest.bestGain r 0 - 5).
Proof.
  intros Hst. unfold StroopTest.bestGain at 1.
  cbn [StroopTest.bestGains]. cbv zeta.
  rewrite list_lookup_fmap.
  rewrite (lookup_seqZ_lt 0 11 (Z.to_nat (Z.min st 10))) by lia.
  cbn [fmap option_fmap option_map default].
  unfold StroopTest.bestGain.
  replace (0 + Z.of_nat (Z.to_nat (Z.min st 10))) with (Z.min st 10) by lia.
  replace (Z.min (Z.min st 10 + 1) 10) with (Z.min (st + 1) 10) by lia.
  replace (StroopTest.streakBonus (Z.min st 10 + 1))
    with (StroopTest.streakBonus (st + 1)); [reflexivity|].
  unfold StroopTest.streakBonus.
  destruct (Z.le_gt_cases st 9) as [H|H];
    [now rewrite Z.min_l by lia|].
  rewrite Z.min_r by lia.
  replace (st + 1 =? 10) with false by (symmetry; apply Z.eqb_neq; lia).
  replace (st + 1 =? 5) with false by (symmetry; apply Z.eqb_neq; lia).
  reflexivity.
Qed.

Lemma bestGain_mono (r : nat) :
  forall st, 0 <= st ->
    StroopTest.bestGain r st <= StroopTest.bestGain (S r) st.
Proof.
  induction r as [|r IH]; intros st Hst.
  - rewrite bestGain_S, !bestGain_0 by lia.
    unfold StroopTest.streakBonus.
    destruct (st + 1 =? 10), (st + 1 =? 5); lia.
  - rewrite (bestGain_S (S r)), (bestGain_S r) by lia.
    pose proof (IH (st + 1) ltac:(lia)). pose proof (IH 0 ltac:(lia)). lia.
Qed.

Lemma bestGain_mono_le (r r' : nat) :
  (r <= r')%nat -> StroopTest.bestGain r 0 <= StroopTest.bestGain r' 0.
Proof.
  induction 1 as [|r' _ IH]; [lia|].
  pose proof (bestGain_mono r' 0 ltac:(lia)). lia.
Qed.

Lemma bestGain_nonneg (r : nat) :
  forall st, 0 <= st -> 0 <= StroopTest.bestGain r st.
Proof.
  induction r as [|r IH]; intros st Hst; [now rewrite bestGain_0|].
  pose proof (bestGain_mono r st Hst). pose proof (IH st Hst). lia.
Qed.

Lemma stroop_withinBest_step (d : Difficulty) (s : StroopTest.State)
  (e : StroopTest.Event) :
  StroopTest.withinBest d s -> StroopTest.withinBest d (StroopTest.step d e s).
Proof.
  intros Hinv. destruct e as [c tm|h t' tm]; cbn [StroopTest.step].
  - unfold StroopTest.handleOptionClick.
    destruct (StroopTest.isProcessing s) eqn:Ep; [exact Hinv|].
    destruct Hinv as (Hsc & Href & Hst & Hlog & left & Htot & Hb & Hcase).
    destruct Hcase as [(_ & Hp & Hleft & Hpos)|[(Hp & _)|(Hp & _)]];
      [|congruence|congruence].
    destruct left as [|l]; [lia|].
    rewrite bestGain_S in Hb by exact Hst.
    unfold StroopTest.streakBonus in Hb.
    unfold StroopTest.answersLeft in Hleft.
    set (newScore :=
           if bool_decide (c = StroopTest.correctAnswer (StroopTest.trial s))
           then StroopTest.score s +
                ((if tm - StroopTest.trialStartTime s <=? 2000
                  then 10 + 5 else 10) +
                 (if StroopTest.streak s + 1 =? 10 then 50
                  else if StroopTest.streak s + 1 =? 5 then 20 else 0))
           else Z.max 0 (StroopTest.score s - 5)).
    set (newStreak :=
           if bool_decide (c = StroopTest.correctAnswer (StroopTest.trial s))
           then StroopTest.streak s + 1 else 0).
    assert (Hnew : 0 <= newScore /\ 0 <= newStreak /\
                   newScore + StroopTest.bestGain l newStreak
                     <= StroopTest.maxScore d).
    { subst newScore newStreak. destruct (bool_decide _).
      - split; [|split; [lia|]];
          destruct (tm - StroopTest.trialStartTime s <=? 2000),
            (StroopTest.streak s + 1 =? 10), (StroopTest.streak s + 1 =? 5);
          lia.
      - split; [lia|]. split; [lia|].
        destruct (Z.le_gt_cases 5 (StroopTest.score s)) as [H5|H5].
        + rewrite Z.max_r by lia. lia.
        + rewrite Z.max_l by lia. unfold StroopTest.maxScore.
          pose proof (bestGain_mono_le l
            (Z.to_nat (StroopTest.totalRounds
                         (StroopTest.DIFFICULTY_SETTINGS d)))
            ltac:(lia)). lia. }
    destruct Hnew as (Hn0 & Hns & Hnb).
    unfold Timeouts.setTimeout. rewrite Hp. cbn.
    fold newScore newStreak.
    destruct (StroopTest.totalRounds (StroopTest.DIFFICULTY_SETTINGS d)
                <? StroopTest.roundRef s + 1) eqn:Elast.
    + apply Z.ltb_lt in Elast.
      assert (l = 0%nat) by lia. subst l.
      split; [exact Hn0|]. split; [reflexivity|]. split; [exact Hns|].
      split; [exact Hlog|].
      exists 0%nat. split; [lia|]. split; [exact Hnb|]. right. right.
      split; [reflexivity|]. split; [reflexivity|]. right. eauto.
    + apply Z.ltb_ge in Elast.
      split; [exact Hn0|]. split; [reflexivity|]. split; [exact Hns|].
      split; [exact Hlog|].
      exists l. split; [lia|]. split; [exact Hnb|]. right. left.
      split; [reflexivity|]. split; [eauto|].
      unfold StroopTest.answersLeft. cbn. split; lia.
  - destruct Hinv as (Hsc & Href & Hst & Hlog & left & Htot & Hb & Hcase).
    destruct Hcase as [(Ep & Hp & Hleft & Hpos)|
                       [(Ep & (h0 & Hp) & Hleft & Hpos)|
                        (Ep & -> & [Hp|(h0 & Hp)])]].
    + rewrite (Timeouts_lookup_empty h _ Hp).
      split; [exact Hsc|]. split; [exact Href|]. split; [exact Hst|].
      split; [exact Hlog|].
      exists left. split; [exact Htot|]. split; [exact Hb|]. left. auto.
    + destruct (Timeouts_lookup_pending h _ h0 _ Hp) as [[-> Hr]| ->].
      * cbn. split; [exact Hsc|]. split; [exact Href|]. split; [exact Hst|].
        split; [exact Hlog|].
        exists left. split; [exact Htot|]. split; [exact Hb|]. left.
        split; [reflexivity|]. split; [exact Hr|]. split; assumption.
      * split; [exact Hsc|]. split; [exact Href|]. split; [exact Hst|].
        split; [exact Hlog|].
        exists left. split; [exact Htot|]. split; [exact Hb|].
        right. left. eauto.
    + rewrite (Timeouts_lookup_empty h _ Hp).
      split; [exact Hsc|]. split; [exact Href|]. split; [exact Hst|].
      split; [exact Hlog|].
      exists 0%nat. split; [exact Htot|]. split; [exact Hb|].
      right. right. auto.
    + rewrite bestGain_0 in Hb by exact Hst.
      destruct (Timeouts_lookup_pending h _ h0 _ Hp) as [[-> Hr]| ->].
      * cbn. split; [exact Hsc|]. split; [exact Href|]. split; [exact Hst|].
        split; [apply Forall_app; split; [exact Hlog|];
                apply Forall_singleton; lia|].
        exists 0%nat. split; [exact Htot|].
        split; [rewrite bestGain_0 by exact Hst; exact Hb|].
        right. right. auto.
      * split; [exact Hsc|]. split; [exact Href|]. split; [exact Hst|].
        split; [exact Hlog|].
        exists 0%nat. split; [exact Htot|].
        split; [rewrite bestGain_0 by exact Hst; exact Hb|].
        right. right.
        split; [exact Ep|]. split; [reflexivity|]. right. eauto.
Qed.

Lemma stroop_withinBest_run (d : Difficulty) (t : StroopTest.Trial)
  (now : Z) (es : list StroopTest.Event) :
  StroopTest.withinBest d (StroopTest.run d es (StroopTest.init t now)).
Proof.
  unfold StroopTest.run. apply (foldl_invariant (StroopTest.withinBest d)).
  - split; [cbn; lia|]. split; [reflexivity|]. split; [cbn; lia|].
    split; [constructor|].
    exists (Z.to_nat (StroopTest.totalRounds (StroopTest.DIFFICULTY_SETTINGS d))).
    split; [destruct d; cbn; lia|].
    split; [reflexivity|]. left.
    split; [reflexivity|]. split; [reflexivity|].
    unfold StroopTest.answersLeft. destruct d; cbn; lia.
  - intros s e. apply stroop_withinBest_step.
Qed.

(** X24: the highest score of the Stroop game.  Whatever the player and the
    timers do, the score stays between 0 and the best that the scoring
    rule allows over the rounds of the level: 295, 370 and 495 points, and
    so does every score reported.  These are reached: by answering all
    rounds right at once on easy and normal, and on hard by answering one
    round wrong after ten right ones.  As the table of maxima holds 600,
    800 and 800 for this game, [normalizeScore] gives a Stroop score at
    most 49, 46 and 62 of 100 on the row of its level, and at most 37, 46
    and 62 on the row of the normal level, which the profile page reads. *)
Theorem X24_stroop_highest_score (d : Difficulty) (t : StroopTest.Trial)
  (now : Z) (es : list StroopTest.Event) :
  let s := StroopTest.run d es (StroopTest.init t now) in
  let highest := match d with easy => 295 | normal => 370 | hard => 495 end in
  0 <= StroopTest.score s <= highest /\
  Forall (fun n => 0 <= n <= highest) (StroopTest.onComplete s) /\
  Scoring.normalizeScore stroop d (StroopTest.score s)
    <= match d with easy => 49 | normal => 46 | hard => 62 end /\
  Scoring.normalizeScore stroop normal (StroopTest.score s)
    <= match d with easy => 37 | normal => 46 | hard => 62 end /\
  (forall wrong,
     wrong <> StroopTest.correctAnswer t ->
     StroopTest.onComplete
       (StroopTest.run d
          (StroopTest.playThrough t
             (StroopTest.bestAnswers d (StroopTest.correctAnswer t) wrong))
          (StroopTest.init t 0)) = [highest]).
Proof.
  intros s highest.
  pose proof (stroop_withinBest_run d t now es) as Hinv. fold s in Hinv.
  destruct Hinv as (Hsc & _ & Hst & Hlog & left & _ & Hb & _).
  assert (Hmax : StroopTest.maxScore d = highest)
    by (destruct d; vm_compute; reflexivity).
  rewrite Hmax in Hb, Hlog.
  assert (Hle : StroopTest.score s <= highest)
    by (pose proof (bestGain_nonneg left _ Hst); lia).
  split; [split; assumption|]. split; [exact Hlog|].
  split; [|split].
  - etransitivity; [apply normalizeScore_mono; exact Hle|].
    subst highest. destruct d; vm_compute; discriminate.
  - etransitivity; [apply normalizeScore_mono; exact Hle|].
    subst highest. destruct d; vm_compute; discriminate.
  - intros wrong Hw. destruct t as [w i c o].
    cbn [StroopTest.correctAnswer] in Hw |- *. subst highest.
    destruct d, c, wrong; try (exfalso; apply Hw; reflexivity);
      vm_compute; reflexivity.
Qed.

(** ** The words of a sorting session *)

Lemma shuffle_length {A} (rand : nat -> Q) (k : nat) (l : list A) :
  length (shuffle rand k l) = length l.
Proof. apply Permutation_length, shuffle_Permutation. Qed.

Lemma shuffle_NoDup {A} (rand : nat -> Q) (k : nat) (l : list A) :
  NoDup l -> NoDup (shuffle rand k l).
Proof. intros H. now rewrite shuffle_Permutation. Qed.

Lemma take_NoDup {A} (n : nat) (l : list A) : NoDup l -> NoDup (take n l).
Proof. intros H. eapply sublist_NoDup; [exact H | apply sublist_take]. Qed.

Lemma elem_of_take_elem {A} (n : nat) (l : list A) (x : A) :
  x ∈ take n l -> x ∈ l.
Proof.
  intros H. apply elem_of_take in H as (i & Hi & _).
  eapply list_elem_of_lookup_2; exact Hi.
Qed.

Lemma wordSort_block (rand : nat -> Q) (wpc k : nat) (c : WordSort.Category) :
  let B := (fun text => (c, text)) <$>
             take wpc (shuffle rand k WordSort.bankRow) in
  length B = (wpc `min` 8)%nat /\ NoDup B /\
  Forall (fun w => w.1 = c /\ (w.2 < 8)%nat) B.
Proof.
  intros B. subst B. split; [|split].
  - rewrite length_fmap, length_take, shuffle_length. reflexivity.
  - apply NoDup_fmap_2; [intros x y [= ->]; reflexivity|].
    apply take_NoDup, shuffle_NoDup, NoDup_seq.
  - apply Forall_forall. intros w Hw.
    apply list_elem_of_fmap in Hw as (x & -> & Hx). split; [reflexivity|].
    apply elem_of_take_elem in Hx. rewrite shuffle_Permutation in Hx.
    apply elem_of_seq in Hx. simpl. lia.
Qed.

Lemma wordSort_filter_other (c : WordSort.Category)
  (W : list (WordSort.Category * nat)) :
  Forall (fun w => w.1 <> c) W -> filter (fun w => w.1 = c) W = [].
Proof.
  induction 1 as [|w W Hw _ IH]; [reflexivity|].
  now rewrite filter_cons_False.
Qed.

Lemma wordSort_filter_same (c : WordSort.Category)
  (W : list (WordSort.Category * nat)) :
  Forall (fun w => w.1 = c) W -> filter (fun w => w.1 = c) W = W.
Proof.
  induction 1 as [|w W Hw _ IH]; [reflexivity|].
  rewrite filter_cons_True by exact Hw. now rewrite IH.
Qed.

Lemma collectWords_fold (rand : nat -> Q) (wpc : nat)
  (cats : list WordSort.Category) :
  NoDup cats ->
  forall acc k, exists W k',
    foldl (WordSort.collectWords rand wpc) (acc, k) cats = (acc ++ W, k') /\
    length W = (length cats * (wpc `min` 8))%nat /\
    NoDup W /\
    Forall (fun w => w.1 ∈ cats /\ (w.2 < 8)%nat) W /\
    (forall c, c ∈ cats ->
       length (filter (fun w => w.1 = c) W) = (wpc `min` 8)%nat).
Proof.
  induction 1 as [|c cats Hc Hnd IH]; intros acc k.
  - exists [], k. rewrite app_nil_r. repeat split; try constructor.
    intros c Hc. now apply elem_of_nil in Hc.
  - cbn [foldl]. unfold WordSort.collectWords at 2.
    set (B := (fun text => (c, text)) <$>
                take wpc (shuffle rand k WordSort.bankRow)).
    destruct (wordSort_block rand wpc k c) as (HBl & HBn & HBf). fold B in HBl, HBn, HBf.
    destruct (IH (acc ++ B) (k + (length WordSort.bankRow - 1))%nat)
      as (W & k' & Hf & Hl & Hn & Hfa & Hcount).
    exists (B ++ W), k'. split; [rewrite Hf; now rewrite <- (assoc_L (++))|].
    assert (HWc : Forall (fun w => w.1 <> c) W).
    { eapply Forall_impl; [exact Hfa|]. intros w [Hw _] E. congruence. }
    split; [rewrite length_app, HBl, Hl; simpl; lia|].
    split; [|split].
    + apply NoDup_app. split; [exact HBn|]. split; [|exact Hn].
      intros w HwB HwW.
      rewrite Forall_forall in HBf. rewrite Forall_forall in HWc.
      destruct (HBf w HwB) as [E _]. exact (HWc w HwW E).
    + apply Forall_app. split.
      * eapply Forall_impl; [exact HBf|]. intros w [-> Hw].
        split; [apply elem_of_cons; now left | exact Hw].
      * eapply Forall_impl; [exact Hfa|]. intros w [Hw Hw'].
        split; [apply elem_of_cons; now right | exact Hw'].
    + intros c' Hc'. rewrite filter_app, length_app.
      apply elem_of_cons in Hc' as [->|Hc'].
      * rewrite wordSort_filter_same
          by (eapply Forall_impl; [exact HBf|]; now intros w [E _]).
        rewrite wordSort_filter_other by exact HWc.
        rewrite HBl. simpl. lia.
      * rewrite (wordSort_filter_other c' B).
        -- simpl. now apply Hcount.
        -- eapply Forall_impl; [exact HBf|]. intros w [-> _] ->.
           contradiction.
Qed.

(** X25: the words of a sorting session.  For draws in [0, 1), [initGame]
    selects [categoryCount] different categories (all six if more are asked
    for) and, of each, [wordsPerCategory] different words of its row (all
    eight if more are asked for): the session has that many words of every
    selected category, none of another, and no word twice.  The levels
    therefore play 12, 18 and 24 words. *)
Theorem X25_wordSort_initGame (rand : nat -> Q)
  (categoryCount wordsPerCategory : nat) :
  validDraws rand ->
  let '(categories, words) :=
    WordSort.initGame rand categoryCount wordsPerCategory in
  length categories = (categoryCount `min` 6)%nat /\
  NoDup categories /\
  length words =
    ((categoryCount `min` 6) * (wordsPerCategory `min` 8))%nat /\
  NoDup words /\
  Forall (fun w => w.1 ∈ categories /\ (w.2 < 8)%nat) words /\
  (forall c, c ∈ categories ->
     length (filter (fun w => w.1 = c) words)
       = (wordsPerCategory `min` 8)%nat) /\
  (forall d,
     categoryCount = WordSort.categoryCount (WordSort.DIFFICULTY_SETTINGS d) ->
     wordsPerCategory =
       WordSort.wordsPerCategory (WordSort.DIFFICULTY_SETTINGS d) ->
     length (WordSort.gameWordsOf words) =
       match d with easy => 12 | normal => 18 | hard => 24 end%nat).
Proof.
  intros _. unfold WordSort.initGame. cbv zeta.
  set (cats := take categoryCount (shuffle rand 0 WordSort.allCategories)).
  assert (Hcl : length cats = (categoryCount `min` 6)%nat).
  { subst cats. now rewrite length_take, shuffle_length. }
  assert (Hcn : NoDup cats).
  { subst cats. apply take_NoDup, shuffle_NoDup. compute_done. }
  destruct (collectWords_fold rand wordsPerCategory cats Hcn []
              (length WordSort.allCategories - 1)%nat)
    as (W & k' & Hf & Hl & Hn & Hfa & Hcount).
  rewrite Hf. cbn [app].
  assert (Hp : shuffle rand k' W ≡ₚ W) by apply shuffle_Permutation.
  split; [exact Hcl|]. split; [exact Hcn|].
  assert (Hlen : length (shuffle rand k' W) =
                 ((categoryCount `min` 6) * (wordsPerCategory `min` 8))%nat)
    by (rewrite Hp, Hl, Hcl; reflexivity).
  split; [exact Hlen|]. split; [now rewrite Hp|].
  split; [now rewrite Hp|]. split.
  - intros c Hc. rewrite Hp. now apply Hcount.
  - intros d -> ->. unfold WordSort.gameWordsOf.
    rewrite length_fmap, Hlen. destruct d; reflexivity.
Qed.

Lemma X25_wordSort_initGame_witness :
  let rand := draws [1 # 2; 1 # 3; 0%Q; 9 # 10; 1 # 4; 3 # 4; 1 # 5; 2 # 3] in
  WordSort.initGame rand 2 1 =
    ([WordSort.emotionManagement; WordSort.sleepHealth],
     [(WordSort.sleepHealth, 1%nat); (WordSort.emotionManagement, 7%nat)]) /\
  let '(categories, words) := WordSort.initGame rand 2 1 in
  length words = 2%nat /\ NoDup words.
Proof.
  intros rand.
  assert (Hv : validDraws rand).
  { apply validDraws_draws. repeat constructor; discriminate. }
  pose proof (X25_wordSort_initGame rand 2 1 Hv) as H.
  split; [vm_compute; reflexivity|].
  destruct (WordSort.initGame rand 2 1) as [categories words].
  destruct H as (_ & _ & Hl & Hn & _). split; [exact Hl | exact Hn].
Defined.

(** ** The highest score of the sorting game *)

Lemma wordSort_potential_right_eq (sc st left : Z) :
  0 <= st -> 0 < left ->
  WordSort.potential
    (sc + (if (3 <=? st + 1) && ((st + 1) mod 3 =? 0) then 10 + 15 else 10))
    (st + 1) (left - 1)
  = WordSort.potential sc st left.
Proof.
  intros Hst Hl. unfold WordSort.potential.
  destruct (3 <=? st + 1) eqn:E1; [apply Z.leb_le in E1|apply Z.leb_gt in E1];
    (destruct ((st + 1) mod 3 =? 0) eqn:E2;
     [apply Z.eqb_eq in E2|apply Z.eqb_neq in E2]); cbn [andb];
    Z.div_mod_to_equations; lia.
Qed.

Lemma wordSort_potential_right (sc st left : Z) :
  0 <= st -> 0 < left ->
  WordSort.potential
    (sc + (if (3 <=? st + 1) && ((st + 1) mod 3 =? 0) then 10 + 15 else 10))
    (st + 1) (left - 1)
  <= WordSort.potential sc st left.
Proof. intros Hst Hl. now rewrite wordSort_potential_right_eq. Qed.

Lemma wordSort_potential_wrong (sc st left : Z) :
  0 <= st -> 0 < left ->
  WordSort.potential (sc - 5) 0 (left - 1) <= WordSort.potential sc st left.
Proof.
  intros Hst Hl. unfold WordSort.potential.
  Z.div_mod_to_equations; lia.
Qed.

Lemma wordSort_potential_ge (sc st left : Z) :
  0 <= left -> sc <= WordSort.potential sc st left.
Proof.
  intros Hl. unfold WordSort.potential. Z.div_mod_to_equations; lia.
Qed.

Lemma wordSort_maxScore_nonneg (n : Z) : 0 <= n -> 0 <= WordSort.maxScore n.
Proof. intros H. unfold WordSort.maxScore. Z.div_mod_to_equations; lia. Qed.

(** A step that leaves the answering alone keeps the bound. *)
Lemma wordSort_withinBest_frame (ws : list WordSort.WordItem)
  (s s' : WordSort.State) :
  WordSort.gameWords s' = WordSort.gameWords s ->
  WordSort.streak s' = WordSort.streak s ->
  WordSort.score s' = WordSort.score s ->
  WordSort.currentIndex s' = WordSort.currentIndex s ->
  WordSort.isProcessing s' = WordSort.isProcessing s ->
  WordSort.timeouts s' = WordSort.timeouts s ->
  (WordSort.gameOverRef s = true -> WordSort.gameOverRef s' = true) ->
  (WordSort.onComplete s' = WordSort.onComplete s \/
   WordSort.onComplete s' =
     WordSort.onComplete s ++ [Z.max 0 (WordSort.score s)]) ->
  WordSort.withinBest ws s -> WordSort.withinBest ws s'.
Proof.
  intros Ew Est Esc Eci Ep Et Hgo Hlog (Hw & Hst & Hsc & Hl & Hcase).
  unfold WordSort.withinBest. cbv zeta.
  rewrite Ew, Est, Esc, Eci, Ep, Et.
  split; [exact Hw|]. split; [exact Hst|]. split; [exact Hsc|]. split.
  - destruct Hlog as [->| ->]; [exact Hl|].
    apply Forall_app. split; [exact Hl|]. apply Forall_singleton.
    pose proof (wordSort_maxScore_nonneg (Z.of_nat (length ws))
                  ltac:(lia)). lia.
  - destruct Hcase as [Hover|Hcase]; [left; auto|].
    destruct (WordSort.gameOverRef s'); [now left | now right].
Qed.

Lemma wordSort_withinBest_effects (ws : list WordSort.WordItem)
  (s : WordSort.State) :
  WordSort.withinBest ws s -> WordSort.withinBest ws (WordSort.effects s).
Proof.
  apply wordSort_withinBest_frame; unfold WordSort.effects, WordSort.endGame;
    destruct (WordSort.timeLeft s) as [t|];
    repeat match goal with
           | |- context [if ?b then _ else _] => destruct b eqn:?
           end; cbn in *; auto; try congruence.
Qed.

Lemma wordSort_withinBest_step (ws : list WordSort.WordItem)
  (s : WordSort.State) (e : WordSort.Event) :
  WordSort.withinBest ws s -> WordSort.withinBest ws (WordSort.step e s).
Proof.
  intros Hinv. unfold WordSort.step. apply wordSort_withinBest_effects.
  destruct e as [c| |h].
  - unfold WordSort.handleCategoryClick.
    destruct (WordSort.isProcessing s || WordSort.gameOverRef s ||
              WordSort.gameOver s) eqn:Eg; [exact Hinv|].
    apply orb_false_iff in Eg as [Eg Ego].
    apply orb_false_iff in Eg as [Ep Egr].
    destruct (length (WordSort.gameWords s) <=? WordSort.currentIndex s)%nat
      eqn:Ei; [exact Hinv|].
    apply Nat.leb_gt in Ei.
    destruct (WordSort.gameWords s !! WordSort.currentIndex s) as [w|];
      [|exact Hinv].
    destruct Hinv as (Hw & Hst & Hsc & Hl & Hcase).
    destruct Hcase as [Hover|(left & Hpot & Hcase)]; [congruence|].
    destruct Hcase as [(_ & Hp & Hleft)|(Hp' & _)]; [|congruence].
    rewrite Hw in Ei.
    destruct left as [|l]; [lia|].
    pose proof (wordSort_potential_right (WordSort.score s)
                  (WordSort.streak s) (Z.of_nat (S l)) Hst ltac:(lia)) as HR.
    pose proof (wordSort_potential_wrong (WordSort.score s)
                  (WordSort.streak s) (Z.of_nat (S l)) Hst ltac:(lia)) as HW.
    replace (Z.of_nat (S l) - 1) with (Z.of_nat l) in HR, HW by lia.
    unfold Timeouts.setTimeout. rewrite Hp.
    destruct (bool_decide (c = WordSort.category w)).
    + unfold WordSort.withinBest. cbn.
      set (points := if (3 <=? WordSort.streak s + 1) &&
                        ((WordSort.streak s + 1) mod 3 =? 0)
                     then 10 + 15 else 10) in *.
      pose proof (wordSort_potential_ge (WordSort.score s + points)
                    (WordSort.streak s + 1) (Z.of_nat l) ltac:(lia)).
      split; [exact Hw|]. split; [lia|].
      split; [unfold WordSort.maxScore in *; lia|]. split; [exact Hl|].
      right. exists l. split; [lia|]. right.
      split; [reflexivity|]. split; [eauto|lia].
    + unfold WordSort.withinBest. cbn.
      pose proof (wordSort_potential_ge (WordSort.score s - 5) 0
                    (Z.of_nat l) ltac:(lia)).
      split; [exact Hw|]. split; [lia|].
      split; [unfold WordSort.maxScore in *; lia|]. split; [exact Hl|].
      right. exists l. split; [lia|]. right.
      split; [reflexivity|]. split; [eauto|lia].
  - revert Hinv. apply wordSort_withinBest_frame; unfold WordSort.tick;
      destruct (WordSort.timeLeft s) as [t|];
      try destruct ((0 <? t) && negb (WordSort.gameOverRef s));
      cbn; auto.
  - destruct Hinv as (Hw & Hst & Hsc & Hl & Hcase).
    destruct (Timeouts.lookup h (WordSort.timeouts s)) as [[ci]|] eqn:El;
      [|repeat split; assumption].
    destruct Hcase as [Hover|(left & Hpot & Hcase)].
    { unfold WordSort.withinBest. cbn. rewrite Hover.
      repeat split; try assumption. left.
      now destruct (_ <=? _)%nat. }
    destruct Hcase as [(Ep & Hp & Hleft)|(Ep & (h0 & Hp) & Hleft)].
    { rewrite (Timeouts_lookup_empty h _ Hp) in El. discriminate. }
    destruct (Timeouts_lookup_pending h _ h0 _ Hp) as [[El' Hr]|El'];
      [|congruence].
    rewrite El in El'. injection El' as ->.
    unfold WordSort.withinBest. cbn. rewrite Hw.
    split; [reflexivity|]. split; [exact Hst|]. split; [exact Hsc|].
    split; [exact Hl|].
    destruct (length ws <=? S (WordSort.currentIndex s))%nat eqn:Eo;
      [now left|]. apply Nat.leb_gt in Eo.
    right. exists left. split; [exact Hpot|]. left.
    split; [reflexivity|]. split; [exact Hr|lia].
Qed.

Lemma wordSort_withinBest_run (d : Difficulty)
  (ws : list WordSort.WordItem) (es : list WordSort.Event) :
  WordSort.withinBest ws (WordSort.run es (WordSort.init d ws)).
Proof.
  unfold WordSort.run. apply (foldl_invariant (WordSort.withinBest ws)).
  - unfold WordSort.withinBest. cbn.
    pose proof (wordSort_maxScore_nonneg (Z.of_nat (length ws)) ltac:(lia)).
    split; [reflexivity|]. split; [lia|]. split; [lia|].
    split; [constructor|]. right. exists (length ws). split.
    + unfold WordSort.potential, WordSort.maxScore.
      rewrite Z.mod_0_l by lia. rewrite Z.add_0_r. lia.
    + left. split; [reflexivity|]. split; [reflexivity|lia].
  - intros s e. apply wordSort_withinBest_step.
Qed.

(** A right answer and its feedback timeout, while words remain. *)
Lemma wordSort_perfect_pair (pre rest : list WordSort.WordItem)
  (w : WordSort.WordItem) (s : WordSort.State) :
  WordSort.gameWords s = pre ++ w :: rest ->
  WordSort.currentIndex s = length pre ->
  WordSort.isProcessing s = false ->
  WordSort.gameOverRef s = false ->
  WordSort.gameOver s = false ->
  WordSort.completedRef s = false ->
  WordSort.timeouts s =
    {| Timeouts.pending := []; Timeouts.nextHandle := S (length pre) |} ->
  (forall t, WordSort.timeLeft s = Some t -> 0 < t) ->
  WordSort.onComplete s = [] ->
  let points :=
    if (3 <=? WordSort.streak s + 1) && ((WordSort.streak s + 1) mod 3 =? 0)
    then 10 + 15 else 10 in
  let s' :=
    WordSort.step (WordSort.Fire (S (length pre)))
      (WordSort.step (WordSort.CategoryClick (WordSort.category w)) s) in
  WordSort.score s' = WordSort.score s + points /\
  WordSort.streak s' = WordSort.streak s + 1 /\
  WordSort.gameWords s' = (pre ++ [w]) ++ rest /\
  WordSort.timeLeft s' = WordSort.timeLeft s /\
  if decide (rest = []) then
    WordSort.onComplete s' = [Z.max 0 (WordSort.score s + points)]
  else
    WordSort.currentIndex s' = length (pre ++ [w]) /\
    WordSort.isProcessing s' = false /\
    WordSort.gameOverRef s' = false /\
    WordSort.gameOver s' = false /\
    WordSort.completedRef s' = false /\
    WordSort.timeouts s' =
      {| Timeouts.pending := [];
         Timeouts.nextHandle := S (length (pre ++ [w])) |} /\
    WordSort.onComplete s' = [].
Proof.
  intros Hw Hi Hp Hgr Hg Hc Ht Htl Hlog points s'.
  destruct s as [gw ci sc st cc fb tl go ip gor cr tq log].
  cbn in Hw, Hi, Hp, Hgr, Hg, Hc, Ht, Htl, Hlog, points. subst.
  eassert (Es : s' = _).
  { subst s'. unfold WordSort.step at 2.
    unfold WordSort.handleCategoryClick.
    cbn [WordSort.isProcessing WordSort.gameOverRef WordSort.gameOver orb
         WordSort.gameWords WordSort.currentIndex].
    replace (length (pre ++ w :: rest) <=? length pre)%nat with false
      by (symmetry; apply Nat.leb_gt; rewrite length_app; simpl; lia).
    rewrite list_lookup_middle by reflexivity.
    rewrite bool_decide_eq_true_2 by reflexivity.
    cbn [WordSort.timeouts Timeouts.setTimeout Timeouts.pending
         Timeouts.nextHandle app WordSort.streak WordSort.score].
    fold points.
    rewrite wordSort_effects_idle by (cbn; auto).
    unfold WordSort.step. cbn [WordSort.timeouts].
    rewrite Timeouts_lookup_singleton, decide_True by reflexivity.
    unfold WordSort.afterFeedback, WordSort.setTimeouts, Timeouts.remove.
    cbn [WordSort.gameWords WordSort.currentIndex WordSort.score
         WordSort.streak WordSort.correctCount WordSort.feedback
         WordSort.timeLeft WordSort.gameOver WordSort.isProcessing
         WordSort.gameOverRef WordSort.completedRef WordSort.timeouts
         WordSort.onComplete Timeouts.pending Timeouts.nextHandle].
    rewrite filter_cons_False by (cbn; intros H; now apply H).
    rewrite filter_nil. reflexivity. }
  clearbody s'. subst s'.
  assert (Eapp : pre ++ w :: rest = (pre ++ [w]) ++ rest)
    by now rewrite <- (assoc_L (++)).
  assert (Elen : length (pre ++ [w]) = S (length pre))
    by (rewrite length_app; simpl; lia).
  rewrite Elen.
  destruct rest as [|w' rest].
  - replace (length (pre ++ [w]) <=? S (length pre))%nat with true
      by (symmetry; apply Nat.leb_le; lia).
    rewrite decide_True by reflexivity.
    unfold WordSort.effects, WordSort.endGame.
    destruct tl as [t|];
      cbn [WordSort.timeLeft WordSort.gameOverRef WordSort.gameOver
           WordSort.completedRef negb andb];
      [rewrite (bool_decide_eq_false_2 (Some t = Some 0))
         by (intros [= ->]; specialize (Htl 0 eq_refl); lia)
      |rewrite bool_decide_eq_false_2 by discriminate];
      cbn; rewrite app_nil_r; repeat split.
  - replace (length (pre ++ w :: w' :: rest) <=? S (length pre))%nat
      with false
      by (symmetry; apply Nat.leb_gt; rewrite length_app; simpl; lia).
    rewrite decide_False by discriminate.
    rewrite wordSort_effects_idle by (cbn; auto).
    cbn. repeat split. exact Eapp.
Qed.

Lemma wordSort_run_cons2 (a b : WordSort.Event) (l : list WordSort.Event)
  (s : WordSort.State) :
  WordSort.run (a :: b :: l) s =
  WordSort.run l (WordSort.step b (WordSort.step a s)).
Proof. reflexivity. Qed.

Lemma wordSort_perfect_run (rest : list WordSort.WordItem) :
  forall (pre : list WordSort.WordItem) (s : WordSort.State),
  WordSort.gameWords s = pre ++ rest ->
  WordSort.currentIndex s = length pre ->
  WordSort.isProcessing s = false ->
  WordSort.gameOverRef s = false ->
  WordSort.gameOver s = false ->
  WordSort.completedRef s = false ->
  WordSort.timeouts s =
    {| Timeouts.pending := []; Timeouts.nextHandle := S (length pre) |} ->
  (forall t, WordSort.timeLeft s = Some t -> 0 < t) ->
  WordSort.onComplete s = [] ->
  0 <= WordSort.streak s -> rest <> [] ->
  WordSort.onComplete
    (WordSort.run
       (mjoin (imap (fun j w => [WordSort.CategoryClick (WordSort.category w);
                                 WordSort.Fire (S (length pre + j))]) rest))
       s)
  = [Z.max 0 (WordSort.potential (WordSort.score s) (WordSort.streak s)
                (Z.of_nat (length rest)))].
Proof.
  induction rest as [|w rest IH];
    intros pre s Hw Hi Hp Hgr Hg Hc Ht Htl Hlog Hst Hne; [congruence|].
  rewrite imap_cons. cbn [mjoin list_join app].
  rewrite Nat.add_0_r.
  rewrite wordSort_run_cons2.
  destruct (wordSort_perfect_pair pre rest w s Hw Hi Hp Hgr Hg Hc Ht Htl Hlog)
    as (Esc & Est & Egw & Etl & Hrest).
  set (s' := WordSort.step (WordSort.Fire (S (length pre)))
               (WordSort.step
                  (WordSort.CategoryClick (WordSort.category w)) s)) in *.
  rewrite <- (wordSort_potential_right_eq (WordSort.score s)
                (WordSort.streak s) (Z.of_nat (length (w :: rest))))
    by (simpl; lia).
  replace (Z.of_nat (length (w :: rest)) - 1) with (Z.of_nat (length rest))
    by (simpl; lia).
  rewrite <- Esc, <- Est.
  destruct (decide (rest = [])) as [->|Hne'].
  - cbn. rewrite Hrest. unfold WordSort.potential. cbn [length].
    rewrite Esc. do 2 f_equal.
    assert (0 <= WordSort.streak s' mod 3 < 3)
      by (apply Z.mod_pos_bound; lia).
    replace ((Z.of_nat 0 + WordSort.streak s' mod 3) / 3) with 0
      by (symmetry; apply Z.div_small; lia).
    lia.
  - destruct Hrest as (Hi' & Hp' & Hgr' & Hg' & Hc' & Ht' & Hlog').
    rewrite <- (IH (pre ++ [w]) s'); try assumption.
    + do 3 f_equal. apply imap_ext. intros j x _. cbn.
      rewrite length_app. cbn [length]. do 3 f_equal. lia.
    + intros t E. apply Htl. now rewrite <- Etl.
    + lia.
Qed.

(** X26: the highest score of the sorting game.  Over [n] words the score
    never exceeds [10 n + 15 (n / 3)] and every score reported lies between
    0 and that; a game without a mistake reports exactly that.  For the
    12, 18 and 24 words of the levels it makes 180, 270 and 360 points.
    As the table of maxima holds 400, 600 and 800 for this game,
    [normalizeScore] gives a reported score at most 45 of 100 on the row of
    its level, and at most 30, 45 and 60 on the row of the normal level,
    which the profile page reads. *)
Theorem X26_wordSort_highest_score (d : Difficulty)
  (ws : list WordSort.WordItem) (es : list WordSort.Event) :
  let s := WordSort.run es (WordSort.init d ws) in
  let n := Z.of_nat (length ws) in
  WordSort.score s <= 10 * n + 15 * (n / 3) /\
  Forall (fun r => 0 <= r <= 10 * n + 15 * (n / 3)) (WordSort.onComplete s) /\
  (ws <> [] ->
   WordSort.onComplete
     (WordSort.run (WordSort.playThrough ws) (WordSort.init d ws))
     = [10 * n + 15 * (n / 3)]) /\
  (length ws =
     (WordSort.categoryCount (WordSort.DIFFICULTY_SETTINGS d) *
      WordSort.wordsPerCategory (WordSort.DIFFICULTY_SETTINGS d))%nat ->
   10 * n + 15 * (n / 3) =
     match d with easy => 180 | normal => 270 | hard => 360 end /\
   Forall (fun r =>
             Scoring.normalizeScore wordSort d r <= 45 /\
             Scoring.normalizeScore wordSort normal r
               <= match d with easy => 30 | normal => 45 | hard => 60 end)
     (WordSort.onComplete s)).
Proof.
  intros s n.
  pose proof (wordSort_withinBest_run d ws es) as Hinv. fold s in Hinv.
  destruct Hinv as (_ & _ & Hsc & Hl & _).
  fold n in Hsc, Hl. unfold WordSort.maxScore in Hsc, Hl.
  split; [exact Hsc|]. split; [exact Hl|]. split.
  - intros Hne. unfold WordSort.playThrough.
    change (fun (i : nat) (w : WordSort.WordItem) =>
              [WordSort.CategoryClick (WordSort.category w);
               WordSort.Fire (S i)])
      with (fun (j : nat) (w : WordSort.WordItem) =>
              [WordSort.CategoryClick (WordSort.category w);
               WordSort.Fire (S (length (@nil WordSort.WordItem) + j))]).
    rewrite (wordSort_perfect_run ws [] (WordSort.init d ws));
      try reflexivity; try exact Hne;
      try (destruct d; cbn; intros t [= <-]; lia); try (cbn; lia).
    cbn [WordSort.init WordSort.score WordSort.streak].
    unfold WordSort.potential. fold n.
    rewrite Z.mod_0_l, Z.add_0_r by lia.
    f_equal. apply Z.max_r. subst n. Z.div_mod_to_equations; lia.
  - intros Hlen.
    assert (Hmax : 10 * n + 15 * (n / 3) =
                   match d with easy => 180 | normal => 270 | hard => 360 end).
    { subst n. rewrite Hlen. destruct d; reflexivity. }
    split; [exact Hmax|].
    eapply Forall_impl; [exact Hl|]. cbv beta. intros r [_ Hr].
    split; (etransitivity; [apply normalizeScore_mono; exact Hr|]);
      rewrite Hmax; destruct d; vm_compute; discriminate.
Qed.

(** ** The deck of the matching game *)

Lemma length_filter_fmap {A B} `{EqDecision B} (f : A -> B) (x : B)
  (l : list A) :
  length (filter (fun a => f a = x) l) =
  length (filter (fun b => b = x) (f <$> l)).
Proof.
  induction l as [|a l IH]; [reflexivity|].
  rewrite fmap_cons, !filter_cons.
  destruct (decide (f a = x)); simpl; now rewrite IH.
Qed.

(** X3: the deck of the matching game.  For draws in [0, 1),
    [createCards(pairs)] deals two cards for each of [pairs] different
    icons (of all twelve icons if more are asked for): the card at position
    [i] has id [i], every card lies face down and unmatched, and the icon
    of every card is on exactly two cards. *)
Theorem X3_memoryMatch_createCards (rand : nat -> Q) (pairs : Z) :
  validDraws rand ->
  let cards := MemoryMatch.createCards rand pairs in
  length cards = (2 * (Z.to_nat pairs `min` 12))%nat /\
  (forall i c, cards !! i = Some c ->
     MemoryMatch.id c = i /\ MemoryMatch.flipped c = false /\
     MemoryMatch.matched c = false /\ (MemoryMatch.icon c < 12)%nat /\
     length (filter (fun c' => MemoryMatch.icon c' = MemoryMatch.icon c)
               cards) = 2%nat) /\
  (exists icons,
     NoDup icons /\ length icons = (Z.to_nat pairs `min` 12)%nat /\
     (MemoryMatch.icon <$> cards) ≡ₚ icons ++ icons).
Proof.
  intros _ cards. subst cards. unfold MemoryMatch.createCards. cbv zeta.
  set (icons := take (Z.to_nat pairs) (shuffle rand 0 MemoryMatch.CARD_ICONS)).
  set (shuffled := shuffle rand (length MemoryMatch.CARD_ICONS - 1)
                     (icons ++ icons)).
  set (cards := imap _ shuffled).
  assert (Hil : length icons = (Z.to_nat pairs `min` 12)%nat).
  { subst icons. now rewrite length_take, shuffle_length. }
  assert (Hin : NoDup icons).
  { subst icons. apply take_NoDup, shuffle_NoDup, NoDup_seq. }
  assert (Hib : forall x, x ∈ icons -> (x < 12)%nat).
  { intros x Hx. subst icons. apply elem_of_take_elem in Hx.
    rewrite shuffle_Permutation in Hx. apply elem_of_seq in Hx. lia. }
  assert (Hp : shuffled ≡ₚ icons ++ icons) by apply shuffle_Permutation.
  assert (Hfm : MemoryMatch.icon <$> cards = shuffled).
  { subst cards. rewrite fmap_imap. unfold compose. cbn.
    clear. generalize shuffled. intros l.
    change (imap (fun (_ : nat) (x : nat) => x) l) with (imap (const id) l).
    now rewrite imap_const, list_fmap_id. }
  split; [|split].
  - subst cards. rewrite length_imap, Hp, length_app, Hil. lia.
  - intros i c Hc. subst cards.
    apply list_lookup_imap_Some in Hc as (x & Hx & ->). cbn.
    split; [reflexivity|]. split; [reflexivity|]. split; [reflexivity|].
    assert (Hxi : x ∈ icons).
    { apply list_elem_of_lookup_2 in Hx. rewrite Hp in Hx.
      apply elem_of_app in Hx. tauto. }
    split; [now apply Hib|].
    rewrite length_filter_fmap. fold (imap (fun index icon =>
      {| MemoryMatch.id := index; MemoryMatch.icon := icon;
         MemoryMatch.flipped := false; MemoryMatch.matched := false |})
      shuffled).
    change (imap _ shuffled) with
      (imap (fun index icon =>
         {| MemoryMatch.id := index; MemoryMatch.icon := icon;
            MemoryMatch.flipped := false; MemoryMatch.matched := false |})
         shuffled) in Hfm.
    rewrite Hfm, Hp, filter_app, length_app.
    rewrite (NoDup_count_one x icons Hin Hxi). reflexivity.
  - exists icons. split; [exact Hin|]. split; [exact Hil|].
    now rewrite Hfm.
Qed.

Lemma X3_memoryMatch_createCards_witness :
  let rand := draws [1 # 2; 1 # 3; 0%Q; 9 # 10; 1 # 4; 3 # 4; 1 # 5; 2 # 3;
                     1 # 2; 1 # 7; 5 # 7; 1 # 2; 0%Q; 1 # 3] in
  MemoryMatch.icon <$> MemoryMatch.createCards rand 2 = [11; 11; 4; 4]%nat /\
  length (MemoryMatch.createCards rand 2) = 4%nat.
Proof.
  intros rand.
  assert (Hv : validDraws rand).
  { apply validDraws_draws. repeat constructor; discriminate. }
  pose proof (X3_memoryMatch_createCards rand 2 Hv) as H.
  cbv zeta in H. destruct H as [Hl _].
  split; [vm_compute; reflexivity|].
  rewrite Hl. reflexivity.
Defined.
